(* ===== verification/_CoqProject ===== *)
-Q . S2P
Prelude.v
CLib.v
Types.v
MyString.v
Base64.v
Utils.v
Queue.v
Listener.v
BufferedReader.v
Tls.v
Mime.v
World.v
Sample.v
MyNet.v
MyIO.v
Http.v
SendFile.v
Compression.v
Request.v
Auth.v
Provider.v
CacheDir.v
Cgi.v
CgiPipes.v
CgiHeader.v
Configuration.v
CommandLine.v
Webdav.v
Props.v
Server.v
Listing.v
Tree.v
Instance.v
Parse.v
Scripts.v
Worker.v
Total.v
Safety.v
Archive.v
SafetyDav.v
SafetyCgi.v
SafetyRequests.v
Connections.v
TreeLevels.v
Pipeline.v
Startup.v
Descriptors.v
ScriptProcess.v
