(* ===== verification/Prelude.v ===== *)
(** * Verification of the weborf web server (C) : root of the development

    weborf serves the files below a directory over HTTP, with CGI scripts,
    uploads, WebDAV and delegated authentication.  The main thread
    (listener.c) accepts connections, puts the sockets into a bounded queue
    (queue.c) and sizes a pool of threads; a worker ([instance] of instance.c)
    takes a socket, reads requests into one buffer, parses them in place and
    answers them, until the connection ends.  The C code works on raw memory,
    and most of what can go wrong is there, so the memory is explicit here:
    a region is a list of byte values ([bytes]), a pointer into it an index, and
    every read and write outside a region is the result [None].  A theorem
    that a run is [Some _] therefore also says that no access leaves its buffer.
    C integers are [Z] with their conversions written out ([to_u32],
    [to_s32], [to_u64], ... below).

    ** Files, and the code they model

    - Prelude.v (this file): literals, integer conversions, options, lists,
      rewriting bases; CLib.v: loads and stores, [strlen], [strstr], [memmem],
      decimal and hexadecimal printing, [strtol] and [strtoul], as the C
      standard defines them.
    - Types.v: the constants of options.h.in, types.h, instance.h; [stat_t] and
      the record [connection_t] of types.h.
    - MyString.v (mystring.c): [strToUpper], [strReplace], [replaceEscape],
      [endsWith].  Base64.v (base64.c): [decode64].  Utils.v (utils.c):
      [get_param_value], [uri_encode], [html_encode], [list_dir] with its calls
      of [stat] and [malloc].  Mime.v (mime.c): [mime_get_fd].
    - Queue.v (queue.c): [q_init], [q_put], [q_get]; the threads that sleep on
      the condition variable are part of a step relation [qstep].  The class
      [SynQueue] is what the listener relies on, [syn_queue] its instance.
    - Listener.v (listener.c; [t_shape] and the loop of [instance]): the accept
      loop, [init_threads], the shaping of the pool and the turns of a worker,
      as a step relation over any [SynQueue].
    - BufferedReader.v (buffered_reader.c): [buffer_read], [buffer_fill],
      [buffer_strstr].  Tls.v (myio.c, buffered_reader.c): the same reader on a
      descriptor that may have a TLS object, against the interface [Ssl] with
      its laws [SslLaws].
    - World.v: the class [Posix] of everything the handlers call outside the
      program, where every read of a file may fail, and the monad [M F] of the
      handlers, whose state [world F] is
      the connection record, the bytes sent, the reader with the input still to
      come, and the file system.  Sample.v: a concrete file system, with which
      witnesses and examples are evaluated.
    - MyNet.v (mynet.c): the address and port, the text of a client's address.
      MyIO.v (myio.c): [fd_copy], [file_copy], [file_move], [dir_remove],
      [dir_move_copy].  CacheDir.v (cachedir.c): names, lookup and storing of
      cached pages.  Configuration.v (configuration.c): the options of the
      command line, the lists cut in the memory of the arguments, and the
      certificate and key given to OpenSSL; a program that exits is told from
      one that is aborted ([ending]).
      CommandLine.v (configuration.c, utils.c): the table of options, what
      [getopt_long] makes of the arguments, the texts that are printed.
    - Http.v (instance.c): [send_http_header] and [send_error_header].
      SendFile.v (instance.c): [write_file] with ETag and range requests;
      Compression.v: the same through gzip, as __COMPRESSION compiles it.
      Request.v (instance.c): reading a header, [modURL], the request line and
      the request body.  Auth.v (auth.c): the request to the authentication
      program.  Cgi.v (cgi.c): the environment of a script, the program
      executed, the response made of its output.  CgiPipes.v (cgi.c): the
      worker, its client and all processes that hold the pipes of a script as a
      step relation, where a program may run for ever, fork, write without end
      or give up its alarm;
      CgiHeader.v (cgi.c): the lines of the header as variables.
      Webdav.v (webdav.c): PROPFIND, MKCOL, COPY, MOVE.  Props.v (webdav.c):
      what is found in the body of a PROPFIND.
    - Server.v (instance.c): [send_page], which composes the handlers above
      (GET and POST, PUT, DELETE, OPTIONS, WebDAV), and [handle_requests].
      Listing.v (instance.c, cachedir.c): pages of directories and their cache.
      Tree.v (myio.c, instance.c): DELETE and COPY of directory trees, proved
      against the interface [TreeFS] of file systems that are trees, whose
      instance is a concrete one.
    - Instance.v (instance.c): one worker over many connections; Parse.v: what
      the parser and the authentication make of any request whatsoever,
      compared with a reference parser of its text; Scripts.v: which pages
      are scripts, and their environment for any request; Pipeline.v:
      requests that follow each other on one; Worker.v: [instance] from its
      first allocation to its last release, and [inetd].
    - Archive.v (instance.c): what [tar_send_dir] answers.
    - Total.v: a weakest precondition for the monad of the handlers; Safety.v
      (instance.c, webdav.c, myio.c), SafetyDav.v (PROPFIND), SafetyCgi.v
      (scripts) and SafetyRequests.v (the dispatch): every handler ends within
      memory, whatever was sent; Connections.v: hence every connection, and a
      worker outlives its clients.  TreeLevels.v: the directories of a tree can be
      deleted.
    - Provider.v (examples/*.c, embedded_auth.h): the authentication programs
      of the repository, and what they answer.  Startup.v (listener.c, mynet.c,
      utils.c): [main] up to its loop, as a trace of system calls, or with -T to
      the end of [inetd], which is the one of Worker.v.
    - Descriptors.v: the calls of [open] and [close] of all handlers over the
      table of descriptors that the threads share.  It is a second view of
      functions modelled in full elsewhere, whose branches are chosen by an
      argument, and counts what each outcome leaks.  ScriptProcess.v (cgi.c): the descriptors of a script and what they
      name, and [exec_page] with the failures around a script.

    ** What the theorems show

    - Access control: [send_page_unauthorized], [send_page_guarded],
      [auth_fails_closed], [requests_checked] (also [auth_check_basic]),
      [auth_dav_accepts], [modURL_confines]: a refused request changes no file,
      writing methods need a provider, what the provider is told and what the
      sample one makes of it, and that a page has no "../" left.  The first two
      state the response as bytes ([answered]): what was sent is a beginning of
      the literal 401 or 403 and its page, all of it when there is memory and
      the client reads.
    - Memory and termination of everything together: [connection_served], and
      [worker_survives] for a worker: no client makes the server leave its
      memory or hang, in any configuration, but for requests that are named in
      the hypothesis [manageable], and a socket whose path fits its address
      ([socket_fits], which [long_socket_overruns] shows to be needed).  It rests on the [total] lemmas of Safety.v
      and its companions, one for each handler.
    - Requests: [requests_parsed], [buffer_read_refines_stream],
      [get_param_value_finds], [props_parsed], [header_variables] (also
      [read_request_exact], [read_header_safe], [replaceEscape_decodes],
      [get_param_value_total]): a header is read exactly, whatever the pieces in
      which it arrives, and nothing of it is looked up outside the buffer; so is
      the body of a PROPFIND.  [tls_reads_stream]: as well through TLS, for
      records that fit.  [pipelined_gets] puts these parts together for a
      whole connection, with the answers 200, 206, 304, 404 and 416.
    - Concurrency: [queue_refines_fifo], [queue_no_lost_wakeup]
      (also [queue_delivers_in_order]) for every interleaving of producers and consumers;
      [pool_bounded] and [connections_accounted] for every interleaving of the
      listener and its workers; [instance_refines_thread]: the code of a worker
      is a thread of that pool; [connections_isolated] for what a connection
      could see of an earlier one; [descriptors_kept] for the table of
      descriptors, with the leaks of each outcome counted; [script_awaited] for
      every interleaving of a worker, its client, its script and the alarms that
      is fair to all but the script; [script_streams]: what the descriptors of a script name;
      [exec_page_refined]: the failures around a script change nothing but
      what they must.
    - Responses: [write_file_range], [check_etag_own_tag], [scripts_chosen],
      [listing_cached], [cgi_output_sent], [propfind_answer]: the exact bytes
      sent; also [send_page_get], [write_file_whole], [send_http_header_exact],
      [get_or_post_index], [compressed_file_sent], [archive_sent].
    - Changes of files: [read_file_exact], [file_move_keeps_data],
      [copy_move_file], [delete_file_tree], [copy_move_tree]; what a failed
      read does to them is in [file_move_loses_data] and
      [copy_reports_truncated]; also [cache_store_whole], [cached_filename_injective].
    - Encodings and escaping: [decode64_encode], [list_dir_complete],
      [cgi_environ_confined]; also [uri_encode_roundtrip],
      [escape_uri_roundtrip], [html_encode_inert].
    - Start: [command_line_read], [configuration_load_sound],
      [main_drops_privileges]; also [help_complete], [capabilities_read],
      [configuration_set_cgi_items], [virtualhost_found],
      [net_bind_and_listen_port], [main_sets_signals].
    - Places where the code leaves its buffers or does not do what it means to
      are lemmas and examples beside these ([escape_uri_overflows],
      [list_dir_overruns], [cgi_long_header_overreads],
      [copy_move_overwrite_refused], [read_file_never_ends],
      [long_request_overreads], [move_leaves_basedir], [page_forges_lines], [empty_credentials_read_stack],
      [dir_remove_endless], [copy_into_itself], [instance_frees_garbage], [auth_down_leaks],
      [propfind_of_file_closes_other], [index_overruns],
      [script_blocks_worker], [orphan_blocks_worker], [file_move_loses_data],
      [copy_reports_truncated], [missing_basedir_accepted],
      [inetd_keeps_privileges], [client_sets_proxy], [list_entry_no_memory],
      [tls_record_withheld], [key_letter_refused],
      [programs_stopped], [decoded_script_missed], [propfind_body_overreads], [broken_output_endless],
      [script_keeps_connections], [hidden_errors_number], ...), and the
      theorems have the hypotheses that exclude them.

    ** Bounds and fuel

    - Loops over memory ([strReplace], [decode64], [split_props], ...) get the
      length of the memory, or of what is left of it, as fuel: each turn
      consumes a byte, and a theorem that the result is [Some _] shows that the
      fuel was enough.  Digits get more fuel than a 64-bit number has.
    - [read_header] gets [INBUFFER] turns (1024), since every turn stores a
      byte or returns; [read_header_safe] is proved for all inputs.
    - [buffer_read] gets the count asked for and what is left of the buffer.
      Copies of descriptors get the length of what is left to read.
    - The loop of an upload and of [handle_requests] may go on for ever when the
      client sends for ever; [turns] is a parameter of these definitions, and
      the theorems say how many turns are enough ([read_file_exact],
      [send_page_get]; one more than there are requests in [pipelined_gets]) or
      hold for all of them.  [depth] bounds the recursion over directory trees
      in the same way; [delete_file_tree] and [copy_move_tree] show that
      [PATH_LEN] levels are always enough for a tree whose paths fit.  In
      [connection_served] more turns than the client sends bytes are enough, and
      [depth] bounds the levels of a directory that is deleted ([tree_levels]).
    - The step relations have no fuel.  The runs of [script_awaited] are
      infinite sequences of states, where nothing may happen for a while, and
      the fairness of worker, client and alarms is a hypothesis on them.  The
      size of a pipe is a parameter.

    ** Outside the model

    - Parameters ([Posix]): [malloc] may fail, [open], [stat], [read], [rename]
      and the like on an abstract file system type ([px_read_error] says
      whether the reads of a file come to an error), the connection to the
      authentication program, the output of a child process, libmagic.  The
      class has no laws; a theorem names what it needs ([mem_ok],
      [client_reads], [copy_ready], the laws of [TreeFS], ...) and its witness
      shows it on Sample.v or on the file system of Tree.v.  The handlers
      read from a plain socket; Tls.v says when TLS makes no difference.  The
      names that [scandir] gives, and [stat] of each, are parameters as well;
      what OpenSSL answers is [ssl_env], what a system call of the start
      answers [start_env].
    - Not modelled: logging; memory and threads of third-party libraries.  In
      ScriptProcess.v a write of -1 bytes fails with -1, as the kernel answers
      a count above SSIZE_MAX.  [getopt_long] is the one of the GNU C library, without
      POSIXLY_CORRECT.  The GUI, service scripts and tests of the repository.

    ** What is left

    All the C of the repository is modelled.  Left out of the composed theorems:
    in [connection_served], COPY and MOVE of directories, which end when
    the file system is a tree and the destination is not inside the source
    ([copy_move_tree], over the laws of [TreeFS], which [Posix] does not
    have; [copy_into_itself] is the other case); in [pipelined_gets], requests
    other than GET of files.  Not modelled at all, since it is not C
    of the server: the Python GUI, the sample authentication programs in other
    languages, service scripts, tests and packaging. *)
From stdpp Require Export base numbers list option sets.
From Stdlib Require Export ZArith Lia.
From Stdlib Require Ascii String.
Export (notations) Ascii String.

(** ** Bytes and string literals *)

(** A memory region of the program, or the contents of a C string: a list of
    byte values in [0, 256). *)
Abbreviation bytes := (list Z).

(** Code of a character, and of a string literal. *)
Definition Z_of_char (a : Ascii.ascii) : Z := Z.of_N (Ascii.N_of_ascii a).

Fixpoint bytes_of_string (s : String.string) : list Z :=
  match s with
  | String.EmptyString => []
  | String.String a s' => Z_of_char a :: bytes_of_string s'
  end.

Declare Scope weborf_scope.
Delimit Scope weborf_scope with weborf.

(** [chr "x"] is the numeral of a character constant and [bs "abc"] the byte
    list of a string literal; both are evaluated when the term is read. *)
Notation "'chr' a" :=
  (ltac:(let v := eval vm_compute in (Z_of_char a%char) in exact v))
  (at level 9, a at level 0, only parsing) : weborf_scope.
Notation "'bs' s" :=
  (ltac:(let v := eval vm_compute in (bytes_of_string s%string) in exact v))
  (at level 9, s at level 0, only parsing) : weborf_scope.

Open Scope Z_scope.
Open Scope weborf_scope.

(** Line ends and quotes have no escape in literals. *)
Definition CR : Z := 13.
Definition LF : Z := 10.
Definition CRLF : bytes := [13; 10].
Definition QUOTE : bytes := [34].

Definition is_byte (b : Z) : Prop := 0 <= b < 256.

(** ** C integers: conversions written out with their wrap-around *)

(** Conversion to an unsigned integer of [w] bits. *)
Definition to_u (w : Z) (z : Z) : Z := z mod 2 ^ w.

(** Conversion to a two's complement integer of [w] bits. *)
Definition to_s (w : Z) (z : Z) : Z :=
  let u := z mod 2 ^ w in if u <? 2 ^ (w - 1) then u else u - 2 ^ w.

Abbreviation to_char := (to_u 8).
Abbreviation schar := (to_s 8).
Abbreviation to_u32 := (to_u 32).
Abbreviation to_s32 := (to_s 32).
Abbreviation to_u64 := (to_u 64).
Abbreviation to_s64 := (to_s 64).

(** ** Sub-strings *)

(** [starts_with n h]: the string [h] begins with [n]. *)
Fixpoint starts_with (needle hay : bytes) : bool :=
  match needle, hay with
  | [], _ => true
  | _ :: _, [] => false
  | n :: ns, h :: hs => (n =? h) && starts_with ns hs
  end.

(** Index of the first occurrence of [needle] in [hay]. *)
Fixpoint find_sub (needle hay : bytes) : option nat :=
  if starts_with needle hay then Some 0%nat
  else match hay with
       | [] => None
       | _ :: hs => S <$> find_sub needle hs
       end.

Definition contains (needle hay : bytes) : Prop :=
  exists a b, hay = a ++ needle ++ b.

(** First index holding the byte [c]. *)
Fixpoint find_byte (c : Z) (l : bytes) : option nat :=
  match l with
  | [] => None
  | x :: l' => if x =? c then Some 0%nat else S <$> find_byte c l'
  end.

(** The bytes before the first NUL, whether or not there is one. *)
Fixpoint cstr_prefix (l : bytes) : bytes :=
  match l with
  | [] => []
  | x :: l' => if x =? 0 then [] else x :: cstr_prefix l'
  end.

(** ** Tactics *)

(** Case analysis on the boolean tests of a goal, keeping their meaning. *)
Ltac btest :=
  repeat match goal with
  | |- context [Z.eqb ?a ?b] => destruct (Z.eqb_spec a b)
  | |- context [Z.leb ?a ?b] => destruct (Z.leb_spec a b)
  | |- context [Z.ltb ?a ?b] => destruct (Z.ltb_spec a b)
  | |- context [Nat.eqb ?a ?b] => destruct (Nat.eqb_spec a b)
  | |- context [Nat.leb ?a ?b] => destruct (Nat.leb_spec a b)
  | |- context [Nat.ltb ?a ?b] => destruct (Nat.ltb_spec a b)
  end.

(** Closes a closed decidable statement by computing its decision. *)
Ltac by_decision := apply (bool_decide_unpack _); vm_compute; exact I.

(** Normalises lengths of lists and calls [lia]. *)
Ltac len :=
  repeat (rewrite ?length_app, ?length_take, ?length_drop, ?length_replicate,
          ?length_insert, ?length_cons, ?length_nil, ?length_fmap in * );
  simpl in *; lia.

(** ** Lemmas on C integers *)

Lemma to_u_range w z : 0 <= w -> 0 <= to_u w z < 2 ^ w.
Proof. intros. apply Z.mod_pos_bound. lia. Qed.

Lemma to_u_small w z : 0 <= z < 2 ^ w -> to_u w z = z.
Proof. apply Z.mod_small. Qed.

Lemma to_u_idem w z : 0 <= w -> to_u w (to_u w z) = to_u w z.
Proof. intros. apply to_u_small. by apply to_u_range. Qed.

Lemma pow2_split w : 0 < w -> 2 ^ w = 2 * 2 ^ (w - 1).
Proof. intros. rewrite <-Z.pow_succ_r by lia. f_equal. lia. Qed.

Lemma to_s_range w z : 0 < w -> - 2 ^ (w - 1) <= to_s w z < 2 ^ (w - 1).
Proof.
  intros Hw. unfold to_s. pose proof (pow2_split w Hw).
  pose proof (to_u_range w z ltac:(lia)) as Hu. unfold to_u in Hu.
  generalize dependent (z mod 2 ^ w). intros u. btest; lia.
Qed.

Lemma to_s_small w z : 0 < w -> 0 <= z < 2 ^ (w - 1) -> to_s w z = z.
Proof.
  intros Hw Hz. unfold to_s. pose proof (pow2_split w Hw).
  rewrite Z.mod_small by lia. btest; lia.
Qed.

Lemma to_char_range z : is_byte (to_char z).
Proof. apply (to_u_range 8). lia. Qed.

(** ** Finite checks *)

(** The numbers from 0 to [n - 1]: a statement on small numbers is decided by
    evaluating a boolean test on all of them. *)
Definition below (n : nat) : list Z := map Z.of_nat (seq 0 n).

Lemma elem_of_below n z : 0 <= z < Z.of_nat n -> In z (below n).
Proof.
  intros H. unfold below. apply in_map_iff. exists (Z.to_nat z).
  split; [lia|]. apply in_seq. lia.
Qed.

Lemma check_below n (f : Z -> bool) :
  forallb f (below n) = true -> forall z, 0 <= z < Z.of_nat n -> f z = true.
Proof. intros H z Hz. rewrite forallb_forall in H. by apply H, elem_of_below. Qed.

Lemma check_below2 n k (f : Z -> Z -> bool) :
  forallb (fun x => forallb (f x) (below k)) (below n) = true ->
  forall x y, 0 <= x < Z.of_nat n -> 0 <= y < Z.of_nat k -> f x y = true.
Proof.
  intros H x y Hx Hy. apply (check_below k); [|done].
  by apply (check_below n (fun x => forallb (f x) (below k))).
Qed.

(** ** Lemmas on sub-strings *)

Lemma starts_with_spec n h : starts_with n h = true <-> exists t, h = n ++ t.
Proof.
  revert h. induction n as [|x n IH]; intros h; simpl.
  - split; [intros _; by exists h | done].
  - destruct h as [|y h]; [split; [done | by intros [t ?]]|].
    rewrite andb_true_iff, Z.eqb_eq, IH. split.
    + intros [-> [t ->]]. by exists t.
    + intros [t [= -> ->]]. eauto.
Qed.

Lemma starts_with_app n t : starts_with n (n ++ t) = true.
Proof. apply starts_with_spec. eauto. Qed.

Lemma find_sub_unfold n h :
  find_sub n h = if starts_with n h then Some 0%nat
                 else match h with [] => None | _ :: hs => S <$> find_sub n hs end.
Proof. destruct h; reflexivity. Qed.

Lemma find_sub_Some n h i :
  find_sub n h = Some i ->
  h = take i h ++ n ++ drop (i + length n) h
  /\ forall j, (j < i)%nat -> starts_with n (drop j h) = false.
Proof.
  revert i. induction h as [|x h IH]; intros i; rewrite find_sub_unfold.
  - destruct (starts_with n []) eqn:E; [|done]. intros [= <-].
    apply starts_with_spec in E as [t E]. destruct n; [|done]. split; [done | lia].
  - destruct (starts_with n (x :: h)) eqn:E.
    + intros [= <-]. split; [|lia]. apply starts_with_spec in E as [t E].
      rewrite E, take_0, Nat.add_0_l, drop_app_length. done.
    + destruct (find_sub n h) as [k|]; [|done]. intros [= <-].
      destruct (IH k eq_refl) as [H1 H2]. split.
      * rewrite Nat.add_succ_l. simpl. by f_equal.
      * intros [|j] Hj; [exact E | apply H2; lia].
Qed.

Lemma find_sub_bound n h i :
  find_sub n h = Some i -> (i + length n <= length h)%nat.
Proof.
  revert i. induction h as [|x h IH]; intros i; rewrite find_sub_unfold.
  - destruct (starts_with n []) eqn:E; [|done]. intros [= <-].
    apply starts_with_spec in E as [t E]. by destruct n.
  - destruct (starts_with n (x :: h)) eqn:E.
    + intros [= <-]. apply starts_with_spec in E as [t ->]. rewrite length_app. lia.
    + destruct (find_sub n h) as [k|]; [|done]. intros [= <-].
      specialize (IH k eq_refl). simpl. lia.
Qed.

Lemma contains_starts n h : starts_with n h = true -> contains n h.
Proof. intros [t ->]%starts_with_spec. by exists [], t. Qed.

Lemma contains_cons n x h :
  contains n (x :: h) <-> starts_with n (x :: h) = true \/ contains n h.
Proof.
  split.
  - intros (a & b & H). destruct a as [|y a]; simpl in H.
    + left. apply starts_with_spec. eauto.
    + injection H as -> ->. right. by exists a, b.
  - intros [H | (a & b & ->)]; [by apply contains_starts | by exists (x :: a), b].
Qed.

Lemma contains_nil n : contains n [] <-> n = [].
Proof.
  split; [intros (a & b & H) | intros ->; by exists [], []].
  symmetry in H. apply app_eq_nil in H as [_ H]. by apply app_eq_nil in H as [-> _].
Qed.

Lemma find_sub_None n h : find_sub n h = None <-> ~ contains n h.
Proof.
  induction h as [|x h IH]; rewrite find_sub_unfold.
  - rewrite contains_nil. destruct n; simpl; naive_solver.
  - rewrite contains_cons. destruct (starts_with n (x :: h)); [naive_solver|].
    destruct (find_sub n h); simpl; naive_solver.
Qed.

Lemma find_sub_is_Some n h : is_Some (find_sub n h) <-> contains n h.
Proof.
  induction h as [|x h IH]; rewrite find_sub_unfold.
  - rewrite contains_nil. destruct n; simpl; naive_solver.
  - rewrite contains_cons, <-IH. destruct (starts_with n (x :: h)); [naive_solver|].
    rewrite fmap_is_Some. naive_solver.
Qed.

(** The text before the first occurrence does not contain the needle. *)
Lemma find_sub_before n h i :
  n <> [] -> find_sub n h = Some i -> ~ contains n (take i h).
Proof.
  intros Hn H (a & b & Hc).
  pose proof (find_sub_bound _ _ _ H) as Hb.
  apply find_sub_Some in H as [_ H].
  assert (length a < i)%nat as Hlt.
  { apply (f_equal length) in Hc. rewrite length_take, !length_app in Hc.
    destruct n; [done|]. simpl in *. lia. }
  specialize (H (length a) Hlt).
  rewrite <-(take_drop i h), Hc, <-app_assoc, drop_app_length, <-app_assoc,
    starts_with_app in H. done.
Qed.

Lemma find_sub_app_first n a b :
  (forall j, (j < length a)%nat -> starts_with n (drop j (a ++ n ++ b)) = false) ->
  find_sub n (a ++ n ++ b) = Some (length a).
Proof.
  induction a as [|x a IH]; intros H.
  - simpl. by rewrite find_sub_unfold, starts_with_app.
  - cbn [app]. rewrite find_sub_unfold. pose proof (H 0%nat ltac:(simpl; lia)) as H0. cbn [drop app] in H0.
    rewrite H0. simpl. rewrite IH; [done|]. intros j Hj. apply (H (S j)). simpl. lia.
Qed.

Lemma find_sub_single c h :
  find_sub [c] h = find_byte c h.
Proof.
  induction h as [|x h IH]; [done|]. rewrite find_sub_unfold. simpl.
  rewrite andb_true_r, Z.eqb_sym, IH. done.
Qed.

Lemma find_byte_Some c l i :
  find_byte c l = Some i ->
  l = take i l ++ c :: drop (S i) l /\ c ∉ take i l.
Proof.
  revert i. induction l as [|x l IH]; intros i; simpl; [done|].
  destruct (Z.eqb_spec x c) as [->|Hx].
  - intros [= <-]. simpl. rewrite drop_0. split; [done | apply not_elem_of_nil].
  - destruct (find_byte c l) as [k|]; [|done]. intros [= <-].
    destruct (IH k eq_refl) as [H1 H2]. simpl. split; [by f_equal|].
    rewrite elem_of_cons. naive_solver.
Qed.

Lemma find_byte_None c l : find_byte c l = None <-> c ∉ l.
Proof.
  induction l as [|x l IH]; simpl.
  - split; [intros _; apply not_elem_of_nil | done].
  - rewrite elem_of_cons. destruct (Z.eqb_spec x c); [naive_solver|].
    destruct (find_byte c l); simpl; naive_solver.
Qed.

Lemma find_byte_app c a b : c ∉ a -> find_byte c (a ++ c :: b) = Some (length a).
Proof.
  induction a as [|x a IH]; simpl; [by rewrite Z.eqb_refl|].
  rewrite elem_of_cons. intros H. destruct (Z.eqb_spec x c); [naive_solver|].
  by rewrite IH by naive_solver.
Qed.

Lemma starts_with_take n h k :
  starts_with n (take k h) = starts_with n h && (length n <=? k)%nat.
Proof.
  revert h k. induction n as [|x n IH]; intros h k; [by rewrite andb_true_r|].
  destruct h as [|y h]; [by rewrite take_nil|]. destruct k as [|k]; simpl; [by rewrite andb_false_r|].
  by rewrite IH, andb_assoc.
Qed.

Lemma find_sub_at n h i : find_sub n h = Some i -> starts_with n (drop i h) = true.
Proof.
  intros E. pose proof (find_sub_bound _ _ _ E). apply find_sub_Some in E as [E _].
  rewrite E, drop_app_length' by (rewrite length_take; lia). apply starts_with_app.
Qed.

Lemma starts_with_app_l n h t : starts_with n h = true -> starts_with n (h ++ t) = true.
Proof. intros [u ->]%starts_with_spec. rewrite <-app_assoc. apply starts_with_app. Qed.

Lemma find_sub_first n h i :
  (i <= length h)%nat -> starts_with n (drop i h) = true ->
  (forall j, (j < i)%nat -> starts_with n (drop j h) = false) -> find_sub n h = Some i.
Proof.
  revert i. induction h as [|x h IH]; intros i Hi Hs Hj; rewrite find_sub_unfold.
  - destruct i; [|simpl in *; lia]. simpl in Hs. by rewrite Hs.
  - destruct i as [|i]; [simpl in Hs; by rewrite Hs|].
    pose proof (Hj 0%nat ltac:(lia)) as H0. simpl in H0. rewrite H0.
    rewrite (IH i); [done | simpl in *; lia | done |]. intros j Hj'. apply (Hj (S j)). lia.
Qed.

Lemma find_sub_app_l n h t i : find_sub n h = Some i -> find_sub n (h ++ t) = Some i.
Proof.
  intros E. pose proof (find_sub_bound _ _ _ E) as Hb. pose proof (find_sub_at _ _ _ E) as Hs.
  apply find_sub_Some in E as [_ Hj]. apply find_sub_first.
  - rewrite length_app. lia.
  - rewrite drop_app_le by lia. by apply starts_with_app_l.
  - intros j Hji. specialize (Hj j Hji).
    rewrite <-(take_app_length h t) in Hj at 1. rewrite skipn_firstn_comm, starts_with_take in Hj.
    destruct (Nat.leb_spec (length n) (length h - j)); [by rewrite andb_true_r in Hj | lia].
Qed.

Lemma find_sub_none n h :
  (forall j, (j <= length h)%nat -> starts_with n (drop j h) = false) -> find_sub n h = None.
Proof.
  intros H. destruct (find_sub n h) as [i|] eqn:E; [|done].
  pose proof (find_sub_bound _ _ _ E). apply find_sub_Some in E as [E _].
  specialize (H i ltac:(lia)). rewrite E, drop_app_length' in H by (rewrite length_take; lia).
  by rewrite starts_with_app in H.
Qed.

(** Looking for the first occurrence in a window of the text that starts before it. *)
Lemma find_sub_window n h i from k :
  find_sub n h = Some i -> (from <= i)%nat -> n <> [] ->
  find_sub n (drop from (take k h)) = if (i + length n <=? k)%nat then Some (i - from)%nat else None.
Proof.
  intros E Hf Hn. pose proof (find_sub_bound _ _ _ E) as Hb.
  apply find_sub_Some in E as [E Hj].
  assert (starts_with n (drop i h) = true) as Hs
    by (rewrite E, drop_app_length' by (rewrite length_take; lia); apply starts_with_app).
  assert (length n <> 0%nat) as Ln by (by destruct n).
  assert (forall j, starts_with n (drop j (drop from (take k h)))
                    = starts_with n (drop (from + j) h) && (length n <=? k - (from + j))%nat) as Hw
    by (intros j; rewrite drop_drop, skipn_firstn_comm, starts_with_take; done).
  destruct (Nat.leb_spec (i + length n) k).
  - apply find_sub_first; [rewrite length_drop, length_take; lia | |].
    + rewrite Hw. replace (from + (i - from))%nat with i by lia. rewrite Hs.
      by destruct (Nat.leb_spec (length n) (k - i)); [|lia].
    + intros j Hji. rewrite Hw, Hj by lia. done.
  - apply find_sub_none. intros j _. rewrite Hw.
    destruct (Nat.leb_spec (length n) (k - (from + j))); [|by rewrite andb_false_r].
    by rewrite Hj by lia.
Qed.

(** ** Lemmas on C strings *)

Lemma cstr_prefix_nonul s : 0 ∉ s -> cstr_prefix s = s.
Proof.
  induction s as [|x s IH]; [done|]. rewrite elem_of_cons. simpl. intros H.
  btest; [naive_solver|]. f_equal. apply IH. naive_solver.
Qed.

Lemma length_cstr_prefix s : (length (cstr_prefix s) <= length s)%nat.
Proof. induction s as [|x s IH]; cbn [cstr_prefix]; [done|]. destruct (x =? 0); cbn [length]; lia. Qed.

Lemma cstr_prefix_app_nul s t : cstr_prefix (s ++ 0 :: t) = cstr_prefix s.
Proof. induction s as [|x s IH]; [done|]. cbn [app cstr_prefix]. by rewrite IH. Qed.

Lemma cstr_prefix_app s t : 0 ∉ s -> cstr_prefix (s ++ 0 :: t) = s.
Proof.
  induction s as [|x s IH]; [done|]. rewrite elem_of_cons. simpl. intros H.
  btest; [naive_solver|]. f_equal. apply IH. naive_solver.
Qed.

Lemma cstr_prefix_clean l : 0 ∉ cstr_prefix l.
Proof.
  induction l as [|x l IH]; simpl; [apply not_elem_of_nil|].
  btest; [apply not_elem_of_nil|]. rewrite elem_of_cons. naive_solver.
Qed.

Lemma cstr_prefix_split l :
  cstr_prefix l = l \/ exists t, l = cstr_prefix l ++ 0 :: t.
Proof.
  induction l as [|x l IH]; simpl; [by left|].
  btest; [right; subst; by exists l|].
  destruct IH as [-> | [t Ht]]; [by left|]. right. exists t. simpl. by rewrite <-Ht.
Qed.

Lemma cstr_prefix_contains n l : contains n (cstr_prefix l) -> contains n l.
Proof.
  intros (a & b & H). destruct (cstr_prefix_split l) as [E | [t E]].
  - rewrite <-E. by exists a, b.
  - rewrite E, H. exists a, (b ++ 0 :: t). by rewrite <-!app_assoc.
Qed.

Create HintDb weborf.
Create Rewrite HintDb weborf.
#[export] Hint Resolve cstr_prefix_clean to_char_range starts_with_app : weborf.
#[export] Hint Rewrite starts_with_app cstr_prefix_app cstr_prefix_nonul
  using done : weborf.
