(* ===== verification/CLib.v ===== *)
(** * The C library routines the server calls

    A region of memory is a byte list, a pointer into it an index.  Every
    access outside the region (undefined behaviour in C) is [None], so a
    result [Some _] says that the routine stayed in bounds.  The string
    routines, [strtol] and its variants, the decimal conversions of [printf]
    and [strtok_r] are written here after their C and POSIX descriptions; they
    are the vocabulary of the files that model the program. *)
From S2P Require Export Prelude.

(** ** Memory *)

Definition load (m : bytes) (p : nat) : option Z := m !! p.

Definition store (m : bytes) (p : nat) (v : Z) : option bytes :=
  if (p <? length m)%nat then Some (<[p := to_char v]> m) else None.

Definition memmove (m : bytes) (dst src n : nat) : option bytes :=
  if (dst + n <=? length m)%nat && (src + n <=? length m)%nat
  then Some (take dst m ++ take n (drop src m) ++ drop (dst + n) m) else None.

(** [memcpy] of bytes that come from another region. *)
Definition write_at (m : bytes) (p : nat) (s : bytes) : option bytes :=
  if (p + length s <=? length m)%nat
  then Some (take p m ++ s ++ drop (p + length s) m) else None.

(** [snprintf] of an already formatted string: at most [n - 1] bytes and a NUL
    are written, the untruncated length is returned. *)
Definition snprintf (m : bytes) (p n : nat) (s : bytes) : option (bytes * Z) :=
  match n with
  | O => Some (m, Z.of_nat (length s))
  | S n' => m' ← write_at m p (take n' s ++ [0]); Some (m', Z.of_nat (length s))
  end.

(** The [n] bytes at [p]. *)
Definition load_n (m : bytes) (p n : nat) : option bytes :=
  if (p + n <=? length m)%nat then Some (take n (drop p m)) else None.

(** ** Strings *)

(** The string at [p]; [None] when no NUL follows. *)
Definition cstr_at (m : bytes) (p : nat) : option bytes :=
  n ← find_byte 0 (drop p m); Some (take n (drop p m)).

Definition strlen (m : bytes) (p : nat) : option nat := length <$> cstr_at m p.

Definition strstr (m : bytes) (p : nat) (needle : bytes) : option (option nat) :=
  s ← cstr_at m p; Some (Nat.add p <$> find_sub needle s).

(** [strcmp(..) == 0] against a string of another region. *)
Definition streq (m : bytes) (p : nat) (t : bytes) : option bool :=
  s ← cstr_at m p; Some (bool_decide (s = t)).

Definition toupper (c : Z) : Z := if (97 <=? c) && (c <=? 122) then c - 32 else c.

(** Number of leading bytes that satisfy [f]. *)
Fixpoint span_len (f : Z -> bool) (l : bytes) : nat :=
  match l with
  | [] => 0
  | x :: l' => if f x then S (span_len f l') else 0
  end.

Definition in_set (d : bytes) (c : Z) : bool := existsb (Z.eqb c) d.

(** [strtok_r] from pointer [p] (the caller's string or the saved pointer):
    the new memory, the token and the saved pointer. *)
Definition strtok_r (m : bytes) (p : nat) (d : bytes)
    : option (bytes * option nat * nat) :=
  s ← cstr_at m p;
  let k := span_len (in_set d) s in
  let tok := drop k s in
  match tok with
  | [] => Some (m, None, (p + k)%nat)
  | _ =>
      let e := span_len (fun c => negb (in_set d c)) tok in
      if (e =? length tok)%nat then Some (m, Some (p + k)%nat, (p + k + e)%nat)
      else m' ← store m (p + k + e) 0;
           Some (m', Some (p + k)%nat, (p + k + e + 1)%nat)
  end.

(** ** Numbers *)

Definition isspace (c : Z) : bool := (c =? 32) || ((9 <=? c) && (c <=? 13)).

(** Value of a digit in bases up to 36; 99 for any other character. *)
Definition digit_val (c : Z) : Z :=
  if (48 <=? c) && (c <=? 57) then c - 48
  else if (97 <=? c) && (c <=? 122) then c - 87
  else if (65 <=? c) && (c <=? 90) then c - 55
  else 99.

Fixpoint digits_val (base acc : Z) (s : bytes) : Z :=
  match s with
  | [] => acc
  | c :: s' => if digit_val c <? base
               then digits_val base (acc * base + digit_val c) s' else acc
  end.

(** A hexadecimal prefix: 0x followed by a hexadecimal digit. *)
Definition hex_prefix (s : bytes) : bool :=
  match s with
  | z :: x :: d :: _ =>
      (z =? 48) && ((x =? 120) || (x =? 88)) && (digit_val d <? 16)
  | _ => false
  end.

(** The base that is used and the text after its prefix. *)
Definition number_base (base : Z) (s : bytes) : Z * bytes :=
  if base =? 0 then
    if hex_prefix s then (16, drop 2 s)
    else (if head s is Some 48 then 8 else 10, s)
  else if (base =? 16) && hex_prefix s then (16, drop 2 s) else (base, s).

(** Sign and magnitude of the number at the beginning of [s]. *)
Definition parse_number (base : Z) (s : bytes) : bool * Z :=
  let s1 := drop (span_len isspace s) s in
  let '(neg, s2) := match s1 with
                    | c :: r => if c =? 45 then (true, r)
                                else if c =? 43 then (false, r) else (false, s1)
                    | [] => (false, s1)
                    end in
  let '(b, s3) := number_base base s2 in
  (neg, digits_val b 0 s3).

Definition LONG_MAX : Z := 2 ^ 63 - 1.
Definition LONG_MIN : Z := - 2 ^ 63.

(** [strtol] and [strtoll] (64-bit). *)
Definition strtol (s : bytes) (base : Z) : Z :=
  let '(neg, v) := parse_number base s in
  Z.max LONG_MIN (Z.min LONG_MAX (if neg then - v else v)).

(** [strtoul] (64-bit). *)
Definition strtoul (s : bytes) (base : Z) : Z :=
  let '(neg, v) := parse_number base s in
  if 2 ^ 64 <=? v then 2 ^ 64 - 1 else to_u64 (if neg then - v else v).

(** Decimal digits of a non-negative number, most significant first. *)
Fixpoint dec_digits (fuel : nat) (z : Z) (acc : bytes) : bytes :=
  match fuel with
  | O => acc
  | S f => let acc' := (48 + z mod 10) :: acc in
           if z <? 10 then acc' else dec_digits f (z / 10) acc'
  end.

(** [%u], [%lu], [%llu] *)
Definition dec_u (z : Z) : bytes := dec_digits (S (Z.to_nat (Z.log2 z))) z [].

(** [%d], [%ld], [%lld] *)
Definition dec_s (z : Z) : bytes := if z <? 0 then 45 :: dec_u (- z) else dec_u z.

Definition hex_digit (z : Z) : Z := if z <? 10 then 48 + z else 87 + z.

(** [%02x] of a non-negative [int]. *)
Fixpoint hex_digits (fuel : nat) (z : Z) (acc : bytes) : bytes :=
  match fuel with
  | O => acc
  | S f => let acc' := hex_digit (z mod 16) :: acc in
           if z <? 16 then acc' else hex_digits f (z / 16) acc'
  end.

Definition hex02 (z : Z) : bytes :=
  let h := hex_digits 8 z [] in if (length h <? 2)%nat then 48 :: h else h.

(** Runs the next operation of a chain of option-valued steps. *)
Ltac mem_step :=
  unfold load; cbn [mbind option_bind app];
  repeat (progress autorewrite with mem; cbn [mbind option_bind app]).

(** ** Lemmas: memory *)

Lemma lookup_mid {A} (pre : list A) x post :
  (pre ++ x :: post) !! length pre = Some x.
Proof. rewrite lookup_app_r by lia. by rewrite Nat.sub_diag. Qed.

Lemma lookup_mid_eq {A} (pre : list A) x post p :
  p = length pre -> (pre ++ x :: post) !! p = Some x.
Proof. intros ->. apply lookup_mid. Qed.

Lemma store_mid pre x post v :
  store (pre ++ x :: post) (length pre) v = Some (pre ++ to_char v :: post).
Proof.
  unfold store. destruct (Nat.ltb_spec (length pre) (length (pre ++ x :: post))).
  - f_equal. rewrite insert_app_r_alt by lia. by rewrite Nat.sub_diag.
  - rewrite length_app in *. simpl in *. lia.
Qed.

Lemma store_mid_eq pre x post v p :
  p = length pre ->
  store (pre ++ x :: post) p v = Some (pre ++ to_char v :: post).
Proof. intros ->. apply store_mid. Qed.

(** The same at a small offset from [length q]. *)
Lemma lookup_mid1 (q : bytes) x y u : (q ++ x :: y :: u) !! (length q + 1)%nat = Some y.
Proof. rewrite lookup_app_r by lia. by replace (length q + 1 - length q)%nat with 1%nat by lia. Qed.

Lemma lookup_mid2 (q : bytes) x y z u :
  (q ++ x :: y :: z :: u) !! (length q + 2)%nat = Some z.
Proof. rewrite lookup_app_r by lia. by replace (length q + 2 - length q)%nat with 2%nat by lia. Qed.

Lemma lookup_mid3 (q : bytes) x y z w u :
  (q ++ x :: y :: z :: w :: u) !! (length q + 3)%nat = Some w.
Proof. rewrite lookup_app_r by lia. by replace (length q + 3 - length q)%nat with 3%nat by lia. Qed.

Lemma store_mid1 (q : bytes) x y u v :
  store (q ++ x :: y :: u) (length q + 1) v = Some (q ++ x :: to_char v :: u).
Proof.
  replace (q ++ x :: y :: u) with ((q ++ [x]) ++ y :: u) by (by rewrite <-app_assoc).
  rewrite store_mid_eq by (rewrite length_app; simpl; lia). by rewrite <-app_assoc.
Qed.

Lemma store_mid2 (q : bytes) x y z u v :
  store (q ++ x :: y :: z :: u) (length q + 2) v = Some (q ++ x :: y :: to_char v :: u).
Proof.
  replace (q ++ x :: y :: z :: u) with ((q ++ [x; y]) ++ z :: u) by (by rewrite <-app_assoc).
  rewrite store_mid_eq by (rewrite length_app; simpl; lia). by rewrite <-app_assoc.
Qed.

Create Rewrite HintDb mem.
#[export] Hint Rewrite @lookup_mid lookup_mid1 lookup_mid2 lookup_mid3
  store_mid store_mid1 store_mid2 : mem.

Lemma store_length m p v m' : store m p v = Some m' -> length m' = length m.
Proof.
  unfold store. destruct (p <? length m)%nat; [|done]. intros [= <-].
  apply length_insert.
Qed.

Lemma store_Some m p v : (p < length m)%nat -> store m p v = Some (<[p := to_char v]> m).
Proof. intros H. unfold store. apply Nat.ltb_lt in H. by rewrite H. Qed.

(** Deleting [n] bytes: the bytes [t] move down over [d], the last ones stay. *)
Lemma memmove_down pre d t post n k p :
  p = length pre -> n = length d -> k = length t ->
  memmove (pre ++ d ++ t ++ post) p (p + n) k
  = Some (pre ++ t ++ drop k (d ++ t) ++ post).
Proof.
  intros -> -> ->. unfold memmove.
  destruct (Nat.leb_spec (length pre + length t) (length (pre ++ d ++ t ++ post))),
    (Nat.leb_spec (length pre + length d + length t) (length (pre ++ d ++ t ++ post)));
    try (rewrite !length_app in *; lia).
  simpl. f_equal. rewrite take_app_length. f_equal.
  rewrite (app_assoc pre d), <-length_app, drop_app_length, take_app_length. f_equal.
  rewrite <-app_assoc, drop_app_add, (app_assoc d t), drop_app_le; [done|].
  rewrite length_app. lia.
Qed.

Lemma write_at_mid pre old post s :
  length old = length s ->
  write_at (pre ++ old ++ post) (length pre) s = Some (pre ++ s ++ post).
Proof.
  intros H. unfold write_at.
  destruct (Nat.leb_spec (length pre + length s) (length (pre ++ old ++ post)));
    [|rewrite !length_app in *; lia].
  f_equal. rewrite take_app_length. f_equal. f_equal.
  rewrite drop_app_add, <-H, drop_app_length. done.
Qed.

Lemma write_at_length m p s m' : write_at m p s = Some m' -> length m' = length m.
Proof.
  unfold write_at. destruct (Nat.leb_spec (p + length s) (length m)); [|done].
  intros [= <-]. rewrite !length_app, length_take, length_drop. lia.
Qed.

Lemma write_at_Some m p s :
  (p + length s <= length m)%nat ->
  write_at m p s = Some (take p m ++ s ++ drop (p + length s) m).
Proof. intros H. unfold write_at. apply Nat.leb_le in H. by rewrite H. Qed.

Lemma load_n_app pre s post p n :
  p = length pre -> n = length s -> load_n (pre ++ s ++ post) p n = Some s.
Proof.
  intros -> ->. unfold load_n.
  destruct (Nat.leb_spec (length pre + length s) (length (pre ++ s ++ post)));
    [|rewrite !length_app in *; lia].
  by rewrite drop_app_length, take_app_length.
Qed.

Lemma load_n_length m p n s : load_n m p n = Some s -> length s = n.
Proof.
  unfold load_n. destruct (Nat.leb_spec (p + n) (length m)); [|done].
  intros [= <-]. rewrite length_take, length_drop. lia.
Qed.

Lemma snprintf_length m p n s m' r : snprintf m p n s = Some (m', r) -> length m' = length m.
Proof.
  unfold snprintf. destruct n as [|n]; [by intros [= -> _]|].
  destruct (write_at m p _) as [m1|] eqn:E; [|done]. cbn [mbind option_bind].
  intros [= <- _]. by eapply write_at_length.
Qed.

(** A text that fits is written whole, with its NUL. *)
Lemma snprintf_fits m p n s :
  (length s < n)%nat -> (p + length s + 1 <= length m)%nat ->
  snprintf m p n s = Some (take p m ++ s ++ 0 :: drop (p + length s + 1) m, Z.of_nat (length s)).
Proof.
  intros H1 H2. destruct n as [|n]; [lia|]. cbn [snprintf].
  rewrite take_ge by lia. rewrite write_at_Some by (rewrite length_app; simpl; lia).
  cbn [mbind option_bind]. rewrite length_app. cbn [length].
  by rewrite <-!app_assoc, Nat.add_assoc.
Qed.

(** A longer one is cut. *)
Lemma snprintf_cut m p n s :
  (n <= length s)%nat -> (0 < n)%nat -> (p + n <= length m)%nat ->
  snprintf m p n s = Some (take p m ++ take (n - 1) s ++ 0 :: drop (p + n) m, Z.of_nat (length s)).
Proof.
  intros H1 H2 H3. destruct n as [|n]; [lia|]. cbn [snprintf].
  assert (length (take n s) = n) as L by (rewrite length_take; lia).
  rewrite write_at_Some by (rewrite length_app, L; simpl; lia).
  cbn [mbind option_bind]. rewrite length_app, L. cbn [length].
  replace (S n - 1)%nat with n by lia. replace (p + (n + 1))%nat with (p + S n)%nat by lia.
  by rewrite <-!app_assoc.
Qed.

Lemma write_at_None m p s : (length m < p + length s)%nat -> write_at m p s = None.
Proof. intros H. unfold write_at. by destruct (Nat.leb_spec (p + length s) (length m)); [lia|]. Qed.

(** ** Lemmas: strings *)

Lemma cstr_at_app pre s post p :
  p = length pre -> 0 ∉ s -> cstr_at (pre ++ s ++ 0 :: post) p = Some s.
Proof.
  intros -> Hs. unfold cstr_at. rewrite drop_app_length, find_byte_app by done.
  simpl. by rewrite take_app_length.
Qed.

Lemma cstr_at_0 s post : 0 ∉ s -> cstr_at (s ++ 0 :: post) 0 = Some s.
Proof. by apply (cstr_at_app []). Qed.

Lemma cstr_at_Some m p s :
  cstr_at m p = Some s ->
  0 ∉ s /\ exists post, m = take p m ++ s ++ 0 :: post /\ length (take p m) = p.
Proof.
  unfold cstr_at. destruct (find_byte 0 (drop p m)) as [n|] eqn:E; [|done].
  intros [= <-]. apply find_byte_Some in E as [H1 H2]. split; [done|].
  exists (drop (S n) (drop p m)). rewrite <-H1. split; [by rewrite take_drop|].
  rewrite length_take. apply (f_equal length) in H1.
  rewrite length_app, length_cons, length_drop in H1. lia.
Qed.

Lemma cstr_before e m p s : m !! e = Some 0 -> (p <= e)%nat -> cstr_at m p = Some s -> (p + length s <= e)%nat.
Proof.
  intros Hn Hp Hs. destruct (cstr_at_Some _ _ _ Hs) as (H0 & post & Em & Lp).
  destruct (Nat.le_gt_cases (p + length s) e) as [|Hgt]; [done|]. exfalso. apply H0.
  rewrite Em, lookup_app_r, Lp, lookup_app_l in Hn by lia. by eapply list_elem_of_lookup_2.
Qed.

Lemma cstr_at_prefix m p s : cstr_at m p = Some s -> cstr_prefix (drop p m) = s.
Proof.
  intros (H & post & E & L)%cstr_at_Some. rewrite E, <-L at 1.
  by rewrite drop_app_length, cstr_prefix_app.
Qed.

Lemma cstr_at_is_Some pre t post p :
  p = length pre -> 0 ∈ t -> cstr_at (pre ++ t ++ post) p = Some (cstr_prefix t).
Proof.
  intros -> H. destruct (cstr_prefix_split t) as [E | [u E]].
  - exfalso. apply (cstr_prefix_clean t). by rewrite E.
  - rewrite E at 1. rewrite <-app_assoc. apply cstr_at_app; [done | apply cstr_prefix_clean].
Qed.

Lemma strlen_app pre s post p :
  p = length pre -> 0 ∉ s -> strlen (pre ++ s ++ 0 :: post) p = Some (length s).
Proof. intros. unfold strlen. by rewrite cstr_at_app. Qed.

Lemma strstr_app pre s post p needle :
  p = length pre -> 0 ∉ s ->
  strstr (pre ++ s ++ 0 :: post) p needle = Some (Nat.add p <$> find_sub needle s).
Proof. intros. unfold strstr. by rewrite cstr_at_app. Qed.

Lemma span_len_le f l : (span_len f l <= length l)%nat.
Proof. induction l; simpl; [lia|]. destruct (f _); lia. Qed.

Lemma span_len_all f l : Forall (fun c => f c = true) l -> span_len f l = length l.
Proof. induction 1; simpl; [done|]. rewrite H. by f_equal. Qed.

Lemma span_len_app f a r :
  Forall (fun c => f c = true) a -> (forall c r', r = c :: r' -> f c = false) ->
  span_len f (a ++ r) = length a.
Proof.
  intros Ha Hr. induction Ha as [|c a Hc Ha IH]; simpl.
  - destruct r as [|c r']; [done|]. simpl. by rewrite (Hr c r').
  - by rewrite Hc, IH.
Qed.

(** The next token [tok], behind delimiters [a] and ended by the delimiter [c]. *)
Lemma strtok_run pre a tok c rest tail p d :
  p = length pre -> Forall (fun x => in_set d x = true) a -> tok <> [] ->
  Forall (fun x => in_set d x = false) tok -> in_set d c = true ->
  0 ∉ a ++ tok ++ c :: rest ->
  strtok_r (pre ++ a ++ tok ++ c :: rest ++ 0 :: tail) p d
  = Some (pre ++ a ++ tok ++ 0 :: rest ++ 0 :: tail, Some (p + length a)%nat,
          (p + length a + length tok + 1)%nat).
Proof.
  intros -> Ha Hne Ht Hc H0. unfold strtok_r.
  assert (cstr_at (pre ++ a ++ tok ++ c :: rest ++ 0 :: tail) (length pre) = Some (a ++ tok ++ c :: rest)) as Es.
  { replace (a ++ tok ++ c :: rest ++ 0 :: tail) with ((a ++ tok ++ c :: rest) ++ 0 :: tail)
      by (rewrite <-!app_assoc; done). by apply cstr_at_app. }
  rewrite Es. cbn [mbind option_bind].
  assert (span_len (in_set d) (a ++ tok ++ c :: rest) = length a) as ->.
  { apply span_len_app; [done|]. intros x r' E. destruct tok as [|y tok]; [done|].
    injection E as <- _. by inversion Ht. }
  rewrite drop_app_length.
  assert (span_len (fun x => negb (in_set d x)) (tok ++ c :: rest) = length tok) as ->.
  { apply span_len_app; [|by intros x r' [= <- _]; rewrite Hc].
    eapply Forall_impl; [exact Ht|]. intros x Hx. by rewrite Hx. }
  rewrite length_app. cbn [length].
  destruct (Nat.eqb_spec (length tok) (length tok + S (length rest))); [lia|].
  rewrite (app_assoc a), (app_assoc pre), store_mid_eq by (rewrite !length_app; lia).
  destruct tok as [|y tok]; [done|]. cbn [app mbind option_bind]. by rewrite <-!app_assoc.
Qed.

(** ** Lemmas: numbers *)

Definition is_digit (c : Z) : Prop := 48 <= c <= 57.

Lemma digit_val_digit c : is_digit c -> digit_val c = c - 48.
Proof. unfold is_digit, digit_val. intros. btest; simpl; lia. Qed.

Lemma dec_digits_spec fuel z acc :
  0 <= z < 2 ^ Z.of_nat fuel -> (0 < fuel)%nat ->
  exists d, dec_digits fuel z acc = d ++ acc /\ Forall is_digit d /\ d <> []
    /\ (forall a rest, digits_val 10 a (d ++ rest)
                       = digits_val 10 (a * 10 ^ Z.of_nat (length d) + z) rest)
    /\ (z <> 0 -> hd 0 d <> 48).
Proof.
  revert z acc. induction fuel as [|f IH]; intros z acc Hz Hf; [lia|].
  cbn [dec_digits].
  assert (is_digit (48 + z mod 10)) as Hd
    by (unfold is_digit; pose proof (Z.mod_pos_bound z 10); lia).
  destruct (Z.ltb_spec z 10).
  - exists [48 + z mod 10]. rewrite Z.mod_small in * by lia. repeat split; auto.
    + intros a rest. cbn [app digits_val length]. rewrite digit_val_digit by done.
      destruct (Z.ltb_spec (48 + z - 48) 10); [|lia]. f_equal. lia.
    + simpl. lia.
  - assert (0 <= z / 10 < 2 ^ Z.of_nat f).
    { rewrite Nat2Z.inj_succ, Z.pow_succ_r in Hz by lia.
      split; [apply Z.div_pos; lia|]. apply Z.div_lt_upper_bound; lia. }
    assert (0 < f)%nat.
    { destruct f; [|lia]. simpl in *. pose proof (Z.div_str_pos z 10). lia. }
    destruct (IH (z / 10) ((48 + z mod 10) :: acc)) as (d & E & Fd & Nd & V & Hh); auto.
    exists (d ++ [48 + z mod 10]). rewrite E, <-app_assoc. split; [done|].
    split; [apply Forall_app; auto|]. split; [by destruct d|]. split.
    + intros a rest. rewrite <-app_assoc, V. cbn [app digits_val].
      rewrite digit_val_digit by done.
      destruct (Z.ltb_spec (48 + z mod 10 - 48) 10) as [_|?];
        [|pose proof (Z.mod_pos_bound z 10); lia].
      f_equal. rewrite length_app, Nat2Z.inj_add, Z.pow_add_r by lia. simpl.
      pose proof (Z.div_mod z 10). lia.
    + intros _. assert (z / 10 <> 0) by (pose proof (Z.div_str_pos z 10); lia).
      destruct d; [done|]. simpl in *. auto.
Qed.

Lemma dec_u_spec z :
  0 <= z -> Forall is_digit (dec_u z) /\ dec_u z <> []
    /\ (forall a rest, digits_val 10 a (dec_u z ++ rest)
          = digits_val 10 (a * 10 ^ Z.of_nat (length (dec_u z)) + z) rest)
    /\ (z <> 0 -> hd 0 (dec_u z) <> 48).
Proof.
  intros Hz. unfold dec_u.
  destruct (dec_digits_spec (S (Z.to_nat (Z.log2 z))) z []) as (d & E & H); [|lia|].
  - rewrite Nat2Z.inj_succ, Z2Nat.id by apply Z.log2_nonneg.
    destruct (Z.eq_dec z 0) as [->|]; [done|].
    split; [done|]. apply Z.log2_spec. lia.
  - by rewrite E, app_nil_r.
Qed.

Lemma dec_u_digits z : 0 <= z -> Forall is_digit (dec_u z).
Proof. intros. by apply dec_u_spec. Qed.

Lemma dec_u_nonempty z : 0 <= z -> dec_u z <> [].
Proof. intros. by apply dec_u_spec. Qed.

Lemma dec_u_value z : 0 <= z -> digits_val 10 0 (dec_u z) = z.
Proof.
  intros Hz. destruct (dec_u_spec z Hz) as (_ & _ & V & _).
  specialize (V 0 []). rewrite app_nil_r in V. rewrite V. simpl. lia.
Qed.

Lemma dec_u_inj a b : 0 <= a -> 0 <= b -> dec_u a = dec_u b -> a = b.
Proof. intros Ha Hb E. by rewrite <-(dec_u_value a), <-(dec_u_value b), E. Qed.

Lemma dec_s_inj a b : dec_s a = dec_s b -> a = b.
Proof.
  unfold dec_s. destruct (Z.ltb_spec a 0), (Z.ltb_spec b 0); intros E.
  - injection E as E. apply dec_u_inj in E; lia.
  - pose proof (dec_u_digits b ltac:(lia)) as Hd. rewrite <-E in Hd.
    inversion Hd; subst. unfold is_digit in *. lia.
  - pose proof (dec_u_digits a ltac:(lia)) as Hd. rewrite E in Hd.
    inversion Hd; subst. unfold is_digit in *. lia.
  - apply dec_u_inj in E; lia.
Qed.

(** Number of decimal digits. *)
Lemma dec_digits_length fuel : forall z acc k,
  0 <= z < 10 ^ Z.of_nat k -> (0 < k)%nat ->
  (length (dec_digits fuel z acc) <= k + length acc)%nat.
Proof.
  induction fuel as [|f IH]; intros z acc k Hz Hk; [simpl; lia|]. cbn [dec_digits].
  destruct (Z.ltb_spec z 10); [simpl; lia|].
  destruct k as [|[|k]]; [lia | simpl in Hz; lia|].
  assert (0 <= z / 10 < 10 ^ Z.of_nat (S k)) as Hq.
  { rewrite Nat2Z.inj_succ, Z.pow_succ_r in Hz by lia.
    split; [apply Z.div_pos; lia | apply Z.div_lt_upper_bound; lia]. }
  specialize (IH (z / 10) ((48 + z mod 10) :: acc) (S k) Hq ltac:(lia)). simpl in *. lia.
Qed.

Lemma dec_u_length z k :
  0 <= z < 10 ^ Z.of_nat k -> (0 < k)%nat -> (length (dec_u z) <= k)%nat.
Proof.
  intros Hz Hk. unfold dec_u.
  pose proof (dec_digits_length (S (Z.to_nat (Z.log2 z))) z [] k Hz Hk). simpl in *. lia.
Qed.

Lemma dec_s_length z k :
  - 10 ^ Z.of_nat k < z < 10 ^ Z.of_nat k -> (0 < k)%nat -> (length (dec_s z) <= S k)%nat.
Proof.
  intros Hz Hk. unfold dec_s. destruct (Z.ltb_spec z 0); cbn [length].
  - pose proof (dec_u_length (- z) k ltac:(lia) Hk). lia.
  - pose proof (dec_u_length z k ltac:(lia) Hk). lia.
Qed.

Lemma digits_val_stop base acc c rest :
  base <= digit_val c -> digits_val base acc (c :: rest) = acc.
Proof. intros. simpl. btest; [lia | done]. Qed.

(** Text at which a number ends: nothing, or no letter and no digit. *)
Definition number_stop (rest : bytes) : Prop :=
  match rest with [] => True | c :: _ => digit_val c = 99 end.

Lemma hex_prefix_dec z rest :
  0 <= z -> number_stop rest -> hex_prefix (dec_u z ++ rest) = false.
Proof.
  intros Hz Hr. pose proof (dec_u_digits z Hz) as Hd.
  assert (forall x, is_digit x \/ digit_val x = 99 -> (x =? 120) || (x =? 88) = false)
    as Hx.
  { intros x [H | H]; [unfold is_digit in H; btest; simpl; lia|].
    destruct (Z.eqb_spec x 120) as [->|]; [done|].
    by destruct (Z.eqb_spec x 88) as [->|]. }
  destruct (dec_u z) as [|c [|c' d]]; inversion Hd as [|? ? Hc Hd']; subst.
  - destruct rest as [|x [|y [|? ?]]]; try done; simpl in *.
    destruct (Z.eqb_spec x 48) as [->|]; [done|]. done.
  - destruct rest as [|x [|y ?]]; try done; simpl in *.
    rewrite Hx by auto. by rewrite andb_false_r.
  - inversion Hd' as [|? ? Hc' _]; subst. simpl. destruct (d ++ rest); [done|].
    rewrite Hx by auto. by rewrite andb_false_r.
Qed.

Lemma number_base_dec base z rest :
  base = 0 \/ base = 10 -> 0 <= z -> number_stop rest ->
  let '(b, s) := number_base base (dec_u z ++ rest) in digits_val b 0 s = z.
Proof.
  intros Hb Hz Hr. destruct (dec_u_spec z Hz) as (Hd & Hn & V & H0).
  specialize (V 0 rest). rewrite Z.mul_0_l, Z.add_0_l in V.
  assert (forall b acc, b <= 36 -> digits_val b acc rest = acc) as Hstop.
  { intros b acc ?. destruct rest; [done|]. apply digits_val_stop. simpl in Hr. lia. }
  rewrite Hstop in V by lia. unfold number_base. rewrite hex_prefix_dec by done.
  destruct Hb as [-> | ->]; [|exact V]. simpl.
  destruct (Z.eq_dec z 0) as [->|Hnz].
  - simpl. by rewrite Hstop by lia.
  - specialize (H0 Hnz). destruct (dec_u z) as [|c d]; [done|]. simpl in H0 |- *.
    destruct (Z.eq_dec c 48) as [->|]; [done|].
    replace (if c is 48 then 8 else 10) with 10; [exact V|].
    repeat (destruct c as [|c|c]; try done).
Qed.

(** What [printf] writes for an integer, [strtol] reads back. *)
Lemma strtol_dec base z rest :
  base = 0 \/ base = 10 -> LONG_MIN <= z <= LONG_MAX -> number_stop rest ->
  strtol (dec_s z ++ rest) base = z.
Proof.
  intros Hb Hz Hr. unfold strtol, parse_number, dec_s.
  destruct (Z.ltb_spec z 0).
  - pose proof (number_base_dec base (- z) rest Hb ltac:(lia) Hr) as H0.
    simpl. destruct (number_base base (dec_u (- z) ++ rest)) as [b s].
    rewrite H0. lia.
  - pose proof (number_base_dec base z rest Hb ltac:(lia) Hr) as H0.
    destruct (dec_u_spec z ltac:(lia)) as (Hd & Hn & _).
    destruct (dec_u z) as [|c d] eqn:E; [done|].
    inversion Hd as [|? ? Hc _]; subst. unfold is_digit in Hc. cbn [app] in *.
    assert (isspace c = false) as Hs by (unfold isspace; btest; simpl; lia).
    simpl. rewrite Hs. simpl.
    destruct (Z.eqb_spec c 45), (Z.eqb_spec c 43); try lia.
    destruct (number_base base (c :: d ++ rest)) as [b s].
    rewrite H0. lia.
Qed.

#[export] Hint Resolve dec_u_digits dec_u_nonempty : weborf.

Lemma strtol_dec_u base z rest :
  base = 0 \/ base = 10 -> 0 <= z <= LONG_MAX -> number_stop rest ->
  strtol (dec_u z ++ rest) base = z.
Proof.
  intros Hb Hz Hr. pose proof (strtol_dec base z rest Hb) as H.
  unfold dec_s in H. destruct (Z.ltb_spec z 0); [lia|]. apply H; [unfold LONG_MIN|]; done || lia.
Qed.

(** So does [strtoul]. *)
Lemma strtoul_dec_u base z rest :
  base = 0 \/ base = 10 -> 0 <= z < 2 ^ 64 -> number_stop rest -> strtoul (dec_u z ++ rest) base = z.
Proof.
  intros Hb Hz Hr. unfold strtoul, parse_number.
  pose proof (number_base_dec base z rest Hb ltac:(lia) Hr) as H0.
  destruct (dec_u_spec z ltac:(lia)) as (Hd & Hn & _).
  destruct (dec_u z) as [|c d] eqn:E; [done|].
  inversion Hd as [|? ? Hc _]; subst. unfold is_digit in Hc. cbn [app] in *.
  assert (isspace c = false) as Hs by (unfold isspace; btest; simpl; lia).
  cbn [span_len]. rewrite Hs, drop_0.
  destruct (Z.eqb_spec c 45), (Z.eqb_spec c 43); try lia.
  destruct (number_base base (c :: d ++ rest)) as [b s].
  rewrite H0. destruct (Z.leb_spec (2 ^ 64) z); [lia|]. unfold to_u. apply Z.mod_small. lia.
Qed.

Lemma strtol_dec_whole base z :
  base = 0 \/ base = 10 -> 0 <= z <= LONG_MAX -> strtol (dec_u z) base = z.
Proof. intros. rewrite <-(app_nil_r (dec_u z)). by apply strtol_dec_u. Qed.
