(* ===== verification/Types.v ===== *)
(** * Data shared by the components (types.h, options.h.in, instance.h)

    The connection record of types.h with its setters, the limits of
    options.h.in and the method, error and protocol constants of instance.h. *)
From S2P Require Export CLib.

(** ** Limits (options.h.in) *)

Definition MAXTHREAD : Z := 300.
Definition INITIALTHREAD : Z := 6.
Definition LOWTHREAD : Z := 3.
Definition MAXFREETHREAD : Z := 6.
Definition INBUFFER : nat := 1024.
Definition FILEBUF : Z := 4096.
Definition MAXSCRIPTOUT : Z := 512000.
Definition HEADBUF : nat := 1024.
Definition PWDLIMIT : nat := 300.
Definition INDEXMAXLEN : nat := 30.
Definition NBUFFER : nat := 15.
Definition RBUFFER : nat := 128.
Definition URI_LEN : nat := 256.
Definition PATH_LEN : nat := 1024.
Definition MIMETYPELEN : nat := 15.
Definition MAXINDEXCOUNT : Z := 10.
Definition POST_MAX_SIZE : Z := 2000000.
Definition MAXPROPCOUNT : nat := 40.
Definition ESCAPED_FNAME_LEN : nat := 256 * 3.

(** The bytes of an address as text, NUL included. *)
Definition INET6_ADDRSTRLEN : nat := 46.

(** SIGNATURE is NAME "/" VERSION " (GNU/Linux)" with the package name and
    version of configure.ac. *)
Definition SIGNATURE : bytes := bs "weborf/1.0 (GNU/Linux)".

(** ** Methods, errors and protocol versions (instance.h) *)

Definition INVALID : Z := -1.
Definition GET : Z := 0.
Definition POST : Z := 1.
Definition PUT : Z := 2.
Definition DELETE : Z := 3.
Definition PROPFIND : Z := 4.
Definition COPY : Z := 5.
Definition MOVE : Z := 6.
Definition MKCOL : Z := 7.
Definition OPTIONS : Z := 8.

Definition ERR_RANGE_NOT_SATISFIABLE : Z := -15.
Definition ERR_PRECONDITION_FAILED : Z := -14.
Definition ERR_NOT_ALLOWED : Z := -13.
Definition ERR_INSUFFICIENT_STORAGE : Z := -12.
Definition ERR_CONFLICT : Z := -11.
Definition ERR_SERVICE_UNAVAILABLE : Z := -10.
Definition ERR_FORBIDDEN : Z := -9.
Definition ERR_NOTIMPLEMENTED : Z := -8.
Definition ERR_NODATA : Z := -7.
Definition ERR_NOTHTTP : Z := -6.
Definition ERR_NOAUTH : Z := -5.
Definition ERR_SOCKWRITE : Z := -4.
Definition ERR_NOMEM : Z := -3.
Definition ERR_FILENOTFOUND : Z := -2.
Definition ERR_BRKPIPE : Z := -1.
Definition OK_CREATED : Z := 1.
Definition OK_NOCONTENT : Z := 2.

Definition HTTP_0_9 : Z := 57.
Definition HTTP_1_0 : Z := 48.
Definition HTTP_1_1 : Z := 2.

(** ** File status *)

(** The fields of [struct stat] the program reads. *)
Record stat_t := mkstat {
  st_mode : Z;
  st_size : Z;
  st_mtime : Z;
  st_ino : Z;
  st_dev : Z;
}.

Definition S_IFMT : Z := 61440.
Definition S_IFSOCK : Z := 49152.
Definition S_IFLNK : Z := 40960.
Definition S_IFREG : Z := 32768.
Definition S_IFBLK : Z := 24576.
Definition S_IFDIR : Z := 16384.
Definition S_IFCHR : Z := 8192.
Definition S_IFIFO : Z := 4096.

Definition S_ISDIR (mode : Z) : bool := Z.land mode S_IFMT =? S_IFDIR.
Definition S_ISREG (mode : Z) : bool := Z.land mode S_IFMT =? S_IFREG.

(** ** The connection record (types.h) *)

Record connection_t := mkconn {
  req : bytes;  (** the memory [buf] of [handle_requests]; the pointers below are indices into it *)
  ip_addr : bytes;  (** address of the client, as text *)
  keep_alive : bool;
  protocol_version : Z;
  method_id : Z;
  method : nat;  (** pointer into [req] *)
  http_param : nat;  (** pointer into [req] *)
  page : nat;  (** pointer into [req] *)
  page_len : Z;
  get_params : option nat;  (** pointer into [req] or NULL *)
  strfile : bytes;  (** the buffer of URI_LEN bytes allocated for the file name *)
  strfile_len : Z;
  strfile_stat : stat_t;
  strfile_fd : Z;
  basedir : bytes;
  status_code : Z;
}.

(** Setters. *)
Definition set_req (v : bytes) (c : connection_t) : connection_t :=
  mkconn v c.(ip_addr) c.(keep_alive) c.(protocol_version) c.(method_id)
    c.(method) c.(http_param) c.(page) c.(page_len) c.(get_params)
    c.(strfile) c.(strfile_len) c.(strfile_stat) c.(strfile_fd)
    c.(basedir) c.(status_code).

Definition set_keep_alive (v : bool) (c : connection_t) : connection_t :=
  mkconn c.(req) c.(ip_addr) v c.(protocol_version) c.(method_id)
    c.(method) c.(http_param) c.(page) c.(page_len) c.(get_params)
    c.(strfile) c.(strfile_len) c.(strfile_stat) c.(strfile_fd)
    c.(basedir) c.(status_code).

Definition set_protocol_version (v : Z) (c : connection_t) : connection_t :=
  mkconn c.(req) c.(ip_addr) c.(keep_alive) v c.(method_id) c.(method)
    c.(http_param) c.(page) c.(page_len) c.(get_params) c.(strfile)
    c.(strfile_len) c.(strfile_stat) c.(strfile_fd) c.(basedir)
    c.(status_code).

Definition set_method_id (v : Z) (c : connection_t) : connection_t :=
  mkconn c.(req) c.(ip_addr) c.(keep_alive) c.(protocol_version) v
    c.(method) c.(http_param) c.(page) c.(page_len) c.(get_params)
    c.(strfile) c.(strfile_len) c.(strfile_stat) c.(strfile_fd)
    c.(basedir) c.(status_code).

Definition set_method (v : nat) (c : connection_t) : connection_t :=
  mkconn c.(req) c.(ip_addr) c.(keep_alive) c.(protocol_version)
    c.(method_id) v c.(http_param) c.(page) c.(page_len) c.(get_params)
    c.(strfile) c.(strfile_len) c.(strfile_stat) c.(strfile_fd)
    c.(basedir) c.(status_code).

Definition set_http_param (v : nat) (c : connection_t) : connection_t :=
  mkconn c.(req) c.(ip_addr) c.(keep_alive) c.(protocol_version)
    c.(method_id) c.(method) v c.(page) c.(page_len) c.(get_params)
    c.(strfile) c.(strfile_len) c.(strfile_stat) c.(strfile_fd)
    c.(basedir) c.(status_code).

Definition set_page (v : nat) (c : connection_t) : connection_t :=
  mkconn c.(req) c.(ip_addr) c.(keep_alive) c.(protocol_version)
    c.(method_id) c.(method) c.(http_param) v c.(page_len) c.(get_params)
    c.(strfile) c.(strfile_len) c.(strfile_stat) c.(strfile_fd)
    c.(basedir) c.(status_code).

Definition set_page_len (v : Z) (c : connection_t) : connection_t :=
  mkconn c.(req) c.(ip_addr) c.(keep_alive) c.(protocol_version)
    c.(method_id) c.(method) c.(http_param) c.(page) v c.(get_params)
    c.(strfile) c.(strfile_len) c.(strfile_stat) c.(strfile_fd)
    c.(basedir) c.(status_code).

Definition set_get_params (v : option nat) (c : connection_t) : connection_t :=
  mkconn c.(req) c.(ip_addr) c.(keep_alive) c.(protocol_version)
    c.(method_id) c.(method) c.(http_param) c.(page) c.(page_len) v
    c.(strfile) c.(strfile_len) c.(strfile_stat) c.(strfile_fd)
    c.(basedir) c.(status_code).

Definition set_strfile (v : bytes) (c : connection_t) : connection_t :=
  mkconn c.(req) c.(ip_addr) c.(keep_alive) c.(protocol_version)
    c.(method_id) c.(method) c.(http_param) c.(page) c.(page_len)
    c.(get_params) v c.(strfile_len) c.(strfile_stat) c.(strfile_fd)
    c.(basedir) c.(status_code).

Definition set_strfile_len (v : Z) (c : connection_t) : connection_t :=
  mkconn c.(req) c.(ip_addr) c.(keep_alive) c.(protocol_version)
    c.(method_id) c.(method) c.(http_param) c.(page) c.(page_len)
    c.(get_params) c.(strfile) v c.(strfile_stat) c.(strfile_fd)
    c.(basedir) c.(status_code).

Definition set_strfile_stat (v : stat_t) (c : connection_t) : connection_t :=
  mkconn c.(req) c.(ip_addr) c.(keep_alive) c.(protocol_version)
    c.(method_id) c.(method) c.(http_param) c.(page) c.(page_len)
    c.(get_params) c.(strfile) c.(strfile_len) v c.(strfile_fd)
    c.(basedir) c.(status_code).

Definition set_strfile_fd (v : Z) (c : connection_t) : connection_t :=
  mkconn c.(req) c.(ip_addr) c.(keep_alive) c.(protocol_version)
    c.(method_id) c.(method) c.(http_param) c.(page) c.(page_len)
    c.(get_params) c.(strfile) c.(strfile_len) c.(strfile_stat) v
    c.(basedir) c.(status_code).

Definition set_basedir (v : bytes) (c : connection_t) : connection_t :=
  mkconn c.(req) c.(ip_addr) c.(keep_alive) c.(protocol_version)
    c.(method_id) c.(method) c.(http_param) c.(page) c.(page_len)
    c.(get_params) c.(strfile) c.(strfile_len) c.(strfile_stat)
    c.(strfile_fd) v c.(status_code).

Definition set_status_code (v : Z) (c : connection_t) : connection_t :=
  mkconn c.(req) c.(ip_addr) c.(keep_alive) c.(protocol_version)
    c.(method_id) c.(method) c.(http_param) c.(page) c.(page_len)
    c.(get_params) c.(strfile) c.(strfile_len) c.(strfile_stat)
    c.(strfile_fd) c.(basedir) v.

