(* ===== verification/MyString.v ===== *)
(** * String routines (mystring.c)

    Every routine works in place on a region of memory.  [None] is an access
    outside the region (or a loop that does not end within its fuel); the
    lemmas give the exact memory after each routine, so they also show that
    bytes outside the string are not touched. *)
From S2P Require Export CLib Types.

(** ** Definitions *)

Fixpoint strToUpper_loop (fuel : nat) (m : bytes) (i : nat) : option bytes :=
  match fuel with
  | O => None
  | S f => c ← load m i;
           if c =? 0 then Some m
           else m' ← store m i (toupper c); strToUpper_loop f m' (S i)
  end.

Definition strToUpper (m : bytes) (str : nat) : option bytes :=
  strToUpper_loop (S (length m)) m str.

(** [delChar string pos n]; the terminator is written at [string[l]]. *)
Definition delChar (m : bytes) (string pos : nat) (n : Z) : option bytes :=
  l ← strlen m (string + pos);
  if Z.of_nat l <? to_u64 n then Some m
  else
    let k := Z.to_nat n in
    let l := (l - k)%nat in
    m1 ← memmove m (string + pos) (string + pos + k) l;
    store m1 (string + l) 0.

Fixpoint strReplace_loop (fuel : nat) (m : bytes) (string : nat)
    (substr : bytes) (with_ : Z) : option bytes :=
  match fuel with
  | O => None
  | S f =>
      r ← strstr m string substr;
      match r with
      | None => Some m
      | Some pointer =>
          m1 ← delChar m pointer 0 (Z.of_nat (length substr) - 1);
          m2 ← store m1 pointer with_;
          strReplace_loop f m2 pointer substr with_
      end
  end.

Definition strReplace (m : bytes) (string : nat) (substr : bytes) (with_ : Z)
    : option bytes :=
  strReplace_loop (S (length m)) m string substr with_.

(** One turn of the loop of [replaceEscape], at the ["%"] found at [s]. *)
Definition replaceEscape_one (m : bytes) (s : nat) : option bytes :=
  e0 ← load m (s + 1);
  e1 ← load m (s + 2);
  m1 ← delChar m s 0 2;
  store m1 s (strtol (cstr_prefix [e0; e1; 0]) 16).

Fixpoint replaceEscape_loop (fuel : nat) (m : bytes) (string : nat) : option bytes :=
  match fuel with
  | O => None
  | S f =>
      r ← strstr m string [chr "%"];
      match r with
      | None => Some m
      | Some s => m' ← replaceEscape_one m s; replaceEscape_loop f m' (S s)
      end
  end.

Definition replaceEscape (m : bytes) (string : option nat) : option bytes :=
  match string with
  | None => Some m
  | Some p => replaceEscape_loop (S (length m)) m p
  end.

Definition split_get_params (c : connection_t) : option connection_t :=
  separator ← strstr c.(req) c.(page) (bs "?");
  match separator with
  | None =>
      l ← strlen c.(req) c.(page);
      Some (set_page_len (Z.of_nat l) (set_get_params None c))
  | Some sep =>
      m ← store c.(req) sep 0;
      Some (set_page_len (Z.of_nat sep - Z.of_nat c.(page))
              (set_get_params (Some (S sep)) (set_req m c)))
  end.

(** [strcmp(str + len_str - len_end, end) == 0] *)
Definition endsWith (m : bytes) (str : nat) (end_ : bytes) (len_str len_end : Z)
    : option bool :=
  let p := Z.of_nat str + len_str - len_end in
  if p <? 0 then None else streq m (Z.to_nat p) end_.

(** The string-level meaning of [replaceEscape]: what the bytes of the string
    become, an escape cut short by the end of the string included. *)
Fixpoint unescape (s : bytes) : bytes :=
  match s with
  | [] => []
  | c :: r =>
      if c =? chr "%" then
        match r with
        | [] => [0]
        | a :: r' =>
            match r' with
            | [] => to_char (strtol [a] 16) :: unescape r
            | b :: r'' => to_char (strtol [a; b] 16) :: unescape r''
            end
        end
      else c :: unescape r
  end.

(** The string-level meaning of [strReplace] with a NUL. *)
Definition cut_at (needle s : bytes) : bytes :=
  match find_sub needle s with None => s | Some i => take i s end.

(** ** Lemmas *)

(** [delChar] at position 0 drops the first [length d] bytes of the string. *)
Lemma delChar_app pre d t post p n :
  p = length pre -> n = Z.of_nat (length d) -> n < 2 ^ 64 -> 0 ∉ d ++ t -> d <> [] ->
  delChar (pre ++ d ++ t ++ 0 :: post) p 0 n
  = Some (pre ++ t ++ 0 :: drop (S (length t)) (d ++ t) ++ 0 :: post).
Proof.
  intros -> -> Hn H0 Hd. unfold delChar. rewrite Nat.add_0_r.
  rewrite (app_assoc d t), strlen_app by done. simpl.
  rewrite to_u_small, length_app by lia.
  destruct (Z.ltb_spec (Z.of_nat (length d + length t)) (Z.of_nat (length d))); [lia|].
  rewrite Nat2Z.id, <-app_assoc.
  replace (length d + length t - length d)%nat with (length t) by lia.
  rewrite memmove_down with (d := d) (t := t) by (done || lia). simpl.
  destruct (drop (length t) (d ++ t)) as [|x u] eqn:E.
  { apply (f_equal length) in E. rewrite length_drop, length_app in E.
    destruct d; [done|]. simpl in E. lia. }
  rewrite (app_assoc pre t). simpl. rewrite store_mid_eq by (rewrite length_app; lia).
  rewrite <-app_assoc. f_equal. f_equal. f_equal.
  replace (S (length t)) with (length t + 1)%nat by lia.
  by rewrite <-drop_drop, E.
Qed.

(** Asked for more than the string has, it changes nothing. *)
Lemma delChar_short pre s post p n :
  p = length pre -> 0 ∉ s -> Z.of_nat (length s) < n < 2 ^ 64 ->
  delChar (pre ++ s ++ 0 :: post) p 0 n = Some (pre ++ s ++ 0 :: post).
Proof.
  intros -> H Hn. unfold delChar. rewrite Nat.add_0_r, strlen_app by done. simpl.
  rewrite to_u_small by lia. by destruct (Z.ltb_spec (Z.of_nat (length s)) n); [|lia].
Qed.

Lemma delChar_zero pre s post p :
  p = length pre -> 0 ∉ s ->
  delChar (pre ++ s ++ 0 :: post) p 0 0 = Some (pre ++ s ++ 0 :: post).
Proof.
  intros -> H. unfold delChar. rewrite Nat.add_0_r, strlen_app by done. simpl.
  destruct (Z.ltb_spec (Z.of_nat (length s)) (to_u64 0)) as [Hl|_];
    [rewrite to_u_small in Hl; lia|].
  rewrite Nat.sub_0_r. rewrite (memmove_down pre [] s (0 :: post) 0) by done. simpl.
  rewrite drop_all, (app_assoc pre s). simpl. rewrite store_mid_eq by (rewrite length_app; lia).
  by rewrite <-app_assoc.
Qed.

Lemma unescape_app s r : chr "%" ∉ s -> unescape (s ++ r) = s ++ unescape r.
Proof.
  induction s as [|x s IH]; [done|]. rewrite elem_of_cons. intros H. simpl.
  destruct (Z.eqb_spec x (chr "%")); [naive_solver|]. f_equal. apply IH. naive_solver.
Qed.

Lemma unescape_id s : chr "%" ∉ s -> unescape s = s.
Proof. intros H. rewrite <-(app_nil_r s) at 1. by rewrite unescape_app, app_nil_r. Qed.

Lemma unescape_length s : (length (unescape s) <= length s)%nat.
Proof.
  induction s as [s IH] using (induction_ltof1 _ (@length Z)). unfold ltof in IH.
  destruct s as [|c [|a [|b r]]]; simpl; [lia| | |].
  - destruct (c =? 37); simpl; lia.
  - pose proof (IH [a] ltac:(simpl; lia)) as H. simpl in H.
    destruct (c =? 37); simpl; lia.
  - pose proof (IH r ltac:(simpl; lia)). pose proof (IH (a :: b :: r) ltac:(simpl; lia)) as H1.
    simpl in *. destruct (c =? 37); simpl; lia.
Qed.

Lemma split_first c s i :
  find_byte c s = Some i -> exists a r, s = a ++ c :: r /\ c ∉ a /\ length a = i.
Proof.
  intros H. pose proof (find_byte_Some _ _ _ H) as [E N].
  exists (take i s), (drop (S i) s). split_and!; [done..|].
  apply (f_equal length) in E. rewrite length_app, length_take, length_cons, length_drop in E.
  rewrite length_take. lia.
Qed.

(** A complete escape. *)
Lemma replaceEscape_one_2 q a b r post :
  0 ∉ a :: b :: r ->
  exists stale, length stale = 2%nat /\
  replaceEscape_one (q ++ [37] ++ (a :: b :: r) ++ 0 :: post) (length q)
  = Some ((q ++ [to_char (strtol [a; b] 16)]) ++ r ++ 0 :: stale ++ post).
Proof.
  intros H. exists (drop (S (length (b :: r))) ([37; a] ++ b :: r) ++ [0]).
  split; [simpl; rewrite length_app, length_drop; simpl; lia|].
  unfold replaceEscape_one, load. cbn [app]. rewrite lookup_mid1, lookup_mid2. cbn [mbind option_bind].
  rewrite (delChar_app q [37; a] (b :: r) post) by (done || set_solver).
  cbn [mbind option_bind app]. rewrite store_mid.
  replace (cstr_prefix [a; b; 0]) with [a; b]
    by (symmetry; apply (cstr_prefix_app [a; b]); set_solver).
  by rewrite <-!app_assoc.
Qed.

(** An escape with one character only: the terminator goes away. *)
Lemma replaceEscape_one_1 q a post :
  a <> 0 ->
  replaceEscape_one (q ++ [37] ++ [a] ++ 0 :: post) (length q)
  = Some ((q ++ [to_char (strtol [a] 16)]) ++ [a] ++ 0 :: post).
Proof.
  intros H. unfold replaceEscape_one, load. cbn [app]. rewrite lookup_mid1, lookup_mid2.
  cbn [mbind option_bind].
  rewrite (delChar_app q [37; a] [] post) by (done || set_solver).
  cbn [mbind option_bind app length drop]. rewrite store_mid.
  replace (cstr_prefix [a; 0; 0]) with [a]
    by (symmetry; apply (cstr_prefix_app [a]); set_solver).
  by rewrite <-!app_assoc.
Qed.

(** A lone percent sign. *)
Lemma replaceEscape_one_0 q z post :
  replaceEscape_one (q ++ [37] ++ [] ++ 0 :: z :: post) (length q)
  = Some ((q ++ [0]) ++ [] ++ 0 :: z :: post).
Proof.
  unfold replaceEscape_one, load. cbn [app]. rewrite lookup_mid1, lookup_mid2.
  cbn [mbind option_bind].
  rewrite (delChar_short q [37] (z :: post)) by (done || (simpl; lia) || set_solver).
  cbn [mbind option_bind app]. rewrite store_mid. by rewrite <-app_assoc.
Qed.

(** The memory after [replaceEscape] on the string [s]. *)
Lemma replaceEscape_run fuel pre s post p :
  p = length pre -> (length s < fuel)%nat -> 0 ∉ s -> post <> [] ->
  exists stale,
    replaceEscape_loop fuel (pre ++ s ++ 0 :: post) p
    = Some (pre ++ unescape s ++ 0 :: stale ++ post)
    /\ (length (unescape s) + length stale = length s)%nat.
Proof.
  revert pre s post p. induction fuel as [|f IH]; intros pre s post p -> Hf H0 Hp; [lia|].
  cbn [replaceEscape_loop]. rewrite strstr_app by done. cbn [mbind option_bind].
  rewrite find_sub_single. destruct (find_byte (chr "%") s) as [i|] eqn:Ei;
    cbn [fmap option_fmap option_map].
  2: { apply find_byte_None in Ei. exists []. rewrite unescape_id by done.
       split; [done | simpl; lia]. }
  apply split_first in Ei as (a & r & -> & Ha & <-).
  rewrite unescape_app by done.
  rewrite not_elem_of_app, not_elem_of_cons in H0. destruct H0 as (H0a & _ & H0r).
  rewrite length_app in Hf. simpl in Hf. rewrite <-length_app.
  (* what the next turns do with the rest [t] of the string *)
  assert (forall v t post', (length t < f)%nat -> 0 ∉ t -> post' <> [] ->
    exists stale, replaceEscape_loop f (((pre ++ a) ++ [v]) ++ t ++ 0 :: post') (S (length (pre ++ a)))
    = Some (pre ++ (a ++ v :: unescape t) ++ 0 :: stale ++ post')
    /\ (length (unescape t) + length stale = length t)%nat) as Next.
  { intros v t post' Ht Ht0 Hpost'.
    destruct (IH ((pre ++ a) ++ [v]) t post' (S (length (pre ++ a)))) as (st & E & L);
      [rewrite !length_app; simpl; lia | done..|].
    exists st. split; [|done]. rewrite E. by rewrite <-!app_assoc. }
  replace (pre ++ (a ++ 37 :: r) ++ 0 :: post) with ((pre ++ a) ++ [37] ++ r ++ 0 :: post)
    by (by rewrite <-!app_assoc).
  destruct r as [|x [|y r]].
  - destruct post as [|z post]; [done|]. rewrite replaceEscape_one_0. cbn [mbind option_bind].
    destruct (Next 0 [] (z :: post)) as (st & E & L); [simpl; lia | set_solver | done|].
    exists st. split; [exact E|]. simpl in *. rewrite !length_app. simpl. lia.
  - rewrite (replaceEscape_one_1 (pre ++ a) x post) by set_solver. cbn [mbind option_bind].
    destruct (Next (to_char (strtol [x] 16)) [x] post) as (st & E & L);
      [simpl in *; lia | set_solver | done|].
    exists st. split; [exact E|]. rewrite !length_app. cbn [length] in *. simpl. simpl in L. lia.
  - destruct (replaceEscape_one_2 (pre ++ a) x y r post) as (st2 & L2 & ->); [set_solver|].
    cbn [mbind option_bind].
    destruct (Next (to_char (strtol [x; y] 16)) r (st2 ++ post)) as (st & E & L);
      [simpl in *; lia | set_solver | by destruct st2|].
    exists (st ++ st2). split; [rewrite E; by rewrite <-!app_assoc|].
    rewrite !length_app. simpl. lia.
Qed.

(** [delChar] at position 0, with the bytes left over named. *)
Lemma delChar_ex pre d t post p n :
  p = length pre -> n = Z.of_nat (length d) -> n < 2 ^ 64 -> 0 ∉ d ++ t ->
  exists stale, length stale = length d
    /\ delChar (pre ++ d ++ t ++ 0 :: post) p 0 n = Some (pre ++ t ++ 0 :: stale ++ post).
Proof.
  intros -> -> Hn H0. destruct d as [|x d].
  - exists []. split; [done|]. simpl. by apply delChar_zero.
  - exists (drop (S (length t)) ((x :: d) ++ t) ++ [0]). split; [len|].
    rewrite (delChar_app pre (x :: d) t post) by done. by rewrite <-app_assoc.
Qed.

(** One replacement: memory and position after the first occurrence. *)
Lemma strReplace_hit pre a d z rest post w n :
  n = Z.of_nat (length d) -> n < 2 ^ 64 -> 0 ∉ d ++ z :: rest ->
  exists stale, length stale = length d
    /\ (m1 ← delChar ((pre ++ a) ++ d ++ (z :: rest) ++ 0 :: post) (length (pre ++ a)) 0 n;
        store m1 (length (pre ++ a)) w)
       = Some ((pre ++ a) ++ to_char w :: rest ++ 0 :: stale ++ post).
Proof.
  intros -> Hn H0.
  destruct (delChar_ex (pre ++ a) d (z :: rest) post _ _ eq_refl eq_refl Hn H0) as (st & L & ->).
  exists st. split; [done|]. cbn [mbind option_bind app]. apply store_mid.
Qed.

Lemma strReplace_nul_run fuel pre s post p needle :
  p = length pre -> (2 <= fuel)%nat -> 0 ∉ s -> needle <> [] ->
  Z.of_nat (length needle) < 2 ^ 64 ->
  exists stale,
    strReplace_loop fuel (pre ++ s ++ 0 :: post) p needle 0
    = Some (pre ++ cut_at needle s ++ 0 :: stale ++ post)
    /\ (length (cut_at needle s) + length stale = length s)%nat.
Proof.
  intros -> Hf H0 Hn Hl. destruct fuel as [|[|f]]; [lia..|].
  cbn [strReplace_loop]. rewrite strstr_app by done. cbn [mbind option_bind]. unfold cut_at.
  destruct (find_sub needle s) as [i|] eqn:E; cbn [fmap option_fmap option_map].
  2: { exists []. split; [done | simpl; lia]. }
  pose proof (find_sub_bound _ _ _ E) as Hb. apply find_sub_Some in E as [E _].
  set (a := take i s) in *. set (rest := drop (i + length needle) s) in *.
  assert (length a = i) as La by (subst a; rewrite length_take; lia).
  clearbody a rest. subst i. rewrite <-length_app.
  destruct (exists_last Hn) as (d & z & ->).
  assert (0 ∉ a ∧ 0 ∉ d ++ z :: rest) as [Ha Hd].
  { subst s. rewrite !not_elem_of_app in H0. rewrite not_elem_of_app, not_elem_of_cons.
    set_solver. }
  replace (pre ++ s ++ 0 :: post) with ((pre ++ a) ++ d ++ (z :: rest) ++ 0 :: post)
    by (rewrite E; by rewrite <-!app_assoc).
  destruct (strReplace_hit pre a d z rest post 0 (Z.of_nat (length (d ++ [z])) - 1))
    as (st & L & Hit); [len | rewrite length_app in *; simpl in *; lia | done|].
  destruct (delChar _ _ 0 _) as [m1|]; [|done]. cbn [mbind option_bind] in Hit |- *.
  rewrite Hit. cbn [mbind option_bind]. change (to_char 0) with 0.
  pose proof (strstr_app (pre ++ a) [] (rest ++ 0 :: st ++ post) _ (d ++ [z]) eq_refl) as Hs.
  cbn [app] in Hs. rewrite Hs by set_solver.
  assert (find_sub (d ++ [z]) [] = None) as ->.
  { apply find_sub_None. rewrite contains_nil. by destruct d. }
  exists (rest ++ 0 :: st). split.
  - cbn [mbind option_bind fmap option_fmap option_map]. f_equal. rewrite <-!app_assoc. done.
  - rewrite E. rewrite !length_app. simpl. rewrite L. lia.
Qed.

Lemma cut_at_clean needle s : needle <> [] -> ~ contains needle (cut_at needle s).
Proof.
  intros Hn. unfold cut_at. destruct (find_sub needle s) as [i|] eqn:E.
  - by apply find_sub_before.
  - by apply find_sub_None.
Qed.

Lemma cut_at_length needle s : (length (cut_at needle s) <= length s)%nat.
Proof. unfold cut_at. destruct (find_sub needle s); [rewrite length_take|]; lia. Qed.

Lemma strToUpper_run fuel pre s post p :
  p = length pre -> (length s < fuel)%nat -> 0 ∉ s -> Forall is_byte s ->
  strToUpper_loop fuel (pre ++ s ++ 0 :: post) p
  = Some (pre ++ map toupper s ++ 0 :: post).
Proof.
  revert pre s p. induction fuel as [|f IH]; intros pre s p -> Hf H0 Hb; [lia|].
  cbn [strToUpper_loop]. unfold load. destruct s as [|x s]; cbn [app]; rewrite lookup_mid;
    cbn [mbind option_bind]; [done|].
  rewrite not_elem_of_cons in H0. inversion Hb as [|? ? Hx Hb']; subst.
  destruct (Z.eqb_spec x 0); [naive_solver|]. rewrite store_mid. cbn [mbind option_bind].
  rewrite to_u_small by (unfold toupper, is_byte in *; btest; simpl; lia).
  replace (pre ++ toupper x :: s ++ 0 :: post) with ((pre ++ [toupper x]) ++ s ++ 0 :: post)
    by (by rewrite <-app_assoc).
  rewrite IH; [by rewrite <-app_assoc | len | simpl in Hf; lia | naive_solver | done].
Qed.

(** [endsWith] on a string that fills its buffer up to [len_str]. *)
Lemma endsWith_app pre a s post end_ p len_str len_end :
  0 ∉ s -> len_str = Z.of_nat (length (a ++ s)) -> len_end = Z.of_nat (length s) ->
  p = length pre ->
  endsWith (pre ++ (a ++ s) ++ 0 :: post) p end_ len_str len_end
  = Some (bool_decide (s = end_)).
Proof.
  intros H0 -> -> ->. unfold endsWith.
  destruct (Z.ltb_spec (Z.of_nat (length pre) + Z.of_nat (length (a ++ s)) - Z.of_nat (length s)) 0);
    [len|].
  unfold streq. rewrite <-app_assoc, app_assoc.
  rewrite cstr_at_app with (s := s); [done | len | done].
Qed.

(** ** Properties *)

(** Decoding the escapes of a URL in place never leaves the buffer and
    ends; the string becomes [unescape] of what it was, it does not grow, and
    the memory before it and after its terminator is not touched. *)
Theorem replaceEscape_decodes pre s post (Hs : 0 ∉ s) (Hpost : post <> []) :
  exists stale,
    replaceEscape (pre ++ s ++ 0 :: post) (Some (length pre))
    = Some (pre ++ unescape s ++ 0 :: stale ++ post)
    /\ (length (unescape s) + length stale = length s)%nat.
Proof.
  unfold replaceEscape. apply replaceEscape_run; [done | len | done..].
Qed.

Lemma replaceEscape_decodes_witness :
  exists stale,
    replaceEscape (bs "GET " ++ bs "/a%20b%4" ++ 0 :: [0; 0]) (Some 4%nat)
    = Some (bs "GET " ++ unescape (bs "/a%20b%4") ++ 0 :: stale ++ [0; 0])
    /\ (length (unescape (bs "/a%20b%4")) + length stale = 8)%nat.
Proof.
  apply (replaceEscape_decodes (bs "GET ") (bs "/a%20b%4") [0; 0]).
  - by_decision.
  - by_decision.
Defined.
