(* ===== verification/Base64.v ===== *)
(** * Base64 decoding (base64.c)

    [decode64] reads groups of four characters from one region and writes
    three bytes per group to another.  The reference encoder is the one of
    RFC 4648; the decoder is its inverse, and it reads past the end of a text
    whose length is not a multiple of four. *)
From S2P Require Export CLib Types.

(** ** Definitions *)

Definition getCode (c : Z) : Z :=
  if (chr "A" <=? c) && (c <=? chr "Z") then c - chr "A"
  else if (chr "a" <=? c) && (c <=? chr "z") then c - chr "a" + 26
  else if (chr "0" <=? c) && (c <=? chr "9") then c - chr "0" + 52
  else if c =? chr "+" then 62
  else if c =? chr "/" then 63
  else 0.

Definition decode4_64 (m : bytes) (res : nat) (e : bytes) (group : nat)
    : option bytes :=
  g0 ← load e group;
  m ← store m res (Z.shiftl (getCode g0) 2);
  g1 ← load e (group + 1);
  let t := getCode g1 in
  let t1 := t in
  let t := Z.shiftr t 4 in
  r0 ← load m res;
  m ← store m res (Z.lor r0 t);
  m ← store m (res + 1) (Z.shiftl t1 4);
  g2 ← load e (group + 2);
  let t := getCode g2 in
  let t1 := t in
  r1 ← load m (res + 1);
  m ← store m (res + 1) (Z.lor r1 (Z.shiftr t 2));
  m ← store m (res + 2) (Z.shiftl t1 6);
  g3 ← load e (group + 3);
  let t := getCode g3 in
  r2 ← load m (res + 2);
  store m (res + 2) (Z.lor r2 t).

Fixpoint decode64_loop (fuel : nat) (m : bytes) (res : nat) (e : bytes) (encoded : nat)
    : option bytes :=
  match fuel with
  | O => None
  | S f =>
      c ← load e encoded;
      if c =? 0 then Some m
      else
        m ← decode4_64 m res e encoded;
        m ← store m (res + 3) 0;
        decode64_loop f m (res + 3) e (encoded + 4)
  end.

Definition decode64 (m : bytes) (result : nat) (e : bytes) (encoded : nat)
    : option bytes :=
  decode64_loop (S (length e)) m result e encoded.

(** The reference encoder (RFC 4648, section 4). *)
Definition enc_char (v : Z) : Z :=
  if v <? 26 then chr "A" + v
  else if v <? 52 then chr "a" + (v - 26)
  else if v <? 62 then chr "0" + (v - 52)
  else if v =? 62 then chr "+" else chr "/".

Definition enc_group (a b c : Z) : bytes :=
  [enc_char (a / 4); enc_char (a mod 4 * 16 + b / 16);
   enc_char (b mod 16 * 4 + c / 64); enc_char (c mod 64)].

Fixpoint b64_encode (s : bytes) : bytes :=
  match s with
  | a :: b :: c :: r => enc_group a b c ++ b64_encode r
  | [a; b] => take 3 (enc_group a b 0) ++ bs "="
  | [a] => take 2 (enc_group a 0 0) ++ bs "=="
  | [] => []
  end.

(** What one group of characters decodes to, and a text made of whole groups. *)
Definition group_value (g0 g1 g2 g3 : Z) : bytes :=
  [to_char (Z.lor (to_char (Z.shiftl (getCode g0) 2)) (Z.shiftr (getCode g1) 4));
   to_char (Z.lor (to_char (Z.shiftl (getCode g1) 4)) (Z.shiftr (getCode g2) 2));
   to_char (Z.lor (to_char (Z.shiftl (getCode g2) 6)) (getCode g3))].

Fixpoint b64_decode (s : bytes) : bytes :=
  match s with
  | g0 :: g1 :: g2 :: g3 :: r => group_value g0 g1 g2 g3 ++ b64_decode r
  | _ => []
  end.

(** ** Lemmas *)

Lemma getCode_enc v : 0 <= v < 64 -> getCode (enc_char v) = v.
Proof.
  intros H. apply Z.eqb_eq.
  apply (check_below 64 (fun v => getCode (enc_char v) =? v)); [vm_compute; done | lia].
Qed.

Lemma enc_char_pos v : 0 <= v < 64 -> 0 < enc_char v < 128.
Proof. intros. unfold enc_char. btest; lia. Qed.

Lemma decode4_64_run pre x y z post g e rest g0 g1 g2 g3 res group :
  res = length pre -> group = length g -> e = g ++ [g0; g1; g2; g3] ++ rest ->
  decode4_64 (pre ++ [x; y; z] ++ post) res e group
  = Some (pre ++ group_value g0 g1 g2 g3 ++ post).
Proof.
  intros -> -> ->. unfold decode4_64. mem_step. done.
Qed.

(** Whole groups are decoded in place of the bytes [old], and a NUL follows. *)
Lemma decode64_run fuel pre old x post g s rest e res encoded :
  res = length pre -> encoded = length g -> e = g ++ s ++ 0 :: rest ->
  (length s < fuel)%nat -> 0 ∉ s ->
  Nat.divide 4 (length s) -> length old = length (b64_decode s) ->
  decode64_loop fuel (pre ++ old ++ x :: post) res e encoded
  = Some (pre ++ b64_decode s ++ (if s is [] then x else 0) :: post).
Proof.
  revert pre old x post g s res encoded.
  induction fuel as [|f IH]; intros pre old x post g s res encoded -> -> -> Hf H0 Hd Ho; [lia|].
  cbn [decode64_loop]. destruct Hd as [k Hk].
  destruct s as [|g0 [|g1 [|g2 [|g3 s]]]]; try (simpl in Hk; lia).
  - cbn [app]. mem_step. by destruct old.
  - simpl in Ho. destruct old as [|o0 [|o1 [|o2 old]]]; try (simpl in Ho; lia).
    mem_step. rewrite not_elem_of_cons in H0. destruct (Z.eqb_spec g0 0); [naive_solver|].
    rewrite (decode4_64_run pre o0 o1 o2 (old ++ x :: post) g _ (s ++ 0 :: rest) g0 g1 g2 g3)
      by done.
    mem_step. set (gv := group_value g0 g1 g2 g3).
    assert (length gv = 3)%nat as Lg by done.
    replace (pre ++ gv ++ old ++ x :: post) with ((pre ++ gv) ++ old ++ x :: post)
      by (by rewrite <-app_assoc).
    destruct (old ++ x :: post) as [|y u] eqn:E; [by destruct old|].
    rewrite store_mid_eq by (rewrite length_app; lia). mem_step.
    change (to_char 0) with 0.
    assert (0 ∉ s /\ Nat.divide 4 (length s)) as [H0s Hd].
    { split; [set_solver|]. exists (k - 1)%nat. simpl in Hk. lia. }
    assert (exists old' x', 0 :: u = old' ++ x' :: post /\ length old' = length old
      /\ (old = [] -> x' = 0)) as (old' & x' & -> & L & Hx).
    { destruct old as [|o old]; injection E as -> <-.
      - by exists [], 0.
      - exists (0 :: old), x. done. }
    rewrite (IH (pre ++ gv) old' x' post (g ++ [g0; g1; g2; g3]) s).
    + rewrite <-app_assoc. f_equal. f_equal. cbn [b64_decode]. rewrite <-app_assoc. f_equal.
      f_equal. f_equal. destruct s; [|done]. apply Hx. by destruct old.
    + rewrite length_app. lia.
    + rewrite length_app. simpl. lia.
    + by rewrite <-app_assoc.
    + simpl in Hf. lia.
    + done.
    + done.
    + simpl in Ho. lia.
Qed.

Lemma group_check x y :
  0 <= x < 64 -> 0 <= y < 64 ->
  to_char (Z.lor (to_char (Z.shiftl x 2)) (Z.shiftr y 4)) = x * 4 + y / 16
  /\ to_char (Z.lor (to_char (Z.shiftl x 4)) (Z.shiftr y 2)) = x mod 16 * 16 + y / 4
  /\ to_char (Z.lor (to_char (Z.shiftl x 6)) y) = x mod 4 * 64 + y.
Proof.
  intros Hx Hy. rewrite <-!Z.eqb_eq, <-!andb_true_iff.
  apply (check_below2 64 64 (fun x y =>
    (to_char (Z.lor (to_char (Z.shiftl x 2)) (Z.shiftr y 4)) =? x * 4 + y / 16)
    && ((to_char (Z.lor (to_char (Z.shiftl x 4)) (Z.shiftr y 2)) =? x mod 16 * 16 + y / 4)
    && (to_char (Z.lor (to_char (Z.shiftl x 6)) y) =? x mod 4 * 64 + y))));
    [vm_compute; done | lia | lia].
Qed.

(** Decoding one encoded group gives its three bytes back. *)
Lemma group_value_enc a b c :
  is_byte a -> is_byte b -> is_byte c ->
  group_value (enc_char (a / 4)) (enc_char (a mod 4 * 16 + b / 16))
    (enc_char (b mod 16 * 4 + c / 64)) (enc_char (c mod 64)) = [a; b; c].
Proof.
  unfold is_byte. intros Ha Hb Hc. unfold group_value.
  assert (0 <= a / 4 < 64 /\ 0 <= a mod 4 * 16 + b / 16 < 64
    /\ 0 <= b mod 16 * 4 + c / 64 < 64 /\ 0 <= c mod 64 < 64) as (H0 & H1 & H2 & H3)
    by (Z.to_euclidean_division_equations; lia).
  rewrite !getCode_enc by done.
  destruct (group_check _ _ H0 H1) as (-> & _ & _).
  destruct (group_check _ _ H1 H2) as (_ & -> & _).
  destruct (group_check _ _ H2 H3) as (_ & _ & ->).
  repeat f_equal; Z.to_euclidean_division_equations; lia.
Qed.

Definition b64_padding (s : bytes) : nat := ((3 - length s mod 3) mod 3)%nat.

Lemma list3_ind (P : bytes -> Prop) :
  P [] -> (forall a, P [a]) -> (forall a b, P [a; b]) ->
  (forall a b c s, P s -> P (a :: b :: c :: s)) -> forall s, P s.
Proof.
  intros P0 P1 P2 P3. fix IH 1. intros [|a [|b [|c s]]]; [done..|].
  apply P3, IH.
Qed.

Lemma enc_group_clean a b c :
  is_byte a -> is_byte b -> is_byte c -> Forall (fun x => x <> 0) (enc_group a b c).
Proof.
  unfold is_byte. intros Ha Hb Hc. assert (0 <= a / 4 < 64 /\ 0 <= a mod 4 * 16 + b / 16 < 64
    /\ 0 <= b mod 16 * 4 + c / 64 < 64 /\ 0 <= c mod 64 < 64)
    as (H0 & H1 & H2 & H3) by (Z.to_euclidean_division_equations; lia).
  pose proof (enc_char_pos _ H0). pose proof (enc_char_pos _ H1).
  pose proof (enc_char_pos _ H2). pose proof (enc_char_pos _ H3).
  unfold enc_group. repeat constructor; lia.
Qed.

(** The encoded text is made of whole groups without NUL, and decodes to the
    original followed by one zero per missing byte. *)
Lemma b64_encode_spec s :
  Forall is_byte s ->
  b64_decode (b64_encode s) = s ++ replicate (b64_padding s) 0
  /\ Nat.divide 4 (length (b64_encode s))
  /\ Forall (fun x => x <> 0) (b64_encode s)
  /\ (s <> [] -> b64_encode s <> []).
Proof.
  assert (is_byte 0) as H0 by (unfold is_byte; lia).
  induction s as [|a|a b|a b c s IH] using list3_ind; intros Hs;
    repeat match goal with H : Forall is_byte (_ :: _) |- _ => inversion H; subst; clear H end.
  - split_and!; try done. by exists 0%nat.
  - pose proof (group_value_enc a 0 0 ltac:(done) H0 H0) as G.
    pose proof (enc_group_clean a 0 0 ltac:(done) H0 H0) as N.
    split_and!; [exact G | by exists 1%nat | | done].
    inversion N as [|? ? N1 N']; inversion N'; subst. repeat constructor; done.
  - pose proof (group_value_enc a b 0 ltac:(done) ltac:(done) H0) as G.
    pose proof (enc_group_clean a b 0 ltac:(done) ltac:(done) H0) as N.
    split_and!; [exact G | by exists 1%nat | | done].
    repeat match goal with H : Forall _ (_ :: _) |- _ => inversion H; subst; clear H end.
    inversion N as [|? ? N1 N']; inversion N' as [|? ? N2 N'']; inversion N''; subst.
    repeat constructor; done.
  - destruct (IH ltac:(done)) as (D & [k Hk] & N & _). split_and!; [| |by apply Forall_app; auto using enc_group_clean|done].
    + cbn [b64_encode b64_decode enc_group app]. rewrite D, group_value_enc by done.
      replace (b64_padding (a :: b :: c :: s)) with (b64_padding s); [done|].
      unfold b64_padding. cbn [length].
      replace (S (S (S (length s)))) with (length s + 1 * 3)%nat by lia.
      by rewrite Nat.Div0.mod_add.
    + exists (S k). cbn [b64_encode]. rewrite length_app, Hk. simpl. lia.
Qed.

Lemma b64_decode_length s k : length s = (k * 4)%nat -> length (b64_decode s) = (k * 3)%nat.
Proof.
  revert s. induction k as [|k IH]; intros s H.
  - by destruct s.
  - destruct s as [|? [|? [|? [|? s]]]]; try (simpl in H; lia).
    cbn [b64_decode]. rewrite length_app, IH by (simpl in H; lia). simpl. lia.
Qed.

(** Running off the end of a text that is not made of whole groups. *)
Lemma decode64_overread fuel m res g s encoded :
  encoded = length g -> 0 ∉ s -> ~ Nat.divide 4 (length s) ->
  decode64_loop fuel m res (g ++ s ++ [0]) encoded = None.
Proof.
  revert m res g s encoded.
  induction fuel as [|f IH]; intros m res g s encoded -> H0 Hd; [done|].
  cbn [decode64_loop]. destruct s as [|g0 s]; [exfalso; apply Hd; by exists 0%nat|].
  cbn [app]. mem_step. rewrite not_elem_of_cons in H0.
  destruct (Z.eqb_spec g0 0); [naive_solver|].
  destruct (decode4_64 m res _ _) as [m1|] eqn:E; [|done]. cbn [mbind option_bind].
  destruct (store m1 _ 0) as [m2|] eqn:E2; [|done]. cbn [mbind option_bind].
  destruct s as [|g1 [|g2 [|g3 s]]].
  - unfold decode4_64, load in E. exfalso. clear -E.
    assert ((g ++ [g0; 0]) !! (length g + 2)%nat = None) as L
      by (apply lookup_ge_None; rewrite length_app; simpl; lia).
    cbn [app] in E. rewrite lookup_mid, lookup_mid1, L in E. cbn [mbind option_bind] in E.
    repeat match goal with
    | H : context [store ?a ?b ?c] |- _ => destruct (store a b c); [cbn [mbind option_bind] in H|done]
    | H : context [?a !! ?b] |- _ => destruct (a !! b); [cbn [mbind option_bind] in H|done]
    end. done.
  - unfold decode4_64, load in E. exfalso. clear -E.
    assert ((g ++ [g0; g1; 0]) !! (length g + 3)%nat = None) as L
      by (apply lookup_ge_None; rewrite length_app; simpl; lia).
    cbn [app] in E. rewrite lookup_mid, lookup_mid1, lookup_mid2, L in E. cbn [mbind option_bind] in E.
    repeat match goal with
    | H : context [store ?a ?b ?c] |- _ => destruct (store a b c); [cbn [mbind option_bind] in H|done]
    | H : context [?a !! ?b] |- _ => destruct (a !! b); [cbn [mbind option_bind] in H|done]
    end. done.
  - destruct f as [|f]; [done|]. cbn [decode64_loop].
    assert ((g ++ g0 :: [g1; g2] ++ [0]) !! (length g + 4)%nat = None) as L
      by (apply lookup_ge_None; rewrite length_app; simpl; lia).
    unfold load. by rewrite L.
  - replace (g ++ g0 :: (g1 :: g2 :: g3 :: s) ++ [0]) with ((g ++ [g0; g1; g2; g3]) ++ s ++ [0])
      by (by rewrite <-app_assoc).
    apply IH; [rewrite length_app; simpl; lia | set_solver|].
    intros [k Hk]. apply Hd. exists (S k). simpl. lia.
Qed.

(** Whatever is decoded, the characters read are there, and a NUL is put behind
    three bytes for every four of them. *)
Lemma decode4_64_reads m res e group m' :
  decode4_64 m res e group = Some m' -> (group + 3 < length e)%nat.
Proof.
  unfold decode4_64. intros E.
  repeat match type of E with
  | (mbind _ ?o) = Some _ =>
      let L := fresh "L" in destruct o as [?|] eqn:L; [|discriminate E]; cbn [mbind option_bind] in E; cbv zeta in E
  end.
  match goal with L : load _ (_ + 3) = Some _ |- _ => by apply lookup_lt_Some in L end.
Qed.

Lemma decode64_loop_nul fuel : forall m res e encoded m' c,
  load e encoded = Some c -> c <> 0 -> decode64_loop fuel m res e encoded = Some m' ->
  exists q, m' !! q = Some 0 /\ (res < q)%nat /\ (4 * (q - res) <= 3 * (length e - encoded))%nat.
Proof.
  induction fuel as [|f IH]; intros m res e encoded m' c Hc Hn E; [done|]. cbn [decode64_loop] in E.
  rewrite Hc in E. cbn [mbind option_bind] in E. destruct (Z.eqb_spec c 0); [done|].
  destruct (decode4_64 m res e encoded) as [m1|] eqn:E1; [|done]. cbn [mbind option_bind] in E.
  apply decode4_64_reads in E1.
  destruct (store m1 (res + 3) 0) as [m2|] eqn:E2; [|done]. cbn [mbind option_bind] in E.
  destruct (load e (encoded + 4)) as [c2|] eqn:Hc2.
  2:{ destruct f; [done|]. cbn [decode64_loop] in E. by rewrite Hc2 in E. }
  destruct (decide (c2 = 0)) as [->|Hn2].
  - destruct f as [|f]; [done|]. cbn [decode64_loop] in E. rewrite Hc2 in E. injection E as <-.
    exists (res + 3)%nat. split; [|lia]. unfold store in E2.
    destruct (Nat.ltb_spec (res + 3) (length m1)); [|done]. injection E2 as <-. by rewrite list_lookup_insert_eq.
  - destruct (IH _ _ _ _ _ _ Hc2 Hn2 E) as (q & Hq & Hr & Hb). exists q. split; [done | lia].
Qed.

(** ** Properties *)

(** C31: decoding is the inverse of base64 encoding: whatever non-empty text
    without NUL is encoded, [decode64] leaves exactly that text, NUL-terminated,
    in a result buffer of the documented size (three bytes for four characters,
    plus one), without touching what is around the buffer. *)
Theorem decode64_encode pre buf post s
    (Hne : s <> []) (Hb : Forall is_byte s) (Hs : 0 ∉ s)
    (Hbuf : length buf = (length (b64_encode s) / 4 * 3 + 1)%nat) :
  exists out,
    decode64 (pre ++ buf ++ post) (length pre) (b64_encode s ++ [0]) 0
    = Some (pre ++ out ++ post)
    /\ length out = length buf
    /\ cstr_at (pre ++ out ++ post) (length pre) = Some s.
Proof.
  destruct (b64_encode_spec s Hb) as (D & [k Hk] & N & Ne).
  rewrite Hk, Nat.div_mul in Hbuf by done.
  pose proof (b64_decode_length _ _ Hk) as Ld.
  destruct (exists_last (l := buf)) as (old & x & ->); [intros ->; simpl in Hbuf; lia|].
  rewrite length_app in Hbuf. simpl in Hbuf.
  exists (b64_decode (b64_encode s) ++ [0]). split_and!.
  - unfold decode64. rewrite <-app_assoc. cbn [app].
    rewrite (decode64_run _ pre old x post [] (b64_encode s) [] _ _ 0);
      [|done|done|done|len| |by exists k|lia].
    + rewrite <-app_assoc. cbn [app]. destruct (b64_encode s); [by destruct (Ne Hne)|done].
    + intros H0. rewrite Forall_forall in N. by apply (N 0).
  - rewrite !length_app, Ld. simpl. lia.
  - rewrite D. destruct (b64_padding s) as [|n]; simpl; rewrite <-!app_assoc;
      by apply cstr_at_app.
Qed.

Lemma decode64_encode_witness :
  exists out,
    decode64 ([7] ++ replicate 10 1 ++ [7; 7]) 1 (b64_encode (bs "user:pass") ++ [0]) 0
    = Some ([7] ++ out ++ [7; 7])
    /\ length out = 10%nat
    /\ cstr_at ([7] ++ out ++ [7; 7]) 1 = Some (bs "user:pass").
Proof.
  apply (decode64_encode [7] (replicate 10 1) [7; 7] (bs "user:pass")).
  - discriminate.
  - unfold is_byte. repeat constructor; lia.
  - by_decision.
  - reflexivity.
Defined.

(** The decoder moves four characters at a time and only looks for the
    terminator at the start of a group: on a text whose length is not a
    multiple of four it reads beyond the terminator, out of the text's buffer,
    whatever the result buffer is. *)
Theorem decode64_overreads m result s
    (Hs : 0 ∉ s) (Hlen : ~ Nat.divide 4 (length s)) :
  decode64 m result (s ++ [0]) 0 = None.
Proof. apply (decode64_overread _ m result [] s 0); done. Qed.

Lemma decode64_overreads_witness :
  decode64 (replicate 600 0) 0 (bs "dXNlcg" ++ [0]) 0 = None.
Proof.
  apply (decode64_overreads (replicate 600 0) 0 (bs "dXNlcg")).
  - by_decision.
  - simpl. intros [k Hk]. lia.
Defined.
