(* ===== verification/Utils.v ===== *)
(** * Header fields, name encodings and directory listings (utils.c)

    [get_param_value] looks a header field up, [uri_encode] and [html_encode]
    prepare file names for a listing, [list_dir] writes the listing into a
    buffer. *)
From S2P Require Export MyString.

(** ** Definitions *)

(** The result of the call and the caller's buffer [buf] afterwards. *)
Definition get_param_value (m : bytes) (http_param : nat) (parameter : bytes)
    (buf : bytes) (size param_len : Z) : option (bool * bytes) :=
  val ← strstr m http_param parameter;
  match val with
  | None => Some (false, buf)
  | Some val =>
      let val := (val + Z.to_nat (param_len + 2))%nat in
      field_end ← strstr m val CRLF;
      match field_end with
      | None => Some (false, buf)
      | Some field_end =>
          let l := (field_end - val)%nat in
          if Z.of_nat l + 1 <? size then
            buf ← write_at buf 0 (take l (drop val m));
            buf ← store buf l 0;
            Some (true, buf)
          else Some (false, buf)
      end
  end.

(** The characters [uri_encode] escapes. *)
Definition uri_forbidden (c : Z) : bool :=
  in_set (bs "!*'();:@&=+$,/?#[]%><" ++ QUOTE ++ bs " \") c.

(** [sprintf] of one character with the format chosen by the [switch]. *)
Definition uri_enc_char (c : Z) : bytes :=
  if uri_forbidden c then chr "%" :: hex02 (to_u32 (schar c)) else [c].

Fixpoint uri_encode_loop (dest : bytes) (size rlen : Z) (origin : bytes) : option bytes :=
  match origin with
  | [] => Some dest
  | c :: r =>
      if to_u64 (size - rlen) <=? 2 then Some dest
      else
        dest ← write_at dest (Z.to_nat rlen) (uri_enc_char c ++ [0]);
        uri_encode_loop dest size (rlen + Z.of_nat (length (uri_enc_char c))) r
  end.

Definition uri_encode (dest : bytes) (size : Z) (origin : bytes) : option bytes :=
  if size =? 0 then Some dest
  else dest ← store dest 0 0; uri_encode_loop dest size 0 origin.

(** The replacement text the [switch] of [html_encode] chooses. *)
Definition html_code (c : Z) : bytes :=
  if c =? chr "&" then bs "&amp;"
  else if c =? chr "<" then bs "&lt;"
  else if c =? chr ">" then bs "&gt;"
  else if c =? chr " " then bs "&nbsp;"
  else if c =? 34 then bs "&quot;"
  else [c].

Fixpoint html_encode_loop (dest : bytes) (size len : Z) (origin : bytes) : option bytes :=
  match origin with
  | [] => Some dest
  | c :: r =>
      let codesize := Z.of_nat (length (html_code c)) in
      if size <=? len + codesize then Some dest
      else
        dest ← write_at dest (Z.to_nat len) (html_code c ++ [0]);
        html_encode_loop dest size (len + codesize) r
  end.

Definition html_encode (dest : bytes) (size : Z) (origin : bytes) : option bytes :=
  if size =? 0 then Some dest
  else dest ← store dest 0 0; html_encode_loop dest size 0 origin.

(** *** The directory listing *)

Definition HTMLHEAD : bytes :=
  bs "<!DOCTYPE HTML PUBLIC " ++ QUOTE ++ bs "-//W3C//DTD HTML 4.01 Transitional//EN"
  ++ QUOTE ++ bs ">" ++ [LF]
  ++ bs "<html><head><meta http-equiv=" ++ QUOTE ++ bs "Content-Type" ++ QUOTE
  ++ bs " content=" ++ QUOTE ++ bs "text/html; charset=UTF-8" ++ QUOTE ++ bs " />"
  ++ bs "<title>weborf</title>"
  ++ bs "<style type=" ++ QUOTE ++ bs "text/css" ++ QUOTE
  ++ bs ">a, a:active {text-decoration: none; color: blue;}a:visited {color: #48468F;}"
  ++ bs "a:hover, a:focus {text-decoration: underline; color: red;}body {background-color: #F5F5F5;}"
  ++ bs "h2 {margin-bottom: 12px;}table {margin-left: 12px;}th, td { font: 90% monospace; text-align: left;}"
  ++ bs "th { font-weight: bold; padding-right: 14px; padding-bottom: 3px;}td {padding-right: 14px;}"
  ++ bs "td.s, th.s {text-align: right;}div.list { background-color: white; border-top: 1px solid #646464;"
  ++ bs "border-bottom: 1px solid #646464; padding-top: 10px; padding-bottom: 14px;}div.foot { font: 80% sans-serif; color: #787878; padding-top: 4px;}</style>"
  ++ bs "</head><body><h4>weborf</h4><div class=" ++ QUOTE ++ bs "list" ++ QUOTE ++ bs ">".

Definition HTMLFOOT : bytes :=
  bs "</div><div class=" ++ QUOTE ++ bs "foot" ++ QUOTE ++ bs ">" ++ SIGNATURE
  ++ bs "</div></body></html>".

Definition HTMLLIGHT : bytes := bs "white".
Definition HTMLDARK : bytes := bs "#EAEAEA".
Definition HTMLPARENT : bytes := bs "#DFDFDF".

Definition list_head : bytes :=
  HTMLHEAD ++ bs "<table><tr><td></td><td>Name</td><td>Size</td><td>Last Modified</td></tr>".

Definition list_parent : bytes :=
  bs "<tr style=" ++ QUOTE ++ bs "background-color: " ++ HTMLPARENT ++ bs ";" ++ QUOTE
  ++ bs "><td>d</td><td><a href=" ++ QUOTE ++ bs "../" ++ QUOTE
  ++ bs ">../</a></td><td>-</td><td>-</td></tr>".

Definition list_foot : bytes := bs "</table>" ++ HTMLFOOT.

(** The scaled size and its unit. *)
Definition scale_size (size : Z) : Z * bytes :=
  if size <? 1024 then (size, bs " B")
  else let size := size / 1024 in
    if size <? 1024 then (size, bs " KiB")
    else let size := size / 1024 in
      if size <? 1024 then (size, bs " MiB")
      else (size / 1024, bs " GiB").

Definition file_row (color escaped_dname name_html : bytes) (size : Z) (last_modified : bytes)
    : bytes :=
  let '(sz, measure) := scale_size (to_u64 size) in
  bs "<tr style=" ++ QUOTE ++ bs "background-color: " ++ color ++ bs ";" ++ QUOTE
  ++ bs "><td>f</td><td><a href=" ++ QUOTE ++ escaped_dname ++ QUOTE ++ bs ">" ++ name_html
  ++ bs "</a></td><td>" ++ dec_u sz ++ measure ++ bs "</td><td>" ++ last_modified
  ++ bs "</td></tr>" ++ [LF].

Definition dir_row (escaped_dname name_html last_modified : bytes) : bytes :=
  bs "<tr style=" ++ QUOTE ++ bs "background-color: #DFDFDF;" ++ QUOTE
  ++ bs "><td>d</td><td><a href=" ++ QUOTE ++ escaped_dname ++ bs "/" ++ QUOTE ++ bs ">"
  ++ name_html ++ bs "/</a></td><td>-</td><td>" ++ last_modified ++ bs "</td></tr>" ++ [LF].

(** State of the loop of [list_dir]. *)
Record list_state := mkls {
  ls_html : bytes;
  ls_pagesize : Z;
  ls_maxsize : Z;
  ls_errcode : Z;
  ls_prop : stat_t;
}.

(** [printf_s = snprintf(html+pagesize, maxsize, ..)], then the two updates;
    [maxsize] is converted to [size_t]. *)
Definition list_print (row : bytes) (s : list_state) : option list_state :=
  '(html, n) ← snprintf s.(ls_html) (Z.to_nat s.(ls_pagesize))
                 (Z.to_nat (to_u64 s.(ls_maxsize))) row;
  Some (mkls html (s.(ls_pagesize) + n) (s.(ls_maxsize) - n) s.(ls_errcode) s.(ls_prop)).

(** [path], the name of an entry in a buffer of [INBUFFER] bytes. *)
Definition dirent_path (strfile d_name : bytes) : bytes :=
  take (INBUFFER - 1) (strfile ++ bs "/" ++ d_name).

Section ListDir.
(** [localtime_r] and [strftime] of a modification time; [stat], which fails
    with [None] and then leaves [f_prop] as it was; the results of the two
    calls of [malloc], behind which the names are encoded without a test; the
    name of the directory. *)
Context (strftime : Z -> bytes).
Context (stat : bytes -> option stat_t).
Context (name_html_ok escaped_dname_ok : bool).
Context (strfile : bytes).

Definition list_entry (i : nat) (d_name : bytes) (s : list_state) : option list_state :=
  if (if head d_name is Some 46 then true else false) || negb (s.(ls_errcode) =? 0)
  then Some s
  else
    let prop := default s.(ls_prop) (stat (dirent_path strfile d_name)) in
    let s := mkls s.(ls_html) s.(ls_pagesize) s.(ls_maxsize) s.(ls_errcode) prop in
    let f_mode := prop.(st_mode) in
    let last_modified := strftime prop.(st_mtime) in
    nh ← (if name_html_ok
          then html_encode (replicate ESCAPED_FNAME_LEN 0) (Z.of_nat ESCAPED_FNAME_LEN) d_name
          else None);
    ue ← (if escaped_dname_ok
          then uri_encode (replicate ESCAPED_FNAME_LEN 0) (Z.of_nat ESCAPED_FNAME_LEN) d_name
          else None);
    let name_html := cstr_prefix nh in
    let escaped_dname := cstr_prefix ue in
    s ← (if S_ISREG f_mode then
           let color := if Nat.even i then HTMLLIGHT else HTMLDARK in
           list_print (file_row color escaped_dname name_html prop.(st_size) last_modified) s
         else if S_ISDIR f_mode then
           list_print (dir_row escaped_dname name_html last_modified) s
         else Some s);
    Some (if s.(ls_maxsize) <=? 0
          then mkls s.(ls_html) s.(ls_pagesize) s.(ls_maxsize) (-2) s.(ls_prop) else s).

Fixpoint list_entries (i : nat) (names : list bytes) (s : list_state) : option list_state :=
  match names with
  | [] => Some s
  | d_name :: names => s ← list_entry i d_name s; list_entries (S i) names s
  end.

(** [namelist] is what [scandir] returned, [None] when it failed; [prop0] is
    what the uninitialised [f_prop] holds. *)
Definition list_dir (namelist : option (list bytes)) (html : bytes) (bufsize : Z)
    (parent : bool) (prop0 : stat_t) : option (Z * bytes) :=
  match namelist with
  | None => Some (-1, html)
  | Some names =>
      s ← list_print list_head (mkls html 0 (bufsize - 1) 0 prop0);
      s ← (if parent then list_print list_parent s else Some s);
      s ← list_entries 0 names s;
      if s.(ls_errcode) =? 0 then
        s ← list_print list_foot s;
        Some (s.(ls_pagesize), s.(ls_html))
      else Some (s.(ls_errcode), s.(ls_html))
  end.
End ListDir.

(** ** Specifications *)

Definition uri_enc (s : bytes) : bytes := flat_map uri_enc_char s.
Definition html_enc (s : bytes) : bytes := flat_map html_code s.

(** The names as a listing shows them: encoded into the scratch buffers. *)
Definition shown_name (name : bytes) : option bytes :=
  cstr_prefix <$> html_encode (replicate ESCAPED_FNAME_LEN 0) (Z.of_nat ESCAPED_FNAME_LEN) name.

(** An entry of a directory with what [stat] says of it, [None] when it fails. *)
Record dirent_t := mkdirent {
  d_name : bytes;
  de_stat : option stat_t;
}.

(** The entries [scandir] has named. *)
Definition entries_of (stat : bytes -> option stat_t) (strfile : bytes) (names : list bytes) : list dirent_t :=
  map (fun n => mkdirent n (stat (dirent_path strfile n))) names.

Section ListSpec.
Context (strftime : Z -> bytes).

(** The row of an entry whose status is [prop]; nothing for a hidden file or
    for what is neither a file nor a directory. *)
Definition entry_row (i : nat) (prop : stat_t) (name : bytes) : bytes :=
  if (if head name is Some 46 then true else false) then []
  else
    let shown := default [] (shown_name name) in
    if S_ISREG prop.(st_mode) then
      file_row (if Nat.even i then HTMLLIGHT else HTMLDARK) (uri_enc name) shown
        prop.(st_size) (strftime prop.(st_mtime))
    else if S_ISDIR prop.(st_mode) then
      dir_row (uri_enc name) shown (strftime prop.(st_mtime))
    else [].

Fixpoint list_rows (i : nat) (es : list dirent_t) : bytes :=
  match es with
  | [] => []
  | e :: es => entry_row i (default (mkstat 0 0 0 0 0) e.(de_stat)) e.(d_name)
               ++ list_rows (S i) es
  end.

Definition list_page (parent : bool) (es : list dirent_t) : bytes :=
  list_head ++ (if parent then list_parent else []) ++ list_rows 0 es ++ list_foot.
End ListSpec.

(** The value [get_param_value] finds in the header text [h]. *)
Definition field_value (parameter h : bytes) : option bytes :=
  i ← find_sub parameter h;
  let r := drop (i + length parameter + 2) h in
  j ← find_sub CRLF r;
  Some (take j r).


(** ** Lemmas: header fields *)

(** A field name: not empty, no line end in it. *)
Definition field_name (p : bytes) : Prop := p <> [] /\ CR ∉ p /\ LF ∉ p.

(** The end of an occurrence leaves room for the two characters that
    [get_param_value] skips, because the header text ends with a line end. *)
Lemma field_name_room p h i :
  field_name p -> find_sub p (h ++ CRLF) = Some i ->
  (i + length p + 2 <= length (h ++ CRLF))%nat.
Proof.
  intros (Hne & Hcr & Hlf) H. pose proof (find_sub_bound _ _ _ H) as Hb.
  apply find_sub_Some in H as [H _].
  rewrite length_app in *. change (length CRLF) with 2%nat in *.
  assert (length p <> 0)%nat by (by destruct p).
  destruct (Nat.le_gt_cases (i + length p) (length h)) as [|Hgt]; [lia|].
  exfalso.
  (* the last character of the occurrence is one of the two of the line end *)
  set (k := (length p - 1)%nat).
  destruct (lookup_lt_is_Some_2 p k ltac:(lia)) as [x Hx].
  assert ((h ++ CRLF) !! (i + k)%nat = Some x) as Hl.
  { rewrite H. rewrite lookup_app_r by (rewrite length_take; lia).
    rewrite length_take, length_app. change (length CRLF) with 2%nat.
    replace (i + k - i `min` (length h + 2))%nat with k by lia.
    rewrite lookup_app_l by lia. exact Hx. }
  rewrite lookup_app_r in Hl by lia.
  apply list_elem_of_lookup_2 in Hx.
  assert (i + k - length h = 0 \/ i + k - length h = 1)%nat as [E|E] by lia;
    rewrite E in Hl; injection Hl as <-; done.
Qed.

Lemma drop_split_tail (h : bytes) post k :
  (k <= length h)%nat -> drop k (h ++ post) = drop k h ++ post.
Proof. apply drop_app_le. Qed.

Lemma not_elem_of_drop {A} (x : A) k l : x ∉ l -> x ∉ drop k l.
Proof. intros H Hin. apply H. rewrite <-(take_drop k l). set_solver. Qed.

Lemma not_elem_of_take {A} (x : A) k l : x ∉ l -> x ∉ take k l.
Proof. intros H Hin. apply H. rewrite <-(take_drop k l). set_solver. Qed.

Lemma field_value_length p h v : field_value p h = Some v -> (length v <= length h)%nat.
Proof.
  unfold field_value. destruct (find_sub p h); [|done]. simpl.
  destruct (find_sub CRLF _); [|done]. intros [= <-].
  rewrite length_take, length_drop. lia.
Qed.

(** Every access of the look-up is inside the header text, and the result is
    [field_value] when it fits the buffer. *)
Lemma get_param_value_run pre h post p buf size hp :
  hp = length pre -> 0 ∉ h -> field_name p -> (size <= Z.of_nat (length buf)) ->
  get_param_value (pre ++ (h ++ CRLF) ++ 0 :: post) hp p buf size (Z.of_nat (length p))
  = Some (match field_value p (h ++ CRLF) with
          | Some v => if Z.of_nat (length v) + 1 <? size
                      then (true, v ++ 0 :: drop (S (length v)) buf) else (false, buf)
          | None => (false, buf)
          end).
Proof.
  intros -> H0 Hp Hsz. unfold get_param_value, field_value.
  assert (0 ∉ h ++ CRLF) as H0' by (unfold CRLF; set_solver).
  rewrite strstr_app by done. cbn [mbind option_bind].
  destruct (find_sub p (h ++ CRLF)) as [i|] eqn:E; [|done].
  cbn [mbind option_bind fmap option_fmap option_map].
  pose proof (field_name_room _ _ _ Hp E) as Hroom.
  set (H := h ++ CRLF) in *. clearbody H.
  replace (length pre + i + Z.to_nat (Z.of_nat (length p) + 2))%nat
    with (length (pre ++ take (i + length p + 2) H))
    by (rewrite length_app, length_take; lia).
  set (k := (i + length p + 2)%nat) in *.
  replace (pre ++ H ++ 0 :: post) with ((pre ++ take k H) ++ drop k H ++ 0 :: post)
    by (rewrite <-app_assoc, (app_assoc (take k H)), take_drop; done).
  rewrite strstr_app by (done || by apply not_elem_of_drop). cbn [mbind option_bind].
  destruct (find_sub CRLF (drop k H)) as [j|] eqn:Ej; [|done].
  cbn [mbind option_bind fmap option_fmap option_map]. cbv zeta.
  rewrite Nat.add_comm, Nat.add_sub.
  pose proof (find_sub_bound _ _ _ Ej) as Hj.
  rewrite drop_app_length.
  assert (take j (drop k H ++ 0 :: post) = take j (drop k H)) as -> by (apply take_app_le; lia).
  set (v := take j (drop k H)).
  assert (length v = j) as Lv by (subst v; rewrite length_take; lia). rewrite Lv.
  destruct (Z.ltb_spec (Z.of_nat j + 1) size) as [Hlt|]; [|done].
  rewrite write_at_Some by lia. cbn [mbind option_bind take app]. rewrite Lv. simpl.
  destruct (drop j buf) as [|y u] eqn:Ed.
  { apply (f_equal length) in Ed. rewrite length_drop in Ed. simpl in Ed. lia. }
  rewrite store_mid_eq by done. cbn [mbind option_bind]. do 4 f_equal.
  replace (S j) with (j + 1)%nat by lia. by rewrite <-drop_drop, Ed.
Qed.

(** ** Lemmas: encodings *)

Lemma html_code_length c : (1 <= length (html_code c) <= 6)%nat.
Proof. unfold html_code. btest; simpl; lia. Qed.

(** Text [w] is already written at the front of the buffer; the loop appends
    the encoding of some of the characters, of all when there is room. *)
Lemma html_encode_loop_run origin : forall w rest size,
  size = Z.of_nat (length w + S (length rest)) ->
  exists k rest',
    html_encode_loop (w ++ 0 :: rest) size (Z.of_nat (length w)) origin
    = Some ((w ++ html_enc (take k origin)) ++ 0 :: rest')
    /\ length ((w ++ html_enc (take k origin)) ++ 0 :: rest') = length (w ++ 0 :: rest)
    /\ (Z.of_nat (length w + length (html_enc origin)) < size -> take k origin = origin).
Proof.
  induction origin as [|c r IH]; intros w rest size ->.
  - exists 0%nat, rest. simpl. rewrite app_nil_r. done.
  - cbn [html_encode_loop]. pose proof (html_code_length c) as Hc.
    destruct (Z.leb_spec (Z.of_nat (length w + S (length rest)))
      (Z.of_nat (length w) + Z.of_nat (length (html_code c)))) as [Hle|Hgt].
    + exists 0%nat, rest. simpl. rewrite app_nil_r. split_and!; [done..|].
      intros H. exfalso. rewrite length_app in H. lia.
    + rewrite Nat2Z.id, write_at_Some by len. rewrite take_app_length. cbn [mbind option_bind].
      rewrite drop_app_add, length_app. cbn [length].
      replace (length (html_code c) + 1)%nat with (S (length (html_code c))) by lia. cbn [drop].
      replace (w ++ (html_code c ++ [0]) ++ drop (length (html_code c)) rest)
        with ((w ++ html_code c) ++ 0 :: drop (length (html_code c)) rest)
        by (by rewrite <-!app_assoc).
      rewrite <-Nat2Z.inj_add, <-length_app.
      destruct (IH (w ++ html_code c) (drop (length (html_code c)) rest)
        (Z.of_nat (length w + S (length rest)))) as (k & rest' & E & L & K);
        [rewrite length_app, length_drop; lia|].
      exists (S k), rest'. cbn [take html_enc flat_map]. rewrite E. fold (html_enc (take k r)).
      rewrite <-!app_assoc in *. split_and!; [done| |].
      * rewrite L, !length_app. cbn [length]. rewrite length_drop. lia.
      * intros H. f_equal. apply K. rewrite !length_app in *. fold (html_enc r) in H. lia.
Qed.

Lemma uri_enc_char_length c : (1 <= length (uri_enc_char c))%nat.
Proof. unfold uri_enc_char. destruct (uri_forbidden c); simpl; lia. Qed.

Lemma uri_forbidden_range c : uri_forbidden c = true -> 32 <= c < 128.
Proof.
  unfold uri_forbidden, in_set. intros H. apply existsb_exists in H as (x & Hin & E).
  apply Z.eqb_eq in E. subst x. cbn in Hin.
  repeat (destruct Hin as [<-|Hin]; [lia|]). done.
Qed.

(** An escaped character: a percent sign and two hexadecimal digits that
    [strtol] reads back. *)
Lemma hex02_back c :
  32 <= c < 128 ->
  exists a b, hex02 (to_u32 (schar c)) = [a; b] /\ a <> 37 /\ b <> 37 /\ a <> 0 /\ b <> 0
    /\ to_char (strtol [a; b] 16) = c.
Proof.
  intros Hc.
  pose proof (check_below 128 (fun c =>
    (c <? 32) || match hex02 (to_u32 (schar c)) with
    | [a; b] => negb (a =? 37) && negb (b =? 37) && negb (a =? 0) && negb (b =? 0)
                && (to_char (strtol [a; b] 16) =? c)
    | _ => false end) ltac:(vm_compute; done) c ltac:(lia)) as H.
  cbv beta in H. replace (c <? 32) with false in H by (symmetry; apply Z.ltb_ge; lia).
  rewrite orb_false_l in H.
  destruct (hex02 _) as [|a [|b [|]]]; try done. exists a, b.
  rewrite !andb_true_iff, !negb_true_iff, !Z.eqb_neq, Z.eqb_eq in H. tauto.
Qed.

Lemma uri_enc_char_spec c :
  uri_enc_char c = [c] /\ c <> 37 /\ uri_forbidden c = false
  \/ 32 <= c < 128 /\ exists a b, uri_enc_char c = [37; a; b] /\ a <> 37 /\ b <> 37
     /\ a <> 0 /\ b <> 0 /\ to_char (strtol [a; b] 16) = c.
Proof.
  unfold uri_enc_char. destruct (uri_forbidden c) eqn:E.
  - right. apply uri_forbidden_range in E. split; [done|].
    destruct (hex02_back c E) as (a & b & -> & H). by exists a, b.
  - left. split_and!; [done| |done]. by intros ->.
Qed.

(** Decoding the escapes of an encoded name gives the name back. *)
Lemma unescape_uri_enc s : unescape (uri_enc s) = s.
Proof.
  induction s as [|c s IH]; [done|]. cbn [uri_enc flat_map]. fold (uri_enc s).
  destruct (uri_enc_char_spec c) as [(-> & Hc & _)|(_ & a & b & -> & _ & _ & _ & _ & Hv)].
  - cbn [app unescape]. destruct (Z.eqb_spec c 37); [done|]. by rewrite IH.
  - cbn [app unescape Z.eqb Pos.eqb]. by rewrite Hv, IH.
Qed.

Lemma uri_enc_nonul s : 0 ∉ s -> 0 ∉ uri_enc s.
Proof.
  induction s as [|c s IH]; [done|]. rewrite not_elem_of_cons. intros [Hc Hs].
  cbn [uri_enc flat_map]. fold (uri_enc s). rewrite not_elem_of_app. split; [|by apply IH].
  destruct (uri_enc_char_spec c) as [(-> & _)|(_ & a & b & -> & _ & _ & ? & ? & _)]; set_solver.
Qed.

Lemma uri_enc_length s : (length s <= length (uri_enc s) <= 3 * length s)%nat.
Proof.
  induction s as [|c s IH]; [done|]. cbn [uri_enc flat_map]. fold (uri_enc s).
  rewrite length_app.
  destruct (uri_enc_char_spec c) as [(-> & _)|(_ & a & b & -> & _)]; simpl; lia.
Qed.

Lemma uri_encode_loop_run origin : forall w rest size,
  size = Z.of_nat (length w + S (length rest)) -> size < 2 ^ 64 ->
  (length w + 3 * length origin < length w + S (length rest))%nat ->
  exists rest',
    uri_encode_loop (w ++ 0 :: rest) size (Z.of_nat (length w)) origin
    = Some ((w ++ uri_enc origin) ++ 0 :: rest')
    /\ length ((w ++ uri_enc origin) ++ 0 :: rest') = length (w ++ 0 :: rest).
Proof.
  induction origin as [|c r IH]; intros w rest size -> Hsz Hroom.
  - exists rest. simpl. rewrite app_nil_r. done.
  - cbn [uri_encode_loop]. simpl in Hroom. rewrite to_u_small by lia.
    destruct (Z.leb_spec (Z.of_nat (length w + S (length rest)) - Z.of_nat (length w)) 2); [lia|].
    assert (length (uri_enc_char c) <= 3)%nat as Hc
      by (destruct (uri_enc_char_spec c) as [(-> & _)|(_ & a & b & -> & _)]; simpl; lia).
    rewrite Nat2Z.id, write_at_Some by len. rewrite take_app_length. cbn [mbind option_bind].
    rewrite drop_app_add, length_app. cbn [length].
    replace (length (uri_enc_char c) + 1)%nat with (S (length (uri_enc_char c))) by lia. cbn [drop].
    replace (w ++ (uri_enc_char c ++ [0]) ++ drop (length (uri_enc_char c)) rest)
      with ((w ++ uri_enc_char c) ++ 0 :: drop (length (uri_enc_char c)) rest)
      by (by rewrite <-!app_assoc).
    rewrite <-Nat2Z.inj_add, <-length_app.
    destruct (IH (w ++ uri_enc_char c) (drop (length (uri_enc_char c)) rest)
      (Z.of_nat (length w + S (length rest)))) as (rest' & E & L);
      [rewrite length_app, length_drop; lia | done | rewrite length_app, length_drop; lia|].
    exists rest'. cbn [uri_enc flat_map]. rewrite E. fold (uri_enc r).
    rewrite <-!app_assoc in *. split; [done|].
    rewrite L, !length_app. cbn [length]. rewrite length_drop. lia.
Qed.

(** ** Lemmas: the listing *)

Lemma html_encode_run dest size origin :
  size = Z.of_nat (length dest) -> 0 < size ->
  exists k rest,
    html_encode dest size origin = Some (html_enc (take k origin) ++ 0 :: rest)
    /\ length (html_enc (take k origin) ++ 0 :: rest) = length dest
    /\ (Z.of_nat (length (html_enc origin)) < size -> take k origin = origin).
Proof.
  intros -> Hpos. unfold html_encode. destruct (Z.eqb_spec (Z.of_nat (length dest)) 0); [lia|].
  destruct dest as [|x dest]; [simpl in Hpos; lia|].
  rewrite (store_mid [] x dest). cbn [mbind option_bind app].
  destruct (html_encode_loop_run origin [] dest (Z.of_nat (length (x :: dest))))
    as (k & rest & E & L & K); [done|].
  exists k, rest. cbn [app] in *. change (to_char 0) with 0. split_and!; done.
Qed.

Lemma uri_encode_run dest size origin :
  size = Z.of_nat (length dest) -> size < 2 ^ 64 ->
  (3 * length origin < length dest)%nat ->
  exists rest,
    uri_encode dest size origin = Some (uri_enc origin ++ 0 :: rest)
    /\ length (uri_enc origin ++ 0 :: rest) = length dest.
Proof.
  intros -> Hsz Hroom. unfold uri_encode.
  destruct (Z.eqb_spec (Z.of_nat (length dest)) 0); [lia|].
  destruct dest as [|x dest]; [simpl in Hroom; lia|].
  rewrite (store_mid [] x dest). cbn [mbind option_bind app].
  destruct (uri_encode_loop_run origin [] dest (Z.of_nat (length (x :: dest))))
    as (rest & E & L); [done|done|simpl in *; lia|].
  exists rest. done.
Qed.

Lemma html_code_nonul c : c <> 0 -> 0 ∉ html_code c.
Proof. intros. unfold html_code. btest; rewrite ?elem_of_cons, ?elem_of_nil; naive_solver. Qed.

Lemma html_enc_nonul s : 0 ∉ s -> 0 ∉ html_enc s.
Proof.
  induction s as [|c s IH]; [done|]. rewrite not_elem_of_cons. intros [Hc Hs].
  cbn [html_enc flat_map]. fold (html_enc s). rewrite not_elem_of_app.
  split; [by apply html_code_nonul | by apply IH].
Qed.

(** A row that fits is appended whole. *)
Lemma list_print_fits w rest row e p M P :
  P = Z.of_nat (length w) -> M + 1 = Z.of_nat (length rest) -> M < 2 ^ 64 ->
  Z.of_nat (length row) < M ->
  exists rest',
    list_print row (mkls (w ++ rest) P M e p)
    = Some (mkls ((w ++ row) ++ rest') (P + Z.of_nat (length row))
              (M - Z.of_nat (length row)) e p)
    /\ M - Z.of_nat (length row) + 1 = Z.of_nat (length rest').
Proof.
  intros -> HM HM2 Hr. unfold list_print. cbn [ls_html ls_pagesize ls_maxsize ls_errcode ls_prop].
  rewrite to_u_small, Nat2Z.id by lia. unfold snprintf.
  destruct (Z.to_nat M) as [|n] eqn:En; [lia|].
  rewrite take_ge by lia. rewrite write_at_Some by (rewrite !length_app; simpl; lia).
  rewrite take_app_length, drop_app_add. cbn [mbind option_bind].
  exists ([0] ++ drop (length (row ++ [0])) rest).
  rewrite <-!app_assoc. split; [done|]. len.
Qed.

(** The names an entry is shown under are encoded without leaving the scratch
    buffers. *)
Lemma shown_names name :
  0 ∉ name -> (length name <= 255)%nat ->
  exists nh ue,
    html_encode (replicate ESCAPED_FNAME_LEN 0) (Z.of_nat ESCAPED_FNAME_LEN) name = Some nh
    /\ shown_name name = Some (cstr_prefix nh)
    /\ uri_encode (replicate ESCAPED_FNAME_LEN 0) (Z.of_nat ESCAPED_FNAME_LEN) name = Some ue
    /\ cstr_prefix ue = uri_enc name.
Proof.
  intros H0 Hl.
  destruct (html_encode_run (replicate ESCAPED_FNAME_LEN 0) (Z.of_nat ESCAPED_FNAME_LEN) name)
    as (k & rest & E & _); [by rewrite length_replicate | done|].
  destruct (uri_encode_run (replicate ESCAPED_FNAME_LEN 0) (Z.of_nat ESCAPED_FNAME_LEN) name)
    as (rest' & E' & _); [by rewrite length_replicate | done
                         | rewrite length_replicate; unfold ESCAPED_FNAME_LEN; lia|].
  eexists _, _. split_and!; [exact E | unfold shown_name; by rewrite E | exact E'|].
  apply cstr_prefix_app, uri_enc_nonul. done.
Qed.

Section ListLemmas.
Context (strftime : Z -> bytes) (stat : bytes -> option stat_t) (strfile : bytes).
Abbreviation entry n := (mkdirent n (stat (dirent_path strfile n))).

(** An entry [stat] succeeded on, with a name [readdir] can return. *)
Definition good_entry (e : dirent_t) : Prop :=
  0 ∉ e.(d_name) /\ (length e.(d_name) <= 255)%nat /\ is_Some e.(de_stat).

Lemma list_entry_fits i n w rest p M P :
  good_entry (entry n) -> P = Z.of_nat (length w) -> M + 1 = Z.of_nat (length rest) -> M < 2 ^ 64 ->
  let row := entry_row strftime i (default (mkstat 0 0 0 0 0) (stat (dirent_path strfile n))) n in
  Z.of_nat (length row) < M ->
  exists rest' p',
    list_entry strftime stat true true strfile i n (mkls (w ++ rest) P M 0 p)
    = Some (mkls ((w ++ row) ++ rest') (P + Z.of_nat (length row))
              (M - Z.of_nat (length row)) 0 p')
    /\ M - Z.of_nat (length row) + 1 = Z.of_nat (length rest').
Proof.
  intros (H0 & Hl & [st Hst]) HP HM HM2. unfold list_entry, entry_row. cbn [d_name de_stat] in *.
  rewrite Hst. cbn [ls_errcode ls_html ls_pagesize ls_maxsize ls_prop default Z.eqb negb].
  destruct (if head n is Some 46 then true else false); cbn [orb].
  { intros Hr. exists rest, p. simpl. rewrite app_nil_r. simpl in *. split; [|lia].
    do 3 f_equal; lia. }
  destruct (shown_names _ H0 Hl) as (nh & ue & E1 & E2 & E3 & E4).
  rewrite E1, E2. cbn [mbind option_bind]. rewrite E3. cbn [mbind option_bind].
  rewrite E4. unfold default, from_option, id. intros Hr.
  destruct (S_ISREG (st_mode st)); [|destruct (S_ISDIR (st_mode st))].
  1,2: destruct (list_print_fits w rest _ 0 st M P HP HM HM2 Hr) as (rest' & -> & HL);
    cbn [mbind option_bind ls_maxsize ls_html ls_pagesize ls_prop ls_errcode];
    match goal with |- context [Z.leb ?a 0] => destruct (Z.leb_spec a 0); [lia|] end;
    exists rest', st; done.
  cbn [mbind option_bind ls_maxsize ls_html ls_pagesize ls_prop ls_errcode]. simpl in Hr.
  destruct (Z.leb_spec M 0); [lia|]. exists rest, st. simpl. rewrite app_nil_r.
  split; [|lia]. do 2 f_equal; lia.
Qed.

Lemma list_entries_fit names : forall i w rest p M P,
  let es := entries_of stat strfile names in
  Forall good_entry es -> P = Z.of_nat (length w) -> M + 1 = Z.of_nat (length rest) ->
  M < 2 ^ 64 -> Z.of_nat (length (list_rows strftime i es)) < M ->
  exists rest' p',
    list_entries strftime stat true true strfile i names (mkls (w ++ rest) P M 0 p)
    = Some (mkls ((w ++ list_rows strftime i es) ++ rest')
              (P + Z.of_nat (length (list_rows strftime i es)))
              (M - Z.of_nat (length (list_rows strftime i es))) 0 p')
    /\ M - Z.of_nat (length (list_rows strftime i es)) + 1 = Z.of_nat (length rest').
Proof.
  induction names as [|n names IH]; intros i w rest p M P es Hg HP HM HM2 Hr; subst es.
  - exists rest, p. simpl in *. rewrite app_nil_r. split; [|lia]. do 2 f_equal; lia.
  - inversion Hg as [|? ? He Hes]; subst. cbn [entries_of map list_rows list_entries d_name de_stat] in *.
    fold (entries_of stat strfile names) in *.
    rewrite length_app in Hr. set (row := entry_row _ _ _ _) in *.
    destruct (list_entry_fits i n w rest p M _ He eq_refl HM HM2) as (r1 & p1 & E1 & L1);
      [fold row; lia|].
    fold row in E1, L1. rewrite E1. cbn [mbind option_bind].
    destruct (IH (S i) (w ++ row) r1 p1 (M - Z.of_nat (length row))
      (Z.of_nat (length w) + Z.of_nat (length row))) as (r2 & p2 & E2 & L2);
      [done | rewrite length_app; lia | lia | lia | lia|].
    exists r2, p2. rewrite E2. rewrite length_app. split; [|lia].
    rewrite <-!app_assoc. do 2 f_equal; lia.
Qed.
End ListLemmas.

(** ** Properties *)

(** Looking a header field up is safe on every request: whatever the header
    text, as long as it ends with a line end, no byte outside the text or the
    caller's buffer is read or written; the call finds the text after the first
    occurrence of the name, two characters skipped, up to the line end, copies
    it NUL-terminated when it fits and changes nothing when it answers false. *)
Theorem get_param_value_total pre h post p buf size
    (Hh : 0 ∉ h) (Hp : field_name p) (Hbuf : size <= Z.of_nat (length buf)) :
  get_param_value (pre ++ (h ++ CRLF) ++ 0 :: post) (length pre) p buf size
    (Z.of_nat (length p))
  = Some (match field_value p (h ++ CRLF) with
          | Some v => if Z.of_nat (length v) + 1 <? size
                      then (true, v ++ 0 :: drop (S (length v)) buf) else (false, buf)
          | None => (false, buf)
          end).
Proof. by apply get_param_value_run. Qed.

Lemma get_param_value_total_witness :
  get_param_value (bs "GET" ++ (bs "HTTP/1.1" ++ CRLF ++ bs "Depth: 1" ++ CRLF) ++ [0; 10]) 3
    (bs "Depth") [9; 9; 9; 9] 4 5
  = Some (true, bs "1" ++ 0 :: [9; 9]).
Proof.
  apply (get_param_value_total (bs "GET") (bs "HTTP/1.1" ++ CRLF ++ bs "Depth: 1") [10]
           (bs "Depth") [9; 9; 9; 9] 4).
  - by_decision.
  - split; [discriminate | split; by_decision].
  - reflexivity || (vm_compute; discriminate).
Defined.

(** C30: the value of a well-formed field is returned: when the first occurrence
    of the name is at the start of a field ["Name: value"], the call answers
    true with exactly the value, if it is shorter than the buffer. *)
Theorem get_param_value_finds pre a p x y v b post buf size
    (Hh : 0 ∉ a ++ p ++ [x; y] ++ v ++ CRLF ++ b) (Hp : field_name p)
    (Hfirst : forall j, (j < length a)%nat ->
                starts_with p (drop j (a ++ p ++ [x; y] ++ v ++ CRLF ++ b ++ CRLF)) = false)
    (Hv : CR ∉ v) (Hbuf : size <= Z.of_nat (length buf))
    (Hfit : Z.of_nat (length v) + 1 < size) :
  exists buf',
    get_param_value (pre ++ (a ++ p ++ [x; y] ++ v ++ CRLF ++ b ++ CRLF) ++ 0 :: post)
      (length pre) p buf size (Z.of_nat (length p)) = Some (true, buf')
    /\ cstr_at buf' 0 = Some v.
Proof.
  set (h := a ++ p ++ [x; y] ++ v ++ CRLF ++ b) in *.
  assert (a ++ p ++ [x; y] ++ v ++ CRLF ++ b ++ CRLF = h ++ CRLF) as Eh
    by (subst h; by rewrite <-!app_assoc).
  rewrite Eh in *. rewrite get_param_value_run by done.
  assert (field_value p (h ++ CRLF) = Some v) as ->.
  { unfold field_value. rewrite <-Eh in *. rewrite find_sub_app_first by done.
    cbn [mbind option_bind].
    replace (length a + length p + 2)%nat with (length (a ++ p ++ [x; y])) by len.
    replace (a ++ p ++ [x; y] ++ v ++ CRLF ++ b ++ CRLF)
      with ((a ++ p ++ [x; y]) ++ v ++ CRLF ++ b ++ CRLF) by (by rewrite <-!app_assoc).
    rewrite drop_app_length. rewrite find_sub_app_first.
    - cbn [mbind option_bind]. by rewrite take_app_length.
    - intros j Hj. rewrite drop_app_le by lia.
      destruct (drop j v) as [|z u] eqn:E.
      { apply (f_equal length) in E. rewrite length_drop in E. simpl in E. lia. }
      cbn [app]. unfold CRLF at 1. cbn [starts_with].
      destruct (Z.eqb_spec 13 z) as [<-|]; [|done].
      exfalso. apply Hv. apply (not_elem_of_drop 13 j v) in Hv. rewrite E in Hv. set_solver. }
  destruct (Z.ltb_spec (Z.of_nat (length v) + 1) size); [|lia].
  eexists. split; [done|].
  apply (cstr_at_app [] v); [done|]. subst h. set_solver.
Qed.

Lemma get_param_value_finds_witness :
  exists buf',
    get_param_value ([] ++ ((bs "HTTP/1.1" ++ CRLF) ++ bs "Content-Length" ++ bs ": " ++ bs "42"
                       ++ CRLF ++ bs "Host: a" ++ CRLF) ++ 0 :: [1])
      0 (bs "Content-Length") (replicate NBUFFER 0) 15 14 = Some (true, buf')
    /\ cstr_at buf' 0 = Some (bs "42").
Proof.
  apply (get_param_value_finds [] (bs "HTTP/1.1" ++ CRLF) (bs "Content-Length") 58 32
           (bs "42") (bs "Host: a") [1] (replicate NBUFFER 0) 15).
  - by_decision.
  - split; [discriminate | split; by_decision].
  - intros j Hj. do 10 (destruct j as [|j]; [reflexivity|]). simpl in Hj. lia.
  - by_decision.
  - vm_compute. discriminate.
  - reflexivity.
Defined.

(** The look-up is by sub-string: the value of [If-Range] is taken for the one
    of [Range] when it comes first. *)
Example get_param_value_takes_substring :
  get_param_value ((bs "HTTP/1.1" ++ CRLF ++ bs "If-Range: 7" ++ CRLF
      ++ bs "Range: bytes=0-3" ++ CRLF) ++ [0]) 0 (bs "Range") (replicate 20 0) 20 5
  = Some (true, bs "7" ++ replicate 19 0).
Proof. reflexivity. Qed.

(** The link of a directory listing leads back to the file: [uri_encode]
    writes every name of at most 255 bytes inside its buffer, and decoding the
    escapes of what it wrote gives the name back, wherever the text is stored. *)
Theorem uri_encode_roundtrip name pre post
    (Hn : 0 ∉ name) (Hlen : (length name <= 255)%nat) (Hpost : post <> []) :
  exists dest link stale,
    uri_encode (replicate ESCAPED_FNAME_LEN 0) (Z.of_nat ESCAPED_FNAME_LEN) name = Some dest
    /\ cstr_at dest 0 = Some link
    /\ replaceEscape (pre ++ link ++ 0 :: post) (Some (length pre))
       = Some (pre ++ name ++ 0 :: stale ++ post).
Proof.
  destruct (uri_encode_run (replicate ESCAPED_FNAME_LEN 0) (Z.of_nat ESCAPED_FNAME_LEN) name)
    as (rest & E & _); [by rewrite length_replicate | done
                       | rewrite length_replicate; unfold ESCAPED_FNAME_LEN; lia|].
  pose proof (uri_enc_nonul name Hn) as H0.
  destruct (replaceEscape_run (S (length (pre ++ uri_enc name ++ 0 :: post))) pre (uri_enc name)
    post (length pre)) as (stale & R & _); [done | len | done..|].
  exists (uri_enc name ++ 0 :: rest), (uri_enc name), stale. split_and!; [done| |].
  - by apply (cstr_at_app [] (uri_enc name)).
  - unfold replaceEscape. by rewrite R, unescape_uri_enc.
Qed.

Lemma uri_encode_roundtrip_witness :
  exists dest link stale,
    uri_encode (replicate ESCAPED_FNAME_LEN 0) (Z.of_nat ESCAPED_FNAME_LEN) (bs "100% a?b") = Some dest
    /\ cstr_at dest 0 = Some link
    /\ replaceEscape (bs "/" ++ link ++ 0 :: [10]) (Some 1%nat)
       = Some (bs "/" ++ bs "100% a?b" ++ 0 :: stale ++ [10]).
Proof.
  apply (uri_encode_roundtrip (bs "100% a?b") (bs "/") [10]).
  - by_decision.
  - apply (bool_decide_unpack _). vm_compute. exact I.
  - discriminate.
Defined.

(** The room test of [uri_encode] is one byte short: with three bytes left it
    writes an escape and its NUL, four bytes. *)
Example uri_encode_overflows :
  uri_encode (replicate ESCAPED_FNAME_LEN 0) (Z.of_nat ESCAPED_FNAME_LEN)
    (replicate 765 (chr "a") ++ bs " ") = None.
Proof. vm_compute. reflexivity. Qed.

(** The characters that could end an attribute or open a tag. *)
Definition markup (c : Z) : Prop := c = chr "<" \/ c = chr ">" \/ c = 34.

(** File names cannot inject markup into a listing: for every name,
    [html_encode] stays inside its buffer and leaves a string without angle
    bracket or double quote, the encoding of a prefix of the name, and of the
    whole name when that is shorter than the buffer. *)
Theorem html_encode_inert dest name
    (Hd : dest <> []) (Hn : 0 ∉ name) :
  exists dest' out,
    html_encode dest (Z.of_nat (length dest)) name = Some dest'
    /\ length dest' = length dest
    /\ cstr_at dest' 0 = Some out
    /\ Forall (fun c => ~ markup c) out
    /\ (exists k, out = html_enc (take k name))
    /\ ((length (html_enc name) < length dest)%nat -> out = html_enc name).
Proof.
  destruct (html_encode_run dest (Z.of_nat (length dest)) name) as (k & rest & E & L & K);
    [done | destruct dest; [done | simpl; lia]|].
  exists (html_enc (take k name) ++ 0 :: rest), (html_enc (take k name)).
  split_and!; [done | done | | | by exists k | intros H; by rewrite K by lia].
  - apply (cstr_at_app [] (html_enc (take k name))); [done|].
    by apply html_enc_nonul, not_elem_of_take.
  - clear. unfold html_enc. induction (take k name) as [|c s IH]; [constructor|].
    cbn [flat_map]. apply Forall_app. split; [|done].
    unfold html_code, markup. btest; repeat constructor; lia.
Qed.

Lemma html_encode_inert_witness :
  exists dest' out,
    html_encode (replicate 20 0) (Z.of_nat (length (replicate 20 0))) (bs "<b>") = Some dest'
    /\ length dest' = length (replicate 20 0)
    /\ cstr_at dest' 0 = Some out
    /\ Forall (fun c => ~ markup c) out
    /\ (exists k, out = html_enc (take k (bs "<b>")))
    /\ ((length (html_enc (bs "<b>")) < length (replicate 20 0%Z))%nat -> out = html_enc (bs "<b>")).
Proof.
  apply (html_encode_inert (replicate 20 0) (bs "<b>")).
  - discriminate.
  - by_decision.
Defined.

Lemma list_dir_run strftime stat strfile names es html bufsize parent prop0
    (Hn : es = entries_of stat strfile names) (Hes : Forall good_entry es) (Hlen : Z.of_nat (length html) = bufsize)
    (Hmax : bufsize < 2 ^ 31)
    (Hfit : Z.of_nat (length (list_page strftime parent es)) < bufsize - 1) :
  exists rest,
    list_dir strftime stat true true strfile (Some names) html bufsize parent prop0
    = Some (Z.of_nat (length (list_page strftime parent es)),
            list_page strftime parent es ++ rest).
Proof.
  subst es. set (es := entries_of stat strfile names) in *. unfold list_page in *. unfold list_dir.
  set (par := if parent then list_parent else []) in *.
  set (rows := list_rows strftime 0 es) in *.
  rewrite !length_app in Hfit.
  destruct (list_print_fits [] html list_head 0 prop0 (bufsize - 1) 0) as (r1 & E1 & L1);
    [done | lia | lia | lia|].
  cbn [app] in E1. rewrite E1. cbn [mbind option_bind].
  assert (exists r2, (if parent then list_print list_parent
      (mkls (list_head ++ r1) (0 + Z.of_nat (length list_head))
        (bufsize - 1 - Z.of_nat (length list_head)) 0 prop0)
      else Some (mkls (list_head ++ r1) (0 + Z.of_nat (length list_head))
        (bufsize - 1 - Z.of_nat (length list_head)) 0 prop0))
    = Some (mkls ((list_head ++ par) ++ r2) (Z.of_nat (length (list_head ++ par)))
        (bufsize - 1 - Z.of_nat (length (list_head ++ par))) 0 prop0)
    /\ bufsize - 1 - Z.of_nat (length (list_head ++ par)) + 1 = Z.of_nat (length r2))
    as (r2 & E2 & L2).
  { rewrite length_app. subst par. destruct parent; cbv iota.
    - destruct (list_print_fits list_head r1 list_parent 0 prop0
        (bufsize - 1 - Z.of_nat (length list_head)) (0 + Z.of_nat (length list_head)))
        as (r2 & -> & L2); [lia | lia | lia | lia|].
      exists r2. split; [|lia]. do 2 f_equal; lia.
    - exists r1. rewrite app_nil_r. cbn [length]. split; [|lia]. do 2 f_equal; lia. }
  rewrite E2. cbn [mbind option_bind].
  destruct (list_entries_fit strftime stat strfile names 0 (list_head ++ par) r2 prop0
    (bufsize - 1 - Z.of_nat (length (list_head ++ par))) _ Hes eq_refl L2)
    as (r3 & p3 & E3 & L3); [lia | fold es rows; rewrite !length_app; lia|].
  fold es in E3, L3. fold rows in E3, L3. rewrite E3. cbn [mbind option_bind ls_errcode Z.eqb].
  destruct (list_print_fits ((list_head ++ par) ++ rows) r3 list_foot 0 p3
    (bufsize - 1 - Z.of_nat (length (list_head ++ par)) - Z.of_nat (length rows))
    (Z.of_nat (length (list_head ++ par)) + Z.of_nat (length rows)))
    as (r4 & E4 & L4); [rewrite !length_app; lia | lia | lia | rewrite !length_app; lia|].
  rewrite E4. cbn [mbind option_bind ls_pagesize ls_html].
  exists r4. rewrite <-!app_assoc, !length_app. do 2 f_equal. lia.
Qed.

(** C32: a directory listing that fits its buffer is complete: [list_dir] stays
    inside the buffer and returns the length of exactly the page made of the
    heading, the link to the parent, one row per visible file or directory in
    order, and the footer.  There is memory for the two encoded names, and
    [stat] finds each entry by its path. *)
Theorem list_dir_complete strftime stat strfile names html bufsize parent prop0 :
  let es := entries_of stat strfile names in
  Forall good_entry es -> Z.of_nat (length html) = bufsize -> bufsize < 2 ^ 31 ->
  Z.of_nat (length (list_page strftime parent es)) < bufsize - 1 ->
  exists rest,
    list_dir strftime stat true true strfile (Some names) html bufsize parent prop0
    = Some (Z.of_nat (length (list_page strftime parent es)),
            list_page strftime parent es ++ rest).
Proof. intros es. by apply list_dir_run. Qed.

(** Without memory for a name it is encoded into the NULL pointer. *)
Theorem list_entry_no_memory strftime stat strfile uri_ok i name html n m prop :
  head name <> Some 46 ->
  list_entry strftime stat false uri_ok strfile i name (mkls html n m 0 prop) = None.
Proof.
  intros Hh. unfold list_entry. cbn [ls_errcode Z.eqb negb].
  destruct (head name) as [c|]; [|done]. destruct (decide (c = 46)) as [->|Hc]; [done|].
  by replace (if c is 46 then true else false) with false by (repeat (destruct c as [|c|c]; try done)).
Qed.

(** What [stat] says of the two entries of /srv. *)
Definition sample_stat (p : bytes) : option stat_t :=
  if bool_decide (p = bs "/srv/.git") then Some (mkstat 16877 4096 5 1 1)
  else if bool_decide (p = bs "/srv/a b.txt") then Some (mkstat 33188 3000 5 2 1)
  else None.

Lemma list_dir_complete_witness :
  let names := [bs ".git"; bs "a b.txt"] in
  let page := list_page (fun _ => bs "today") true (entries_of sample_stat (bs "/srv") names) in
  exists rest,
    list_dir (fun _ => bs "today") sample_stat true true (bs "/srv") (Some names)
      (replicate 2000 0) 2000 true (mkstat 0 0 0 0 0)
    = Some (Z.of_nat (length page), page ++ rest).
Proof.
  apply (list_dir_complete (fun _ => bs "today") sample_stat (bs "/srv") [bs ".git"; bs "a b.txt"]
    (replicate 2000 0) 2000 true).
  - repeat constructor; try by_decision; vm_compute; eauto.
  - reflexivity.
  - reflexivity.
  - vm_compute. reflexivity.
Defined.

(** The footer is printed without a test of the room left: for a buffer that
    holds the heading but not the footer, [list_dir] on an empty directory
    reports success with a page size larger than the buffer. *)
Theorem list_dir_overruns strftime stat ok1 ok2 strfile html bufsize prop0
    (Hlen : Z.of_nat (length html) = bufsize)
    (Hhead : Z.of_nat (length list_head) + 1 < bufsize)
    (Hfoot : bufsize < Z.of_nat (length (list_head ++ list_foot))) :
  exists size html',
    list_dir strftime stat ok1 ok2 strfile (Some []) html bufsize false prop0 = Some (size, html')
    /\ length html' = length html /\ bufsize < size.
Proof.
  unfold list_dir. rewrite length_app in Hfoot.
  assert (Z.of_nat (length (list_head ++ list_foot)) < 2 ^ 20) as Hb by (vm_compute; done).
  rewrite length_app in Hb.
  destruct (list_print_fits [] html list_head 0 prop0 (bufsize - 1) 0) as (r1 & E1 & L1);
    [done | lia | lia | lia|].
  cbn [app] in E1. rewrite E1. cbn [mbind option_bind list_entries ls_errcode Z.eqb].
  unfold list_print. cbn [ls_html ls_pagesize ls_maxsize ls_errcode ls_prop].
  unfold snprintf. rewrite to_u_small by lia.
  destruct (Z.to_nat (bufsize - 1 - Z.of_nat (length list_head))) as [|n] eqn:En; [lia|].
  destruct (write_at _ _ _) as [html'|] eqn:Ew; cbn [mbind option_bind ls_pagesize ls_html].
  - apply write_at_length in Ew. eexists _, html'. split_and!; [done | | lia].
    rewrite Ew, length_app. lia.
  - exfalso. rewrite write_at_Some in Ew; [done|].
    rewrite !length_app, length_take. cbn [length]. lia.
Qed.

Lemma list_dir_overruns_witness :
  exists size html',
    list_dir (fun _ => []) (fun _ => None) true true [] (Some []) (replicate 950 0) 950 false (mkstat 0 0 0 0 0)
    = Some (size, html') /\ length html' = length (replicate 950 0) /\ 950 < size.
Proof.
  apply (list_dir_overruns (fun _ => []) (fun _ => None) true true [] (replicate 950 0) 950); vm_compute; reflexivity.
Defined.
