(* ===== verification/Queue.v ===== *)
(** * The synchronised queue of open sockets (queue.c)

    A ring buffer under a mutex with one condition variable for consumers.
    The critical sections of [q_put] and [q_get] are functions on the queue;
    [qstep] interleaves them between the listener and the worker threads, with
    the behaviour of condition variables POSIX allows: a signal wakes any one
    waiting thread, a thread may also wake by itself, and a woken thread
    competes with the others for the mutex. *)
From S2P Require Export Types.

(** ** Definitions *)

Record syn_queue_t := mkqueue {
  q_num : Z;
  q_size : Z;
  q_head : Z;
  q_tail : Z;
  q_data : list Z;
  n_wait_sp : Z;
  n_wait_dt : Z;
}.

(** [mem] is what [malloc] returned, its content unspecified. *)
Definition q_init (mem : option (list Z)) (size : Z) : Z * option syn_queue_t :=
  match mem with
  | None => (1, None)
  | Some data => (0, Some (mkqueue 0 size 0 0 data 0 0))
  end.

(** What a queue has obtained, and what [q_free], which is not called, gives
    back. *)
Inductive q_resource := QData | QMutex | QForSpace | QForData.

Definition q_obtained (r : Z * option syn_queue_t) : list q_resource :=
  if r.2 is Some _ then [QData; QMutex; QForSpace; QForData] else [].

Definition q_free (held : list q_resource) : list q_resource :=
  List.filter (fun x => if x is QData then false else true) held.

(** One turn of the loop of [q_get], mutex held: wait again ([None]) or take
    the value at the head. *)
Definition q_get_turn (q : syn_queue_t) : option (option Z * syn_queue_t) :=
  if q.(q_num) =? 0 then
    Some (None, mkqueue q.(q_num) q.(q_size) q.(q_head) q.(q_tail) q.(q_data)
                  q.(n_wait_sp) (q.(n_wait_dt) + 1))
  else
    val ← q.(q_data) !! Z.to_nat q.(q_head);
    Some (Some val,
          mkqueue (q.(q_num) - 1) q.(q_size) (Z.rem (q.(q_head) + 1) q.(q_size))
            q.(q_tail) q.(q_data) q.(n_wait_sp) q.(n_wait_dt)).

(** [q_put]: the return value, whether [for_data] was signalled, the queue. *)
Definition q_put (q : syn_queue_t) (val : Z) : option (Z * bool * syn_queue_t) :=
  let '(signal, w) := if 0 <? q.(n_wait_dt) then (true, q.(n_wait_dt) - 1)
                      else (false, q.(n_wait_dt)) in
  if q.(q_num) =? q.(q_size) then
    Some (1, signal, mkqueue q.(q_num) q.(q_size) q.(q_head) q.(q_tail) q.(q_data)
                       q.(n_wait_sp) w)
  else
    if (Z.to_nat q.(q_tail) <? length q.(q_data))%nat then
      Some (0, signal,
            mkqueue (q.(q_num) + 1) q.(q_size) q.(q_head)
              (Z.rem (q.(q_tail) + 1) q.(q_size))
              (<[Z.to_nat q.(q_tail) := val]> q.(q_data)) q.(n_wait_sp) w)
    else None.

(** *** The threads *)

(** [waiting]: threads blocked on [for_data]; [woken]: threads that left the
    wait and have to take the mutex again; [accepted] and [delivered] record
    the values [q_put] took and [q_get] returned, in order. *)
Record qsys := mkqsys {
  sys_q : syn_queue_t;
  waiting : list nat;
  woken : list nat;
  accepted : list Z;
  delivered : list Z;
}.

(** A consumer [t] that has the mutex makes a turn; [rest] are the woken
    threads without it. *)
Definition consume (s : qsys) (t : nat) (rest : list nat) : option qsys :=
  r ← q_get_turn s.(sys_q);
  match r with
  | (None, q) => Some (mkqsys q (t :: s.(waiting)) rest s.(accepted) s.(delivered))
  | (Some v, q) => Some (mkqsys q s.(waiting) rest s.(accepted) (s.(delivered) ++ [v]))
  end.

Inductive qstep : qsys -> qsys -> Prop :=
  | step_get s t s' :
      t ∉ s.(waiting) -> t ∉ s.(woken) ->
      consume s t s.(woken) = Some s' -> qstep s s'
  | step_retry s t l1 l2 s' :
      s.(woken) = l1 ++ t :: l2 ->
      consume s t (l1 ++ l2) = Some s' -> qstep s s'
  | step_spurious s t l1 l2 :
      s.(waiting) = l1 ++ t :: l2 ->
      qstep s (mkqsys s.(sys_q) (l1 ++ l2) (t :: s.(woken)) s.(accepted) s.(delivered))
  | step_put_silent s v ret signal q :
      q_put s.(sys_q) v = Some (ret, signal, q) ->
      signal = false \/ s.(waiting) = [] ->
      qstep s (mkqsys q s.(waiting) s.(woken)
                 (if ret =? 0 then s.(accepted) ++ [v] else s.(accepted)) s.(delivered))
  | step_put_signal s v ret q t l1 l2 :
      q_put s.(sys_q) v = Some (ret, true, q) ->
      s.(waiting) = l1 ++ t :: l2 ->
      qstep s (mkqsys q (l1 ++ l2) (t :: s.(woken))
                 (if ret =? 0 then s.(accepted) ++ [v] else s.(accepted)) s.(delivered)).

(** The states the system reaches from a queue just initialised. *)
Inductive qreach (size : Z) (mem : list Z) : qsys -> Prop :=
  | reach_init q :
      q_init (Some mem) size = (0, Some q) -> qreach size mem (mkqsys q [] [] [] [])
  | reach_step s s' : qreach size mem s -> qstep s s' -> qreach size mem s'.

(** ** Specification *)

(** The values in the queue, oldest first. *)
Definition contents (q : syn_queue_t) : list Z :=
  map (fun i => nth (Z.to_nat ((q.(q_head) + Z.of_nat i) mod q.(q_size))) q.(q_data) 0)
    (seq 0 (Z.to_nat q.(q_num))).

Record queue_wf (q : syn_queue_t) : Prop := mkwf {
  wf_size : 0 < q.(q_size);
  wf_num : 0 <= q.(q_num) <= q.(q_size);
  wf_head : 0 <= q.(q_head) < q.(q_size);
  wf_tail : q.(q_tail) = (q.(q_head) + q.(q_num)) mod q.(q_size);
  wf_data : Z.of_nat (length q.(q_data)) = q.(q_size);
  wf_wait : 0 <= q.(n_wait_dt);
}.

(** ** Lemmas *)

Lemma contents_length q : length (contents q) = Z.to_nat q.(q_num).
Proof. unfold contents. by rewrite length_map, length_seq. Qed.

Lemma mod_inj s a b : 0 < s -> a mod s = b mod s -> Z.abs (a - b) < s -> a = b.
Proof.
  intros Hs E Hab. pose proof (Z.div_mod a s). pose proof (Z.div_mod b s).
  assert (a - b = s * (a / s - b / s)) as Hd by lia.
  set (d := a / s - b / s) in *. clearbody d.
  assert (d <= -1 \/ d = 0 \/ 1 <= d) as [?|[->|?]] by lia; [nia | lia | nia].
Qed.

Lemma rem_succ s a : 0 < s -> 0 <= a < s -> Z.rem (a + 1) s = (a + 1) mod s.
Proof. intros. apply Z.rem_mod_nonneg; lia. Qed.

(** Taking: the oldest value, the rest stays. *)
Lemma q_get_turn_spec q :
  queue_wf q ->
  match contents q with
  | [] => exists q', q_get_turn q = Some (None, q') /\ queue_wf q' /\ contents q' = []
            /\ q'.(n_wait_dt) = q.(n_wait_dt) + 1 /\ q'.(q_num) = 0 /\ q'.(q_size) = q.(q_size)
  | v :: l => exists q', q_get_turn q = Some (Some v, q') /\ queue_wf q' /\ contents q' = l
            /\ q'.(n_wait_dt) = q.(n_wait_dt) /\ q'.(q_num) = q.(q_num) - 1
            /\ q'.(q_size) = q.(q_size)
  end.
Proof.
  intros [Hs Hn Hh Ht Hd Hw]. pose proof (contents_length q) as L.
  unfold q_get_turn. destruct (Z.eqb_spec q.(q_num) 0) as [E|E].
  - rewrite E in L. destruct (contents q) eqn:C; [|simpl in L; lia].
    eexists. split_and!; [done | split; simpl; first [lia | exact Ht] | | done..].
    unfold contents. simpl. by rewrite E.
  - unfold contents in *. destruct (Z.to_nat q.(q_num)) as [|n] eqn:En; [lia|].
    cbn [seq map]. rewrite Z.add_0_r, Z.mod_small by lia.
    destruct (nth_lookup_or_length q.(q_data) (Z.to_nat q.(q_head)) 0) as [Hl|]; [|lia].
    rewrite Hl. cbn [mbind option_bind]. rewrite rem_succ by done.
    eexists. split_and!; [done| | |done..].
    + split; simpl; try lia.
      * apply Z.mod_pos_bound. lia.
      * rewrite Ht, Zplus_mod_idemp_l. f_equal. lia.
    + cbn [q_head q_size q_data q_num]. replace (Z.to_nat (q_num q - 1)) with n by lia.
      rewrite <-seq_shift, map_map. apply map_ext. intros i.
      rewrite Zplus_mod_idemp_l. do 3 f_equal. lia.
Qed.

(** Putting: the value goes to the end, unless the queue is full. *)
Lemma q_put_spec q v :
  queue_wf q ->
  exists ret signal q',
    q_put q v = Some (ret, signal, q') /\ queue_wf q' /\ q'.(q_size) = q.(q_size)
    /\ (if decide (q.(q_num) = q.(q_size))
        then ret = 1 /\ contents q' = contents q /\ q'.(q_num) = q.(q_num)
        else ret = 0 /\ contents q' = contents q ++ [v] /\ q'.(q_num) = q.(q_num) + 1)
    /\ signal = (0 <? q.(n_wait_dt)) /\ q'.(n_wait_dt) = Z.max 0 (q.(n_wait_dt) - 1).
Proof.
  intros [Hs Hn Hh Ht Hd Hw]. unfold q_put.
  assert ((if 0 <? n_wait_dt q then (true, n_wait_dt q - 1) else (false, n_wait_dt q))
    = (0 <? n_wait_dt q, Z.max 0 (n_wait_dt q - 1))) as ->.
  { destruct (Z.ltb_spec 0 (n_wait_dt q)); f_equal; lia. }
  destruct (Z.eqb_spec q.(q_num) q.(q_size)) as [E|E].
  - eexists _, _, _. split_and!; [done | split; simpl; lia || done | done | | done | done].
    rewrite decide_True by done. done.
  - assert (0 <= q_tail q < q_size q) as Htail by (rewrite Ht; apply Z.mod_pos_bound; lia).
    destruct (Nat.ltb_spec (Z.to_nat (q_tail q)) (length (q_data q))); [|lia].
    rewrite rem_succ by done. eexists _, _, _. split_and!; [done| |done| |done|done].
    + split; simpl; try lia.
      * rewrite Ht, Zplus_mod_idemp_l. f_equal. lia.
      * rewrite length_insert. lia.
    + rewrite decide_False by done. split_and!; [done| |done].
      unfold contents. cbn [q_head q_size q_data q_num].
      replace (Z.to_nat (q_num q + 1)) with (Z.to_nat (q_num q) + 1)%nat by lia.
      rewrite seq_app, map_app. cbn [seq map]. rewrite Nat.add_0_l, Z2Nat.id, <-Ht by lia. f_equal.
      * apply map_ext_in. intros i Hi. apply in_seq in Hi.
        rewrite !nth_lookup, list_lookup_insert_ne; [done|]. intros Heq.
        assert ((q_head q + Z.of_nat i) mod q_size q = (q_head q + q_num q) mod q_size q) as Hm.
        { rewrite <-Ht. pose proof (Z.mod_pos_bound (q_head q + Z.of_nat i) (q_size q)). lia. }
        apply mod_inj in Hm; lia.
      * by rewrite nth_lookup, list_lookup_insert_eq.
Qed.

(** What holds in every reachable state. *)
Record sys_inv (size : Z) (s : qsys) : Prop := mkinv {
  inv_wf : queue_wf s.(sys_q);
  inv_size : s.(sys_q).(q_size) = size;
  inv_fifo : s.(accepted) = s.(delivered) ++ contents s.(sys_q);
  inv_count : Z.of_nat (length s.(waiting)) <= s.(sys_q).(n_wait_dt);
  inv_wake : s.(waiting) = [] \/ s.(sys_q).(q_num) <= Z.of_nat (length s.(woken));
}.

Lemma consume_inv size s t rest s' :
  sys_inv size s -> (length s.(woken) <= S (length rest))%nat ->
  (rest = s.(woken) \/ length s.(woken) = S (length rest)) ->
  consume s t rest = Some s' -> sys_inv size s'.
Proof.
  intros [Hwf Hsz Hf Hc Hk] _ Hr. unfold consume.
  pose proof (q_get_turn_spec _ Hwf) as T. pose proof (contents_length (sys_q s)) as L.
  destruct (contents (sys_q s)) as [|v l] eqn:C.
  - destruct T as (q' & -> & Hwf' & Hc' & Hn' & Hnum & Hsz'). cbn [mbind option_bind].
    intros [= <-]. split; cbn [sys_q waiting woken accepted delivered]; auto.
    + congruence.
    + by rewrite Hc'.
    + simpl. lia.
    + right. lia.
  - destruct T as (q' & -> & Hwf' & Hc' & Hn' & Hnum & Hsz'). cbn [mbind option_bind].
    intros [= <-]. split; cbn [sys_q waiting woken accepted delivered]; auto.
    + congruence.
    + rewrite Hf, Hc', <-app_assoc. done.
    + lia.
    + destruct Hk as [|Hk]; [by left|]. right. destruct Hr as [->|]; lia.
Qed.

Lemma qstep_inv size s s' : sys_inv size s -> qstep s s' -> sys_inv size s'.
Proof.
  intros Hinv Hstep. destruct Hstep as [s t s' H1 H2 H|s t l1 l2 s' E H|s t l1 l2 E
    |s v ret signal q Hput Hsig|s v ret q t l1 l2 Hput E].
  - eapply consume_inv; eauto.
  - assert (length (woken s) = S (length (l1 ++ l2))) as Hl
      by (rewrite E, !length_app; simpl; lia).
    eapply (consume_inv size s t (l1 ++ l2)); eauto. lia.
  - destruct Hinv as [Hwf Hsz Hf Hc Hk]. rewrite E in *.
    split; cbn [sys_q waiting woken accepted delivered]; auto.
    + rewrite length_app in *. simpl in *. lia.
    + right. destruct Hk as [Hk|Hk]; [by destruct l1|]. simpl. lia.
  - destruct Hinv as [Hwf Hsz Hf Hc Hk].
    destruct (q_put_spec _ v Hwf) as (r & sg & q' & E & Hwf' & Hsz' & Hres & Hsg & Hn').
    rewrite Hput in E. injection E as -> -> ->. split; cbn [sys_q waiting woken accepted delivered]; auto.
    + congruence.
    + destruct (decide _); destruct Hres as (-> & -> & _); simpl; [done|].
      by rewrite Hf, app_assoc.
    + destruct Hsig as [Hs|Hs]; [|rewrite Hs; simpl; lia].
      rewrite Hs in Hsg. symmetry in Hsg. apply Z.ltb_ge in Hsg. lia.
    + left. destruct Hsig as [Hs|]; [|done]. rewrite Hs in Hsg. symmetry in Hsg.
      apply Z.ltb_ge in Hsg. destruct (waiting s); [done | simpl in Hc; lia].
  - destruct Hinv as [Hwf Hsz Hf Hc Hk].
    destruct (q_put_spec _ v Hwf) as (r & sg & q' & E' & Hwf' & Hsz' & Hres & Hsg & Hn').
    rewrite Hput in E'. injection E' as -> Hsg' ->. rewrite E in *.
    split; cbn [sys_q waiting woken accepted delivered]; auto.
    + congruence.
    + destruct (decide _); destruct Hres as (-> & -> & _); simpl; [done|].
      by rewrite Hf, app_assoc.
    + rewrite length_app in *. simpl in *. lia.
    + right. destruct Hk as [Hk|Hk]; [by destruct l1|]. simpl.
      destruct (decide _); destruct Hres as (_ & _ & ->); lia.
Qed.

Lemma qreach_inv size mem s :
  0 < size -> Z.of_nat (length mem) = size -> qreach size mem s -> sys_inv size s.
Proof.
  intros Hs Hm. induction 1 as [q Hq|s s' _ IH Hstep].
  - injection Hq as <-. split; cbn [sys_q waiting woken accepted delivered q_size]; auto.
    + split; simpl; try lia. by rewrite Z.mod_0_l by lia.
    + simpl. lia.
  - by eapply qstep_inv.
Qed.

(** ** Properties *)

(** C14: the ring buffer implements a bounded first-in first-out queue: in a
    well-formed queue [q_put] appends the value and answers 0, or answers 1 and
    changes no content exactly when the queue is full; a turn of [q_get] takes
    the oldest value, or waits exactly when the queue is empty; both keep the
    queue well-formed and never index outside the array. *)
Theorem queue_refines_fifo q v (Hwf : queue_wf q) :
  (exists ret signal q',
     q_put q v = Some (ret, signal, q') /\ queue_wf q'
     /\ ret = (if (length (contents q) <? Z.to_nat q.(q_size))%nat then 0 else 1)
     /\ contents q' = (if (length (contents q) <? Z.to_nat q.(q_size))%nat
                       then contents q ++ [v] else contents q))
  /\ (exists r q', q_get_turn q = Some (r, q') /\ queue_wf q'
        /\ r = head (contents q) /\ contents q' = tail (contents q)).
Proof.
  split.
  - destruct (q_put_spec q v Hwf) as (ret & sg & q' & E & Hwf' & _ & Hres & _).
    exists ret, sg, q'. rewrite contents_length. destruct Hwf as [Hs Hn _ _ _ _].
    destruct (Nat.ltb_spec (Z.to_nat (q_num q)) (Z.to_nat (q_size q)));
      destruct (decide _) as [Hd|Hd]; try lia; destruct Hres as (-> & -> & _); done.
  - pose proof (q_get_turn_spec q Hwf) as T.
    destruct (contents q) as [|x l]; destruct T as (q' & E & Hwf' & Hc & _); eauto 10.
Qed.

Lemma queue_refines_fifo_witness :
  let q := mkqueue 1 2 1 0 [7; 8] 0 0 in
  (exists ret signal q',
     q_put q 9 = Some (ret, signal, q') /\ queue_wf q'
     /\ ret = (if (length (contents q) <? Z.to_nat q.(q_size))%nat then 0 else 1)
     /\ contents q' = (if (length (contents q) <? Z.to_nat q.(q_size))%nat
                       then contents q ++ [9] else contents q))
  /\ (exists r q', q_get_turn q = Some (r, q') /\ queue_wf q'
        /\ r = head (contents q) /\ contents q' = tail (contents q)).
Proof. apply queue_refines_fifo. split; simpl; lia || reflexivity. Defined.

(** Whatever the interleaving of the listener, the workers and spurious
    wake-ups, the workers receive the accepted sockets in the order the listener
    put them, each exactly once: what was accepted is what was delivered
    followed by what is still in the queue. *)
Theorem queue_delivers_in_order size mem s
    (Hsize : 0 < size) (Hmem : Z.of_nat (length mem) = size)
    (Hreach : qreach size mem s) :
  s.(accepted) = s.(delivered) ++ contents s.(sys_q)
  /\ (length (contents s.(sys_q)) <= Z.to_nat size)%nat.
Proof.
  destruct (qreach_inv size mem s Hsize Hmem Hreach) as [Hwf Hsz Hf _ _].
  split; [done|]. rewrite contents_length. destruct Hwf. lia.
Qed.

Lemma queue_delivers_in_order_witness :
  let s := mkqsys (mkqueue 1 2 1 0 [5; 6] 0 0) [] [] [5; 6] [5] in
  s.(accepted) = s.(delivered) ++ contents s.(sys_q)
  /\ (length (contents s.(sys_q)) <= 2)%nat.
Proof.
  apply (queue_delivers_in_order 2 [0; 0]).
  - reflexivity.
  - reflexivity.
  - apply (reach_step _ _ (mkqsys (mkqueue 2 2 0 0 [5; 6] 0 0) [] [] [5; 6] [])).
    + apply (reach_step _ _ (mkqsys (mkqueue 1 2 0 1 [5; 0] 0 0) [] [] [5] [])).
      * apply (reach_step _ _ (mkqsys (mkqueue 0 2 0 0 [0; 0] 0 0) [] [] [] []));
          [by apply reach_init|].
        apply (step_put_silent (mkqsys (mkqueue 0 2 0 0 [0; 0] 0 0) [] [] [] []) 5 0 false);
          [reflexivity | auto].
      * apply (step_put_silent (mkqsys (mkqueue 1 2 0 1 [5; 0] 0 0) [] [] [5] []) 6 0 false);
          [reflexivity | auto].
    + apply (step_get _ 3); [by_decision | by_decision | reflexivity].
Defined.

(** C15: no wake-up is lost: in every reachable state in which some worker sleeps
    on the condition variable, there are at least as many woken workers on their
    way to the mutex as sockets in the queue, although [q_put] signals before it
    stores and also signals when it fails; so a queued socket never waits for a
    further [q_put] while a worker sleeps. *)
Theorem queue_no_lost_wakeup size mem s
    (Hsize : 0 < size) (Hmem : Z.of_nat (length mem) = size)
    (Hreach : qreach size mem s) (Hsleep : s.(waiting) <> []) :
  s.(sys_q).(q_num) <= Z.of_nat (length s.(woken))
  /\ (0 < s.(sys_q).(q_num) ->
      exists t l1 l2 s', s.(woken) = l1 ++ t :: l2 /\ qstep s s'
        /\ exists v, s'.(delivered) = s.(delivered) ++ [v]).
Proof.
  destruct (qreach_inv size mem s Hsize Hmem Hreach) as [Hwf _ _ _ [Hk|Hk]]; [done|].
  split; [done|]. intros Hn. destruct (woken s) as [|t l] eqn:E; [simpl in Hk; lia|].
  pose proof (q_get_turn_spec _ Hwf) as T. pose proof (contents_length (sys_q s)) as L.
  destruct (contents (sys_q s)) as [|v c]; [simpl in L; lia|].
  destruct T as (q' & Eq & _).
  eexists t, [], l, _. split; [done|]. split; [eapply (step_retry s t [] l); [done|]|].
  - unfold consume. by rewrite Eq.
  - by exists v.
Qed.

Lemma queue_no_lost_wakeup_witness :
  let s := mkqsys (mkqueue 1 2 0 1 [5; 0] 0 1) [4%nat] [3%nat] [5] [] in
  s.(sys_q).(q_num) <= Z.of_nat (length s.(woken))
  /\ (0 < s.(sys_q).(q_num) ->
      exists t l1 l2 s', s.(woken) = l1 ++ t :: l2 /\ qstep s s'
        /\ exists v, s'.(delivered) = s.(delivered) ++ [v]).
Proof.
  apply (queue_no_lost_wakeup 2 [0; 0]).
  - reflexivity.
  - reflexivity.
  - set (q0 := mkqueue 0 2 0 0 [0; 0] 0).
    apply (reach_step _ _ (mkqsys (q0 2) [4%nat; 3%nat] [] [] [])).
    + apply (reach_step _ _ (mkqsys (q0 1) [3%nat] [] [] [])).
      * apply (reach_step _ _ (mkqsys (q0 0) [] [] [] [])); [by apply reach_init|].
        apply (step_get _ 3); [by_decision | by_decision | reflexivity].
      * apply (step_get _ 4); [by_decision | by_decision | reflexivity].
    + apply (step_put_signal (mkqsys (q0 2) [4%nat; 3%nat] [] [] []) 5 0
        (mkqueue 1 2 0 1 [5; 0] 0 1) 3 [4%nat] []); reflexivity.
  - discriminate.
Defined.

(** ** The queue as its users see it *)

(** What [listener.c] and [instance.c] rely on: a bounded queue of values, with
    the blocking of [q_get] seen as a turn that finds nothing. *)
Class SynQueue (Q : Type) := {
  sq_put : Q -> Z -> option (Z * Q);
  sq_get : Q -> option (option Z * Q);
  sq_ok : Q -> Prop;
  sq_contents : Q -> list Z;
  sq_put_law q v :
    sq_ok q ->
    exists ret q', sq_put q v = Some (ret, q') /\ sq_ok q'
      /\ (ret = 0 /\ sq_contents q' = sq_contents q ++ [v]
          \/ ret = 1 /\ sq_contents q' = sq_contents q);
  sq_get_law q :
    sq_ok q ->
    exists q', sq_get q = Some (head (sq_contents q), q') /\ sq_ok q'
      /\ sq_contents q' = tail (sq_contents q);
}.

Lemma syn_queue_put_law q v :
  queue_wf q ->
  exists ret q', ('(ret, _, q') ← q_put q v; Some (ret, q')) = Some (ret, q') /\ queue_wf q'
    /\ (ret = 0 /\ contents q' = contents q ++ [v] \/ ret = 1 /\ contents q' = contents q).
Proof.
  intros Hwf. destruct (q_put_spec q v Hwf) as (ret & sg & q' & -> & Hwf' & _ & Hres & _).
  exists ret, q'. split; [done|]. split; [done|].
  destruct (decide _); destruct Hres as (-> & -> & _); auto.
Qed.

Lemma syn_queue_get_law q :
  queue_wf q ->
  exists q', q_get_turn q = Some (head (contents q), q') /\ queue_wf q'
    /\ contents q' = tail (contents q).
Proof.
  intros Hwf. pose proof (q_get_turn_spec q Hwf) as T.
  destruct (contents q) as [|x l]; destruct T as (q' & E & Hwf' & Hc & _); eauto.
Qed.

#[export] Instance syn_queue : SynQueue syn_queue_t := {|
  sq_put := fun q v => '(ret, _, q') ← q_put q v; Some (ret, q');
  sq_get := q_get_turn;
  sq_ok := queue_wf;
  sq_contents := contents;
  sq_put_law := syn_queue_put_law;
  sq_get_law := syn_queue_get_law;
|}.
