(* ===== verification/Listener.v ===== *)
(** * The listener and the pool of threads (listener.c, instance.c)

    The main thread accepts connections, queues them and sizes the pool; each
    worker runs [instance]: it takes a socket from the queue, serves it, closes
    it, and ends when it takes a termination order (a negative value).  The
    counters of [thread_info] are only written under their mutex, but the main
    thread reads them without it, so each read is a step of its own.  The queue
    is used through the interface [SynQueue]. *)
From S2P Require Export Prelude Types Queue.

(** ** Definitions *)

Record t_thread_info := mkinfo {
  ti_free : Z;
  ti_count : Z;
}.

(** Under the mutex of [thread_info]. *)
Definition change_free_thread (free_d count_d : Z) (ti : t_thread_info) : t_thread_info :=
  mkinfo (to_u32 (ti.(ti_free) + free_d)) (to_u32 (ti.(ti_count) + count_d)).

Definition init_thread_info : t_thread_info := mkinfo 0 0.

(** Under the mutex of [thread_info]; [created] are the successes of
    [pthread_create], the number of threads started is returned. *)
Definition init_threads (count : Z) (created : list bool) (ti : t_thread_info)
    : t_thread_info * nat :=
  if to_u32 (ti.(ti_count) + count) <? MAXTHREAD then
    let effective := length (List.filter (fun ok => ok) (take (Z.to_nat count) created)) in
    (mkinfo ti.(ti_free) (to_u32 (ti.(ti_count) + Z.of_nat effective)), effective)
  else (ti, 0%nat).

(** The new [last_action] and whether a termination order is put. *)
Definition t_shape (last_action now : Z) (ti : t_thread_info) : Z * bool :=
  if now <? last_action + 10 then (last_action, false)
  else (now, MAXFREETHREAD <? ti.(ti_free)).

(** Where a worker is in [instance]: before its first [change_free_thread], in
    [q_get], with a value it has taken, serving a socket, with the socket
    closed, and releasing its resources. *)
Inductive thread :=
  | Starting
  | Idle
  | Got (v : Z)
  | Serving (sock : Z)
  | Served
  | Ending.

(** Where the main thread is in its loop: at [poll], putting a termination
    order, at [accept], putting a socket, at the two reads of [free], at the
    two reads of [count], and in [init_threads]. *)
Inductive main_pc :=
  | MPoll
  | MOrder
  | MAccept
  | MQueue (s1 : Z)
  | MLow
  | MMax
  | MGroup
  | MRest
  | MStart (n : Z).

(** [accepted], [dropped], [entered] and [finished] record the sockets
    [accept] returned, those closed because the queue was full, the values the
    queue took, and those a worker is done with (a closed socket, an order it
    obeys). *)
Record server (Q : Type) := mkserver {
  sv_info : t_thread_info;
  sv_queue : Q;
  sv_threads : list thread;
  sv_main : main_pc;
  sv_last : Z;
  sv_accepted : list Z;
  sv_dropped : list Z;
  sv_entered : list Z;
  sv_finished : list Z;
}.

Arguments mkserver {Q}.
Arguments sv_info {Q}.
Arguments sv_queue {Q}.
Arguments sv_threads {Q}.
Arguments sv_main {Q}.
Arguments sv_last {Q}.
Arguments sv_accepted {Q}.
Arguments sv_dropped {Q}.
Arguments sv_entered {Q}.
Arguments sv_finished {Q}.

Section Pool.
Context {Q : Type} `{SynQueue Q}.

(** A step of one worker on the shared state: the counters, the queue and the
    values it is done with; [None] when the thread is gone. *)
Inductive worker_step : thread -> t_thread_info -> Q
    -> option thread -> t_thread_info -> Q -> list Z -> Prop :=
  | worker_ready ti q :
      worker_step Starting ti q (Some Idle) (change_free_thread 1 0 ti) q []
  | worker_no_memory ti q :
      worker_step Starting ti q (Some Ending) ti q []
  | worker_get ti q r q' :
      sq_get q = Some (r, q') ->
      worker_step Idle ti q (Some (if r is Some v then Got v else Idle)) ti q' []
  | worker_busy ti q v :
      worker_step (Got v) ti q (Some (if v <? 0 then Ending else Serving v))
        (change_free_thread (-1) 0 ti) q (if v <? 0 then [v] else [])
  | worker_close ti q sock :
      worker_step (Serving sock) ti q (Some Served) ti q [sock]
  | worker_free ti q :
      worker_step Served ti q (Some Idle) (change_free_thread 1 0 ti) q []
  | worker_exit ti q :
      worker_step Ending ti q None (change_free_thread 0 (-1) ti) q [].

(** A step of the main thread; the new threads start as [Starting]. *)
Inductive main_step : server Q -> server Q -> Prop :=
  | main_poll ti q ts last ac dr en fi now :
      main_step (mkserver ti q ts MPoll last ac dr en fi)
        (mkserver ti q ts (if (t_shape last now ti).2 then MOrder else MAccept)
           (t_shape last now ti).1 ac dr en fi)
  | main_order ti q ts last ac dr en fi ret q' :
      sq_put q (-1) = Some (ret, q') ->
      main_step (mkserver ti q ts MOrder last ac dr en fi)
        (mkserver ti q' ts MAccept last ac dr (if ret =? 0 then en ++ [-1] else en) fi)
  | main_accept ti q ts last ac dr en fi s1 :
      main_step (mkserver ti q ts MAccept last ac dr en fi)
        (if 0 <=? s1 then mkserver ti q ts (MQueue s1) last (ac ++ [s1]) dr en fi
         else mkserver ti q ts MLow last ac dr en fi)
  | main_queue ti q ts last ac dr en fi s1 ret q' :
      sq_put q s1 = Some (ret, q') ->
      main_step (mkserver ti q ts (MQueue s1) last ac dr en fi)
        (if ret =? 0 then mkserver ti q' ts MLow last ac dr (en ++ [s1]) fi
         else mkserver ti q' ts MLow last ac (dr ++ [s1]) en fi)
  | main_low ti q ts last ac dr en fi :
      main_step (mkserver ti q ts MLow last ac dr en fi)
        (mkserver ti q ts (if ti.(ti_free) <=? LOWTHREAD then MMax else MPoll) last ac dr en fi)
  | main_max ti q ts last ac dr en fi :
      main_step (mkserver ti q ts MMax last ac dr en fi)
        (mkserver ti q ts (if ti.(ti_free) <? MAXTHREAD then MGroup else MPoll) last ac dr en fi)
  | main_group ti q ts last ac dr en fi :
      main_step (mkserver ti q ts MGroup last ac dr en fi)
        (mkserver ti q ts
           (if to_u32 (ti.(ti_count) + INITIALTHREAD) <? MAXTHREAD
            then MStart INITIALTHREAD else MRest) last ac dr en fi)
  | main_rest ti q ts last ac dr en fi :
      main_step (mkserver ti q ts MRest last ac dr en fi)
        (mkserver ti q ts (MStart (to_u32 (MAXTHREAD - ti.(ti_count)))) last ac dr en fi)
  | main_start ti q ts last ac dr en fi n created :
      main_step (mkserver ti q ts (MStart n) last ac dr en fi)
        (mkserver (init_threads n created ti).1 q
           (ts ++ replicate (init_threads n created ti).2 Starting) MPoll last ac dr en fi).

Inductive server_step : server Q -> server Q -> Prop :=
  | step_main s s' : main_step s s' -> server_step s s'
  | step_worker ti q l1 t l2 m last ac dr en fi t' ti' q' done :
      worker_step t ti q t' ti' q' done ->
      server_step (mkserver ti q (l1 ++ t :: l2) m last ac dr en fi)
        (mkserver ti' q' (l1 ++ option_list t' ++ l2) m last ac dr en (fi ++ done)).

(** [main] up to its loop: the queue is empty, the first group is started. *)
Definition server_init (q : Q) : server Q :=
  mkserver init_thread_info q [] (MStart INITIALTHREAD) 0 [] [] [] [].

Inductive server_reach (q : Q) : server Q -> Prop :=
  | server_reach_init : server_reach q (server_init q)
  | server_reach_step s s' : server_reach q s -> server_step s s' -> server_reach q s'.
End Pool.

(** ** Specification *)

(** The free threads are those before, in or just behind [q_get]. *)
Definition free_of (t : thread) : nat :=
  match t with Idle | Got _ => 1 | _ => 0 end.

Definition free_threads (ts : list thread) : nat := sum_list_with free_of ts.

(** The values the workers hold. *)
Definition held_of (t : thread) : list Z :=
  match t with Got v | Serving v => [v] | _ => [] end.

Definition held (ts : list thread) : list Z := flat_map held_of ts.

#[global] Arguments held : simpl never.
#[global] Arguments free_threads : simpl never.

(** The socket the main thread holds. *)
Definition main_held (m : main_pc) : list Z := if m is MQueue s1 then [s1] else [].

Record pool_inv {Q} `{SynQueue Q} (s : server Q) : Prop := {
  inv_queue : sq_ok s.(sv_queue);
  inv_count : s.(sv_info).(ti_count) = Z.of_nat (length s.(sv_threads));
  inv_free : s.(sv_info).(ti_free) = Z.of_nat (free_threads s.(sv_threads));
  inv_max : Z.of_nat (length s.(sv_threads)) < MAXTHREAD;
  inv_start : forall n, s.(sv_main) = MStart n -> 0 <= n <= MAXTHREAD;
  inv_held : forall s1, s.(sv_main) = MQueue s1 -> 0 <= s1;
  inv_entered : s.(sv_entered) ≡ₚ sq_contents s.(sv_queue) ++ held s.(sv_threads) ++ s.(sv_finished);
  inv_accepted : s.(sv_accepted) ≡ₚ main_held s.(sv_main) ++ s.(sv_dropped)
                                     ++ filter (fun v => 0 <= v) s.(sv_entered);
}.

(** ** Lemmas *)

Section PoolLemmas.
Context {Q : Type} `{SynQueue Q}.

Lemma free_threads_app l1 l2 : free_threads (l1 ++ l2) = (free_threads l1 + free_threads l2)%nat.
Proof. apply sum_list_with_app. Qed.

Lemma free_threads_length ts : (free_threads ts <= length ts)%nat.
Proof.
  unfold free_threads. induction ts as [|t ts IH]; simpl; [lia|]. destruct t; simpl; lia.
Qed.

Lemma held_app l1 l2 : held (l1 ++ l2) = held l1 ++ held l2.
Proof. apply flat_map_app. Qed.

Lemma held_starting n : held (replicate n Starting) = [].
Proof. induction n; [done|]. simpl. done. Qed.

Lemma free_starting n : free_threads (replicate n Starting) = 0%nat.
Proof. induction n; [done|]. simpl. done. Qed.

(** [init_threads] counts what it starts and stays below the limit. *)
Lemma init_threads_inv n created ti :
  0 <= ti.(ti_count) < MAXTHREAD -> 0 <= n <= MAXTHREAD ->
  let r := init_threads n created ti in
  ti_count r.1 = ti.(ti_count) + Z.of_nat r.2 /\ ti_free r.1 = ti.(ti_free)
  /\ ti.(ti_count) + Z.of_nat r.2 < MAXTHREAD.
Proof.
  unfold init_threads, MAXTHREAD. intros Hc Hn. cbv zeta.
  rewrite (to_u_small 32 (ti_count ti + n)) by lia.
  destruct (Z.ltb_spec (ti_count ti + n) 300); simpl; [|lia].
  set (k := length _).
  assert (k <= Z.to_nat n)%nat as Hk.
  { subst k. etransitivity; [apply filter_length_le|]. rewrite length_take. lia. }
  rewrite to_u_small by lia. lia.
Qed.

(** The share of one worker in the invariant. *)
Lemma worker_step_spec t ti q t' ti' q' done k :
  worker_step t ti q t' ti' q' done -> sq_ok q ->
  0 <= ti.(ti_count) < MAXTHREAD -> 0 < ti.(ti_count) ->
  ti.(ti_free) = Z.of_nat (free_of t + k) -> Z.of_nat (free_of t + k) < MAXTHREAD ->
  let ts' := option_list t' in
  sq_ok q' /\ ti_count ti' = ti.(ti_count) - 1 + Z.of_nat (length ts')
  /\ ti_free ti' = Z.of_nat (free_threads ts' + k)
  /\ sq_contents q ++ held_of t ≡ₚ sq_contents q' ++ held ts' ++ done.
Proof.
  unfold MAXTHREAD, held, free_threads. intros Hs Hq Hc Hc1 Hf Hk.
  destruct Hs as [ti q|ti q|ti q r q' E|ti q v|ti q s|ti q|ti q]; cbn in *;
    rewrite ?Hf, ?to_u_small by lia; split_and!;
    try done; try lia; rewrite ?app_nil_r; try done.
  - destruct (sq_get_law q Hq) as (q2 & E2 & Hq2 & _). rewrite E in E2. by injection E2 as -> ->.
  - destruct r; simpl; lia.
  - destruct (sq_get_law q Hq) as (q2 & E2 & _ & Hc2). rewrite E in E2. injection E2 as -> <-.
    rewrite Hc2. destruct (sq_contents q) as [|v l]; simpl; [done|].
    apply Permutation_cons_append.
  - destruct (v <? 0); simpl; lia.
  - by destruct (v <? 0).
Qed.

Lemma main_step_inv s s' : pool_inv s -> main_step s s' -> pool_inv s'.
Proof.
  intros I Hs. pose proof (free_threads_length (sv_threads s)) as Hfl.
  destruct Hs; destruct I as [Iq Ic If Im Is Ih Ie Ia]; cbn in *.
  - split; cbn; try done; intros; by case_match.
  - destruct (sq_put_law q (-1) Iq) as (r & q2 & E & Hq2 & Hr). rewrite H0 in E. injection E as -> ->.
    split; cbn; try done.
    + destruct Hr as [[-> ->]|[-> ->]]; cbn; [|done]. rewrite Ie. solve_Permutation.
    + rewrite Ia. destruct Hr as [[-> _]|[-> _]]; cbn; [|done]. by rewrite filter_app, app_nil_r.
  - destruct (Z.leb_spec 0 s1); split; cbn; try done.
    + by intros ? [= <-].
    + rewrite Ia. solve_Permutation.
  - destruct (sq_put_law q s1 Iq) as (r & q2 & E & Hq2 & Hr). rewrite H0 in E. injection E as -> ->.
    specialize (Ih _ eq_refl).
    destruct Hr as [[-> Hr]|[-> Hr]]; cbn; split; cbn; rewrite ?Hr; try done.
    + rewrite Ie. solve_Permutation.
    + rewrite Ia, filter_app, filter_cons_True by done. solve_Permutation.
    + rewrite Ia. solve_Permutation.
  - split; cbn; try done; intros; by case_match.
  - split; cbn; try done; intros; by case_match.
  - split; cbn; try done.
    + intros n. case_match; [|done]. by intros [= <-].
    + intros n. by case_match.
    + rewrite Ia. by case_match.
  - split; cbn; try done. intros n [= <-]. unfold MAXTHREAD in *. rewrite to_u_small; lia.
  - specialize (Is n eq_refl).
    destruct (init_threads_inv n created ti ltac:(lia) Is) as (H1 & H2 & H3).
    split; cbn; try done.
    + rewrite H1, length_app, length_replicate. lia.
    + rewrite H2, free_threads_app, free_starting. lia.
    + rewrite length_app, length_replicate. lia.
    + rewrite held_app, held_starting, app_nil_r. done.
Qed.

Lemma server_step_inv s s' : pool_inv s -> server_step s s' -> pool_inv s'.
Proof.
  intros I Hs. destruct Hs as [s s' Hs|ti q l1 t l2 m last ac dr en fi t' ti' q' done' Hs];
    [by eapply main_step_inv|].
  destruct I as [Iq Ic If Im Is Ih Ie Ia]; cbn in *.
  pose proof (free_threads_length (l1 ++ t :: l2)) as Hfl.
  rewrite length_app in *. cbn [length] in *.
  assert (free_threads (l1 ++ t :: l2) = (free_of t + free_threads (l1 ++ l2))%nat) as Hfr
    by (rewrite !free_threads_app; unfold free_threads; simpl; lia).
  rewrite Hfr in *.
  destruct (worker_step_spec t ti q t' ti' q' done' (free_threads (l1 ++ l2)) Hs Iq) as (Hq' & Hc & Hf & Hp);
    [lia.. |].
  split; cbn; try done; rewrite ?length_app.
  - lia.
  - rewrite Hf, !free_threads_app. lia.
  - destruct t'; simpl in *; lia.
  - rewrite Ie, !held_app. change (held (t :: l2)) with (held_of t ++ held l2).
    transitivity ((sq_contents q ++ held_of t) ++ held l1 ++ held l2 ++ fi); [solve_Permutation|].
    rewrite Hp. solve_Permutation.
Qed.

Lemma server_reach_inv q s : sq_ok q -> sq_contents q = [] -> server_reach q s -> pool_inv s.
Proof.
  intros Hq Hc. induction 1 as [|s s' _ IH Hs]; [|by eapply server_step_inv].
  split; cbn; try done.
  - by intros n [= <-].
  - by rewrite Hc.
Qed.
End PoolLemmas.

(** ** Theorems *)

Section PoolTheorems.
Context {Q : Type} `{SynQueue Q}.

(** C21: whatever the interleaving of the listener and the workers, and whichever
    creations of threads fail, there are always fewer than [MAXTHREAD] threads
    and the counters are exact: [count] is the number of threads, [free] the
    number of those at [q_get], so that neither ever wraps around. *)
Theorem pool_bounded (q : Q) s :
  sq_ok q -> sq_contents q = [] -> server_reach q s ->
  Z.of_nat (length s.(sv_threads)) < MAXTHREAD
  /\ s.(sv_info) = mkinfo (Z.of_nat (free_threads s.(sv_threads))) (Z.of_nat (length s.(sv_threads))).
Proof.
  intros Hq Hc Hr. destruct (server_reach_inv q s Hq Hc Hr) as [_ Ic If Im _ _ _ _].
  split; [done|]. destruct (sv_info s). simpl in *. congruence.
Qed.

(** C22: no connection is lost, served twice or leaked: at any time each socket
    that [accept] returned is in exactly one place: with the main thread, closed
    because the queue was full, in the queue, with one worker, or closed by the
    one worker that served it. *)
Theorem connections_accounted (q : Q) s :
  sq_ok q -> sq_contents q = [] -> server_reach q s ->
  s.(sv_accepted) ≡ₚ main_held s.(sv_main) ++ s.(sv_dropped)
    ++ filter (fun v => 0 <= v) (sq_contents s.(sv_queue) ++ held s.(sv_threads) ++ s.(sv_finished)).
Proof.
  intros Hq Hc Hr. destruct (server_reach_inv q s Hq Hc Hr) as [_ _ _ _ _ _ Ie Ia].
  by rewrite Ia, Ie.
Qed.

(** The pool only grows by whole groups: when there is no room for a group
    the main thread asks for the threads that are left, but [init_threads] wants
    to stay strictly below the limit and starts none of them. *)
Theorem partial_group_never_starts (q : Q) s s1 s2 :
  sq_ok q -> sq_contents q = [] -> server_reach q s -> s.(sv_main) = MRest ->
  main_step s s1 -> main_step s1 s2 ->
  s2.(sv_threads) = s.(sv_threads) /\ s2.(sv_info) = s.(sv_info).
Proof.
  intros Hq Hc Hr Hm H1 H2. destruct (server_reach_inv q s Hq Hc Hr) as [_ Ic _ Im _ _ _ _].
  destruct H1; cbn in *; try discriminate. inversion H2; subst. cbn. unfold MAXTHREAD in *.
  assert (init_threads (to_u32 (300 - ti_count ti)) created ti = (ti, 0%nat)) as ->;
    [|by rewrite app_nil_r].
  unfold init_threads, MAXTHREAD. rewrite (to_u_small 32 (300 - ti_count ti)) by lia.
  rewrite to_u_small by lia. destruct (Z.ltb_spec (ti_count ti + (300 - ti_count ti)) 300); [lia|done].
Qed.
End PoolTheorems.

(** ** Witnesses *)

Definition sample_queue : syn_queue_t := mkqueue 0 2 0 0 [0; 0] 0 0.

Lemma sample_queue_ok : sq_ok sample_queue.
Proof. split; simpl; lia || reflexivity. Qed.

(** After two threads were started (of six), one took the first connection. *)
Definition sample_pool : server syn_queue_t :=
  mkserver (mkinfo 0 2) (mkqueue 0 2 1 1 [5; 0] 0 0) [Serving 5; Starting] MLow 0 [5] [] [5] [].

Lemma sample_reach : server_reach sample_queue sample_pool.
Proof.
  apply (server_reach_step _ (mkserver (mkinfo 1 2) (mkqueue 0 2 1 1 [5; 0] 0 0)
           [Got 5; Starting] MLow 0 [5] [] [5] []));
    [|apply (step_worker _ _ [] (Got 5) [Starting] MLow 0 [5] [] [5] [] (Some (Serving 5)) (mkinfo 0 2) _ []);
      apply (worker_busy (mkinfo 1 2) _ 5)].
  apply (server_reach_step _ (mkserver (mkinfo 1 2) (mkqueue 1 2 0 1 [5; 0] 0 0)
           [Idle; Starting] MLow 0 [5] [] [5] []));
    [|apply (step_worker _ _ [] Idle [Starting] MLow 0 [5] [] [5] [] (Some (Got 5)) _ (mkqueue 0 2 1 1 [5; 0] 0 0) []);
      apply (worker_get _ _ (Some 5)); reflexivity].
  apply (server_reach_step _ (mkserver (mkinfo 0 2) (mkqueue 1 2 0 1 [5; 0] 0 0)
           [Starting; Starting] MLow 0 [5] [] [5] []));
    [|apply (step_worker _ _ [] Starting [Starting] MLow 0 [5] [] [5] [] (Some Idle) (mkinfo 1 2) _ []);
      apply (worker_ready (mkinfo 0 2))].
  apply (server_reach_step _ (mkserver (mkinfo 0 2) sample_queue [Starting; Starting] (MQueue 5) 0 [5] [] [] []));
    [|apply step_main; apply (main_queue (mkinfo 0 2) sample_queue [Starting; Starting] 0 [5] [] [] [] 5 0
        (mkqueue 1 2 0 1 [5; 0] 0 0)); reflexivity].
  apply (server_reach_step _ (mkserver (mkinfo 0 2) sample_queue [Starting; Starting] MAccept 0 [] [] [] []));
    [|apply step_main; apply (main_accept (mkinfo 0 2) sample_queue [Starting; Starting] 0 [] [] [] [] 5)].
  apply (server_reach_step _ (mkserver (mkinfo 0 2) sample_queue [Starting; Starting] MPoll 0 [] [] [] []));
    [|apply step_main; apply (main_poll (mkinfo 0 2) sample_queue [Starting; Starting] 0 [] [] [] [] 9)].
  apply (server_reach_step _ (server_init sample_queue)); [apply server_reach_init|].
  apply step_main.
  apply (main_start init_thread_info sample_queue [] 0 [] [] [] [] INITIALTHREAD [true; false; false; true; false; false]).
Qed.

Lemma pool_bounded_witness :
  Z.of_nat (length sample_pool.(sv_threads)) < MAXTHREAD
  /\ sample_pool.(sv_info)
     = mkinfo (Z.of_nat (free_threads sample_pool.(sv_threads)))
         (Z.of_nat (length sample_pool.(sv_threads))).
Proof.
  apply (pool_bounded sample_queue); [apply sample_queue_ok | reflexivity | apply sample_reach].
Defined.

Lemma connections_accounted_witness :
  sample_pool.(sv_accepted) ≡ₚ main_held sample_pool.(sv_main) ++ sample_pool.(sv_dropped)
    ++ filter (fun v => 0 <= v)
         (sq_contents sample_pool.(sv_queue) ++ held sample_pool.(sv_threads) ++ sample_pool.(sv_finished)).
Proof.
  apply (connections_accounted sample_queue); [apply sample_queue_ok | reflexivity | apply sample_reach].
Defined.

(** A pool of [n] threads that have not begun yet, the main thread at [m]. *)
Definition sample_group (n : nat) (m : main_pc) : server syn_queue_t :=
  mkserver (mkinfo 0 (Z.of_nat n)) sample_queue (replicate n Starting) m 0 [] [] [] [].

(** The main thread wakes up without a connection, finds no thread free and
    starts a group or asks for the rest. *)
Lemma sample_group_low n m :
  (n < 300)%nat -> m = (if Z.of_nat n + 6 <? 300 then MStart 6 else MRest) ->
  server_reach sample_queue (sample_group n MPoll) -> server_reach sample_queue (sample_group n m).
Proof.
  intros Hn -> H. unfold sample_group in *.
  pose proof (server_reach_step _ _ _ H (step_main _ _
    (main_poll (mkinfo 0 (Z.of_nat n)) sample_queue (replicate n Starting) 0 [] [] [] [] 0))) as H1.
  pose proof (server_reach_step _ _ _ H1 (step_main _ _
    (main_accept (mkinfo 0 (Z.of_nat n)) sample_queue (replicate n Starting) 0 [] [] [] [] (-1)))) as H2.
  pose proof (server_reach_step _ _ _ H2 (step_main _ _
    (main_low (mkinfo 0 (Z.of_nat n)) sample_queue (replicate n Starting) 0 [] [] [] []))) as H3.
  pose proof (server_reach_step _ _ _ H3 (step_main _ _
    (main_max (mkinfo 0 (Z.of_nat n)) sample_queue (replicate n Starting) 0 [] [] [] []))) as H4.
  pose proof (server_reach_step _ _ _ H4 (step_main _ _
    (main_group (mkinfo 0 (Z.of_nat n)) sample_queue (replicate n Starting) 0 [] [] [] []))) as H5.
  cbn [ti_count] in H5. rewrite to_u_small in H5 by (unfold INITIALTHREAD; lia). exact H5.
Qed.

Lemma sample_group_start n :
  (n + 6 < 300)%nat -> server_reach sample_queue (sample_group n (MStart 6)) ->
  server_reach sample_queue (sample_group (n + 6) MPoll).
Proof.
  intros Hn H. unfold sample_group in *.
  pose proof (server_reach_step _ _ _ H (step_main _ _
    (main_start (mkinfo 0 (Z.of_nat n)) sample_queue (replicate n Starting) 0 [] [] [] [] 6 (replicate 6 true)))) as H1.
  unfold init_threads, MAXTHREAD in H1. cbn [ti_count] in H1. rewrite to_u_small in H1 by lia.
  destruct (Z.ltb_spec (Z.of_nat n + 6) 300); [|lia]. cbn [fst snd] in H1.
  rewrite to_u_small in H1 by (simpl; lia). rewrite replicate_add.
  replace (Z.of_nat (n + 6)) with (Z.of_nat n + 6) by lia. exact H1.
Qed.

Lemma sample_grow j : (j < 49)%nat -> server_reach sample_queue (sample_group (6 * j + 6) MPoll).
Proof.
  induction j as [|j IH]; intros Hj.
  - apply (sample_group_start 0); [lia|]. apply server_reach_init.
  - apply (sample_group_start (6 * S j)); [lia|].
    replace (6 * S j)%nat with (6 * j + 6)%nat by lia.
    apply sample_group_low; [lia | | apply IH; lia].
    destruct (Z.ltb_spec (Z.of_nat (6 * j + 6) + 6) 300); [done | lia].
Qed.

Lemma sample_rest : server_reach sample_queue (sample_group 294 MRest).
Proof. apply sample_group_low; [lia | reflexivity | exact (sample_grow 48 ltac:(lia))]. Qed.

Lemma partial_group_never_starts_witness :
  let s := sample_group 294 MRest in
  exists s2 : server syn_queue_t, sv_main s2 = MPoll /\ s2.(sv_threads) = s.(sv_threads) /\ s2.(sv_info) = s.(sv_info).
Proof.
  eexists (mkserver _ _ _ MPoll _ _ _ _ _). split; [reflexivity|].
  apply (partial_group_never_starts sample_queue (sample_group 294 MRest)
           (sample_group 294 (MStart (to_u32 (MAXTHREAD - 294)))));
    [apply sample_queue_ok | reflexivity | apply sample_rest | reflexivity | apply main_rest |].
  apply (main_start (mkinfo 0 294) sample_queue (replicate 294 Starting) 0 [] [] [] [] _ (replicate 6 true)).
Defined.
