(* ===== verification/BufferedReader.v ===== *)
(** * Buffered reading from the client (buffered_reader.c)

    The socket is the sequence of what [poll] and [read] will answer: bytes
    that arrive, a time-out, the end of the stream or an error.  [buffer_read]
    gives its caller the bytes of the stream in order, whatever the pieces they
    arrive in, and stops early only when the stream stops. *)
From S2P Require Export CLib Types.

(** ** Definitions *)

Record buffered_read_t := mkbuf {
  br_buffer : bytes;
  br_start : nat;
  br_end : nat;
  br_size : nat;
}.

Inductive net_event :=
  | NetData (d : bytes)
  | NetTimeout
  | NetClosed
  | NetError.

(** [mem] is what [malloc] returned. *)
Definition buffer_reset (b : buffered_read_t) : buffered_read_t :=
  mkbuf b.(br_buffer) 0 0 b.(br_size).

Definition buffer_init (mem : option bytes) (size : nat) : Z * buffered_read_t :=
  match mem with
  | None => (1, buffer_reset (mkbuf [] 0 0 size))
  | Some m => (0, buffer_reset (mkbuf m 0 0 size))
  end.

Definition buffer_fill (b : buffered_read_t) (es : list net_event)
    : Z * buffered_read_t * list net_event :=
  let stop r es := (r, mkbuf b.(br_buffer) 0 0 b.(br_size), es) in
  match es with
  | [] => stop 0 []
  | NetClosed :: _ => stop 0 es
  | NetTimeout :: es' => stop 0 es'
  | NetError :: es' => stop (-1) es'
  | NetData d :: es' =>
      let n := Nat.min (length d) b.(br_size) in
      if (n =? 0)%nat then stop 0 es'
      else (Z.of_nat n,
            mkbuf (take n d ++ drop n b.(br_buffer)) 0 n b.(br_size),
            if (n <? length d)%nat then NetData (drop n d) :: es' else es')
  end.

(** The loop of [buffer_read]: the return value, the bytes written to the
    destination, the buffer and the rest of the stream. *)
Fixpoint buffer_read_loop (fuel : nat) (count wrote : Z) (out : bytes)
    (b : buffered_read_t) (es : list net_event)
    : option (Z * bytes * buffered_read_t * list net_event) :=
  match fuel with
  | O => None
  | S f =>
      if wrote <? count then
        let available := Z.of_nat b.(br_end) - Z.of_nat b.(br_start) in
        let needed := count - wrote in
        if needed <=? available then
          let k := Z.to_nat needed in
          Some (wrote + needed, out ++ take k (drop b.(br_start) b.(br_buffer)),
                mkbuf b.(br_buffer) (b.(br_start) + k) b.(br_end) b.(br_size), es)
        else
          let '(out, wrote) :=
            if 0 <? available
            then (out ++ take (Z.to_nat available) (drop b.(br_start) b.(br_buffer)),
                  wrote + available)
            else (out, wrote) in
          let '(r, b', es') := buffer_fill b es in
          if r <=? 0 then Some (wrote, out, b', es')
          else buffer_read_loop f count wrote out b' es'
      else Some (wrote, out, b, es)
  end.

Definition buffer_read (count : Z) (b : buffered_read_t) (es : list net_event)
    : option (Z * bytes * buffered_read_t * list net_event) :=
  buffer_read_loop (Z.to_nat count + 2) count 0 [] b es.

(** [end[0] = 0] first: out of the buffer when the buffer is full. *)
Definition buffer_strstr (b : buffered_read_t) (es : list net_event) (needle : bytes)
    : option (nat * buffered_read_t * list net_event) :=
  let '(_, b, es) :=
    if (b.(br_end) =? b.(br_start))%nat then buffer_fill b es else (0, b, es) in
  m ← store b.(br_buffer) b.(br_end) 0;
  let b := mkbuf m b.(br_start) b.(br_end) b.(br_size) in
  r ← strstr m b.(br_start) needle;
  Some (match r with
        | None => (b.(br_end) - b.(br_start))%nat
        | Some r => (r - b.(br_start))%nat
        end, b, es).

(** ** Specification *)

(** The bytes that arrive before the stream stops, and what follows. *)
Fixpoint stream (es : list net_event) : bytes :=
  match es with
  | NetData (x :: d) :: es' => (x :: d) ++ stream es'
  | _ => []
  end.

Fixpoint after_stop (es : list net_event) : list net_event :=
  match es with
  | NetData (_ :: _) :: es' => after_stop es'
  | NetClosed :: _ => es
  | _ :: es' => es'
  | [] => []
  end.

(** The bytes in the buffer that were not consumed yet. *)
Definition buffered (b : buffered_read_t) : bytes :=
  take (b.(br_end) - b.(br_start)) (drop b.(br_start) b.(br_buffer)).

Definition buf_wf (b : buffered_read_t) : Prop :=
  (b.(br_start) <= b.(br_end) <= length b.(br_buffer))%nat
  /\ length b.(br_buffer) = b.(br_size) /\ (0 < b.(br_size))%nat.

(** ** Lemmas *)

Lemma buffered_length b :
  buf_wf b -> Z.of_nat (length (buffered b)) = Z.of_nat b.(br_end) - Z.of_nat b.(br_start).
Proof. intros (H & _). unfold buffered. rewrite length_take, length_drop. lia. Qed.

Lemma buffer_fill_spec b es :
  buf_wf b ->
  let '(r, b', es') := buffer_fill b es in
  buf_wf b'
  /\ (0 < r -> stream es = buffered b' ++ stream es' /\ after_stop es = after_stop es'
               /\ buffered b' <> [])
  /\ (r <= 0 -> stream es = [] /\ buffered b' = [] /\ es' = after_stop es).
Proof.
  intros (Hse & Hl & Hs).
  assert (buf_wf (mkbuf (br_buffer b) 0 0 (br_size b))) as Hwf0
    by (split; [simpl; lia | done]).
  destruct es as [|[d| | |] es']; cbn [buffer_fill]; try (by split_and!; [done | lia | done]).
  destruct (Nat.eqb_spec (Nat.min (length d) (br_size b)) 0) as [E|E].
  - destruct d as [|x d]; [by split_and!; [done | lia | done] | cbn [length] in E; lia].
  - set (n := Nat.min (length d) (br_size b)) in *.
    assert (length (take n d) = n) as Ln by (rewrite length_take; lia).
    assert (length (take n d ++ drop n (br_buffer b)) = br_size b) as Lb
      by (rewrite length_app, Ln, length_drop; lia).
    assert (buffered (mkbuf (take n d ++ drop n (br_buffer b)) 0 n (br_size b)) = take n d) as Hb.
    { unfold buffered. cbn [br_buffer br_start br_end]. rewrite drop_0, Nat.sub_0_r.
      by rewrite take_app_length' by done. }
    split; [split; [simpl; rewrite Lb; lia | done]|]. split; [intros _|lia].
    rewrite Hb. destruct d as [|x d]; [simpl in *; lia|].
    split_and!; [| |by rewrite <-length_zero_iff_nil, Ln].
    + destruct (Nat.ltb_spec n (length (x :: d))).
      * destruct (drop n (x :: d)) as [|y u] eqn:Ed.
        { apply (f_equal length) in Ed. rewrite length_drop in Ed. simpl in *. lia. }
        cbn [stream]. rewrite <-Ed, app_assoc, take_drop. done.
      * rewrite take_ge by lia. done.
    + destruct (Nat.ltb_spec n (length (x :: d))); [|done].
      destruct (drop n (x :: d)) as [|y u] eqn:Ed; [|done].
      apply (f_equal length) in Ed. rewrite length_drop in Ed. simpl in *. lia.
Qed.

Lemma buffer_fill_size b es : (buffer_fill b es).1.2.(br_size) = b.(br_size).
Proof. unfold buffer_fill. destruct es as [|[d| | |] es]; try done. by destruct (_ =? 0)%nat. Qed.

Lemma buffered_advance b k :
  (br_start b + k <= br_end b)%nat ->
  buffered (mkbuf b.(br_buffer) (b.(br_start) + k) b.(br_end) b.(br_size)) = drop k (buffered b).
Proof.
  intros H. unfold buffered. cbn [br_buffer br_start br_end].
  rewrite skipn_firstn_comm, drop_drop. f_equal. lia.
Qed.

(** The bytes asked for are in the buffer. *)
Lemma buffer_read_enough k b es :
  buf_wf b -> (k <= length (buffered b))%nat ->
  let p := buffered b ++ stream es in
  let b' := mkbuf b.(br_buffer) (b.(br_start) + k) b.(br_end) b.(br_size) in
  take k (drop (br_start b) (br_buffer b)) = take k p /\ length (take k p) = k
  /\ buf_wf b' /\ (k <= length p)%nat /\ buffered b' ++ stream es = drop k p.
Proof.
  intros Hwf Hk p b'. pose proof (buffered_length b Hwf) as Lb. subst p b'. split_and!.
  - rewrite take_app_le by lia. unfold buffered. rewrite take_take. f_equal. lia.
  - rewrite length_take, length_app. lia.
  - destruct Hwf as (H1 & H2 & H3). split; [simpl; lia | done].
  - rewrite length_app. lia.
  - rewrite buffered_advance by lia. by rewrite drop_app_le by lia.
Qed.

(** What is in the buffer is copied before it is filled again. *)
Lemma buffer_read_empties b out wrote :
  buf_wf b ->
  (if 0 <? Z.of_nat (length (buffered b))
   then (out ++ take (Z.to_nat (Z.of_nat (length (buffered b)))) (drop (br_start b) (br_buffer b)),
         wrote + Z.of_nat (length (buffered b)))
   else (out, wrote))
  = (out ++ buffered b, wrote + Z.of_nat (length (buffered b))).
Proof.
  intros Hwf. pose proof (buffered_length b Hwf) as Lb. destruct (Z.ltb_spec 0 (Z.of_nat (length (buffered b)))) as [|E].
  - rewrite Lb. unfold buffered. do 3 f_equal. lia.
  - destruct (buffered b); [|simpl in E; lia]. rewrite app_nil_r. f_equal. simpl. lia.
Qed.

Lemma buffer_read_loop_spec fuel : forall count wrote out b es,
  buf_wf b -> wrote = Z.of_nat (length out) -> wrote <= count ->
  (Z.to_nat (count - wrote) + (if decide (buffered b = []) then 2 else 1) <= fuel)%nat ->
  let p := buffered b ++ stream es in
  let k := Z.to_nat (count - wrote) in
  exists b' es',
    buffer_read_loop fuel count wrote out b es
    = Some (wrote + Z.of_nat (length (take k p)), out ++ take k p, b', es')
    /\ buf_wf b'
    /\ (if (k <=? length p)%nat
        then buffered b' ++ stream es' = drop k p /\ after_stop es' = after_stop es
        else buffered b' = [] /\ es' = after_stop es).
Proof.
  induction fuel as [|f IH]; intros count wrote out b es Hwf Hw Hc Hf p k;
    [destruct (decide _); lia|].
  cbn [buffer_read_loop]. pose proof (buffered_length b Hwf) as Lb.
  destruct (Z.ltb_spec wrote count) as [Hlt|Hge].
  2: { assert (k = 0%nat) as -> by lia. exists b, es. rewrite take_0, app_nil_r, Z.add_0_r.
       split; [done|]. split; [done|]. simpl. by rewrite drop_0. }
  rewrite <-Lb. destruct (Z.leb_spec (count - wrote) (Z.of_nat (length (buffered b)))) as [Hle|Hgt].
  - (* enough in the buffer *)
    fold k. destruct (buffer_read_enough k b es Hwf ltac:(lia)) as (Et & Lk & Hwf' & Hkp & Ed). fold p in Et, Lk, Hkp, Ed.
    rewrite Et. eexists _, _. split; [rewrite Lk; do 4 f_equal; lia|]. split; [exact Hwf'|].
    destruct (Nat.leb_spec k (length p)); [done | lia].
  - (* the buffer is emptied and filled again *)
    rewrite buffer_read_empties by done.
    pose proof (buffer_fill_spec b es Hwf) as F.
    destruct (buffer_fill b es) as [[r b1] es1]. destruct F as (Hwf1 & Fp & Fn).
    destruct (Z.leb_spec r 0) as [Hr|Hr].
    + destruct (Fn Hr) as (Hs & Hb1 & Hes1). subst p. rewrite Hs, app_nil_r.
      rewrite take_ge by lia. eexists _, _. split; [done|]. split; [done|].
      by destruct (Nat.leb_spec k (length (buffered b))); [lia|].
    + destruct (Fp Hr) as (Hs & Ha & Hne).
      destruct (IH count (wrote + Z.of_nat (length (buffered b))) (out ++ buffered b) b1 es1)
        as (b' & es' & E & Hwf' & R); [done | rewrite length_app; lia | lia | |].
      { rewrite decide_False by done. destruct (decide (buffered b = [])) as [E0|E0].
        - rewrite E0. simpl. lia.
        - assert (0 < length (buffered b))%nat by (destruct (buffered b); [done | simpl; lia]). lia. }
      exists b', es'. rewrite E.
      replace (Z.to_nat (count - (wrote + Z.of_nat (length (buffered b)))))
        with (k - length (buffered b))%nat in * by lia.
      subst p. rewrite Hs, (take_app_ge (buffered b)) by lia.
      set (q := buffered b1 ++ stream es1) in *.
      split; [rewrite length_app; rewrite <-app_assoc; do 4 f_equal; lia|]. split; [done|].
      rewrite length_app, drop_app_ge by lia.
      destruct (Nat.leb_spec (k - length (buffered b)) (length q)),
        (Nat.leb_spec k (length (buffered b) + length q)); try lia; rewrite Ha; done.
Qed.

Lemma buffer_read_run count b es :
  buf_wf b -> 0 <= count ->
  let p := buffered b ++ stream es in
  let k := Z.to_nat count in
  exists b' es',
    buffer_read count b es = Some (Z.of_nat (length (take k p)), take k p, b', es')
    /\ buf_wf b'
    /\ (if (k <=? length p)%nat
        then buffered b' ++ stream es' = drop k p /\ after_stop es' = after_stop es
        else buffered b' = [] /\ es' = after_stop es).
Proof.
  intros Hwf Hc.
  destruct (buffer_read_loop_spec (Z.to_nat count + 2) count 0 [] b es)
    as (b' & es' & E & Hwf' & R); [done | done | lia | destruct (decide _); lia|].
  rewrite Z.sub_0_r in *. exists b', es'. unfold buffer_read. by rewrite E.
Qed.

(** Nothing more comes from a closed stream. *)
Lemma buffer_read_closed count b es :
  buf_wf b -> 0 < count -> buffered b = [] -> es = [NetClosed] ->
  exists b', buffer_read count b es = Some (0, [], b', es) /\ buf_wf b' /\ buffered b' = [].
Proof.
  intros Hwf Hc Hb ->. destruct (buffer_read_run count b [NetClosed] Hwf ltac:(lia)) as (b' & es' & E & Hwf' & R).
  rewrite Hb in *. cbn [stream app] in *. rewrite take_nil in E.
  destruct (Nat.leb_spec (Z.to_nat count) (length (@nil Z))); [simpl in *; lia|].
  destruct R as [Hb' ->]. by exists b'.
Qed.

(** ** Properties *)

(** C11: [buffer_read] is a read of the byte stream that does not depend on how
    the network cuts it: it ends, returns the number of bytes it copied, and
    these are the first [count] bytes of what is buffered followed by what
    arrives, or all of them when the stream stops first; the next read
    continues exactly where this one ended. *)
Theorem buffer_read_refines_stream count b es (Hwf : buf_wf b) (Hc : 0 <= count) :
  let p := buffered b ++ stream es in
  let k := Z.to_nat count in
  exists b' es',
    buffer_read count b es = Some (Z.of_nat (length (take k p)), take k p, b', es')
    /\ buf_wf b'
    /\ (if (k <=? length p)%nat
        then buffered b' ++ stream es' = drop k p /\ after_stop es' = after_stop es
        else buffered b' = [] /\ es' = after_stop es).
Proof. by apply buffer_read_run. Qed.

Lemma buffer_read_refines_stream_witness :
  let b := mkbuf [71; 69; 0; 0] 0 2 4 in
  let es := [NetData [84; 32; 47; 32; 72]; NetTimeout] in
  exists b' es',
    buffer_read 5 b es = Some (5, [71; 69; 84; 32; 47], b', es')
    /\ buf_wf b'
    /\ (buffered b' ++ stream es' = [32; 72] /\ after_stop es' = after_stop es).
Proof.
  apply (buffer_read_refines_stream 5 (mkbuf [71; 69; 0; 0] 0 2 4)
           [NetData [84; 32; 47; 32; 72]; NetTimeout]).
  - unfold buf_wf. simpl. lia.
  - discriminate.
Defined.

(** [buffer_strstr] stores its terminator one byte after the data: when a
    read filled the whole buffer, that is one byte after the buffer. *)
Theorem buffer_strstr_overruns b es needle
    (Hfull : b.(br_end) = length b.(br_buffer)) (Hne : (b.(br_start) < b.(br_end))%nat) :
  buffer_strstr b es needle = None.
Proof.
  unfold buffer_strstr. destruct (Nat.eqb_spec (br_end b) (br_start b)); [lia|].
  unfold store. rewrite Hfull. by rewrite Nat.ltb_irrefl.
Qed.

Lemma buffer_strstr_overruns_witness :
  buffer_strstr (mkbuf [71; 69; 84; 32] 0 4 4) [] (bs "GET") = None.
Proof. apply buffer_strstr_overruns; [reflexivity | simpl; lia]. Defined.
