(* ===== verification/Tls.v ===== *)
(** * Reading through TLS (myio.c, buffered_reader.c)

    A descriptor may have a TLS object, and [myio_read] and [myio_write] choose
    by it.  Here [buffer_fill] and [buffer_read] are those of BufferedReader.v
    with the descriptor they read from; the library is a parameter with the laws
    its documentation states for [SSL_read]: one record is taken from the socket
    at a time, and what the caller has no room for stays in the object.  The
    theorems compare the two kinds of descriptors: they give the same bytes as
    long as records fit the read buffer, and not otherwise, because [poll] only
    knows of the socket. *)
From S2P Require Export BufferedReader.

(** ** Definitions *)

(** [ssl] tells whether there is a TLS object. *)
Record fd_t := mkfdt {
  fd_fd : Z;
  fd_ssl : bool;
}.

Definition myio_getfd (fd : fd_t) : Z := fd.(fd_fd).

Definition fd2fd_t (fd : Z) : fd_t := mkfdt fd false.

(** OpenSSL: the object, and [SSL_read] and [SSL_write] on the socket behind
    it. *)
Class Ssl (T : Type) := {
  ssl_read : T -> list net_event -> nat -> Z * bytes * T * list net_event;
  ssl_write : T -> bytes -> Z * T;
  ssl_pending : T -> bytes;
}.

Class SslLaws (T : Type) `{Ssl T} : Prop := {
  ssl_read_pending t es n :
    ssl_pending t <> [] -> (0 < n)%nat ->
    let d := take n (ssl_pending t) in
    exists t', ssl_read t es n = (Z.of_nat (length d), d, t', es) /\ ssl_pending t' = drop n (ssl_pending t);
  ssl_read_record t r es n :
    ssl_pending t = [] -> r <> [] -> (0 < n)%nat ->
    let d := take n r in
    exists t', ssl_read t (NetData r :: es) n = (Z.of_nat (length d), d, t', es) /\ ssl_pending t' = drop n r;
  ssl_read_closed t es n :
    ssl_pending t = [] ->
    exists t', ssl_read t (NetClosed :: es) n = (0, [], t', NetClosed :: es) /\ ssl_pending t' = [];
  ssl_read_error t es n :
    ssl_pending t = [] ->
    exists t', ssl_read t (NetError :: es) n = (-1, [], t', es) /\ ssl_pending t' = [];
}.

(** [read] from a socket. *)
Definition read (es : list net_event) (count : nat) : Z * bytes * list net_event :=
  match es with
  | [] | NetTimeout :: _ => (0, [], es)
  | NetClosed :: _ => (0, [], es)
  | NetError :: es' => (-1, [], es')
  | NetData d :: es' =>
      let n := Nat.min (length d) count in
      (Z.of_nat n, take n d, if (n <? length d)%nat then NetData (drop n d) :: es' else es')
  end.

(** [poll] of the socket: whether it is ready before the time is over. *)
Definition poll (es : list net_event) : bool * list net_event :=
  match es with
  | [] => (false, [])
  | NetTimeout :: es' => (false, es')
  | _ => (true, es)
  end.

Section Tls.
Context {T : Type} `{Ssl T}.

Definition myio_read (fd : fd_t) (t : T) (es : list net_event) (count : nat)
    : Z * bytes * T * list net_event :=
  if fd.(fd_ssl) then ssl_read t es count
  else let '(r, d, es) := read es count in (r, d, t, es).

(** [write_] is [write] on the descriptor. *)
Definition myio_write (write_ : bytes -> Z) (fd : fd_t) (t : T) (data : bytes) : Z * T :=
  if fd.(fd_ssl) then ssl_write t data else (write_ data, t).

Definition buffer_fill_fd (fd : fd_t) (b : buffered_read_t) (t : T) (es : list net_event)
    : Z * buffered_read_t * T * list net_event :=
  let '(ready, es) := poll es in
  let '(r, d, t, es) := if (ready : bool) then myio_read fd t es b.(br_size) else (0, [], t, es) in
  if r <=? 0 then (r, mkbuf b.(br_buffer) 0 0 b.(br_size), t, es)
  else (r, mkbuf (d ++ drop (length d) b.(br_buffer)) 0 (length d) b.(br_size), t, es).

Fixpoint buffer_read_fd_loop (fuel : nat) (fd : fd_t) (count wrote : Z) (out : bytes)
    (b : buffered_read_t) (t : T) (es : list net_event)
    : option (Z * bytes * buffered_read_t * T * list net_event) :=
  match fuel with
  | O => None
  | S f =>
      if wrote <? count then
        let available := Z.of_nat b.(br_end) - Z.of_nat b.(br_start) in
        let needed := count - wrote in
        if needed <=? available then
          let k := Z.to_nat needed in
          Some (wrote + needed, out ++ take k (drop b.(br_start) b.(br_buffer)),
                mkbuf b.(br_buffer) (b.(br_start) + k) b.(br_end) b.(br_size), t, es)
        else
          let '(out, wrote) :=
            if 0 <? available
            then (out ++ take (Z.to_nat available) (drop b.(br_start) b.(br_buffer)),
                  wrote + available)
            else (out, wrote) in
          let '(r, b', t', es') := buffer_fill_fd fd b t es in
          if r <=? 0 then Some (wrote, out, b', t', es')
          else buffer_read_fd_loop f fd count wrote out b' t' es'
      else Some (wrote, out, b, t, es)
  end.

Definition buffer_read_fd (fd : fd_t) (count : Z) (b : buffered_read_t) (t : T) (es : list net_event)
    : option (Z * bytes * buffered_read_t * T * list net_event) :=
  buffer_read_fd_loop (Z.to_nat count + 2) fd count 0 [] b t es.
End Tls.

(** ** Specification *)

(** What arrives at once, a record, fits [size] bytes and is not empty. *)
Definition record_fits (size : nat) (e : net_event) : Prop :=
  if e is NetData d then d <> [] /\ (length d <= size)%nat else True.

(** What the reader is left with. *)
Definition without_tls {T} (r : Z * bytes * buffered_read_t * T * list net_event)
    : Z * bytes * buffered_read_t * list net_event :=
  let '(n, out, b, _, es) := r in (n, out, b, es).

(** ** Lemmas *)

Section TlsLemmas.
Context {T : Type} `{SslLaws T}.

(** The descriptor reads what the socket brings: there is no TLS object, or
    nothing waits in it and every record fits. *)
Definition direct (fd : fd_t) (size : nat) (t : T) (es : list net_event) : Prop :=
  fd.(fd_ssl) = false \/ (ssl_pending t = [] /\ Forall (record_fits size) es).

Lemma fill_direct fd b (t : T) es :
  buf_wf b -> direct fd b.(br_size) t es ->
  exists t', buffer_fill_fd fd b t es = (let '(r, b', es') := buffer_fill b es in (r, b', t', es'))
    /\ direct fd b.(br_size) t' (buffer_fill b es).2.
Proof.
  intros (Hse & Hl & Hs) Hd. unfold buffer_fill_fd, buffer_fill, myio_read. destruct (fd_ssl fd) eqn:Ef.
  - destruct Hd as [|[Hp Hr]]; [congruence|].
    assert (forall t es', ssl_pending t = [] -> Forall (record_fits (br_size b)) es' -> direct fd (br_size b) t es') as Hdir
      by (intros; by right).
    destruct es as [|[d| | |] es]; cbn [poll].
    + exists t. by split; [|apply Hdir].
    + apply Forall_cons in Hr as [Hh Hr']. cbn [record_fits] in Hh. destruct Hh as [Hne Hfit].
      destruct (ssl_read_record t d es (br_size b) Hp Hne Hs) as (t' & E & Hp'). rewrite E.
      rewrite take_ge by lia. rewrite drop_ge in Hp' by lia.
      assert (length d <> 0%nat) as Hn0 by (by rewrite length_zero_iff_nil).
      rewrite Nat.min_l by lia. destruct (Nat.eqb_spec (length d) 0); [done|].
      destruct (Z.leb_spec (Z.of_nat (length d)) 0); [lia|]. rewrite Nat.ltb_irrefl. rewrite (take_ge d) by lia.
      exists t'. by split; [|apply Hdir].
    + exists t. inversion Hr; subst. by split; [|apply Hdir].
    + destruct (ssl_read_closed t es (br_size b) Hp) as (t' & -> & Hp'). exists t'. by split; [|apply Hdir].
    + destruct (ssl_read_error t es (br_size b) Hp) as (t' & -> & Hp'). inversion Hr; subst.
      exists t'. by split; [|apply Hdir].
  - exists t. split; [|by left]. destruct es as [|[d| | |] es]; try done. cbn [poll read].
    set (n := Nat.min (length d) (br_size b)). destruct (Nat.eqb_spec n 0) as [E|E].
    + assert (length d = 0%nat) as L by lia. rewrite E, L. done.
    + assert (length (take n d) = n) as L by (rewrite length_take; lia).
      destruct (Z.leb_spec (Z.of_nat n) 0); [lia|]. by rewrite L.
Qed.

Lemma read_direct fuel : forall fd count wrote out b (t : T) es,
  buf_wf b -> direct fd b.(br_size) t es ->
  without_tls <$> buffer_read_fd_loop fuel fd count wrote out b t es = buffer_read_loop fuel count wrote out b es.
Proof.
  induction fuel as [|f IH]; intros fd count wrote out b t es Hwf Hd; [done|].
  cbn [buffer_read_fd_loop buffer_read_loop]. cbv zeta.
  destruct (wrote <? count); [|done]. destruct (_ <=? _); [done|].
  destruct (if 0 <? _ then _ else _) as [out' wrote'].
  destruct (fill_direct fd b t es Hwf Hd) as (t' & -> & Hd').
  pose proof (buffer_fill_spec b es Hwf) as Hf. pose proof (buffer_fill_size b es) as Hsz.
  destruct (buffer_fill b es) as [[r b'] es']. cbn [snd fst] in *. destruct Hf as [Hwf' _].
  destruct (r <=? 0); [done|]. apply IH; [done|]. by rewrite Hsz.
Qed.
End TlsLemmas.

(** ** Theorems *)

Section TlsTheorems.
Context {T : Type} `{SslLaws T}.

(** The reader gives its callers the same bytes through TLS as from a plain
    socket, as long as every record fits its buffer. *)
Theorem tls_reads_stream fd count b (t : T) es :
  buf_wf b -> fd.(fd_ssl) = false \/ (ssl_pending t = [] /\ Forall (record_fits b.(br_size)) es) ->
  without_tls <$> buffer_read_fd fd count b t es = buffer_read count b es.
Proof. intros Hwf Hd. by apply read_direct. Qed.

(** A record that is longer than the buffer: what does not fit waits in the TLS
    object, [poll] sees an idle socket, and the reader reports the end of the
    stream although all the bytes it was asked for have arrived; from a plain
    socket they are read. *)
Theorem tls_record_withheld fd count b (t : T) d es :
  buf_wf b -> buffered b = [] -> fd.(fd_ssl) = true -> ssl_pending t = [] ->
  (b.(br_size) < count <= length d)%nat ->
  (exists b' t', buffer_read_fd fd (Z.of_nat count) b t (NetData d :: NetTimeout :: es)
                 = Some (Z.of_nat b.(br_size), take b.(br_size) d, b', t', es)
                 /\ ssl_pending t' = drop b.(br_size) d)
  /\ exists b' es', buffer_read (Z.of_nat count) b (NetData d :: NetTimeout :: es)
                    = Some (Z.of_nat count, take count d, b', es').
Proof.
  intros Hwf Hb Hf Hp Hc. pose proof Hwf as (Hse & Hl & Hs). split.
  - pose proof (buffered_length b Hwf) as Lb. rewrite Hb in Lb. cbn [length] in Lb.
    assert (d <> []) as Hne by (intros ->; cbn [length] in Hc; lia).
    destruct (ssl_read_record t d (NetTimeout :: es) (br_size b) Hp Hne Hs) as (t' & E & Hp').
    assert (length (take (br_size b) d) = br_size b) as Lt by (rewrite length_take; lia). rewrite Lt in E.
    unfold buffer_read_fd. rewrite Nat2Z.id. replace (count + 2)%nat with (S (S count)) by lia.
    cbn [buffer_read_fd_loop]. cbv zeta. destruct (Z.ltb_spec 0 (Z.of_nat count)); [|lia].
    rewrite <-Lb. destruct (Z.leb_spec (Z.of_nat count - 0) (Z.of_nat 0)); [lia|].
    destruct (Z.ltb_spec 0 (Z.of_nat 0)); [lia|]. unfold buffer_fill_fd at 1. cbn [poll]. unfold myio_read at 1.
    rewrite Hf, E. destruct (Z.leb_spec (Z.of_nat (br_size b)) 0); [lia|]. rewrite Lt. cbn [br_start br_end br_buffer br_size].
    destruct (Z.ltb_spec 0 (Z.of_nat count)); [|lia].
    destruct (Z.leb_spec (Z.of_nat count - 0) (Z.of_nat (br_size b) - Z.of_nat 0)); [lia|].
    destruct (Z.ltb_spec 0 (Z.of_nat (br_size b) - Z.of_nat 0)); [|lia].
    unfold buffer_fill_fd at 1. cbn [poll Z.leb Z.compare].
    destruct (Z.leb_spec (Z.of_nat (br_size b)) 0); [lia|].
    eexists _, t'. split; [|done]. rewrite Z.sub_0_r, Nat2Z.id, drop_0, take_app_length' by done. reflexivity.
  - destruct (buffer_read_run (Z.of_nat count) b (NetData d :: NetTimeout :: es) Hwf ltac:(lia)) as (b' & es' & E & _).
    rewrite Hb, Nat2Z.id in E. destruct d as [|x d]; [cbn [length] in Hc; lia|]. cbn [app stream] in E. rewrite app_nil_r in E.
    exists b', es'. rewrite E. rewrite length_take. do 4 f_equal. cbn [length] in *. lia.
Qed.
End TlsTheorems.

(** ** Witnesses *)

(** An object that holds the rest of a record. *)
#[export] Instance sample_ssl : Ssl bytes := {|
  ssl_read := fun t es n =>
    match t with
    | _ :: _ => (Z.of_nat (length (take n t)), take n t, drop n t, es)
    | [] =>
        match es with
        | NetData d :: es => (Z.of_nat (length (take n d)), take n d, drop n d, es)
        | NetError :: es => (-1, [], [], es)
        | _ => (0, [], [], es)
        end
    end;
  ssl_write := fun t d => (Z.of_nat (length d), t);
  ssl_pending := fun t => t;
|}.

#[export] Instance sample_ssl_laws : SslLaws bytes.
Proof.
  split; cbn [ssl_pending ssl_read sample_ssl].
  - intros t es n Hne _. destruct t; [done|]. by eexists.
  - intros t r es n -> _ _. by eexists.
  - intros t es n ->. by eexists.
  - intros t es n ->. by eexists.
Qed.

Lemma tls_reads_stream_witness :
  without_tls <$> buffer_read_fd (mkfdt 5 true) 6 (mkbuf (replicate 4 0) 0 0 4) [] [NetData (bs "abc"); NetData (bs "defg")]
  = buffer_read 6 (mkbuf (replicate 4 0) 0 0 4) [NetData (bs "abc"); NetData (bs "defg")].
Proof.
  apply (tls_reads_stream (mkfdt 5 true) 6 (mkbuf (replicate 4 0) 0 0 4) []).
  - repeat split; simpl; lia.
  - right. split; [done|]. repeat constructor; done || (simpl; lia).
Defined.

Lemma tls_record_withheld_witness :
  (exists b' t', buffer_read_fd (mkfdt 5 true) 6 (mkbuf (replicate 4 0) 0 0 4) [] [NetData (bs "abcdefg"); NetTimeout]
                 = Some (4, bs "abcd", b', t', []) /\ ssl_pending t' = bs "efg")
  /\ exists b' es', buffer_read 6 (mkbuf (replicate 4 0) 0 0 4) [NetData (bs "abcdefg"); NetTimeout]
                    = Some (6, bs "abcdef", b', es').
Proof.
  apply (tls_record_withheld (mkfdt 5 true) 6 (mkbuf (replicate 4 0) 0 0 4) [] (bs "abcdefg") []);
    try done; repeat split; simpl; lia.
Defined.
