(* ===== verification/Mime.v ===== *)
(** * Content types (mime.c)

    [mime_get_fd] classifies a descriptor by the file type bits of its status
    and asks libmagic about the first bytes of a regular file.  libmagic's
    [magic_buffer] is a parameter. *)
From S2P Require Export CLib Types.

(** ** Definitions *)

Section Mime.
(** [magic_buffer] of an open token, [None] for NULL. *)
Context (magic_buffer : bytes -> option bytes).

(** [token] tells whether it is not NULL; [content] is the file's. *)
Definition mime_get_fd (token : bool) (content : bytes) (sb : stat_t) : option bytes :=
  if negb token then None
  else if negb (Z.land sb.(st_mode) S_IFREG =? 0) then
    let buf := take 64 content in magic_buffer buf
  else if negb (Z.land sb.(st_mode) S_IFDIR =? 0) then Some (bs "application/x-directory")
  else if negb (Z.land sb.(st_mode) S_IFSOCK =? 0) then Some (bs "application/x-socket")
  else if negb (Z.land sb.(st_mode) S_IFLNK =? 0) then Some (bs "application/x-symlink")
  else if negb (Z.land sb.(st_mode) S_IFBLK =? 0) then Some (bs "application/x-block-device")
  else if negb (Z.land sb.(st_mode) S_IFCHR =? 0) then Some (bs "application/x-character-device")
  else Some (bs "application/x-fifo").
End Mime.

(** ** Specification *)

(** The type names mime.c has, for the file types of [S_IFMT]. *)
Definition mime_of_type (magic : bytes -> option bytes) (content : bytes) (t : Z)
    : option bytes :=
  if (t =? S_IFREG) || (t =? S_IFSOCK) || (t =? S_IFLNK) then magic (take 64 content)
  else if (t =? S_IFDIR) || (t =? S_IFBLK) then Some (bs "application/x-directory")
  else if t =? S_IFCHR then Some (bs "application/x-symlink")
  else Some (bs "application/x-fifo").

(** ** Theorems *)

(** A mask of file type bits only sees the file type. *)
Lemma land_type mode k :
  Z.land S_IFMT k = k -> Z.land mode k = Z.land (Z.land mode S_IFMT) k.
Proof. intros H. by rewrite <-Z.land_assoc, H. Qed.

(** What [mime_get_fd] answers depends on the mode only through the file
    type.  Regular files go to libmagic (with their first 64 bytes),
    directories and fifos get their own names; since the tests are single-bit
    masks and not comparisons, block devices are called directories and
    character devices symlinks, and the names for sockets and devices are never
    used. *)
Theorem mime_get_fd_by_type magic content sb t :
  In t [S_IFSOCK; S_IFLNK; S_IFREG; S_IFBLK; S_IFDIR; S_IFCHR; S_IFIFO] ->
  Z.land sb.(st_mode) S_IFMT = t ->
  mime_get_fd magic true content sb = mime_of_type magic content t.
Proof.
  intros Ht Hm. unfold mime_get_fd.
  rewrite (land_type _ S_IFREG), (land_type _ S_IFDIR), (land_type _ S_IFSOCK),
    (land_type _ S_IFLNK), (land_type _ S_IFBLK), (land_type _ S_IFCHR) by reflexivity.
  rewrite Hm.
  simpl in Ht. repeat destruct Ht as [<-|Ht]; [reflexivity..|done].
Qed.

Lemma mime_get_fd_by_type_witness :
  mime_get_fd (fun _ => None) true [] (mkstat (S_IFBLK + 432) 0 0 0 0)
  = Some (bs "application/x-directory").
Proof.
  rewrite (mime_get_fd_by_type (fun _ => None) [] (mkstat (S_IFBLK + 432) 0 0 0 0) S_IFBLK);
    [reflexivity | simpl; tauto | reflexivity].
Defined.
