(* ===== verification/World.v ===== *)
(** * The world around the request handlers

    [Posix] is the interface to everything the handlers call outside the
    program: memory allocation, the client's socket, the file system, the
    authentication program, child processes and libmagic.  Its operations have
    no laws here; what a theorem needs of them is a hypothesis of that theorem.
    [M] is the state monad of the handlers: the state is the connection, the
    bytes sent so far, the input stream and the file system; [None] is an
    access outside a buffer. *)
From S2P Require Export Utils BufferedReader Mime.

(** ** Configuration (types.h) *)

Record weborf_configuration_t := mkconf {
  c_basedir : bytes;
  c_authsock : option bytes;
  c_uid : Z;
  c_gid : Z;
  c_send_content_type : bool;
  c_is_inetd : bool;
  c_cgi_paths : list bytes;
  c_virtual_host : bool;
  c_exec_script : bool;
  c_tar_directory : bool;
  c_daemonize : bool;
  c_ip : option bytes;
  c_port : bytes;
  c_indexes : list bytes;
}.

(** ** The interface to the outside *)

(** [errno] values the program tells apart. *)
Inductive errno_t :=
  | EACCES | EFAULT | ELOOP | ENAMETOOLONG | ENOMEM | ENOENT | EEXIST | ENOTDIR
  | ENOSPC | EROFS | EPERM | EXDEV | EOTHER.

#[export] Instance errno_eq_dec : EqDecision errno_t.
Proof. solve_decision. Defined.

(** What a CGI child is started with: the program, the name of the script, the
    working directory, the environment and the standard input. *)
Record cgi_exec := mkexec {
  ce_executor : bytes;
  ce_filename : bytes;
  ce_dir : bytes;
  ce_environ : list (bytes * bytes);
  ce_stdin : option bytes;
}.

Class Posix (F : Type) := {
  (** does [malloc] of that many bytes succeed *)
  px_malloc : Z -> bool;
  (** the result of writing these bytes to the client, after those already sent *)
  px_sock_write : bytes -> bytes -> Z;
  (** [getenv] *)
  px_getenv : bytes -> option bytes;
  (** the authentication program: connected, result of the write, of the read *)
  px_auth_connect : bool;
  px_auth_write : bytes -> Z;
  px_auth_read : bytes -> Z;
  (** reading the file system *)
  px_access : F -> bytes -> bool;
  (** [access] for reading and writing *)
  px_access_rw : F -> bytes -> bool;
  px_stat : F -> bytes -> option stat_t;
  px_open_rd : F -> bytes -> Z;
  px_fstat : F -> Z -> stat_t;
  (** the bytes that reads of a descriptor deliver from its beginning on, before
      one of them gives 0 or -1; and whether it is -1, so that the bytes are not
      the whole file *)
  px_contents : F -> Z -> bytes;
  px_read_error : F -> Z -> bool;
  px_readdir : F -> bytes -> option (list bytes);
  px_scandir : F -> bytes -> option (list bytes);
  (** changing it; [None] is success, [Some e] failure with that [errno] *)
  px_unlink : F -> bytes -> option errno_t * F;
  px_rmdir : F -> bytes -> option errno_t * F;
  px_mkdir : F -> bytes -> option errno_t * F;
  px_rename : F -> bytes -> bytes -> option errno_t * F;
  px_open_wr : F -> bytes -> Z * F;
  px_open_rdwr : F -> bytes -> Z * F;
  px_ftruncate : F -> Z -> Z -> bool * F;
  px_write : F -> Z -> bytes -> Z * F;
  (** [flock], shared or exclusive, without blocking *)
  px_flock : F -> Z -> bool -> bool;
  (** [localtime_r] and [strftime] *)
  px_strftime : Z -> bytes;
  (** the same with the format of HTTP dates *)
  px_httpdate : Z -> bytes;
  (** the position of a descriptor *)
  px_tell : F -> Z -> Z;
  (** libmagic's [magic_buffer] *)
  px_magic : bytes -> option bytes;
  (** tar: what it prints, and its wait status, or a failed [fork] *)
  px_tar : F -> bytes -> option (bytes * Z);
  (** a child that executes a script: the pieces its output comes in, or a
      failure to start it *)
  px_script : F -> cgi_exec -> option (list bytes);
  (** [getsockname], as text *)
  px_sock_addr : bytes;
  (** the content of memory the program reads before it has written it *)
  px_garbage : nat -> bytes;
  px_garbage_stat : stat_t;
}.

(** ** State and monad *)

Record world (F : Type) := mkworld {
  w_conn : connection_t;
  w_out : bytes;
  w_read : buffered_read_t;
  w_net : list net_event;
  w_fs : F;
}.
Arguments mkworld {F}.
Arguments w_conn {F}.
Arguments w_out {F}.
Arguments w_read {F}.
Arguments w_net {F}.
Arguments w_fs {F}.

Definition M (F A : Type) : Type := world F -> option (A * world F).

#[export] Instance M_ret {F} : MRet (M F) := fun A x w => Some (x, w).
#[export] Instance M_bind {F} : MBind (M F) :=
  fun A B f m w => match m w with Some (x, w') => f x w' | None => None end.

Definition lift {F A} (o : option A) : M F A :=
  fun w => match o with Some x => Some (x, w) | None => None end.

Definition conn {F} : M F connection_t := fun w => Some (w.(w_conn), w).
Definition upd {F} (f : connection_t -> connection_t) : M F unit :=
  fun w => Some (tt, mkworld (f w.(w_conn)) w.(w_out) w.(w_read) w.(w_net) w.(w_fs)).
Definition get_fs {F} : M F F := fun w => Some (w.(w_fs), w).
Definition put_fs {F} (fs : F) : M F unit :=
  fun w => Some (tt, mkworld w.(w_conn) w.(w_out) w.(w_read) w.(w_net) fs).

(** Memory just obtained from [malloc] or on the stack: [n] bytes, not yet
    written. *)
Definition fresh {F} `{Posix F} (n : nat) : bytes :=
  take n (px_garbage n ++ replicate n 0).

(** A call of the file system that changes it. *)
Definition on_fs {F A} (f : F -> A * F) : M F A :=
  fs ← get_fs; let '(x, fs') := f fs in _ ← put_fs fs'; mret x.

(** The string a pointer of the connection points to. *)
Definition cstring {F} (p : nat) : M F bytes :=
  c ← conn; lift (cstr_at c.(req) p).

Section Prim.
Context {F : Type} `{Posix F}.

(** [myio_write] to the client's socket. *)
Definition sock_send (data : bytes) : M F Z :=
  fun w => let r := px_sock_write w.(w_out) data in
           Some (r, mkworld w.(w_conn) (w.(w_out) ++ take (Z.to_nat r) data)
                      w.(w_read) w.(w_net) w.(w_fs)).

(** [buffer_read] from the client: the return value and the bytes read. *)
Definition sock_read (count : Z) : M F (Z * bytes) :=
  fun w => '(r, data, b, es) ← buffer_read count w.(w_read) w.(w_net);
           Some ((r, data), mkworld w.(w_conn) w.(w_out) b es w.(w_fs)).

(** [get_param_value] on the header of the request, into a buffer [buf]. *)
Definition param (name : bytes) (buf : bytes) (size : Z) : M F (bool * bytes) :=
  c ← conn;
  lift (get_param_value c.(req) c.(http_param) name buf size (Z.of_nat (length name))).
End Prim.

(** The world after [d] has been sent to the client. *)
Definition sent {F} (w : world F) (d : bytes) : world F :=
  mkworld w.(w_conn) (w.(w_out) ++ d) w.(w_read) w.(w_net) w.(w_fs).

(** The world with another file system. *)
Definition with_fs {F} (w : world F) (fs : F) : world F :=
  mkworld w.(w_conn) w.(w_out) w.(w_read) w.(w_net) fs.

(** [read] of at most [n] bytes, where the bytes [src] can still be read before
    the end of the file or, with [err], an error: the result and the bytes. *)
Definition fd_read (src : bytes) (err : bool) (n : Z) : Z * bytes :=
  let buf := take (Z.to_nat n) src in
  (if buf is [] then if err then -1 else 0 else Z.of_nat (length buf), buf).

(** What the program relies on of [write] on an open descriptor: at most the
    given bytes are taken, and the ones taken are appended to what was written
    through it; [inv] says that the descriptor is open. *)
Definition write_law {F} `{Posix F} (fd : Z) (inv : F -> Prop) (written : F -> bytes) : Prop :=
  forall fs b, inv fs ->
    let '(n, fs') := px_write fs fd b in
    n <= Z.of_nat (length b) /\ inv fs' /\ written fs' = written fs ++ take (Z.to_nat n) b.

(** The client takes everything that is sent. *)
Definition client_reads {F} `{Posix F} : Prop :=
  forall out d, px_sock_write out d = Z.of_nat (length d).

(** The bytes the client sent that were not consumed yet, up to the point where
    the stream stops. *)
Definition pending {F} (w : world F) : bytes := buffered w.(w_read) ++ stream w.(w_net).

(** The world after reading: new memory of the request, buffer and stream. *)
Definition reading {F} (w : world F) (m : bytes) (b : buffered_read_t) (es : list net_event)
    : world F :=
  mkworld (set_req m w.(w_conn)) w.(w_out) b es w.(w_fs).

(** There is memory. *)
Definition mem_ok {F} `{Posix F} : Prop := forall n, px_malloc n = true.

(** The header text of the request is [h] and its last line end. *)
Definition has_header (c : connection_t) (h : bytes) : Prop :=
  exists pre post, c.(req) = pre ++ (h ++ CRLF) ++ 0 :: post
    /\ c.(http_param) = length pre /\ 0 ∉ h.

(** What [get_param_value] makes of a field of the header [h] and a buffer. *)
Definition field_result (name h buf : bytes) (size : Z) : bool * bytes :=
  match field_value name (h ++ CRLF) with
  | Some v => if Z.of_nat (length v) + 1 <? size
              then (true, v ++ 0 :: drop (S (length v)) buf) else (false, buf)
  | None => (false, buf)
  end.

(** A computation that keeps a part of the state. *)
Definition keeps {F A B} (view : world F -> B) (m : M F A) : Prop :=
  forall w x w', m w = Some (x, w') -> view w' = view w.

(** ** Lemmas: running computations *)

Lemma take_length_take {A} n (l : list A) : take (length (take n l)) l = take n l.
Proof.
  rewrite length_take. destruct (decide (n <= length l)%nat).
  - by rewrite Nat.min_l by lia.
  - by rewrite Nat.min_r, !take_ge by lia.
Qed.

Lemma take_add {A} i j (l : list A) : take (i + j) l = take i l ++ take j (drop i l).
Proof.
  revert l. induction i as [|i IH]; intros l; [by rewrite drop_0|].
  destruct l as [|x l]; simpl; [by rewrite take_nil | by rewrite IH].
Qed.

(** A read of some bytes gives some, exactly when there are some. *)
Lemma fd_read_pos src err n :
  0 < n -> (0 <? fst (fd_read src err n)) = (if src is [] then false else true)
           /\ (src <> [] -> fst (fd_read src err n) = Z.of_nat (length (snd (fd_read src err n)))).
Proof.
  intros Hn. unfold fd_read. destruct src as [|x src]; [rewrite take_nil; by destruct err|].
  destruct (Z.to_nat n) as [|k] eqn:E; [lia|]. cbn [take fst snd length]. split; [|done]. by apply Z.ltb_lt.
Qed.

Lemma fresh_length {F} `{Posix F} n : length (fresh n) = n.
Proof. unfold fresh. rewrite length_take, length_app, length_replicate. lia. Qed.

Lemma bind_run {F A C} (m : M F A) (f : A -> M F C) w x w1 :
  m w = Some (x, w1) -> (y ← m; f y) w = f x w1.
Proof. intros E. unfold mbind, M_bind. by rewrite E. Qed.

Lemma bind_inv {F A C} (m : M F A) (f : A -> M F C) w r :
  (y ← m; f y) w = Some r -> exists x w1, m w = Some (x, w1) /\ f x w1 = Some r.
Proof.
  unfold mbind, M_bind. destruct (m w) as [[x w1]|]; [|done]. eauto.
Qed.

Lemma bind_assoc {F A B C} (m : M F A) (f : A -> M F B) (g : B -> M F C) w :
  (y ← (x ← m; f x); g y) w = (x ← m; y ← f x; g y) w.
Proof. unfold mbind, M_bind. by destruct (m w) as [[x w1]|]. Qed.

Lemma lift_bind_Some {F A C} (o : option A) x (f : A -> M F C) w :
  o = Some x -> (y ← lift o; f y) w = f x w.
Proof. by intros ->. Qed.

Lemma lift_bind_inv {F A C} (o : option A) (f : A -> M F C) w r :
  (y ← lift o; f y) w = Some r -> exists x, o = Some x /\ f x w = Some r.
Proof. unfold mbind, M_bind, lift. destruct o as [x|]; [|done]. eauto. Qed.

Lemma lift_run {F A} (o : option A) x (w : world F) : o = Some x -> lift o w = Some (x, w).
Proof. by intros ->. Qed.

Lemma on_fs_run {F A} (f : F -> A * F) (w : world F) :
  on_fs f w = Some (fst (f w.(w_fs)), with_fs w (snd (f w.(w_fs)))).
Proof.
  unfold on_fs, mbind, M_bind, get_fs. by destruct (f (w_fs w)) as [x fs'] eqn:E.
Qed.

Lemma sent_nil {F} (w : world F) : sent w [] = w.
Proof. destruct w. unfold sent. simpl. by rewrite app_nil_r. Qed.

Lemma sent_sent {F} (w : world F) a b : sent (sent w a) b = sent w (a ++ b).
Proof. unfold sent. simpl. by rewrite app_assoc. Qed.

Lemma with_fs_with_fs {F} (w : world F) a b : with_fs (with_fs w a) b = with_fs w b.
Proof. done. Qed.

Lemma with_fs_id {F} (w : world F) : with_fs w w.(w_fs) = w.
Proof. by destruct w. Qed.

Lemma sock_send_run {F} `{Posix F} d (w : world F) :
  sock_send d w = Some (px_sock_write w.(w_out) d,
                        sent w (take (Z.to_nat (px_sock_write w.(w_out) d)) d)).
Proof. done. Qed.

Lemma sock_send_all {F} `{Posix F} d (w : world F) :
  client_reads -> sock_send d w = Some (Z.of_nat (length d), sent w d).
Proof.
  intros Hc. rewrite sock_send_run, Hc. do 2 f_equal. by rewrite Nat2Z.id, take_ge.
Qed.

Lemma conn_run {F} (w : world F) : conn w = Some (w.(w_conn), w).
Proof. done. Qed.

Lemma conn_bind {F C} (f : connection_t -> M F C) (w : world F) :
  (c ← conn; f c) w = f w.(w_conn) w.
Proof. done. Qed.

Lemma param_run {F} name buf size (w : world F) h :
  has_header w.(w_conn) h -> field_name name -> size <= Z.of_nat (length buf) ->
  param name buf size w = Some (field_result name h buf size, w).
Proof.
  intros (pre & post & Hr & Hp & H0) Hn Hs. unfold param.
  rewrite (bind_run _ _ _ _ _ (conn_run w)). rewrite Hr, Hp.
  by rewrite (get_param_value_run pre h post name buf size) by done.
Qed.

Lemma cstring_run {F} (w : world F) p s :
  cstr_at w.(w_conn).(req) p = Some s -> cstring p w = Some (s, w).
Proof. intros E. unfold cstring. rewrite conn_bind. by apply lift_run. Qed.

(** [param] on a header, when the buffer has the size that is passed. *)
Lemma param_bind {F C} name buf size (f : bool * bytes -> M F C) (w : world F) h :
  has_header w.(w_conn) h -> field_name name -> size <= Z.of_nat (length buf) ->
  (r ← param name buf size; f r) w = f (field_result name h buf size) w.
Proof. intros. by rewrite (bind_run _ _ _ _ _ (param_run name buf size w h ltac:(done) ltac:(done) ltac:(done))). Qed.

Lemma get_fs_bind {F C} (f : F -> M F C) (w : world F) : (fs ← get_fs; f fs) w = f w.(w_fs) w.
Proof. done. Qed.

Lemma mret_bind {F A C} (x : A) (f : A -> M F C) (w : world F) : (y ← mret x; f y) w = f x w.
Proof. done. Qed.

Lemma field_result_length name h buf size :
  size <= Z.of_nat (length buf) -> length (field_result name h buf size).2 = length buf.
Proof.
  intros Hs. unfold field_result. destruct (field_value name (h ++ CRLF)) as [v|]; [|done].
  destruct (Z.ltb_spec (Z.of_nat (length v) + 1) size); [|done]. simpl.
  rewrite length_app, length_cons, length_drop. lia.
Qed.

Lemma field_result_None name h buf size :
  field_value name (h ++ CRLF) = None -> field_result name h buf size = (false, buf).
Proof. unfold field_result. by intros ->. Qed.

Lemma field_result_Some name h buf size v :
  field_value name (h ++ CRLF) = Some v -> Z.of_nat (length v) + 1 < size ->
  field_result name h buf size = (true, v ++ 0 :: drop (S (length v)) buf).
Proof.
  unfold field_result. intros -> Hv. by destruct (Z.ltb_spec (Z.of_nat (length v) + 1) size); [|lia].
Qed.

(** A read: [pending] advances by what is read. *)
Lemma sock_read_run {F} `{Posix F} count (w : world F) :
  buf_wf w.(w_read) -> 0 <= count ->
  exists d b es,
    sock_read count w
    = Some ((Z.of_nat (length d), d), mkworld w.(w_conn) w.(w_out) b es w.(w_fs))
    /\ d = take (Z.to_nat count) (pending w) /\ buf_wf b
    /\ ((Z.to_nat count <= length (pending w))%nat ->
          buffered b ++ stream es = drop (Z.to_nat count) (pending w)).
Proof.
  intros Hwf Hc. destruct (buffer_read_run count _ w.(w_net) Hwf Hc) as (b & es & E & Hb & R).
  exists (take (Z.to_nat count) (pending w)), b, es. unfold sock_read, pending. rewrite E.
  split_and!; [done..|]. intros Hl. by destruct (Nat.leb_spec (Z.to_nat count)
    (length (buffered (w_read w) ++ stream (w_net w)))); [destruct R | lia].
Qed.

Lemma get_fs_run {F} (w : world F) : get_fs w = Some (w.(w_fs), w).
Proof. done. Qed.

Lemma mret_run {F A} (x : A) (w : world F) : (mret x : M F A) w = Some (x, w).
Proof. done. Qed.

(** Runs the first step of a computation by an equation of the database. *)
Create Rewrite HintDb run.
#[export] Hint Rewrite @on_fs_run @sock_send_run @get_fs_run @conn_run @mret_run : run.
Ltac run1 := unfold mbind at 1, M_bind at 1; autorewrite with run; cbv beta iota zeta.

(** ** Lemmas: what computations keep *)

Lemma keeps_ret {F A B} (view : world F -> B) (x : A) : keeps view (mret x : M F A).
Proof. intros w y w' [= _ <-]. done. Qed.

Lemma keeps_bind {F A C B} (view : world F -> B) (m : M F A) (f : A -> M F C) :
  keeps view m -> (forall x, keeps view (f x)) -> keeps view (x ← m; f x).
Proof.
  intros Hm Hf w y w' E. unfold mbind, M_bind in E.
  destruct (m w) as [[x w1]|] eqn:E1; [|done].
  rewrite (Hf x w1 y w' E). by eapply Hm.
Qed.

Lemma keeps_lift {F A B} (view : world F -> B) (o : option A) : keeps view (lift o : M F A).
Proof. intros w y w'. unfold lift. destruct o; [|done]. by intros [= _ <-]. Qed.

Lemma keeps_conn {F B} (view : world F -> B) : keeps view (conn : M F connection_t).
Proof. intros w y w' [= _ <-]. done. Qed.

Lemma keeps_get_fs {F B} (view : world F -> B) : keeps view (get_fs : M F F).
Proof. intros w y w' [= _ <-]. done. Qed.

Lemma keeps_if {F A B} (view : world F -> B) (b : bool) (m1 m2 : M F A) :
  keeps view m1 -> keeps view m2 -> keeps view (if b then m1 else m2).
Proof. by destruct b. Qed.

Lemma upd_fs {F} f : keeps (@w_fs F) (upd f).
Proof. intros w y w' [= _ <-]. done. Qed.

Lemma sock_send_fs {F} `{Posix F} d : keeps (@w_fs F) (sock_send d).
Proof. intros w y w' [= _ <-]. done. Qed.

Lemma sock_read_fs {F} `{Posix F} n : keeps (@w_fs F) (sock_read n).
Proof.
  intros w y w'. unfold sock_read. destruct (buffer_read _ _ _) as [[[[r d] b] es]|]; [|done].
  by intros [= _ <-].
Qed.

Create HintDb keeps.
#[export] Hint Resolve keeps_ret keeps_lift keeps_conn keeps_get_fs upd_fs sock_send_fs
  sock_read_fs : keeps.

(** Walks through a computation; the leaves are hints. *)
Ltac keeps :=
  repeat (intros; cbv zeta;
    match goal with
    | |- keeps _ (mbind _ _) => apply keeps_bind
    | |- keeps _ (if _ then _ else _) => apply keeps_if
    | |- keeps _ (match ?x with _ => _ end) => destruct x
    | |- keeps _ _ => solve [auto with keeps]
    end).

Lemma cstring_keeps {F B} (view : world F -> B) p : keeps view (cstring p : M F bytes).
Proof. unfold cstring. keeps. Qed.

Lemma param_keeps {F B} (view : world F -> B) n b s : keeps view (param n b s : M F _).
Proof. unfold param. keeps. Qed.

#[export] Hint Resolve cstring_keeps param_keeps : keeps.
