(* ===== verification/Sample.v ===== *)
(** * A concrete file system

    An in-memory instance of [Posix], on which the witnesses of the theorems
    about the handlers run: files with their content and a write position,
    descriptors that are positions in the list of files, one directory, and
    an authentication program that accepts; an empty file system cannot be listed.  Nothing else depends on it. *)
From S2P Require Export World.

(** A file: path, content, write position, mode. *)
Record sample_file := mkfile {
  sf_path : bytes;
  sf_content : bytes;
  sf_pos : nat;
  sf_mode : Z;
}.

Abbreviation sample_fs := (list sample_file).

(** Position of the file with that path. *)
Fixpoint sf_find (p : bytes) (fs : sample_fs) : option nat :=
  match fs with
  | [] => None
  | f :: fs => if bool_decide (f.(sf_path) = p) then Some 0%nat else S <$> sf_find p fs
  end.

Definition sf_stat_of (f : sample_file) : stat_t :=
  mkstat f.(sf_mode) (to_s64 (Z.of_nat (length f.(sf_content)))) 1000 1 1.

Definition sf_fd (o : option nat) : Z := if o is Some n then Z.of_nat n else -1.

Definition sf_write_file (b : bytes) (f : sample_file) : sample_file :=
  mkfile f.(sf_path)
    (take f.(sf_pos) f.(sf_content) ++ b ++ drop (f.(sf_pos) + length b) f.(sf_content))
    (f.(sf_pos) + length b) f.(sf_mode).

Definition sf_open_wr (fs : sample_fs) (p : bytes) : Z * sample_fs :=
  match sf_find p fs with
  | Some n => (Z.of_nat n, alter (fun f => mkfile f.(sf_path) f.(sf_content) 0 f.(sf_mode)) n fs)
  | None => (Z.of_nat (length fs), fs ++ [mkfile p [] 0 (S_IFREG + 384)])
  end.

Definition sf_truncate (n : nat) (f : sample_file) : sample_file :=
  mkfile f.(sf_path) (take n (f.(sf_content) ++ replicate n 0)) f.(sf_pos) f.(sf_mode).

Definition sf_remove (fs : sample_fs) (p : bytes) : option errno_t * sample_fs :=
  match sf_find p fs with
  | Some n => (None, delete n fs)
  | None => (Some ENOENT, fs)
  end.

(** What is not under /srv is on another device. *)
Definition sf_rename (fs : sample_fs) (a b : bytes) : option errno_t * sample_fs :=
  if negb (Bool.eqb (starts_with (bs "/srv") a) (starts_with (bs "/srv") b))
  then (Some EXDEV, fs)
  else match sf_find a fs with
  | Some n => (None, alter (fun f => mkfile b f.(sf_content) f.(sf_pos) f.(sf_mode)) n fs)
  | None => (Some ENOENT, fs)
  end.

(** The paths with prefix "dir/" make up the directory. *)
Definition sf_entries (fs : sample_fs) (dir : bytes) : list bytes :=
  omap (fun f => if starts_with (dir ++ bs "/") f.(sf_path)
                 then Some (drop (length dir + 1) f.(sf_path)) else None) fs.

(** The name of a file in the directory whose path, slash included, is [dir]. *)
Definition sf_dirent (dir : bytes) (f : sample_file) : option bytes :=
  let n := drop (length dir) f.(sf_path) in
  if starts_with dir f.(sf_path) && negb (bool_decide (n = [])) && negb (bool_decide (chr "/" ∈ n))
  then Some n else None.

(** A path with one slash for each of its runs of slashes. *)
Fixpoint squeeze (p : bytes) : bytes :=
  match p with
  | c :: p => match p with
              | d :: _ => if (c =? chr "/") && (d =? chr "/") then squeeze p else c :: squeeze p
              | [] => [c]
              end
  | [] => []
  end.

(** [up] tells whether the authentication program is there, [reply] what a read
    returns after a message to it, [stack] what memory holds before it is
    written, [bad] that reads of files fail in the end. *)
Definition sample_device (up : bool) (reply : bytes -> Z) (stack : bytes) (bad : bool) : Posix sample_fs := {|
  px_malloc := fun _ => true;
  px_sock_write := fun _ b => Z.of_nat (length b);
  px_getenv := fun _ => None;
  px_auth_connect := up;
  px_auth_write := fun b => Z.of_nat (length b);
  px_auth_read := reply;
  px_access := fun fs p => if sf_find p fs is Some _ then true else false;
  px_access_rw := fun fs p => if sf_find p fs is Some _ then true else false;
  px_stat := fun fs p => n ← sf_find (squeeze p) fs; f ← fs !! n; Some (sf_stat_of f);
  px_open_rd := fun fs p => sf_fd (sf_find p fs);
  px_fstat := fun fs fd =>
    if fs !! Z.to_nat fd is Some f then sf_stat_of f else mkstat 0 0 0 0 0;
  px_contents := fun fs fd => if fs !! Z.to_nat fd is Some f then f.(sf_content) else [];
  px_read_error := fun _ _ => bad;
  px_readdir := fun fs d => Some (sf_entries fs d);
  px_scandir := fun fs d => if fs is [] then None else Some (omap (sf_dirent d) fs);
  px_unlink := sf_remove;
  px_rmdir := sf_remove;
  px_mkdir := fun fs p =>
    if sf_find p fs is Some _ then (Some EEXIST, fs) else (None, fs ++ [mkfile p [] 0 S_IFDIR]);
  px_rename := sf_rename;
  px_open_wr := sf_open_wr;
  px_open_rdwr := sf_open_wr;
  px_ftruncate := fun fs fd n => (true, alter (sf_truncate (Z.to_nat n)) (Z.to_nat fd) fs);
  px_write := fun fs fd b => (Z.of_nat (length b), alter (sf_write_file b) (Z.to_nat fd) fs);
  px_flock := fun _ _ _ => true;
  px_strftime := fun _ => [];
  px_httpdate := fun _ => bs "Thu, 01 Jan 1970 00:00:00 GMT";
  px_tell := fun fs fd => if fs !! Z.to_nat fd is Some f then Z.of_nat f.(sf_pos) else 0;
  px_magic := fun _ => Some (bs "text/plain");
  px_tar := fun _ _ => Some ([], 0);
  px_script := fun _ _ =>
    Some [bs "Status: 404" ++ CRLF ++ CRLF ++ bs "no "; bs "page"];
  px_sock_addr := bs "::1";
  px_garbage := fun _ => stack;
  px_garbage_stat := mkstat 0 0 0 0 0;
|}.

Definition sample_memory (up : bool) (reply : bytes -> Z) (stack : bytes) : Posix sample_fs :=
  sample_device up reply stack false.

Definition sample_auth (up : bool) (reply : bytes -> Z) : Posix sample_fs := sample_memory up reply [].

Definition sample_stack (stack : bytes) : Posix sample_fs := sample_memory true (fun _ => 0) stack.

Definition sample_with (up : bool) : Posix sample_fs := sample_auth up (fun _ => 0).

#[export] Instance sample_posix : Posix sample_fs := sample_with true.

(** What has been written through a descriptor since it was opened. *)
Definition sf_written (fs : sample_fs) (fd : Z) : bytes :=
  if fs !! Z.to_nat fd is Some f then take f.(sf_pos) f.(sf_content) else [].

Definition sample_conf : weborf_configuration_t :=
  mkconf (bs "/srv") None 0 0 true false [] false false false false None (bs "8080")
    [bs "index.html"].

Definition sample_fs0 : sample_fs :=
  [mkfile (bs "/srv/a") (bs "hello world") 0 (S_IFREG + 420);
   mkfile (bs "/srv/d/") [] 0 (S_IFDIR + 493)].

Definition sample_conf_auth : weborf_configuration_t :=
  mkconf (bs "/srv") (Some (bs "/run/auth.sock")) 0 0 true false [] false false false false None
    (bs "8080") [bs "index.html"].

(** A connection whose memory holds the page, the method and the header. *)
Definition sample_conn (page header : bytes) : connection_t :=
  mkconn (bs "GET" ++ [0] ++ page ++ [0] ++ header ++ [0]) (bs "::1") true HTTP_1_1 GET 0
    (5 + length page) 4 (Z.of_nat (length page)) None (replicate URI_LEN 0) 0
    (mkstat 0 0 0 0 0) 0 (bs "/srv") 0.

Definition sample_world (page header : bytes) (net : list net_event) : world sample_fs :=
  mkworld (sample_conn page header) [] (mkbuf (replicate 16 0) 0 0 16) net sample_fs0.

Lemma sf_written_write fs fd b f :
  fs !! Z.to_nat fd = Some f -> (f.(sf_pos) <= length f.(sf_content))%nat ->
  sf_written (alter (sf_write_file b) (Z.to_nat fd) fs) fd = sf_written fs fd ++ b.
Proof.
  intros H Hp. unfold sf_written. rewrite list_lookup_alter_eq, H. cbn [fmap option_fmap option_map].
  unfold sf_write_file. cbn [sf_pos sf_content].
  assert (length (take (sf_pos f) (sf_content f)) = sf_pos f) as L by (rewrite length_take; lia).
  rewrite app_assoc, take_app_length'; [done|]. rewrite length_app. lia.
Qed.

(** The descriptor [fd] is open on a file written up to its position. *)
Definition sf_open_fd (fd : Z) (fs : sample_fs) : Prop :=
  exists f, fs !! Z.to_nat fd = Some f /\ (f.(sf_pos) <= length f.(sf_content))%nat.

Lemma sf_write_law fd : write_law fd (sf_open_fd fd) (fun fs => sf_written fs fd).
Proof.
  intros fs b (f & Hf & Hp). simpl. rewrite Nat2Z.id, take_ge by lia. split_and!; [lia| |].
  - exists (sf_write_file b f). split; [by rewrite list_lookup_alter_eq, Hf|].
    unfold sf_write_file. cbn [sf_pos sf_content].
    rewrite !length_app, length_take, length_drop. lia.
  - by eapply sf_written_write.
Qed.
