(* ===== verification/MyNet.v ===== *)
(** * Addresses of the server and of its clients (mynet.c)

    [net_bind_and_listen] checks the port, turns the configured address into an
    IPv6 one and binds; [net_getpeername] prints the address of a client.  The
    conversions of addresses and [bind] are parameters; [inl] is the code of a
    call of [exit]. *)
From S2P Require Export World Sample.

(** ** Definitions *)

Definition mapped_prefix : bytes := bs "::ffff:".

(** What [getpeername] and [inet_ntop] give: the text of an IPv4 or of an IPv6
    address. *)
Inductive peer_addr :=
  | PeerV4 (text : bytes)
  | PeerV6 (text : bytes).

Section MyNet.
Context {F : Type} `{Posix F}.
Context (conf : weborf_configuration_t).
(** [inet_pton]: 0 when the text is no address, and what it stands for *)
Context {addr : Type} (inet_pton : bytes -> Z * addr) (in6addr_any : addr).
(** [bind] on a socket *)
Context (bind_ok : addr -> Z -> bool).

(** The address is the string at the beginning of [m]; the buffer is new. *)
Definition net_map_ipv4 (m : bytes) : option bytes :=
  len ← strlen m 0;
  colon ← strstr m 0 (bs ":");
  match colon with
  | Some _ => s ← load_n m 0 (len + 1); write_at (fresh (len + 1)) 0 s
  | None =>
      let n := length mapped_prefix in
      r ← write_at (fresh (len + n + 1)) 0 mapped_prefix;
      s ← load_n m 0 (len + 1);
      write_at r n s
  end.

(** The address, the port and the name that is logged. *)
Definition net_bind_and_listen : option (Z + addr * Z * bytes) :=
  let port := to_u32 (strtol conf.(c_port) 0) in
  if (port <? 1) || (65535 <? port) then Some (inl 4)
  else
    a ← (match conf.(c_ip) with
         | Some text =>
             r ← net_map_ipv4 (text ++ [0]);
             ip ← cstr_at r 0;
             Some (if (inet_pton ip).1 =? 0 then inl 2 else inr ((inet_pton ip).2, text))
         | None => Some (inr (in6addr_any, bs "any"))
         end);
    match a with
    | inl code => Some (inl code)
    | inr (sin6_addr, ip) =>
        if negb (bind_ok sin6_addr port) then Some (inl 3) else Some (inr (sin6_addr, port, ip))
    end.

(** [buffer] has [INET6_ADDRSTRLEN] bytes. *)
Definition net_getpeername (peer : peer_addr) (buffer : bytes) : option bytes :=
  match peer with
  | PeerV4 text => fst <$> snprintf buffer 0 INET6_ADDRSTRLEN (mapped_prefix ++ text)
  | PeerV6 text => write_at buffer 0 (text ++ [0])
  end.
End MyNet.

(** ** Specification *)

(** The IPv6 text of an address. *)
Definition ipv6_text (text : bytes) : bytes :=
  if bool_decide (chr ":" ∈ text) then text else mapped_prefix ++ text.

Definition peer_text (peer : peer_addr) : bytes :=
  match peer with
  | PeerV4 text => mapped_prefix ++ text
  | PeerV6 text => text
  end.

(** ** Lemmas *)

Section MyNetLemmas.
Context {F : Type} `{Posix F}.

Lemma net_map_ipv4_run text tail :
  0 ∉ text -> net_map_ipv4 (text ++ 0 :: tail) = Some (ipv6_text text ++ [0]).
Proof.
  intros H0. unfold net_map_ipv4, strlen, strstr. rewrite cstr_at_0 by done.
  cbn [fmap option_fmap option_map mbind option_bind].
  assert (load_n (text ++ 0 :: tail) 0 (length text + 1) = Some (text ++ [0])) as El.
  { pose proof (load_n_app [] (text ++ [0]) tail 0 (length text + 1)) as E.
    rewrite <-app_assoc in E. apply E; [done|]. by rewrite length_app. }
  rewrite El, find_sub_single. unfold ipv6_text. cbn [mbind option_bind].
  destruct (find_byte (chr ":") text) as [i|] eqn:Ef; cbn [fmap option_fmap option_map].
  - rewrite bool_decide_eq_true_2.
    + rewrite write_at_Some by (rewrite fresh_length, length_app; simpl; lia).
      rewrite take_0, drop_ge by (rewrite fresh_length, length_app; simpl; lia). by rewrite app_nil_r.
    + destruct (find_byte_Some _ _ _ Ef) as [-> _]. apply elem_of_app. right. apply elem_of_cons. auto.
  - apply find_byte_None in Ef. rewrite bool_decide_eq_false_2 by done.
    set (n := length mapped_prefix).
    rewrite write_at_Some by (rewrite fresh_length; subst n; lia).
    rewrite take_0. cbn [mbind option_bind app].
    assert (length (fresh (length text + n + 1)) = (length text + n + 1)%nat) as Lf by apply fresh_length.
    rewrite write_at_Some by (rewrite !length_app, length_drop, Lf; subst n; simpl; lia).
    rewrite take_app_length' by done.
    rewrite drop_ge by (rewrite !length_app, length_drop, Lf; subst n; simpl; lia).
    by rewrite app_nil_r, <-app_assoc.
Qed.
End MyNetLemmas.

(** ** Theorems *)

(** A configured address is always turned into an IPv6 address: one with a
    colon is copied, any other is mapped, in a buffer of just the right size. *)
Theorem net_map_ipv4_text {F} `{Posix F} text tail :
  0 ∉ text -> net_map_ipv4 (text ++ 0 :: tail) = Some (ipv6_text text ++ [0]).
Proof. apply net_map_ipv4_run. Qed.

(** The server listens on the configured port, for every port from 1 to
    65535, on the configured address or on any, or ends with the code of what
    failed; the port 0 and every larger number that fits 32 bits are refused. *)
Theorem net_bind_and_listen_port {F} `{Posix F} conf {addr} (inet_pton : bytes -> Z * addr) any ok p :
  conf.(c_port) = dec_u p -> 0 <= p < 2 ^ 32 -> (forall text, conf.(c_ip) = Some text -> 0 ∉ text) ->
  net_bind_and_listen conf inet_pton any ok
  = Some (if bool_decide (1 <= p <= 65535) then
            match conf.(c_ip) with
            | Some text =>
                let r := inet_pton (ipv6_text text) in
                if r.1 =? 0 then inl 2 else if ok r.2 p then inr (r.2, p, text) else inl 3
            | None => if ok any p then inr (any, p, bs "any") else inl 3
            end
          else inl 4).
Proof.
  intros Hp Hr Hip. unfold net_bind_and_listen. rewrite Hp, strtol_dec_whole by (unfold LONG_MAX; auto with lia).
  rewrite to_u_small by lia.
  case_bool_decide; destruct (Z.ltb_spec p 1), (Z.ltb_spec 65535 p); try lia; cbn [orb]; try done.
  destruct (c_ip conf) as [text|].
  - specialize (Hip _ eq_refl). rewrite net_map_ipv4_run by done. cbn [mbind option_bind].
    assert (0 ∉ ipv6_text text) as Hn.
    { unfold ipv6_text. case_bool_decide; [done|]. rewrite not_elem_of_app. split; [by_decision|done]. }
    rewrite cstr_at_0 by done. cbn [mbind option_bind]. cbv zeta.
    destruct (_ =? 0); [done|]. by destruct (ok _ p).
  - cbn [mbind option_bind]. by destruct (ok any p).
Qed.

(** The text of a client's address fits the field of the connection, NUL
    included, for every text [inet_ntop] produces. *)
Theorem net_getpeername_text peer buffer :
  0 ∉ peer_text peer -> (length (peer_text peer) < INET6_ADDRSTRLEN)%nat ->
  length buffer = INET6_ADDRSTRLEN ->
  exists buffer', net_getpeername peer buffer = Some buffer'
    /\ length buffer' = INET6_ADDRSTRLEN /\ cstr_at buffer' 0 = Some (peer_text peer).
Proof.
  intros H0 Hl Hb. destruct peer as [text|text]; cbn [net_getpeername peer_text] in *.
  - rewrite snprintf_fits by lia. eexists. split; [done|]. rewrite take_0. cbn [app fst].
    set (t := mapped_prefix ++ text) in *. split; [|by apply cstr_at_0].
    rewrite length_app, length_cons, length_drop. lia.
  - rewrite write_at_Some by (rewrite length_app; simpl; lia). eexists. split; [done|].
    rewrite take_0, <-app_assoc. cbn [app].
    split; [|by apply cstr_at_0]. unfold INET6_ADDRSTRLEN in *. len.
Qed.

(** A port number that does not fit 32 bits is cut before it is checked. *)
Example port_wraps :
  net_bind_and_listen
    (mkconf [] None 0 0 true false [] false false false false None (bs "4294967376") [])
    (fun _ => (1, tt)) tt (fun _ _ => true)
  = Some (inr (tt, 80, bs "any")).
Proof. reflexivity. Qed.

(** ** Witnesses *)

Lemma net_map_ipv4_text_witness :
  net_map_ipv4 (bs "127.0.0.1" ++ 0 :: []) = Some (bs "::ffff:127.0.0.1" ++ [0]).
Proof. apply (net_map_ipv4_text (bs "127.0.0.1") []). by_decision. Defined.

Lemma net_bind_and_listen_port_witness :
  net_bind_and_listen sample_conf (fun _ => (1, tt)) tt (fun _ _ => true)
  = Some (if bool_decide (1 <= 8080 <= 65535) then
            match sample_conf.(c_ip) with
            | Some text =>
                let r := (1, tt) in
                if r.1 =? 0 then inl 2 else if true then inr (r.2, 8080, text) else inl 3
            | None => if true then inr (tt, 8080, bs "any") else inl 3
            end
          else inl 4).
Proof.
  apply (net_bind_and_listen_port sample_conf (fun _ => (1, tt)) tt (fun _ _ => true) 8080);
    [reflexivity | by_decision | discriminate].
Defined.

Lemma net_getpeername_text_witness :
  exists buffer', net_getpeername (PeerV4 (bs "10.1.2.3")) (replicate 46 0) = Some buffer'
    /\ length buffer' = INET6_ADDRSTRLEN /\ cstr_at buffer' 0 = Some (bs "::ffff:10.1.2.3").
Proof.
  apply (net_getpeername_text (PeerV4 (bs "10.1.2.3"))); [by_decision | | reflexivity].
  apply Nat.ltb_lt. reflexivity.
Defined.
