(* ===== verification/MyIO.v ===== *)
(** * File operations (myio.c)

    Copying a descriptor to the client, and moving, copying and removing files
    and directory trees for WebDAV.  The recursion over directories takes a
    fuel, the depth it may reach. *)
From S2P Require Export World Sample.

(** ** Definitions *)

Section MyIO.
Context {F : Type} `{Posix F}.

(** The loop of [fd_copy]: [src] is what is left to read from the descriptor
    [from], and [err] whether an error follows; [to] is the client. *)
Fixpoint fd_copy_loop (fuel : nat) (src : bytes) (err : bool) (count : Z) : M F unit :=
  match fuel with
  | O => lift None
  | S f =>
      if 0 <? count then
        let '(reads, buf) := fd_read src err (if FILEBUF <? count then FILEBUF else count) in
        if 0 <? reads then
          let count := count - reads in
          wrote ← sock_send buf;
          if wrote =? reads then fd_copy_loop f (drop (length buf) src) err count else mret tt
        else mret tt
      else mret tt
  end.

Definition fd_copy (src : bytes) (err : bool) (count : Z) : M F Z :=
  if px_malloc FILEBUF then
    _ ← fd_copy_loop (S (length src)) src err count; mret 0
  else mret ERR_NOMEM.

Definition file_exists (file : bytes) : M F bool := fs ← get_fs; mret (px_access fs file).

(** The copying loop of [file_copy]: it ends at the end of the source, and on an
    error of [read] in the same way. *)
Fixpoint file_copy_loop (fuel : nat) (src : bytes) (err : bool) (fd_to : Z) : M F Z :=
  match fuel with
  | O => lift None
  | S f =>
      let '(read_, buf) := fd_read src err FILEBUF in
      if 0 <? read_ then
        write_ ← on_fs (fun fs => px_write fs fd_to buf);
        if write_ =? read_ then file_copy_loop f (drop (length buf) src) err fd_to
        else mret ERR_BRKPIPE
      else mret 0
  end.

Definition file_copy (source dest : bytes) : M F Z :=
  fd_to ← on_fs (fun fs => px_open_wr fs dest);
  if fd_to <? 0 then mret ERR_FORBIDDEN
  else
    fs ← get_fs;
    let fd_from := px_open_rd fs source in
    if fd_from <? 0 then mret ERR_FILENOTFOUND
    else if negb (px_malloc FILEBUF) then mret ERR_NOMEM
    else
      let src := px_contents fs fd_from in
      file_copy_loop (S (length src)) src (px_read_error fs fd_from) fd_to.

Definition file_move (source dest : bytes) : M F Z :=
  e ← on_fs (fun fs => px_rename fs source dest);
  match e with
  | None => mret 0
  | Some EXDEV =>
      retval ← file_copy source dest;
      if retval =? 0 then _ ← on_fs (fun fs => px_unlink fs source); mret retval
      else mret retval
  | Some _ => mret (-1)
  end.

(** [.] and [..] *)
Definition is_dot_entry (name : bytes) : bool :=
  match name with
  | [] => false
  | c :: r => (c =? chr ".") &&
      match r with
      | [] => true
      | d :: r' => (d =? chr ".") && (if r' is [] then true else false)
      end
  end.

(** [snprintf(file, PATH_LEN, "%s/%s", dir, name)] *)
Definition join_path (dir name : bytes) : bytes :=
  take (PATH_LEN - 1) (dir ++ bs "/" ++ name).

(** The loop over the entries of a directory: [f] handles one entry, and what
    it returns together with a variable of the caller that lives across the
    entries; a result that is not 0 ends the loop. *)
Fixpoint for_entries {A} (entries : list bytes) (a : A) (f : A -> bytes -> M F (Z * A)) : M F Z :=
  match entries with
  | [] => mret 0
  | e :: es =>
      if is_dot_entry e then for_entries es a f
      else '(r, a) ← f a e; if r =? 0 then for_entries es a f else mret r
  end.

Fixpoint dir_remove (fuel : nat) (dir : bytes) : M F Z :=
  match fuel with
  | O => lift None
  | S f =>
      e ← on_fs (fun fs => px_unlink fs dir);
      match e with
      | None => mret 0
      | Some _ =>
          fs ← get_fs;
          match px_readdir fs dir with
          | None => mret 1
          | Some entries =>
              if negb (px_malloc (Z.of_nat PATH_LEN)) then mret ERR_NOMEM
              else
                (* the result of the recursive call is not looked at *)
                _ ← for_entries entries tt
                      (fun _ name => _ ← dir_remove f (join_path dir name); mret (0, tt));
                e ← on_fs (fun fs => px_rmdir fs dir);
                mret (if e is None then 0 else -1)
          end
      end
  end.

Fixpoint dir_move_copy (fuel : nat) (source dest : bytes) (method : Z) : M F Z :=
  match fuel with
  | O => lift None
  | S f =>
      e ← on_fs (fun fs => px_mkdir fs dest);
      match e with
      | Some _ => mret ERR_FORBIDDEN
      | None =>
          fs ← get_fs;
          match px_readdir fs source with
          | None => mret ERR_FILENOTFOUND
          | Some entries =>
              if negb (px_malloc (2 * Z.of_nat PATH_LEN)) then mret ERR_NOMEM
              else
                retval ← for_entries entries px_garbage_stat (fun f_prop name =>
                  let src_file := join_path source name in
                  let dest_file := join_path dest name in
                  fs ← get_fs;
                  (* [stat] is not checked: it leaves [f_prop] when it fails *)
                  let f_prop := default f_prop (px_stat fs src_file) in
                  retval ← (if S_ISDIR f_prop.(st_mode)
                            then dir_move_copy f src_file dest_file method
                            else if method =? MOVE then file_move src_file dest_file
                            else file_copy src_file dest_file);
                  mret (retval, f_prop));
                if (retval =? 0) && (method =? MOVE)
                then e ← on_fs (fun fs => px_rmdir fs source);
                     mret (if e is None then 0 else -1)
                else mret retval
          end
      end
  end.

Definition dir_copy (fuel : nat) (source dest : bytes) : M F Z :=
  dir_move_copy fuel source dest COPY.

Definition dir_move (fuel : nat) (source dest : bytes) : M F Z :=
  e ← on_fs (fun fs => px_rename fs source dest);
  match e with
  | None => mret 0
  | Some EXDEV => dir_move_copy fuel source dest MOVE
  | Some _ => mret 1
  end.
End MyIO.

(** ** Lemmas *)

Lemma file_exists_keeps {F B} `{Posix F} (view : world F -> B) p : keeps view (file_exists p).
Proof. unfold file_exists. keeps. Qed.

Lemma fd_copy_loop_fs {F} `{Posix F} fuel : forall src err count, keeps (@w_fs F) (fd_copy_loop fuel src err count).
Proof. induction fuel as [|f IH]; intros src err count; simpl; keeps. Qed.

Lemma fd_copy_fs {F} `{Posix F} src err count : keeps (@w_fs F) (fd_copy src err count).
Proof. pose proof fd_copy_loop_fs. unfold fd_copy. keeps. Qed.

#[export] Hint Resolve file_exists_keeps fd_copy_fs : keeps.

(** Copying to the client sends a prefix of the wanted part of the file, all of
    it if the client takes what it is sent. *)
Lemma fd_copy_loop_run {F} `{Posix F} fuel : forall src err count (w : world F),
  (length src < fuel)%nat ->
  exists p q, fd_copy_loop fuel src err count w = Some (tt, sent w p)
    /\ take (Z.to_nat count) src = p ++ q /\ (client_reads -> q = []).
Proof.
  induction fuel as [|f IH]; intros src err count w Hf; [lia|]. cbn [fd_copy_loop].
  destruct (Z.ltb_spec 0 count) as [Hc|Hc].
  2:{ exists [], []. rewrite sent_nil. replace (Z.to_nat count) with 0%nat by lia. done. }
  set (k := if FILEBUF <? count then FILEBUF else count).
  assert (0 < k) as Hk by (subst k; unfold FILEBUF; btest; lia). destruct (fd_read_pos src err k Hk) as [Hp Hr].
  destruct (fd_read src err k) as [reads buf] eqn:E. cbn [fst snd] in Hp, Hr. rewrite Hp.
  destruct src as [|x src'] eqn:Es.
  - exists [], []. by rewrite sent_nil, take_nil.
  - rewrite <-Es in *. rewrite Hr by (by subst src). set (n := Z.to_nat k).
    assert (0 < n <= Z.to_nat count)%nat as Hn by (subst n k; unfold FILEBUF; btest; lia).
    assert (buf = take n src) as -> by (unfold fd_read in E; by injection E as _ <-). set (d := take n src).
    assert (length d <= n /\ 0 < length d)%nat as [Ld1 Ld2]
      by (subst d src; rewrite length_take; cbn [length]; lia).
    run1. clear E Hp Hr. clear x src' Es. rename k into z. rename Hk into Hz. set (r := px_sock_write (w_out w) d).
    destruct (Z.eqb_spec r (Z.of_nat (length d))) as [Hr|Hr].
    + destruct (IH (drop (length d) src) err (count - Z.of_nat (length d)) (sent w d))
        as (p & q & Hrun & Hpq & Hq).
      { rewrite length_drop. assert (length d <= length src)%nat by (subst d; rewrite length_take; lia). lia. }
      exists (d ++ p), q. rewrite Hr, Nat2Z.id, take_ge by lia. rewrite Hrun, sent_sent.
      split; [done|]. split; [|done].
      assert (d = take (length d) src) as Ed.
      { subst d. by rewrite take_length_take. }
      replace (Z.to_nat count) with (length d + Z.to_nat (count - Z.of_nat (length d)))%nat by lia.
      rewrite take_add, <-Ed. by rewrite Hpq, app_assoc.
    + exists (take (Z.to_nat r) d), (drop (Z.to_nat r) d ++ drop n (take (Z.to_nat count) src)).
      split; [done|]. split.
      * rewrite app_assoc, take_drop. subst d.
        rewrite <-(take_drop n (take (Z.to_nat count) src)) at 1. by rewrite take_take, Nat.min_l by lia.
      * intros Hcl. exfalso. apply Hr. apply Hcl.
Qed.

Lemma fd_copy_run {F} `{Posix F} src err count (w : world F) :
  px_malloc FILEBUF = true ->
  exists p q, fd_copy src err count w = Some (0, sent w p)
    /\ take (Z.to_nat count) src = p ++ q /\ (client_reads -> q = []).
Proof.
  intros Hm. unfold fd_copy. rewrite Hm.
  destruct (fd_copy_loop_run (S (length src)) src err count w ltac:(lia)) as (p & q & Hr & Hpq).
  exists p, q. split; [|done]. unfold mbind, M_bind. by rewrite Hr.
Qed.

Lemma file_copy_loop_run {F} `{Posix F} fd inv written fuel : forall src err (w : world F),
  write_law fd inv written -> inv w.(w_fs) -> (length src < fuel)%nat ->
  exists r fs p q, file_copy_loop fuel src err fd w = Some (r, with_fs w fs)
    /\ inv fs /\ written fs = written w.(w_fs) ++ p /\ src = p ++ q
    /\ (r = 0 /\ q = [] \/ r = ERR_BRKPIPE /\ q <> []).
Proof.
  induction fuel as [|f IH]; intros src err w Hl Hi Hf; [lia|]. cbn [file_copy_loop].
  assert (0 < FILEBUF) as Hbuf by done. destruct (fd_read_pos src err FILEBUF Hbuf) as [Hp Hr].
  destruct (fd_read src err FILEBUF) as [read_ buf] eqn:E. cbn [fst snd] in Hp, Hr. rewrite Hp.
  destruct src as [|x src'] eqn:Es.
  - exists 0, w.(w_fs), [], []. rewrite with_fs_id, app_nil_r. by split_and!; [..|left].
  - rewrite <-Es in *. rewrite Hr by (by subst src).
    assert (buf = take (Z.to_nat FILEBUF) src) as -> by (unfold fd_read in E; by injection E as _ <-).
    set (d := take (Z.to_nat FILEBUF) src) in *.
    assert (0 < length d)%nat as Hd0 by (subst d src; rewrite length_take; cbn [length]; lia).
    clear x src' Es E Hp Hr. run1. pose proof (Hl w.(w_fs) d Hi) as Hw.
    destruct (px_write (w_fs w) fd d) as [n fs] eqn:Ew. destruct Hw as (Hn & Hi' & Hw).
    cbn [fst snd].
    assert (src = d ++ drop (length d) src) as Hs.
    { rewrite <-(take_drop (length d) src) at 1. f_equal. by apply take_length_take. }
    destruct (Z.eqb_spec n (Z.of_nat (length d))) as [->|Hne].
    + destruct (IH (drop (length d) src) err (with_fs w fs) Hl Hi') as (r & fs' & p & q & Hr & Hi2 & Hw2 & Hpq & Hres).
      { apply (f_equal length) in Hs. rewrite length_app in Hs. rewrite length_drop in *. lia. }
      exists r, fs', (d ++ p), q. rewrite Hr, with_fs_with_fs. split_and!; try done.
      * rewrite Hw2. cbn [with_fs w_fs]. rewrite Hw, Nat2Z.id, take_ge by lia. by rewrite app_assoc.
      * rewrite <-app_assoc, <-Hpq. done.
    + exists ERR_BRKPIPE, fs, (take (Z.to_nat n) d), (drop (Z.to_nat n) d ++ drop (length d) src).
      split_and!; try done.
      * by rewrite app_assoc, take_drop.
      * right. split; [done|]. intros Hd. apply (f_equal length) in Hd.
        rewrite length_app, length_drop in Hd. simpl in Hd.
        lia.
Qed.

(** Every write to the open descriptor is complete. *)
Definition writes_all {F} `{Posix F} (fd : Z) (inv : F -> Prop) : Prop :=
  forall fs b, inv fs -> fst (px_write fs fd b) = Z.of_nat (length b).

Lemma file_copy_loop_whole {F} `{Posix F} fd inv written fuel : forall src err (w : world F),
  write_law fd inv written -> writes_all fd inv -> inv w.(w_fs) -> (length src < fuel)%nat ->
  exists fs, file_copy_loop fuel src err fd w = Some (0, with_fs w fs) /\ written fs = written w.(w_fs) ++ src.
Proof.
  induction fuel as [|f IH]; intros src err w Hl Ha Hi Hf; [lia|]. cbn [file_copy_loop].
  destruct (fd_read_pos src err FILEBUF ltac:(done)) as [Hp Hr].
  destruct (fd_read src err FILEBUF) as [read_ buf] eqn:E. cbn [fst snd] in Hp, Hr. rewrite Hp.
  destruct src as [|x src'] eqn:Es; [exists w.(w_fs); by rewrite with_fs_id, app_nil_r|].
  rewrite <-Es in *. rewrite Hr by (by subst). injection E as _ Eb.
  assert (0 < length buf)%nat as Hb by (subst; rewrite length_take; cbn [length]; unfold FILEBUF; lia).
  run1. pose proof (Hl w.(w_fs) buf Hi) as Hw. pose proof (Ha w.(w_fs) buf Hi) as Hn.
  destruct (px_write (w_fs w) fd buf) as [n fs]. cbn [fst snd] in *. destruct Hw as (_ & Hi' & Hw). subst n.
  rewrite Z.eqb_refl. rewrite Nat2Z.id, take_ge in Hw by done.
  assert (src = buf ++ drop (length buf) src) as Hs.
  { rewrite <-(take_drop (length buf) src) at 1. f_equal. rewrite <-Eb. apply take_length_take. }
  destruct (IH (drop (length buf) src) err (with_fs w fs) Hl Ha Hi') as (fs' & Hrun & Hw').
  { apply (f_equal length) in Hs. rewrite length_app in Hs. rewrite length_drop in *. lia. }
  exists fs'. rewrite Hrun. split; [done|]. rewrite Hw'. cbn [with_fs w_fs]. by rewrite Hw, <-app_assoc, <-Hs.
Qed.

(** ** Theorems *)

(** What [file_copy] and [file_move] need to start: the destination can be
    opened for writing, the source for reading, and there is memory.  Reads of
    the source deliver [content] and then, with [err], fail: without an error it
    is the content of the file. *)
Record copy_ready {F} `{Posix F} (source dest : bytes) (fs fs1 : F) (fd : Z)
    (inv : F -> Prop) (written : F -> bytes) (content : bytes) (err : bool) : Prop := {
  cr_open : px_open_wr fs dest = (fd, fs1);
  cr_fd : 0 <= fd;
  cr_inv : inv fs1;
  cr_empty : written fs1 = [];
  cr_law : write_law fd inv written;
  cr_src : 0 <= px_open_rd fs1 source;
  cr_content : px_contents fs1 (px_open_rd fs1 source) = content;
  cr_reads : px_read_error fs1 (px_open_rd fs1 source) = err;
  cr_mem : px_malloc FILEBUF = true;
}.

Lemma file_copy_run {F} `{Posix F} source dest (w : world F) fs1 fd inv written content err :
  copy_ready source dest w.(w_fs) fs1 fd inv written content err ->
  exists r fs p q, file_copy source dest w = Some (r, with_fs w fs)
    /\ inv fs /\ written fs = p /\ content = p ++ q
    /\ (r = 0 /\ q = [] \/ r = ERR_BRKPIPE /\ q <> []).
Proof.
  intros [Ho Hfd Hi He Hl Hs Hc Her Hm]. unfold file_copy. run1. rewrite Ho. cbn [fst snd].
  destruct (Z.ltb_spec fd 0); [lia|]. run1. cbn [with_fs w_fs].
  destruct (Z.ltb_spec (px_open_rd fs1 source) 0); [lia|]. rewrite Hm. cbn [negb]. rewrite Hc, Her.
  destruct (file_copy_loop_run fd inv written (S (length content)) content err (with_fs w fs1)
              Hl Hi ltac:(lia)) as (r & fs & p & q & Hr & Hi' & Hw & Hpq & Hres).
  exists r, fs, p, q. rewrite Hr. cbn [with_fs w_fs] in Hw. rewrite He in Hw. done.
Qed.

Lemma file_copy_whole {F} `{Posix F} source dest (w : world F) fs1 fd inv written content err :
  copy_ready source dest w.(w_fs) fs1 fd inv written content err -> writes_all fd inv ->
  exists fs, file_copy source dest w = Some (0, with_fs w fs) /\ written fs = content.
Proof.
  intros [Ho Hfd Hi He Hl Hs Hc Her Hm] Ha. unfold file_copy. run1. rewrite Ho. cbn [fst snd].
  destruct (Z.ltb_spec fd 0); [lia|]. run1. cbn [with_fs w_fs].
  destruct (Z.ltb_spec (px_open_rd fs1 source) 0); [lia|]. rewrite Hm. cbn [negb]. rewrite Hc, Her.
  destruct (file_copy_loop_whole fd inv written (S (length content)) content err (with_fs w fs1)
              Hl Ha Hi ltac:(lia)) as (fs & Hr & Hw).
  exists fs. rewrite Hr. cbn [with_fs w_fs] in Hw. by rewrite He in Hw.
Qed.

(** What becomes of a copy in a computation that ran with [fs] and gave
    [result]: without a descriptor for the destination or for the source it is
    an error; with both, it is a [success], after which the file system is what
    [after] makes of it, exactly when the whole content was written. *)
Definition copies_file {F} `{Posix F} (source dest : bytes) (w : world F) (fs0 : F) (success : Z) (after : F -> F)
    (result : option (Z * world F)) : Prop :=
  let '(fd, fs1) := px_open_wr fs0 dest in
  (fd < 0 -> result = Some (ERR_FORBIDDEN, with_fs w fs1))
  /\ (0 <= fd -> px_open_rd fs1 source < 0 -> result = Some (ERR_FILENOTFOUND, with_fs w fs1))
  /\ (forall inv written content, copy_ready source dest fs0 fs1 fd inv written content false ->
       exists fs p q, content = p ++ q /\ written fs = p
         /\ result = Some (if q is [] then (success, with_fs w (after fs)) else (ERR_BRKPIPE, with_fs w fs))).

(** A computation that copies and then looks at the result. *)
Lemma file_copy_then {F} `{Posix F} source dest (w w0 : world F) success after (f : Z -> M F Z) :
  (forall fs, with_fs w0 fs = with_fs w fs) ->
  (forall r w', r <> 0 -> f r w' = Some (r, w')) ->
  (forall fs, f 0 (with_fs w fs) = Some (success, with_fs w (after fs))) ->
  copies_file source dest w w0.(w_fs) success after ((retval ← file_copy source dest; f retval) w0).
Proof.
  intros Hw Herr Hok. unfold copies_file. destruct (px_open_wr (w_fs w0) dest) as [fd fs1] eqn:Eo. split_and!.
  - intros Hfd. unfold file_copy. rewrite bind_assoc, (bind_run _ _ _ _ _ (on_fs_run _ _)), Eo. cbn [fst snd].
    destruct (Z.ltb_spec fd 0); [|lia]. rewrite mret_bind, Hw. by apply Herr.
  - intros Hfd Hsrc. unfold file_copy. rewrite bind_assoc, (bind_run _ _ _ _ _ (on_fs_run _ _)), Eo. cbn [fst snd].
    destruct (Z.ltb_spec fd 0); [lia|]. rewrite bind_assoc, get_fs_bind. cbn [with_fs w_fs].
    destruct (Z.ltb_spec (px_open_rd fs1 source) 0); [|lia]. rewrite mret_bind.
    change (mkworld _ _ _ _ fs1) with (with_fs w0 fs1). rewrite Hw. by apply Herr.
  - intros inv written content Hc.
    destruct (file_copy_run source dest w0 fs1 fd inv written content false Hc) as (r & fs & p & q & Hrun & _ & Hwr & Hpq & Hres).
    exists fs, p, q. split_and!; [done..|]. rewrite (bind_run _ _ _ _ _ Hrun), Hw.
    destruct Hres as [[-> ->]|[-> Hq]]; [apply Hok|]. destruct q; [done|]. by apply Herr.
Qed.

(** A move across devices, whatever the reads of the source do: the copy writes
    what they deliver, or a proper part of it when a write falls short, and
    only then is the source kept. *)
Lemma file_move_run {F} `{Posix F} source dest (w : world F) fs0 fs1 fd inv written content err :
  px_rename w.(w_fs) source dest = (Some EXDEV, fs0) ->
  copy_ready source dest fs0 fs1 fd inv written content err ->
  exists fs p q, content = p ++ q /\ written fs = p
    /\ file_move source dest w
       = Some (if q is [] then (0, with_fs w (snd (px_unlink fs source)))
               else (ERR_BRKPIPE, with_fs w fs)).
Proof.
  intros Hr Hc.
  destruct (file_copy_run source dest (with_fs w fs0) fs1 fd inv written content err Hc)
    as (r & fs & p & q & Hrun & _ & Hw & Hpq & Hres).
  exists fs, p, q. split_and!; [done..|]. unfold file_move. run1. rewrite Hr. cbn [fst snd].
  erewrite bind_run by exact Hrun.
  destruct Hres as [[-> ->] | [-> Hq]]; [|by destruct q].
  simpl. by rewrite (bind_run _ _ _ _ _ (on_fs_run _ _)).
Qed.

(** A move that is looked at in the same way. *)
Lemma file_move_outcome {F} `{Posix F} source dest (w : world F) success (f : Z -> M F Z) :
  (forall r w', r <> 0 -> f r w' = Some (r, w')) ->
  (forall w', f 0 w' = Some (success, w')) ->
  let result := (retval ← file_move source dest; f retval) w in
  match px_rename w.(w_fs) source dest with
  | (None, fs) => result = Some (success, with_fs w fs)
  | (Some EXDEV, fs) => copies_file source dest w fs success (fun fs => snd (px_unlink fs source)) result
  | (Some _, fs) => result = Some (-1, with_fs w fs)
  end.
Proof.
  intros Herr Hok. cbv zeta. unfold file_move. rewrite bind_assoc, (bind_run _ _ _ _ _ (on_fs_run _ _)).
  destruct (px_rename (w_fs w) source dest) as [[[]|] fs] eqn:Er; cbn [fst snd];
    try (rewrite mret_bind; apply Herr || apply Hok; done).
  rewrite bind_assoc. apply (file_copy_then _ _ w (with_fs w fs)); [done | |].
  - intros r w' Hr. destruct (Z.eqb_spec r 0); [done|]. rewrite mret_bind. by apply Herr.
  - intros fs'. cbn [Z.eqb]. rewrite bind_assoc, (bind_run _ _ _ _ _ (on_fs_run _ _)), mret_bind. apply Hok.
Qed.

(** C27: [file_move] across devices loses no data as long as the reads of the
    source succeed.  Its copy terminates with a truthful result: 0 means that
    the whole content of the source has been written to the destination,
    [ERR_BRKPIPE] that only a proper prefix has been (a short or failed write).
    The source is unlinked exactly in the first case; otherwise the file system
    is the one the partial copy left, with the source still there. *)
Theorem file_move_keeps_data {F} `{Posix F} source dest (w : world F) fs0 fs1 fd inv written content :
  px_rename w.(w_fs) source dest = (Some EXDEV, fs0) ->
  copy_ready source dest fs0 fs1 fd inv written content false ->
  exists fs p q, content = p ++ q /\ written fs = p
    /\ file_move source dest w
       = Some (if q is [] then (0, with_fs w (snd (px_unlink fs source)))
               else (ERR_BRKPIPE, with_fs w fs)).
Proof. apply file_move_run. Qed.

(** A read of the source that fails ends the copy as the end of the file does:
    what was read so far is all that is written, the result is 0, and the source
    is unlinked. *)
Theorem file_move_loses_data {F} `{Posix F} source dest (w : world F) fs0 fs1 fd inv written read :
  px_rename w.(w_fs) source dest = (Some EXDEV, fs0) ->
  copy_ready source dest fs0 fs1 fd inv written read true -> writes_all fd inv ->
  exists fs, written fs = read
    /\ file_move source dest w = Some (0, with_fs w (snd (px_unlink fs source))).
Proof.
  intros Hr Hc Hall. destruct (file_copy_whole source dest (with_fs w fs0) fs1 fd inv written read true Hc Hall)
    as (fs & Hrun & Hw).
  exists fs. split; [done|]. unfold file_move. run1. rewrite Hr. cbn [fst snd]. erewrite bind_run by exact Hrun.
  simpl. by rewrite (bind_run _ _ _ _ _ (on_fs_run _ _)).
Qed.

(** The disk fails behind the first bytes of the file. *)
Lemma file_move_loses_data_witness :
  exists fs, sf_written fs 2 = bs "hello world"
    /\ @file_move _ (sample_device true (fun _ => 0) [] true) (bs "/srv/a") (bs "/mnt/b") (sample_world [] [] [])
       = Some (0, with_fs (sample_world [] [] []) (snd (px_unlink fs (bs "/srv/a")))).
Proof.
  apply (@file_move_loses_data _ (sample_device true (fun _ => 0) [] true) (bs "/srv/a") (bs "/mnt/b")
           (sample_world [] [] []) sample_fs0 (snd (sf_open_wr sample_fs0 (bs "/mnt/b"))) 2 (sf_open_fd 2)
           (fun fs => sf_written fs 2)).
  - reflexivity.
  - split; try reflexivity; try (vm_compute; discriminate).
    + eexists. split; [reflexivity | simpl; lia].
    + exact (sf_write_law 2).
  - done.
Defined.

Lemma file_move_keeps_data_witness :
  exists fs p q, bs "hello world" = p ++ q /\ sf_written fs 2 = p
    /\ file_move (bs "/srv/a") (bs "/mnt/b") (sample_world [] [] [])
       = Some (if q is [] then (0, with_fs (sample_world [] [] []) (snd (px_unlink fs (bs "/srv/a"))))
               else (ERR_BRKPIPE, with_fs (sample_world [] [] []) fs)).
Proof.
  apply (file_move_keeps_data (bs "/srv/a") (bs "/mnt/b") (sample_world [] [] []) sample_fs0
           (snd (sf_open_wr sample_fs0 (bs "/mnt/b"))) 2 (sf_open_fd 2) (fun fs => sf_written fs 2)).
  - reflexivity.
  - split; try reflexivity; try (vm_compute; discriminate).
    + eexists. split; [reflexivity | simpl; lia].
    + apply sf_write_law.
Defined.
