(* ===== verification/Http.v ===== *)
(** * Responses (instance.c)

    [send_http_header] and the routines that send a whole response without a
    file: error pages, the request for authentication, the list of methods. *)
From S2P Require Export MyIO.

(** ** Definitions *)

Definition reason_phrase (code : Z) : bytes :=
  let code := code / 100 in
  if code =? 2 then bs "OK"
  else if code =? 3 then bs "Found"
  else if code =? 4 then bs "Request error"
  else if code =? 5 then bs "Server error"
  else if code =? 1 then bs "Received"
  else bs "Something is very wrong".

(** The [Connection] header: only when the setting is not the default of the
    protocol version. *)
Definition connection_header (version : Z) (keep : bool) : bytes :=
  if negb (version =? HTTP_1_1) && keep then bs "Connection: Keep-Alive" ++ CRLF
  else if (version =? HTTP_1_1) && negb keep then bs "Connection: close" ++ CRLF
  else [].

(** The buffer of the header, the pointer into it and [left_head]. *)
Record head_state := mkhead {
  hd_buf : bytes;
  hd_ptr : Z;
  hd_left : Z;
}.

(** [len_head = snprintf(head, left_head, ..); head += len_head;
    left_head -= len_head], with [left_head] converted to [size_t]. *)
Definition head_print (text : bytes) (s : head_state) : option head_state :=
  '(b, n) ← snprintf s.(hd_buf) (Z.to_nat s.(hd_ptr)) (Z.to_nat (to_u64 s.(hd_left))) text;
  Some (mkhead b (s.(hd_ptr) + n) (s.(hd_left) - n)).

Definition status_text (code : Z) (reason : bytes) : bytes :=
  bs "HTTP/1.1 " ++ dec_s code ++ bs " " ++ reason ++ CRLF.

Definition server_text : bytes := bs "Server: " ++ SIGNATURE ++ CRLF.

Definition etag_text (timestamp : Z) : bytes :=
  bs "ETag: " ++ QUOTE ++ dec_s (to_s32 timestamp) ++ QUOTE ++ CRLF.

Definition length_text (content : bool) (size : Z) : bytes :=
  (if content then bs "Content-Length: " else bs "entity-length: ") ++ dec_u size ++ CRLF.

Section Http.
Context {F : Type} `{Posix F}.

(** The text of the header, printed into a buffer of [HEADBUF] bytes; [size] is
    the value behind the pointer, [None] when it is NULL. *)
Definition build_head (c : connection_t) (code : Z) (size : option Z) (headers : option bytes)
    (content : bool) (timestamp : Z) (head : bytes) : option head_state :=
  let headers := default [] headers in
  h ← head_print (status_text code (reason_phrase code) ++ server_text
                  ++ connection_header c.(protocol_version) c.(keep_alive))
        (mkhead head 0 (Z.of_nat HEADBUF));
  h ← (if timestamp =? -1 then Some h else head_print (etag_text timestamp) h);
  h ← match size with
      | Some size => if c.(keep_alive) then head_print (length_text content size) h else Some h
      | None => Some h
      end;
  head_print (headers ++ CRLF) h.

Definition send_http_header (code : Z) (size : option Z) (headers : option bytes)
    (content : bool) (timestamp : Z) : M F Z :=
  _ ← upd (set_status_code code);
  if negb (px_malloc (Z.of_nat HEADBUF)) then mret ERR_NOMEM
  else
    c ← conn;
    h ← lift (build_head c code size headers content timestamp (fresh HEADBUF));
    let n := Z.of_nat HEADBUF - h.(hd_left) in
    data ← lift (load_n h.(hd_buf) 0 (Z.to_nat n));
    wrote ← sock_send data;
    mret (if wrote =? n then 0 else ERR_BRKPIPE).

(** One region holds the header and, [HEADBUF] bytes further, the page. *)
Definition send_two (head_text page_text : bytes) : M F Z :=
  if negb (px_malloc (MAXSCRIPTOUT + Z.of_nat HEADBUF)) then mret ERR_NOMEM
  else
    let head := fresh (HEADBUF + Z.to_nat MAXSCRIPTOUT) in
    '(head, page_len) ← lift (snprintf head HEADBUF (Z.to_nat MAXSCRIPTOUT) page_text);
    '(head, head_len) ← lift (snprintf head 0 HEADBUF head_text);
    data ← lift (load_n head 0 (Z.to_nat head_len));
    wrote ← sock_send data;
    if negb (wrote =? head_len) then mret ERR_SOCKWRITE
    else
      data ← lift (load_n head HEADBUF (Z.to_nat page_len));
      wrote ← sock_send data;
      if negb (wrote =? page_len) then mret ERR_SOCKWRITE else mret 0.

Definition err_page (err : Z) (descr : bytes) : bytes :=
  HTMLHEAD ++ bs " <H1>Error " ++ dec_s err ++ bs "</H1>" ++ descr ++ bs " " ++ HTMLFOOT.

Definition err_head (err : Z) (descr : bytes) (page_len : Z) : bytes :=
  status_text err descr ++ server_text ++ bs "Content-Length: " ++ dec_s page_len ++ CRLF
  ++ bs "Content-Type: text/html" ++ CRLF ++ CRLF.

Definition send_err (err : Z) (descr : bytes) : M F Z :=
  _ ← upd (set_status_code err);
  let page := err_page err descr in
  send_two (err_head err descr (Z.of_nat (length page))) page.

Definition auth_page (descr : bytes) : bytes :=
  HTMLHEAD ++ bs "<H1>Authorization required</H1><p>" ++ descr ++ bs "</p>" ++ HTMLFOOT.

Definition auth_head (descr : bytes) (page_len : Z) : bytes :=
  bs "HTTP/1.1 401 Authorization Required" ++ CRLF ++ server_text ++ bs "Content-Length: "
  ++ dec_s page_len ++ CRLF ++ bs "WWW-Authenticate: Basic realm=" ++ QUOTE ++ descr ++ QUOTE
  ++ CRLF ++ CRLF.

Definition request_auth : M F Z :=
  c ← conn;
  descr ← cstring c.(page);
  _ ← upd (set_status_code 401);
  let page := auth_page descr in
  send_two (auth_head descr (Z.of_nat (length page))) page.

Definition send_error_header (retval : Z) : M F Z :=
  if retval =? 0 then mret 0
  else if retval =? ERR_BRKPIPE then send_err 500 (bs "Internal server error")
  else if retval =? ERR_FILENOTFOUND then send_err 404 (bs "Page not found")
  else if (retval =? ERR_SERVICE_UNAVAILABLE) || (retval =? ERR_NOMEM)
  then send_err 503 (bs "Service Unavailable")
  else if retval =? ERR_RANGE_NOT_SATISFIABLE then send_err 416 (bs "Range not satisfiable")
  else if (retval =? ERR_NODATA) || (retval =? ERR_NOTHTTP) then send_err 400 (bs "Bad request")
  else if retval =? ERR_FORBIDDEN then send_err 403 (bs "Forbidden")
  else if retval =? ERR_NOTIMPLEMENTED then send_err 501 (bs "Not implemented")
  else if retval =? ERR_PRECONDITION_FAILED then send_err 412 (bs "Precondition Failed")
  else if retval =? ERR_CONFLICT then send_err 409 (bs "Conflict")
  else if retval =? ERR_INSUFFICIENT_STORAGE then send_err 507 (bs "Insufficient Storage")
  else if retval =? ERR_NOT_ALLOWED then send_err 405 (bs "Method Not Allowed")
  else if retval =? ERR_NOAUTH then request_auth
  else if retval =? OK_NOCONTENT then send_http_header 204 None None true (-1)
  else if retval =? OK_CREATED then send_http_header 201 None None true (-1)
  else mret 0.

Definition ALLOWED : bytes :=
  bs "Allow: GET,POST,PUT,DELETE,OPTIONS,PROPFIND,MKCOL,COPY,MOVE" ++ CRLF
  ++ bs "DAV: 1,2" ++ CRLF ++ bs "DAV: <http://apache.org/dav/propset/fs/1>" ++ CRLF
  ++ bs "MS-Author-Via: DAV" ++ CRLF.

Definition options : M F Z :=
  _ ← send_http_header 200 None (Some ALLOWED) true (-1); mret 0.

End Http.

(** ** Specifications *)

(** The header [send_http_header] builds. *)
Definition http_head (c : connection_t) (code : Z) (size : option Z) (headers : option bytes)
    (content : bool) (timestamp : Z) : bytes :=
  status_text code (reason_phrase code) ++ server_text
  ++ connection_header c.(protocol_version) c.(keep_alive)
  ++ (if timestamp =? -1 then [] else etag_text timestamp)
  ++ (if size is Some n then if c.(keep_alive) then length_text content n else [] else [])
  ++ default [] headers ++ CRLF.

(** The status and the text of the answer to an error value, for those that
    are answered with an error page. *)
Definition error_table (retval : Z) : option (Z * bytes) :=
  if retval =? ERR_BRKPIPE then Some (500, bs "Internal server error")
  else if retval =? ERR_FILENOTFOUND then Some (404, bs "Page not found")
  else if retval =? ERR_NOMEM then Some (503, bs "Service Unavailable")
  else if retval =? ERR_NOTHTTP then Some (400, bs "Bad request")
  else if retval =? ERR_NODATA then Some (400, bs "Bad request")
  else if retval =? ERR_NOTIMPLEMENTED then Some (501, bs "Not implemented")
  else if retval =? ERR_FORBIDDEN then Some (403, bs "Forbidden")
  else if retval =? ERR_SERVICE_UNAVAILABLE then Some (503, bs "Service Unavailable")
  else if retval =? ERR_CONFLICT then Some (409, bs "Conflict")
  else if retval =? ERR_INSUFFICIENT_STORAGE then Some (507, bs "Insufficient Storage")
  else if retval =? ERR_NOT_ALLOWED then Some (405, bs "Method Not Allowed")
  else if retval =? ERR_PRECONDITION_FAILED then Some (412, bs "Precondition Failed")
  else if retval =? ERR_RANGE_NOT_SATISFIABLE then Some (416, bs "Range not satisfiable")
  else None.

(** The header of a refusal, with one [field] besides the server and the length
    of the [body]. *)
Definition refusal (status field body : bytes) : bytes :=
  status ++ CRLF ++ server_text ++ bs "Content-Length: " ++ dec_s (Z.of_nat (length body)) ++ CRLF
  ++ field ++ CRLF ++ CRLF.

(** The demand for credentials for [page], header and page, and the answer to
    what is forbidden. *)
Definition challenge (page : bytes) : bytes :=
  refusal (bs "HTTP/1.1 401 Authorization Required")
    (bs "WWW-Authenticate: Basic realm=" ++ QUOTE ++ page ++ QUOTE) (auth_page page).

Definition forbidden : bytes :=
  refusal (bs "HTTP/1.1 403 Forbidden") (bs "Content-Type: text/html") (err_page 403 (bs "Forbidden"))
  ++ err_page 403 (bs "Forbidden").

Definition set_status {F} (code : Z) (w : world F) : world F :=
  mkworld (set_status_code code w.(w_conn)) w.(w_out) w.(w_read) w.(w_net) w.(w_fs).

(** ** Lemmas: printing into a buffer of [N] bytes *)

(** [t] is the text printed so far. *)
Definition head_inv (N : nat) (t : bytes) (s : head_state) : Prop :=
  length s.(hd_buf) = N /\ s.(hd_ptr) = Z.of_nat (length t)
  /\ s.(hd_left) = Z.of_nat N - Z.of_nat (length t)
  /\ ((length t < N)%nat -> take (length t) s.(hd_buf) = t)
  /\ ((0 < length t)%nat -> length t = N -> s.(hd_buf) = take (N - 1) t ++ [0]).

Lemma head_inv_start N m : length m = N -> head_inv N [] (mkhead m 0 (Z.of_nat N)).
Proof. intros <-. split_and!; simpl; try done; lia. Qed.

Lemma head_print_inv N t x s s' :
  Z.of_nat N < 2 ^ 31 -> head_inv N t s -> head_print x s = Some s' -> head_inv N (t ++ x) s'.
Proof.
  intros HN (Hl & Hp & Hle & Ht & Hc) E. unfold head_print in E.
  destruct (snprintf _ _ _ _) as [[b n]|] eqn:Es; [|done]. cbn [mbind option_bind] in E.
  injection E as <-. pose proof (snprintf_length _ _ _ _ _ _ Es) as Lb.
  rewrite Hp, Hle, Nat2Z.id in Es.
  assert (n = Z.of_nat (length x)) as ->.
  { unfold snprintf in Es. destruct (Z.to_nat _); [by injection Es|].
    destruct (write_at _ _ _); [|done]. by injection Es. }
  unfold head_inv. cbn [hd_buf hd_ptr hd_left]. rewrite length_app.
  split_and!; [lia.. | |].
  - intros Hlt. specialize (Ht ltac:(lia)).
    rewrite to_u_small in Es by lia. rewrite snprintf_fits in Es by lia. injection Es as <-.
    rewrite Ht, <-length_app. change (0 :: drop (length t + length x + 1) (hd_buf s))
      with ([0] ++ drop (length t + length x + 1) (hd_buf s)).
    by rewrite app_assoc, take_app_length.
  - intros H0 Heq. rewrite to_u_small in Es by lia.
    destruct (decide (length x = 0%nat)) as [Hx|Hx].
    + apply length_zero_iff_nil in Hx as ->. rewrite app_nil_r in *. simpl in Heq.
      replace (Z.to_nat (Z.of_nat N - Z.of_nat (length t))) with 0%nat in Es by lia.
      simpl in Es. injection Es as <-. apply Hc; simpl in *; lia.
    + rewrite snprintf_cut in Es by lia. injection Es as <-.
      rewrite Ht by lia. rewrite take_app, (take_ge t), (drop_ge (hd_buf s)), <-app_assoc by lia.
      do 3 f_equal. lia.
Qed.

Lemma head_print_Some N t x s :
  Z.of_nat N < 2 ^ 31 -> head_inv N t s -> (length t <= N)%nat ->
  exists s', head_print x s = Some s' /\ head_inv N (t ++ x) s'.
Proof.
  intros HN Hi Hlen. pose proof Hi as (Hl & Hp & Hle & Ht & Hc).
  enough (is_Some (head_print x s)) as [s' Es].
  { exists s'. split; [done|]. by eapply head_print_inv. }
  unfold head_print. rewrite Hp, Hle, Nat2Z.id, to_u_small by lia.
  destruct (Z.to_nat (Z.of_nat N - Z.of_nat (length t))) as [|n] eqn:En; [eexists; reflexivity|].
  destruct (decide (length x < S n)%nat).
  - rewrite snprintf_fits by lia. eexists; reflexivity.
  - rewrite snprintf_cut by lia. eexists; reflexivity.
Qed.

(** The whole buffer of a header, read back. *)
Lemma head_inv_load N t s :
  head_inv N t s -> (0 < length t)%nat ->
  load_n s.(hd_buf) 0 (length t)
  = if (length t <? N)%nat then Some t
    else if (length t =? N)%nat then Some (take (N - 1) t ++ [0]) else None.
Proof.
  intros (Hl & _ & _ & Ht & Hc) H0. unfold load_n. rewrite Hl, drop_0. simpl.
  destruct (Nat.ltb_spec (length t) N) as [Hlt|Hge].
  - destruct (Nat.leb_spec (length t) N); [|lia]. by rewrite Ht.
  - destruct (Nat.eqb_spec (length t) N) as [He|He].
    + rewrite He, Nat.leb_refl, <-Hc by done. by rewrite take_ge by lia.
    + by destruct (Nat.leb_spec (length t) N); [lia|].
Qed.

(** A print, or the absence of one: the buffer follows the text, and a print
    that fails is one after the end of the buffer. *)
Definition head_step (N : nat) (t : bytes) (o : option head_state) : Prop :=
  match o with Some s => head_inv N t s | None => (N < length t)%nat end.

Lemma head_print_step N t x s :
  Z.of_nat N < 2 ^ 31 -> head_inv N t s -> head_step N (t ++ x) (head_print x s).
Proof.
  intros HN Hi. destruct (head_print x s) as [s'|] eqn:E; [by eapply head_print_inv|].
  simpl. rewrite length_app. destruct (decide (length t <= N)%nat) as [Hle|]; [|lia].
  destruct (head_print_Some N t x s HN Hi Hle) as (s' & E' & _). congruence.
Qed.

Lemma head_skip_step N t s : head_inv N t s -> head_step N (t ++ []) (Some s).
Proof. by rewrite app_nil_r. Qed.

Lemma head_bind N t x o (f : head_state -> option head_state) :
  head_step N t o -> (forall s, head_inv N t s -> head_step N (t ++ x) (f s)) ->
  head_step N (t ++ x) (s ← o; f s).
Proof.
  intros Ho Hf. destruct o as [s|]; [by apply Hf|]. simpl in *. rewrite length_app. lia.
Qed.

Section HttpLemmas.
Context {F : Type} `{Posix F}.

(** Building the header in a buffer follows the text. *)
Lemma build_head_step c code size headers content timestamp m :
  length m = HEADBUF ->
  head_step HEADBUF (http_head c code size headers content timestamp)
    (build_head c code size headers content timestamp m).
Proof.
  intros Hm. assert (Z.of_nat HEADBUF < 2 ^ 31) as HN by (unfold HEADBUF; lia).
  set (t1 := status_text code (reason_phrase code) ++ server_text
             ++ connection_header (protocol_version c) (keep_alive c)).
  unfold build_head, http_head. cbv zeta. fold t1.
  rewrite (app_assoc server_text), (app_assoc (status_text _ _)). fold t1.
  apply head_bind; [by apply (head_print_step _ []), head_inv_start|]. intros h1 S1.
  rewrite app_assoc. apply head_bind.
  { destruct (timestamp =? -1); [by apply head_skip_step | by apply head_print_step]. }
  intros h2 S2. rewrite app_assoc. apply head_bind.
  { destruct size; [destruct (keep_alive c)|]; by apply head_skip_step || apply head_print_step. }
  intros h3 S3. by apply head_print_step.
Qed.

Lemma http_head_nonempty c code size headers content timestamp :
  (0 < length (http_head c code size headers content timestamp))%nat.
Proof. unfold http_head, CRLF. rewrite !length_app. simpl. lia. Qed.

(** The text fixes everything [send_http_header] does. *)
Lemma send_http_header_run code size headers content timestamp (w : world F) :
  px_malloc (Z.of_nat HEADBUF) = true ->
  let t := http_head w.(w_conn) code size headers content timestamp in
  send_http_header code size headers content timestamp w
  = (if (length t <=? HEADBUF)%nat then
       let data := if (length t =? HEADBUF)%nat then take (HEADBUF - 1) t ++ [0] else t in
       let n := px_sock_write w.(w_out) data in
       Some (if n =? Z.of_nat (length t) then 0 else ERR_BRKPIPE,
             sent (set_status code w) (take (Z.to_nat n) data))
     else None).
Proof.
  intros Hm t. unfold send_http_header.
  rewrite (bind_run _ _ w tt (set_status code w)) by done. rewrite Hm. cbn [negb].
  rewrite (bind_run _ _ _ _ _ (conn_run _)). cbn [set_status w_conn].
  pose proof (build_head_step (set_status_code code (w_conn w)) code size headers content timestamp
                _ (fresh_length HEADBUF)) as S.
  pose proof (http_head_nonempty (w_conn w) code size headers content timestamp) as Ht0.
  change (http_head (set_status_code _ _) code size headers content timestamp) with t in S.
  fold t in Ht0. clearbody t.
  destruct (build_head _ _ _ _ _ _ _) as [h|]; cbn [head_step] in S.
  2:{ by destruct (Nat.leb_spec (length t) HEADBUF); [lia|]. }
  rewrite (lift_bind_Some _ _ _ _ eq_refl).
  replace (Z.of_nat HEADBUF - hd_left h) with (Z.of_nat (length t)) by (destruct S as (_ & _ & -> & _); lia).
  rewrite Nat2Z.id, (head_inv_load _ _ _ S Ht0).
  destruct (Nat.ltb_spec (length t) HEADBUF), (Nat.eqb_spec (length t) HEADBUF),
    (Nat.leb_spec (length t) HEADBUF); try lia; done.
Qed.
(** Two texts in one region: when the header does not fit its part, what is
    sent as header is its beginning, a NUL and the beginning of the page. *)
Definition two_sent (head_text page_text : bytes) : bytes :=
  if (length head_text <? HEADBUF)%nat then head_text
  else take (HEADBUF - 1) head_text ++ [0] ++ take (length head_text - HEADBUF) page_text.

Definition two_fit (head_text page_text : bytes) : Prop :=
  Z.of_nat (length page_text) < MAXSCRIPTOUT
  /\ (length head_text <= HEADBUF + length page_text)%nat.

Lemma two_sent_length head_text page_text :
  two_fit head_text page_text -> length (two_sent head_text page_text) = length head_text.
Proof.
  intros [_ Hh]. unfold two_sent. destruct (Nat.ltb_spec (length head_text) HEADBUF); [done|].
  rewrite !length_app, !length_take. unfold HEADBUF in *. cbn [length]. lia.
Qed.

(** The two writes, whatever becomes of them. *)
Lemma send_two_writes head_text page_text (w : world F) :
  px_malloc (MAXSCRIPTOUT + Z.of_nat HEADBUF) = true -> two_fit head_text page_text ->
  send_two head_text page_text w
  = (wrote ← sock_send (two_sent head_text page_text);
     if negb (wrote =? Z.of_nat (length head_text)) then mret ERR_SOCKWRITE
     else
       wrote ← sock_send page_text;
       if negb (wrote =? Z.of_nat (length page_text)) then mret ERR_SOCKWRITE else mret 0) w.
Proof.
  intros Hm Hf. pose proof Hf as [Hp Hh]. unfold send_two. rewrite Hm. cbn [negb].
  set (K := Z.to_nat MAXSCRIPTOUT). assert (length page_text < K)%nat as HpK by (subst K; lia).
  clearbody K. pose proof (fresh_length (HEADBUF + K)) as Lm.
  set (m := fresh (HEADBUF + K)) in *. clearbody m.
  rewrite (lift_bind_Some _ _ _ _ (snprintf_fits m HEADBUF K page_text HpK ltac:(lia))).
  set (m1 := take HEADBUF m ++ page_text ++ 0 :: _).
  assert (exists X rest, length X = HEADBUF /\ m1 = X ++ page_text ++ rest) as (X & rest & LX & E1).
  { eexists _, _. split; [|reflexivity]. rewrite length_take. lia. }
  rewrite E1. clear E1 m1. assert (0 < HEADBUF)%nat as HB by (unfold HEADBUF; lia).
  assert (exists Y, length Y = HEADBUF
    /\ snprintf (X ++ page_text ++ rest) 0 HEADBUF head_text
       = Some (Y ++ page_text ++ rest, Z.of_nat (length head_text))
    /\ load_n (Y ++ page_text ++ rest) 0 (length head_text) = Some (two_sent head_text page_text))
    as (Y & LY & Es & El).
  { unfold two_sent. destruct (Nat.ltb_spec (length head_text) HEADBUF) as [Hlt|Hge].
    - exists (head_text ++ 0 :: drop (length head_text + 1) X). split_and!.
      + rewrite length_app, length_cons, length_drop. lia.
      + rewrite snprintf_fits by (rewrite ?length_app; lia). rewrite take_0, Nat.add_0_l.
        rewrite drop_app_le by lia. by rewrite <-!app_assoc.
      + rewrite <-!app_assoc. by apply (load_n_app []).
    - exists (take (HEADBUF - 1) head_text ++ [0]). split_and!.
      + rewrite length_app, length_take. cbn [length]. lia.
      + rewrite snprintf_cut by (rewrite ?length_app; lia). rewrite take_0, Nat.add_0_l.
        rewrite drop_app_length' by done. by rewrite <-!app_assoc.
      + set (k := (length head_text - HEADBUF)%nat).
        rewrite <-(take_drop k page_text) at 1. rewrite <-!app_assoc.
        rewrite (app_assoc [0]), (app_assoc (take (HEADBUF - 1) head_text)).
        apply (load_n_app []); [done|]. rewrite !length_app, !length_take. cbn [length]. lia. }
  rewrite (lift_bind_Some _ _ _ _ Es). cbn beta iota.
  rewrite !Nat2Z.id, (lift_bind_Some _ _ _ _ El).
  rewrite !(bind_run _ _ _ _ _ (sock_send_run _ _)).
  destruct (negb _); [done|]. by rewrite (lift_bind_Some _ page_text) by (by apply load_n_app).
Qed.

Lemma send_two_run head_text page_text (w : world F) :
  px_malloc (MAXSCRIPTOUT + Z.of_nat HEADBUF) = true -> client_reads -> two_fit head_text page_text ->
  send_two head_text page_text w = Some (0, sent w (two_sent head_text page_text ++ page_text)).
Proof.
  intros Hm Hc Hf. rewrite send_two_writes, (bind_run _ _ _ _ _ (sock_send_all _ _ Hc)) by done.
  rewrite two_sent_length, Z.eqb_refl by done. cbn [negb].
  rewrite (bind_run _ _ _ _ _ (sock_send_all _ _ Hc)), Z.eqb_refl. cbn [negb].
  by rewrite mret_run, sent_sent.
Qed.

(** What the client was sent is a beginning of [answer]: the whole of it when
    there is memory and the client reads. *)
Definition answered (answer : bytes) (w w' : world F) : Prop :=
  exists p, w_out w' = w_out w ++ p /\ p `prefix_of` answer /\ (mem_ok -> client_reads -> p = answer).

Lemma send_two_answered head_text page_text (w w' : world F) r :
  two_fit head_text page_text -> send_two head_text page_text w = Some (r, w') ->
  answered (two_sent head_text page_text ++ page_text) w w'.
Proof.
  intros Hf E. set (d := two_sent head_text page_text) in *.
  destruct (px_malloc (MAXSCRIPTOUT + Z.of_nat HEADBUF)) eqn:Hm.
  2:{ unfold send_two in E. rewrite Hm in E. injection E as _ <-. exists [].
      rewrite app_nil_r. split_and!; [done | apply prefix_nil |]. intros Hok. by rewrite Hok in Hm. }
  assert (mem_ok -> client_reads -> w' = sent w (d ++ page_text)) as Hall.
  { intros _ Hc. rewrite send_two_run in E by done. by injection E. }
  rewrite send_two_writes in E by done. fold d in E. rewrite (bind_run _ _ _ _ _ (sock_send_run _ _)) in E.
  set (n := px_sock_write (w_out w) d) in *. destruct (Z.eqb_spec n (Z.of_nat (length head_text))) as [En|_].
  - cbn [negb] in E. rewrite (bind_run _ _ _ _ _ (sock_send_run _ _)) in E.
    rewrite (take_ge d) in E by (subst d; rewrite two_sent_length by done; lia).
    set (k := px_sock_write _ page_text) in *. exists (d ++ take (Z.to_nat k) page_text).
    assert (w' = sent (sent w d) (take (Z.to_nat k) page_text)) as ->
      by (destruct (negb _); by injection E as _ <-).
    rewrite sent_sent in *. split_and!; [done | by apply prefix_app, prefix_take |].
    intros Hok Hc. specialize (Hall Hok Hc). by apply (f_equal w_out), app_inv_head in Hall.
  - injection E as _ <-. exists (take (Z.to_nat n) d).
    split_and!; [done | by apply prefix_app_r, prefix_take |].
    intros Hok Hc. specialize (Hall Hok Hc). by apply (f_equal w_out), app_inv_head in Hall.
Qed.

Lemma send_err_run err descr (w : world F) :
  px_malloc (MAXSCRIPTOUT + Z.of_nat HEADBUF) = true -> client_reads ->
  Z.of_nat (length (err_page err descr)) < MAXSCRIPTOUT ->
  (length (err_head err descr (Z.of_nat (length (err_page err descr)))) < HEADBUF)%nat ->
  send_err err descr w
  = Some (0, sent (set_status err w) (err_head err descr (Z.of_nat (length (err_page err descr)))
                                      ++ err_page err descr)).
Proof.
  intros Hm Hc Hp Hh. unfold send_err.
  rewrite (bind_run _ _ w tt (set_status err w)) by done. cbv zeta.
  rewrite send_two_run by (done || split; lia). unfold two_sent.
  by destruct (Nat.ltb_spec (length (err_head err descr (Z.of_nat (length (err_page err descr))))) HEADBUF);
    [|lia].
Qed.
End HttpLemmas.

(** ** Theorems *)

Section HttpTheorems.
Context {F : Type} `{Posix F}.

(** The header of [request_auth] is the challenge. *)
Lemma auth_head_challenge page : auth_head page (Z.of_nat (length (auth_page page))) = challenge page.
Proof. unfold auth_head, challenge, refusal. by rewrite <-!app_assoc. Qed.

Lemma auth_fit descr :
  (length descr <= INBUFFER)%nat ->
  two_fit (auth_head descr (Z.of_nat (length (auth_page descr)))) (auth_page descr).
Proof.
  intros Hl. set (body := auth_page descr). set (head := auth_head descr (Z.of_nat (length body))).
  assert (length body = length (auth_page []) + length descr)%nat as Lb
    by (subst body; unfold auth_page; rewrite !length_app; cbn [length]; lia).
  assert (length (auth_page []) < 1000)%nat as L0 by (apply Nat.ltb_lt; reflexivity).
  split; [unfold MAXSCRIPTOUT, INBUFFER in *; lia|].
  assert (length (dec_s (Z.of_nat (length body))) <= 5)%nat as Ld.
  { apply dec_s_length; [|lia]. change (10 ^ Z.of_nat 4) with 10000. unfold INBUFFER in *. lia. }
  assert (length head = length (auth_head [] 0) - 1 + length (dec_s (Z.of_nat (length body)))
                        + length descr)%nat as Lh.
  { subst head. unfold auth_head. rewrite !length_app. change (length (dec_s 0)) with 1%nat.
    cbn [length]. lia. }
  assert (length (auth_head [] 0) < 200)%nat by (apply Nat.ltb_lt; reflexivity).
  unfold HEADBUF. lia.
Qed.

Lemma request_auth_run (w : world F) descr :
  mem_ok -> client_reads -> cstr_at w.(w_conn).(req) w.(w_conn).(page) = Some descr ->
  (length descr <= INBUFFER)%nat ->
  let body := auth_page descr in
  let head := auth_head descr (Z.of_nat (length body)) in
  request_auth w
  = Some (0, sent (set_status 401 w)
      ((if (length head <? HEADBUF)%nat then head
        else take (HEADBUF - 1) head ++ [0] ++ take (length head - HEADBUF) body) ++ body)).
Proof.
  intros Hm Hc Hd Hl body head. unfold request_auth. rewrite conn_bind.
  rewrite (bind_run _ _ w descr w) by (unfold cstring; rewrite conn_bind; by apply lift_run).
  rewrite (bind_run _ _ w tt (set_status 401 w)) by done. cbv zeta. fold body. fold head.
  apply send_two_run; [done..|]. by apply auth_fit.
Qed.

(** [send_http_header] sends its header exactly when it is shorter than
    [HEADBUF]: the status line, the server, the [Connection] field the protocol
    version asks for, the ETag unless the time is -1, the length unless it is
    absent or the connection will be closed, the extra headers and the empty line; the
    result tells whether the client took all of it.  A header that is longer
    makes the function read past the end of its buffer (the model is stuck). *)
Theorem send_http_header_exact code size headers content timestamp (w : world F) :
  px_malloc (Z.of_nat HEADBUF) = true ->
  let t := http_head w.(w_conn) code size headers content timestamp in
  let n := px_sock_write w.(w_out) t in
  ((length t < HEADBUF)%nat ->
     send_http_header code size headers content timestamp w
     = Some (if n =? Z.of_nat (length t) then 0 else ERR_BRKPIPE,
             sent (set_status code w) (take (Z.to_nat n) t)))
  /\ ((HEADBUF < length t)%nat -> send_http_header code size headers content timestamp w = None).
Proof.
  intros Hm. cbv zeta. rewrite send_http_header_run by done. cbv zeta.
  split; intros Hl; destruct (Nat.leb_spec (length (http_head (w_conn w) code size headers content timestamp)) HEADBUF),
    (Nat.eqb_spec (length (http_head (w_conn w) code size headers content timestamp)) HEADBUF);
    done || lia.
Qed.

(** [send_error_header] answers every error value of [error_table] with that
    status code in the log and on the wire, and with the page that describes
    it: the header announces the length of exactly the page that follows. *)
Theorem send_error_header_table retval code descr (w : world F) :
  px_malloc (MAXSCRIPTOUT + Z.of_nat HEADBUF) = true -> client_reads ->
  error_table retval = Some (code, descr) ->
  let page := err_page code descr in
  send_error_header retval w
  = Some (0, sent (set_status code w) (err_head code descr (Z.of_nat (length page)) ++ page)).
Proof.
  intros Hm Hc. unfold error_table, send_error_header.
  repeat match goal with
  | |- (if retval =? ?k then _ else _) = _ -> _ =>
      destruct (Z.eqb_spec retval k) as [->|];
        [intros [= <- <-]; apply send_err_run; [done | done | reflexivity | apply Nat.ltb_lt; reflexivity]|]
  end.
  done.
Qed.

(** [request_auth] answers 401 with the page of the request as realm and in
    the body.  As long as the header fits [HEADBUF] bytes the client gets the
    header and the body it announces; for longer paths what it gets as header
    is cut, holds a NUL and goes on with the beginning of the body, so that the
    header is never ended. *)
Theorem request_auth_response (w : world F) descr :
  mem_ok -> client_reads -> cstr_at w.(w_conn).(req) w.(w_conn).(page) = Some descr ->
  (length descr <= INBUFFER)%nat ->
  let body := auth_page descr in
  let head := auth_head descr (Z.of_nat (length body)) in
  request_auth w
  = Some (0, sent (set_status 401 w)
      ((if (length head <? HEADBUF)%nat then head
        else take (HEADBUF - 1) head ++ [0] ++ take (length head - HEADBUF) body) ++ body)).
Proof. by apply request_auth_run. Qed.
End HttpTheorems.

(** ** Witnesses *)

Lemma send_http_header_exact_witness :
  let w := sample_world (bs "/a") [] [] in
  let t := http_head w.(w_conn) 200 None None true (-1) in
  send_http_header 200 None None true (-1) w
  = Some (if px_sock_write w.(w_out) t =? Z.of_nat (length t) then 0 else ERR_BRKPIPE,
          sent (set_status 200 w) (take (Z.to_nat (px_sock_write w.(w_out) t)) t)).
Proof.
  apply (send_http_header_exact 200 None None true (-1) (sample_world (bs "/a") [] []));
    [done | apply Nat.ltb_lt; reflexivity].
Defined.

Lemma send_error_header_table_witness :
  let w := sample_world (bs "/a") [] [] in
  let page := err_page 404 (bs "Page not found") in
  send_error_header ERR_FILENOTFOUND w
  = Some (0, sent (set_status 404 w)
               (err_head 404 (bs "Page not found") (Z.of_nat (length page)) ++ page)).
Proof.
  apply (send_error_header_table ERR_FILENOTFOUND 404 (bs "Page not found")
           (sample_world (bs "/a") [] [])); [done | done | reflexivity].
Defined.

Lemma request_auth_response_witness :
  let w := sample_world (bs "/a") [] [] in
  let body := auth_page (bs "/a") in
  let head := auth_head (bs "/a") (Z.of_nat (length body)) in
  request_auth w
  = Some (0, sent (set_status 401 w)
      ((if (length head <? HEADBUF)%nat then head
        else take (HEADBUF - 1) head ++ [0] ++ take (length head - HEADBUF) body) ++ body)).
Proof.
  apply (request_auth_response (sample_world (bs "/a") [] []) (bs "/a"));
    [done | done | reflexivity | apply Nat.leb_le; reflexivity].
Defined.
