(* ===== verification/SendFile.v ===== *)
(** * Sending files (instance.c)

    [write_file] and what it uses: conditional requests ([If-None-Match]),
    ranges ([Range], [If-Range]) and the header of a file, whose extra lines
    are printed into a buffer of [ABUFFER] bytes. *)
From S2P Require Export Http.

(** ** Definitions *)

(** The text of a [Content-Range] header. *)
Definition range_text (from to size : Z) : bytes :=
  bs "Accept-Ranges: bytes" ++ CRLF ++ bs "Content-Range: bytes " ++ dec_u from ++ bs "-"
  ++ dec_u to ++ bs "/" ++ dec_s size ++ CRLF.

Definition mime_text (mime : bytes) : bytes := bs "Content-Type: " ++ mime ++ CRLF.

(** [from] and [to] of a Range field value in the buffer [a]; [None] when the
    = or the - is missing. *)
Definition parse_range (a : bytes) (size : Z) : option (bytes * option (Z * Z)) :=
  eq ← strstr a 0 (bs "=");
  match eq with
  | None => Some (a, None)
  | Some eq =>
      sep ← strstr a eq (bs "-");
      match sep with
      | None => Some (a, None)
      | Some sep =>
          a ← store a sep 0;
          from_s ← cstr_at a (eq + 1);
          to_s ← cstr_at a (sep + 1);
          let from := to_u64 (strtol from_s 0) in
          let to := to_u64 (strtol to_s 0) in
          let to := if (to =? 0) && (length to_s =? 0)%nat then to_u64 (size - 1) else to in
          Some (a, Some (from, to))
      end
  end.

Section SendFile.
Context {F : Type} `{Posix F}.
Context (conf : weborf_configuration_t).

(** Also returns the buffer [a], which the caller reuses. *)
Definition check_etag (a : bytes) : M F (Z * bytes) :=
  '(r, a) ← param (bs "If-None-Match") a (Z.of_nat RBUFFER);
  if (r : bool) then
    s ← lift (cstr_at a 1);
    let etag := strtol s 0 in
    c ← conn;
    if c.(strfile_stat).(st_mtime) =? etag
    then _ ← send_http_header 304 None None true etag; mret (0, a)
    else mret (1, a)
  else mret (1, a).

(** Size of the buffer of [write_file]. *)
Definition ABUFFER : nat := RBUFFER + MIMETYPELEN + 16.

(** The end of [bytes_to_send]: [pos] is the position the descriptor is at, [h]
    the buffer with what has been printed. *)
Definition send_file_header (http_code count pos : Z) (h : head_state) : M F (Z * Z * Z) :=
  c ← conn;
  fs ← get_fs;
  h ← (if conf.(c_send_content_type) then
         let mime := mime_get_fd px_magic true (px_contents fs c.(strfile_fd)) c.(strfile_stat) in
         (* glibc prints a NULL string like this *)
         lift (head_print (mime_text (default (bs "(null)") mime)) h)
       else mret h);
  a ← lift (cstr_at h.(hd_buf) 0);
  _ ← send_http_header http_code (Some count) (Some a) true c.(strfile_stat).(st_mtime);
  mret (count, 0, pos).

(** The count, [*errcode], and the position of the file descriptor. *)
Definition bytes_to_send (a : bytes) : M F (Z * Z * Z) :=
  a ← lift (store a 0 0);
  '(range_header, a) ← param (bs "Range") a (Z.of_nat RBUFFER);
  c ← conn;
  let st := c.(strfile_stat) in
  etag ← (if (range_header : bool) then
            '(r, b) ← param (bs "If-Range") (fresh RBUFFER) (Z.of_nat RBUFFER);
            if (r : bool) then s ← lift (cstr_at b 1); mret (strtol s 0) else mret st.(st_mtime)
          else mret st.(st_mtime));
  if range_header && (st.(st_mtime) =? etag) then
    '(a, r) ← lift (parse_range a st.(st_size));
    match r with
    | None => mret (0, ERR_NOTHTTP, 0)
    | Some (from, to) =>
        h ← lift (head_print (range_text from to st.(st_size)) (mkhead a 0 (Z.of_nat ABUFFER)));
        let count := to_u64 (to - from + 1) in
        if (to_u64 st.(st_size) <=? from) || (to_u64 st.(st_size) <? to_u64 (from + count))
        then mret (0, ERR_RANGE_NOT_SATISFIABLE, 0)
        else send_file_header 206 count from h
    end
  else
    a ← lift (store a 0 0);
    send_file_header 200 (to_u64 st.(st_size)) 0 (mkhead a 0 (Z.of_nat ABUFFER)).

Definition write_file : M F Z :=
  '(r, a) ← check_etag (fresh ABUFFER);
  if r =? 0 then mret 0
  else
    '(count, errcode, pos) ← bytes_to_send a;
    if negb (errcode =? 0) then mret errcode
    else
      c ← conn;
      fs ← get_fs;
      fd_copy (drop (Z.to_nat pos) (px_contents fs c.(strfile_fd))) (px_read_error fs c.(strfile_fd)) (to_s64 count).
End SendFile.

(** ** Lemmas: headers of files *)

Lemma head_print_nul N t x s s' :
  Z.of_nat N < 2 ^ 31 -> head_inv N t s -> (length (t ++ x) < N)%nat ->
  head_print x s = Some s' -> s'.(hd_buf) !! length (t ++ x) = Some 0.
Proof.
  intros HN (Hl & Hp & Hle & Ht & _) Hlen E. rewrite length_app in *. unfold head_print in E.
  rewrite Hp, Hle, Nat2Z.id, to_u_small, snprintf_fits in E by lia.
  cbn [mbind option_bind] in E. injection E as <-. cbn [hd_buf].
  rewrite Ht by lia. rewrite app_assoc, <-length_app. apply lookup_mid.
Qed.

(** [t] has been printed and its NUL is there. *)
Definition head_str (N : nat) (t : bytes) (s : head_state) : Prop :=
  head_inv N t s /\ s.(hd_buf) !! length t = Some 0.

Lemma head_str_cstr N t s :
  head_str N t s -> (length t < N)%nat -> 0 ∉ t -> cstr_at s.(hd_buf) 0 = Some t.
Proof.
  intros [(Hl & _ & _ & Ht & _) Hn] Hlen H0.
  rewrite <-(take_drop_middle _ _ _ Hn), Ht by done. by apply (cstr_at_app []).
Qed.

Lemma head_print_str N t x s :
  Z.of_nat N < 2 ^ 31 -> head_inv N t s -> (length (t ++ x) < N)%nat ->
  exists s', head_print x s = Some s' /\ head_str N (t ++ x) s'.
Proof.
  intros HN Hi Hlen.
  destruct (head_print_Some N t x s HN Hi ltac:(rewrite length_app in Hlen; lia)) as (s' & E & Hi').
  exists s'. split; [done|]. split; [done|]. by eapply head_print_nul.
Qed.

(** The value of a Range field that asks for the bytes [x] to [y]. *)
Definition range_value (x y : Z) : bytes := bs "bytes=" ++ dec_u x ++ bs "-" ++ dec_u y.

Lemma digits_not_in z c : 0 <= z -> ~ is_digit c -> c ∉ dec_u z.
Proof.
  intros Hz Hc Hin. apply Hc. pose proof (dec_u_digits z Hz) as Hd.
  rewrite Forall_forall in Hd. by apply Hd.
Qed.

(** A well-formed range is understood. *)
Lemma parse_range_run x y rest size :
  0 <= x <= LONG_MAX -> 0 <= y <= LONG_MAX ->
  exists a, parse_range (range_value x y ++ 0 :: rest) size = Some (a, Some (x, y))
    /\ length a = length (range_value x y ++ 0 :: rest).
Proof.
  intros Hx Hy.
  assert (0 ∉ dec_u x /\ 45 ∉ dec_u x /\ 0 ∉ dec_u y) as (X0 & X45 & Y0)
    by (split_and!; apply digits_not_in; unfold is_digit; lia).
  unfold range_value. rewrite <-!app_assoc. set (eqs := bs "bytes=").
  set (M := eqs ++ dec_u x ++ bs "-" ++ dec_u y ++ 0 :: rest).
  set (M' := eqs ++ dec_u x ++ 0 :: dec_u y ++ 0 :: rest).
  assert (0 ∉ eqs) as E0 by by_decision.
  assert (0 ∉ eqs ++ dec_u x ++ bs "-" ++ dec_u y) as V0
    by (rewrite !not_elem_of_app; split_and!; [done | done | by_decision | done]).
  assert (strstr M 0 (bs "=") = Some (Some 5%nat)) as E1.
  { unfold strstr, M. rewrite !(app_assoc _ _ (0 :: rest)), cstr_at_0 by done.
    cbn [mbind option_bind]. by rewrite find_sub_single. }
  assert (strstr M 5 (bs "-") = Some (Some (6 + length (dec_u x))%nat)) as E2.
  { unfold strstr, M. change eqs with (bs "bytes" ++ bs "="). rewrite <-!app_assoc.
    rewrite !(app_assoc _ _ (0 :: rest)).
    rewrite <-(app_assoc (bs "bytes")), cstr_at_app; [|done|by clear -V0; set_solver].
    cbn [mbind option_bind]. rewrite find_sub_single.
    change (bs "-" ++ dec_u y) with (45 :: dec_u y). rewrite app_assoc, find_byte_app.
    - cbn [fmap option_fmap option_map]. rewrite length_app. done.
    - rewrite not_elem_of_app. split; [by_decision | done]. }
  assert (store M (6 + length (dec_u x)) 0 = Some M') as E3.
  { unfold M, M'. cbn [app]. rewrite !(app_assoc eqs). apply store_mid_eq. by rewrite length_app. }
  assert (cstr_at M' 6 = Some (dec_u x)) as E4 by (by apply cstr_at_app).
  assert (cstr_at M' (6 + length (dec_u x) + 1) = Some (dec_u y)) as E5.
  { unfold M'. change (0 :: dec_u y ++ 0 :: rest) with ([0] ++ dec_u y ++ 0 :: rest).
    rewrite !(app_assoc _ _ (dec_u y ++ 0 :: rest)). apply cstr_at_app; [|done]. rewrite !length_app. done. }
  exists M'. unfold parse_range. rewrite E1. cbn [mbind option_bind]. rewrite E2.
  cbn [mbind option_bind]. rewrite E3. cbn [mbind option_bind].
  change (5 + 1)%nat with 6%nat. rewrite E4. cbn [mbind option_bind]. rewrite E5. cbn [mbind option_bind].
  rewrite !strtol_dec_whole by auto. unfold LONG_MAX in *. rewrite !to_u_small by lia.
  pose proof (dec_u_nonempty y ltac:(lia)) as Hne.
  destruct (Nat.eqb_spec (length (dec_u y)) 0) as [E|_]; [by apply length_zero_iff_nil in E|].
  rewrite andb_false_r. split; [done|]. unfold M, M'.
  repeat (rewrite ?length_app; cbn [length]). lia.
Qed.

(** The header of a 304 is short. *)
Lemma not_modified_fits c mt : (length (http_head c 304 None None true mt) < HEADBUF)%nat.
Proof.
  unfold http_head, etag_text. rewrite !length_app.
  assert (length (connection_header (protocol_version c) (keep_alive c)) <= 30)%nat
    by (unfold connection_header; destruct (protocol_version c =? HTTP_1_1), (keep_alive c);
        apply Nat.leb_le; reflexivity).
  assert (length (dec_s (to_s32 mt)) <= 11)%nat.
  { apply dec_s_length; [|lia]. change (10 ^ Z.of_nat 10) with 10000000000.
    pose proof (to_s_range 32 mt ltac:(lia)). lia. }
  assert (length (if (mt =? -1)%Z then [] else bs "ETag: " ++ QUOTE ++ dec_s (to_s32 mt) ++ QUOTE ++ CRLF) <= 30)%nat
    by (destruct (mt =? -1); rewrite ?length_app; unfold QUOTE, CRLF; cbn [length]; lia).
  change (length (status_text 304 (reason_phrase 304))) with 20%nat.
  change (length server_text) with 32%nat. cbn [length default]. unfold HEADBUF, CRLF in *. cbn [length]. lia.
Qed.

Section FileLemmas.
Context {F : Type} `{Posix F}.
Context (conf : weborf_configuration_t).

(** The [Content-Type] line of the file that is open. *)
Definition mime_part (w : world F) : bytes :=
  if conf.(c_send_content_type)
  then mime_text (default (bs "(null)")
         (mime_get_fd px_magic true (px_contents w.(w_fs) w.(w_conn).(strfile_fd))
            w.(w_conn).(strfile_stat)))
  else [].

(** The extra headers fit their buffer and the header fits its own. *)
Definition header_fits (w : world F) (code count : Z) (extra : bytes) : Prop :=
  (length extra < ABUFFER)%nat /\ 0 ∉ extra
  /\ (length (http_head w.(w_conn) code (Some count) (Some extra) true
        w.(w_conn).(strfile_stat).(st_mtime)) < HEADBUF)%nat.

(** The header of a file that is sent. *)
Definition file_response (w : world F) (code count : Z) (extra : bytes) : bytes :=
  http_head w.(w_conn) code (Some count) (Some extra) true w.(w_conn).(strfile_stat).(st_mtime).

Lemma send_http_header_all code size headers content timestamp (w : world F) :
  mem_ok -> client_reads ->
  (length (http_head w.(w_conn) code size headers content timestamp) < HEADBUF)%nat ->
  send_http_header code size headers content timestamp w
  = Some (0, sent (set_status code w) (http_head w.(w_conn) code size headers content timestamp)).
Proof.
  intros Hm Hc Hl. rewrite send_http_header_run by done. cbv zeta.
  set (t := http_head _ _ _ _ _ _) in *.
  destruct (Nat.leb_spec (length t) HEADBUF), (Nat.eqb_spec (length t) HEADBUF); try lia.
  by rewrite Hc, Z.eqb_refl, Nat2Z.id, take_ge.
Qed.

Lemma send_file_header_run code count pos t h (w : world F) :
  mem_ok -> client_reads -> head_str ABUFFER t h ->
  header_fits w code count (t ++ mime_part w) ->
  send_file_header conf code count pos h w
  = Some ((count, 0, pos), sent (set_status code w) (file_response w code count (t ++ mime_part w))).
Proof.
  intros Hm Hc Hs (Hl & H0 & Hh). unfold send_file_header. rewrite conn_bind, get_fs_bind.
  assert (Z.of_nat ABUFFER < 2 ^ 31) as HN by (unfold ABUFFER, RBUFFER, MIMETYPELEN; lia).
  assert (exists h', (if conf.(c_send_content_type) then
       let mime := mime_get_fd px_magic true (px_contents w.(w_fs) w.(w_conn).(strfile_fd))
                     w.(w_conn).(strfile_stat) in
       lift (head_print (mime_text (default (bs "(null)") mime)) h)
     else mret h) w = Some (h', w) /\ head_str ABUFFER (t ++ mime_part w) h') as (h' & E & Hs').
  { unfold mime_part in *. destruct (c_send_content_type conf).
    - destruct (head_print_str ABUFFER t _ h HN (proj1 Hs) Hl) as (h' & E & Hs').
      exists h'. split; [by apply lift_run | done].
    - exists h. by rewrite app_nil_r. }
  rewrite (bind_run _ _ _ _ _ E). clear E.
  rewrite (lift_bind_Some _ _ _ _ (head_str_cstr _ _ _ Hs' Hl H0)).
  rewrite (bind_run _ _ _ _ _ (send_http_header_all _ _ _ _ _ w Hm Hc Hh)). done.
Qed.

(** The request asks for the bytes [x] to [y] and has no other condition. *)
Record range_request (h : bytes) (x y : Z) : Prop := {
  rr_range : field_value (bs "Range") (h ++ CRLF) = Some (range_value x y);
  rr_if : field_value (bs "If-Range") (h ++ CRLF) = None;
  rr_x : 0 <= x <= LONG_MAX;
  rr_y : 0 <= y <= LONG_MAX;
  rr_fits : Z.of_nat (length (range_value x y)) + 1 < Z.of_nat RBUFFER;
}.

(** Whether the client has the file: the number behind the first byte of
    [If-None-Match] is the time of the file.  A value that does not fit its
    buffer is none; an empty one is read beyond its end. *)
Definition etag_test (h : bytes) (mt : Z) : option bool :=
  match field_value (bs "If-None-Match") (h ++ CRLF) with
  | None => Some false
  | Some [] => None
  | Some (_ :: t) => Some ((Z.of_nat (length t) + 2 <? Z.of_nat RBUFFER) && (mt =? strtol (cstr_prefix t) 0))
  end.

Lemma etag_test_absent h mt : field_value (bs "If-None-Match") (h ++ CRLF) = None -> etag_test h mt = Some false.
Proof. unfold etag_test. by intros ->. Qed.

Lemma check_etag_run a (w : world F) h b :
  mem_ok -> client_reads -> has_header w.(w_conn) h -> (RBUFFER <= length a)%nat ->
  let mt := w.(w_conn).(strfile_stat).(st_mtime) in
  etag_test h mt = Some b ->
  exists a', length a' = length a
    /\ check_etag a w = Some (if b then ((0, a'), sent (set_status 304 w) (http_head w.(w_conn) 304 None None true mt))
                              else ((1, a'), w)).
Proof.
  intros Hm Hc Hh Ha mt. unfold etag_test, check_etag.
  rewrite (param_bind _ _ _ _ w h) by (done || (by split_and!; [|by_decision..]) || lia). unfold field_result.
  destruct (field_value _ _) as [[|x t]|]; [done | | by intros [= <-]; exists a].
  intros [= <-]. cbn [length]. replace (Z.of_nat (S (length t)) + 1) with (Z.of_nat (length t) + 2) by lia.
  destruct (Z.ltb_spec (Z.of_nat (length t) + 2) (Z.of_nat RBUFFER)); cbn [andb]; [|by exists a].
  set (rest := drop _ a). exists ((x :: t) ++ 0 :: rest). split.
  { subst rest. rewrite length_app, !length_cons, length_drop. unfold RBUFFER in *. lia. }
  cbn beta iota. assert (cstr_at ((x :: t) ++ 0 :: rest) 1 = Some (cstr_prefix t)) as E.
  { replace ((x :: t) ++ 0 :: rest) with ([x] ++ (t ++ [0]) ++ rest) by (cbn [app]; by rewrite <-app_assoc).
    rewrite (cstr_at_is_Some [x]) by (done || set_solver). by rewrite cstr_prefix_app_nul. }
  rewrite (lift_bind_Some _ _ _ _ E), conn_bind. fold mt.
  destruct (Z.eqb_spec mt (strtol (cstr_prefix t) 0)) as [Et|]; [|done]. rewrite <-Et.
  by rewrite (bind_run _ _ _ _ _ (send_http_header_all 304 None None true mt w Hm Hc (not_modified_fits _ _))).
Qed.

Lemma check_etag_absent a (w : world F) h :
  has_header w.(w_conn) h -> field_value (bs "If-None-Match") (h ++ CRLF) = None ->
  (RBUFFER <= length a)%nat -> check_etag a w = Some ((1, a), w).
Proof.
  intros Hh Hf Ha. unfold check_etag.
  rewrite (param_bind _ _ _ _ w h) by (done || (by split_and!; [|by_decision..]) || lia).
  by rewrite field_result_None.
Qed.
End FileLemmas.

Lemma to_u64_add_r a b : to_u64 (a + to_u64 b) = to_u64 (a + b).
Proof. unfold to_u. by rewrite Z.add_mod_idemp_r. Qed.

(** The test of [bytes_to_send] compares the ends of the range with the size. *)
Lemma range_test x y size :
  0 <= x <= LONG_MAX -> 0 <= y <= LONG_MAX -> 0 <= size <= LONG_MAX ->
  ((to_u64 size <=? x) || (to_u64 size <? to_u64 (x + to_u64 (y - x + 1))))
  = negb ((x <? size) && (y <? size)).
Proof.
  unfold LONG_MAX. intros. rewrite to_u64_add_r.
  replace (x + (y - x + 1)) with (y + 1) by lia. rewrite !to_u_small by lia. btest; done || lia.
Qed.

Section RangeLemmas.
Context {F : Type} `{Posix F}.
Context (conf : weborf_configuration_t).

Lemma bytes_to_send_range a (w : world F) h x y :
  mem_ok -> client_reads -> has_header w.(w_conn) h -> range_request h x y ->
  length a = ABUFFER ->
  let size := w.(w_conn).(strfile_stat).(st_size) in
  let count := to_u64 (y - x + 1) in
  let extra := range_text x y size ++ mime_part conf w in
  0 <= size <= LONG_MAX ->
  (x < size /\ y < size -> header_fits w 206 count extra) ->
  bytes_to_send conf a w
  = Some (if (x <? size) && (y <? size)
          then ((count, 0, x), sent (set_status 206 w) (file_response w 206 count extra))
          else ((0, ERR_RANGE_NOT_SATISFIABLE, 0), w)).
Proof.
  intros Hm Hc Hh [Hr Hi Hx Hy Hf] Ha size count extra Hsz Hfit. unfold bytes_to_send.
  assert (exists a1, store a 0 0 = Some a1 /\ length a1 = ABUFFER) as (a1 & E1 & L1).
  { eexists. split; [apply store_Some; rewrite Ha; unfold ABUFFER, RBUFFER; lia|]. by rewrite length_insert. }
  rewrite (lift_bind_Some _ _ _ _ E1).
  rewrite (param_bind _ _ _ _ w h) by (done || (by split_and!; [|by_decision..]) || (rewrite L1; unfold ABUFFER; lia)).
  rewrite (field_result_Some _ _ _ _ _ Hr Hf). cbn beta iota. rewrite conn_bind.
  fold size. set (rest := drop _ a1).
  assert (length (range_value x y ++ 0 :: rest) = ABUFFER) as L2.
  { subst rest. rewrite length_app, length_cons, length_drop. unfold ABUFFER in *. lia. }
  rewrite (bind_run _ _ w (st_mtime (strfile_stat (w_conn w))) w).
  2:{ rewrite (param_bind _ _ _ _ w h)
        by (done || (by split_and!; [|by_decision..]) || (rewrite fresh_length; lia)).
      by rewrite field_result_None. }
  rewrite Z.eqb_refl. cbn [andb].
  destruct (parse_range_run x y rest size Hx Hy) as (a2 & E2 & L3).
  rewrite (lift_bind_Some _ _ _ _ E2). cbn beta iota.
  assert (Z.of_nat ABUFFER < 2 ^ 31) as HN by (unfold ABUFFER, RBUFFER, MIMETYPELEN; lia).
  destruct (head_print_Some ABUFFER [] (range_text x y size) (mkhead a2 0 (Z.of_nat ABUFFER)) HN
              (head_inv_start _ _ (eq_trans L3 L2)) ltac:(simpl; lia)) as (h' & E3 & Hi3).
  rewrite (lift_bind_Some _ _ _ _ E3). fold count. unfold count. rewrite (range_test x y size Hx Hy Hsz).
  fold count. destruct (Z.ltb_spec x size), (Z.ltb_spec y size); cbn [andb negb]; try done.
  destruct (Hfit ltac:(done)) as (Hl & Hz & Hhd).
  assert (length ([] ++ range_text x y size) < ABUFFER)%nat as Hl1.
  { subst extra. rewrite length_app in Hl. cbn [app]. lia. }
  apply send_file_header_run; [done | done | | by split_and!].
  split; [done|]. exact (head_print_nul ABUFFER [] (range_text x y size) _ h' HN
    (head_inv_start _ _ (eq_trans L3 L2)) Hl1 E3).
Qed.

(** Without conditions the whole file is announced. *)
Lemma bytes_to_send_whole a (w : world F) h :
  mem_ok -> client_reads -> has_header w.(w_conn) h ->
  field_value (bs "Range") (h ++ CRLF) = None -> length a = ABUFFER ->
  let size := w.(w_conn).(strfile_stat).(st_size) in
  0 <= size <= LONG_MAX -> header_fits w 200 size (mime_part conf w) ->
  bytes_to_send conf a w
  = Some ((size, 0, 0), sent (set_status 200 w) (file_response w 200 size (mime_part conf w))).
Proof.
  intros Hm Hc Hh Hr Ha size Hsz Hfit. unfold bytes_to_send.
  assert (0 < ABUFFER)%nat as HA by (unfold ABUFFER, RBUFFER; lia).
  rewrite (lift_bind_Some _ _ _ _ (store_Some a 0 0 ltac:(lia))).
  rewrite (param_bind _ _ _ _ w h)
    by (done || (by split_and!; [|by_decision..]) || (rewrite length_insert; unfold ABUFFER in *; lia)).
  rewrite field_result_None by done. cbn beta iota. rewrite conn_bind.
  rewrite mret_bind. cbn [andb].
  rewrite (lift_bind_Some _ _ _ _ (store_Some (<[0%nat:=to_char 0]> a) 0 0 ltac:(rewrite length_insert; lia))).
  fold size. rewrite to_u_small by (unfold LONG_MAX in *; lia).
  apply (send_file_header_run conf 200 size 0 []); [done | done | | done].
  split; [apply head_inv_start; by rewrite !length_insert|].
  cbn [hd_buf length]. destruct a as [|b a]; [simpl in *; lia | done].
Qed.
End RangeLemmas.

Lemma to_s64_to_u64 z : - 2 ^ 63 <= z < 2 ^ 63 -> to_s64 (to_u64 z) = z.
Proof.
  intros Hz. unfold to_s, to_u. rewrite Z.mod_mod by lia.
  destruct (Z.lt_ge_cases z 0).
  - replace (z mod 2 ^ 64) with (z + 2 ^ 64)
      by (rewrite <-(Z.mod_add z 1) by lia; rewrite Z.mod_small; lia).
    btest; lia.
  - rewrite Z.mod_small by lia. btest; lia.
Qed.

Section WriteFile.
Context {F : Type} `{Posix F}.
Context (conf : weborf_configuration_t).

(** The content of the file that is open. *)
Definition file_content (w : world F) : bytes := px_contents w.(w_fs) w.(w_conn).(strfile_fd).

Lemma write_file_range_run (w : world F) h x y :
  mem_ok -> client_reads -> has_header w.(w_conn) h -> range_request h x y ->
  etag_test h w.(w_conn).(strfile_stat).(st_mtime) = Some false ->
  let size := w.(w_conn).(strfile_stat).(st_size) in
  let count := to_u64 (y - x + 1) in
  let extra := range_text x y size ++ mime_part conf w in
  0 <= size <= LONG_MAX ->
  (x < size /\ y < size -> header_fits w 206 count extra) ->
  write_file conf w
  = Some (if (x <? size) && (y <? size)
          then (0, sent (set_status 206 w)
                     (file_response w 206 count extra
                      ++ take (Z.to_nat (y - x + 1)) (drop (Z.to_nat x) (file_content w))))
          else (ERR_RANGE_NOT_SATISFIABLE, w)).
Proof.
  intros Hm Hc Hh Hr Ht size count extra Hsz Hfit. unfold write_file.
  destruct (check_etag_run (fresh ABUFFER) w h false Hm Hc Hh ltac:(rewrite fresh_length; unfold ABUFFER; lia) Ht)
    as (a & La & Ea). rewrite fresh_length in La.
  rewrite (bind_run _ _ _ _ _ Ea). cbn beta iota. cbn [Z.eqb].
  pose proof (bytes_to_send_range conf a w h x y Hm Hc Hh Hr La Hsz Hfit) as E. fold size count extra in E.
  destruct (Z.ltb_spec x size) as [Hx|], (Z.ltb_spec y size) as [Hy|]; cbn [andb] in *;
    rewrite (bind_run _ _ _ _ _ E); clear E; try done.
  cbn beta iota. cbn [Z.eqb negb]. rewrite conn_bind, get_fs_bind.
  cbn [set_status sent w_conn w_fs].
  destruct (fd_copy_run (drop (Z.to_nat x) (file_content w)) (px_read_error w.(w_fs) w.(w_conn).(strfile_fd)) (to_s64 count)
              (sent (set_status 206 w) (file_response w 206 count extra)) (Hm _))
    as (p & q & E & Hpq & Hq).
  rewrite (Hq Hc), app_nil_r in Hpq. subst p. subst count.
  pose proof Hr as [_ _ Hx0 Hy0 _].
  rewrite (to_s64_to_u64 (y - x + 1)) in E |- * by (unfold LONG_MAX in *; lia).
  rewrite sent_sent in E. exact E.
Qed.

Lemma write_file_whole_run (w : world F) h :
  mem_ok -> client_reads -> has_header w.(w_conn) h ->
  etag_test h w.(w_conn).(strfile_stat).(st_mtime) = Some false ->
  field_value (bs "Range") (h ++ CRLF) = None ->
  let size := w.(w_conn).(strfile_stat).(st_size) in
  0 <= size <= LONG_MAX -> header_fits w 200 size (mime_part conf w) ->
  write_file conf w
  = Some (0, sent (set_status 200 w)
               (file_response w 200 size (mime_part conf w)
                ++ take (Z.to_nat size) (file_content w))).
Proof.
  intros Hm Hc Hh Ht Hr size Hsz Hfit. unfold write_file.
  destruct (check_etag_run (fresh ABUFFER) w h false Hm Hc Hh ltac:(rewrite fresh_length; unfold ABUFFER; lia) Ht)
    as (a & La & Ea). rewrite fresh_length in La.
  rewrite (bind_run _ _ _ _ _ Ea). cbn beta iota. cbn [Z.eqb].
  rewrite (bind_run _ _ _ _ _ (bytes_to_send_whole conf a w h Hm Hc Hh Hr La Hsz Hfit)). fold size. cbn beta iota. cbn [Z.eqb negb]. rewrite conn_bind, get_fs_bind.
  cbn [set_status sent w_conn w_fs].
  destruct (fd_copy_run (drop (Z.to_nat 0) (file_content w)) (px_read_error w.(w_fs) w.(w_conn).(strfile_fd)) (to_s64 size)
              (sent (set_status 200 w) (file_response w 200 size (mime_part conf w))) (Hm _))
    as (p & q & E & Hpq & Hq).
  rewrite (Hq Hc), app_nil_r in Hpq. subst p.
  rewrite (to_s_small 64 size) in E |- * by (unfold LONG_MAX in *; lia).
  rewrite sent_sent in E. exact E.
Qed.
Lemma write_file_unchanged (w : world F) h :
  mem_ok -> client_reads -> has_header w.(w_conn) h ->
  let mt := w.(w_conn).(strfile_stat).(st_mtime) in
  etag_test h mt = Some true ->
  write_file conf w = Some (0, sent (set_status 304 w) (http_head w.(w_conn) 304 None None true mt)).
Proof.
  intros Hm Hc Hh mt Ht. unfold write_file.
  destruct (check_etag_run (fresh ABUFFER) w h true Hm Hc Hh ltac:(rewrite fresh_length; unfold ABUFFER; lia) Ht)
    as (a & _ & Ea).
  by rewrite (bind_run _ _ _ _ _ Ea).
Qed.
End WriteFile.

(** ** Theorems *)

Section FileTheorems.
Context {F : Type} `{Posix F}.
Context (conf : weborf_configuration_t).

(** A request without [Range], for a file the client does not have, gets status 200, the size
    and type of the file, and its whole content. *)
Theorem write_file_whole (w : world F) h :
  mem_ok -> client_reads -> has_header w.(w_conn) h ->
  etag_test h w.(w_conn).(strfile_stat).(st_mtime) = Some false ->
  field_value (bs "Range") (h ++ CRLF) = None ->
  let size := w.(w_conn).(strfile_stat).(st_size) in
  size = Z.of_nat (length (file_content w)) -> size <= LONG_MAX ->
  header_fits w 200 size (mime_part conf w) ->
  write_file conf w
  = Some (0, sent (set_status 200 w) (file_response w 200 size (mime_part conf w) ++ file_content w)).
Proof.
  intros. rewrite (write_file_whole_run conf w h) by (done || lia).
  fold size. by rewrite take_ge by lia.
Qed.

(** C24: a request for the bytes [x] to [y], both inside the file and in order,
    gets status 206, a [Content-Range] that says so, the length of the slice
    and exactly the slice. *)
Theorem write_file_range (w : world F) h x y :
  mem_ok -> client_reads -> has_header w.(w_conn) h -> range_request h x y ->
  etag_test h w.(w_conn).(strfile_stat).(st_mtime) = Some false ->
  let size := w.(w_conn).(strfile_stat).(st_size) in
  size = Z.of_nat (length (file_content w)) -> size <= LONG_MAX -> x <= y < size ->
  let slice := take (Z.to_nat (y - x + 1)) (drop (Z.to_nat x) (file_content w)) in
  let extra := range_text x y size ++ mime_part conf w in
  header_fits w 206 (y - x + 1) extra ->
  Z.of_nat (length slice) = y - x + 1
  /\ write_file conf w
     = Some (0, sent (set_status 206 w) (file_response w 206 (Z.of_nat (length slice)) extra ++ slice)).
Proof.
  intros Hm Hc Hh Hr Ht size Hs Hl Hxy slice extra Hf. pose proof Hr as [_ _ Hx Hy _].
  assert (to_u64 (y - x + 1) = y - x + 1) as Hn by (apply to_u_small; unfold LONG_MAX in *; lia).
  assert (Z.of_nat (length slice) = y - x + 1) as Ls
    by (subst slice; rewrite length_take, length_drop; lia).
  split; [done|].
  rewrite (write_file_range_run conf w h x y) by (rewrite ?Hn; done || lia). fold size.
  rewrite Hn. destruct (Z.ltb_spec x size), (Z.ltb_spec y size); try lia. cbn [andb].
  by rewrite Ls.
Qed.

(** A range with an end outside the file is refused with
    [ERR_RANGE_NOT_SATISFIABLE] before anything is sent. *)
Theorem write_file_range_refused (w : world F) h x y :
  mem_ok -> client_reads -> has_header w.(w_conn) h -> range_request h x y ->
  etag_test h w.(w_conn).(strfile_stat).(st_mtime) = Some false ->
  let size := w.(w_conn).(strfile_stat).(st_size) in
  0 <= size <= LONG_MAX -> size <= x \/ size <= y ->
  write_file conf w = Some (ERR_RANGE_NOT_SATISFIABLE, w).
Proof.
  intros Hm Hc Hh Hr Ht size Hs Hxy.
  rewrite (write_file_range_run conf w h x y); [|done..|fold size; lia]. fold size.
  by destruct (Z.ltb_spec x size), (Z.ltb_spec y size); try lia.
Qed.

(** A range whose ends are in the wrong order is not refused when both are
    inside the file: the client gets status 206, a [Content-Length] that wrapped
    around to almost 2^64, and no content. *)
Theorem write_file_reversed_range (w : world F) h x y :
  mem_ok -> client_reads -> has_header w.(w_conn) h -> range_request h x y ->
  etag_test h w.(w_conn).(strfile_stat).(st_mtime) = Some false ->
  let size := w.(w_conn).(strfile_stat).(st_size) in
  size <= LONG_MAX -> y + 1 < x < size ->
  let count := 2 ^ 64 - (x - y - 1) in
  let extra := range_text x y size ++ mime_part conf w in
  header_fits w 206 count extra ->
  write_file conf w = Some (0, sent (set_status 206 w) (file_response w 206 count extra)).
Proof.
  intros Hm Hc Hh Hr Ht size Hl Hxy count extra Hf. pose proof Hr as [_ _ Hx Hy _].
  assert (to_u64 (y - x + 1) = count) as Hn.
  { unfold to_u. subst count. rewrite <-(Z.mod_add _ 1) by lia.
    rewrite Z.mod_small by (unfold LONG_MAX in *; lia). lia. }
  rewrite (write_file_range_run conf w h x y) by (rewrite ?Hn; done || lia). fold size.
  rewrite Hn. destruct (Z.ltb_spec x size), (Z.ltb_spec y size); try lia. cbn [andb].
  replace (Z.to_nat (y - x + 1)) with 0%nat by lia. by rewrite take_0, app_nil_r.
Qed.
(** C25: a client that sends back, in [If-None-Match], the ETag the server gave it
    gets 304 and nothing else as long as the modification time fits an [int];
    the ETag is printed truncated to 32 bits, so from 2038 on it never matches
    and the file is sent again. *)
Theorem check_etag_own_tag a (w : world F) h :
  mem_ok -> client_reads -> has_header w.(w_conn) h -> (RBUFFER <= length a)%nat ->
  let mt := w.(w_conn).(strfile_stat).(st_mtime) in
  let tag := QUOTE ++ dec_s (to_s32 mt) ++ QUOTE in
  field_value (bs "If-None-Match") (h ++ CRLF) = Some tag ->
  check_etag a w
  = Some (if to_s32 mt =? mt
          then ((0, tag ++ 0 :: drop (S (length tag)) a),
                sent (set_status 304 w) (http_head w.(w_conn) 304 None None true mt))
          else ((1, tag ++ 0 :: drop (S (length tag)) a), w)).
Proof.
  intros Hm Hc Hh Ha mt tag Hf. unfold check_etag.
  rewrite (param_bind _ _ _ _ w h) by (done || (by split_and!; [|by_decision..]) || lia).
  pose proof (to_s_range 32 mt ltac:(lia)) as Hr.
  assert (length (dec_s (to_s32 mt)) <= 11)%nat as Ld
    by (apply dec_s_length; [change (10 ^ Z.of_nat 10) with 10000000000|]; lia).
  assert (length tag = 2 + length (dec_s (to_s32 mt)))%nat as Lt
    by (subst tag; unfold QUOTE; rewrite !length_app; cbn [length]; lia).
  rewrite (field_result_Some _ _ _ _ _ Hf) by (unfold RBUFFER; lia).
  set (rest := drop _ a). cbn beta iota.
  assert (cstr_at (tag ++ 0 :: rest) 1 = Some (dec_s (to_s32 mt) ++ QUOTE)) as E.
  { subst tag. rewrite <-(app_assoc QUOTE). apply cstr_at_app; [done|].
    unfold dec_s. rewrite not_elem_of_app. split; [|by_decision].
    destruct (Z.ltb_spec (to_s32 mt) 0);
      [apply not_elem_of_cons; split; [done|]|]; apply digits_not_in; unfold is_digit; lia. }
  rewrite (lift_bind_Some _ _ _ _ E). rewrite conn_bind.
  rewrite (strtol_dec 0 (to_s32 mt) QUOTE) by (by left || (unfold LONG_MIN, LONG_MAX; lia) || done).
  fold mt. rewrite Z.eqb_sym. destruct (Z.eqb_spec (to_s32 mt) mt) as [Heq|]; [|done].
  rewrite Heq.
  rewrite (bind_run _ _ _ _ _ (send_http_header_all 304 None None true mt w Hm Hc (not_modified_fits _ _))).
  done.
Qed.
End FileTheorems.

(** The file of the sample that holds "hello world", opened for a request. *)
Definition sample_get (header : bytes) : world sample_fs :=
  let w := sample_world (bs "/a") header [] in
  mkworld (set_strfile_stat (mkstat (S_IFREG + 420) 11 1000 1 1) w.(w_conn))
    w.(w_out) w.(w_read) w.(w_net) w.(w_fs).

Lemma sample_mem_ok : mem_ok.
Proof. done. Qed.

Lemma sample_client_reads : client_reads.
Proof. done. Qed.

Lemma sample_has_header h :
  0 ∉ h -> has_header (w_conn (sample_get (h ++ CRLF))) h.
Proof.
  intros H0. exists (bs "GET" ++ [0] ++ bs "/a" ++ [0]), []. split_and!; [|done|done].
  unfold sample_get, sample_world, sample_conn. cbn [w_conn set_strfile_stat req].
  by rewrite <-!app_assoc.
Qed.

Definition sample_range_header (x y : Z) : bytes :=
  bs "HTTP/1.1" ++ CRLF ++ bs "Range: " ++ range_value x y.

Lemma sample_range_request :
  range_request (sample_range_header 2 4) 2 4 /\ range_request (sample_range_header 7 4) 7 4
  /\ range_request (sample_range_header 2 40) 2 40.
Proof. split_and!; split; try reflexivity; unfold LONG_MAX; lia. Qed.

Lemma write_file_whole_witness :
  let w := sample_get (bs "HTTP/1.1" ++ CRLF) in
  let size := w.(w_conn).(strfile_stat).(st_size) in
  size = 11 /\ file_content w = bs "hello world"
  /\ write_file sample_conf w
     = Some (0, sent (set_status 200 w)
                  (file_response w 200 size (mime_part sample_conf w) ++ file_content w)).
Proof.
  split_and!; [done | done |].
  apply (write_file_whole sample_conf (sample_get (bs "HTTP/1.1" ++ CRLF)) (bs "HTTP/1.1"));
    [done | done | apply sample_has_header; by_decision | reflexivity | reflexivity | reflexivity
    | by_decision |].
  split_and!; [apply Nat.ltb_lt; reflexivity | by_decision | apply Nat.ltb_lt; reflexivity].
Defined.

Lemma write_file_range_witness :
  let w := sample_get (sample_range_header 2 4 ++ CRLF) in
  let slice := take (Z.to_nat (4 - 2 + 1)) (drop (Z.to_nat 2) (file_content w)) in
  let extra := range_text 2 4 w.(w_conn).(strfile_stat).(st_size) ++ mime_part sample_conf w in
  slice = bs "llo" /\ Z.of_nat (length slice) = 4 - 2 + 1
  /\ write_file sample_conf w
     = Some (0, sent (set_status 206 w) (file_response w 206 (Z.of_nat (length slice)) extra ++ slice)).
Proof.
  split; [done|].
  apply (write_file_range sample_conf (sample_get (sample_range_header 2 4 ++ CRLF))
           (sample_range_header 2 4) 2 4);
    [done | done | apply sample_has_header; by_decision | apply sample_range_request | reflexivity | reflexivity
    | by_decision | by_decision |].
  split_and!; [apply Nat.ltb_lt; reflexivity | by_decision | apply Nat.ltb_lt; reflexivity].
Defined.

Lemma write_file_range_refused_witness :
  write_file sample_conf (sample_get (sample_range_header 2 40 ++ CRLF))
  = Some (ERR_RANGE_NOT_SATISFIABLE, sample_get (sample_range_header 2 40 ++ CRLF)).
Proof.
  apply (write_file_range_refused sample_conf (sample_get (sample_range_header 2 40 ++ CRLF))
           (sample_range_header 2 40) 2 40);
    [done | done | apply sample_has_header; by_decision | apply sample_range_request | reflexivity | by_decision
    | right; by_decision].
Defined.

Lemma write_file_reversed_range_witness :
  let w := sample_get (sample_range_header 7 4 ++ CRLF) in
  let count := 2 ^ 64 - (7 - 4 - 1) in
  let extra := range_text 7 4 w.(w_conn).(strfile_stat).(st_size) ++ mime_part sample_conf w in
  write_file sample_conf w = Some (0, sent (set_status 206 w) (file_response w 206 count extra)).
Proof.
  apply (write_file_reversed_range sample_conf (sample_get (sample_range_header 7 4 ++ CRLF))
           (sample_range_header 7 4) 7 4);
    [done | done | apply sample_has_header; by_decision | apply sample_range_request | reflexivity
    | by_decision | by_decision |].
  split_and!; [apply Nat.ltb_lt; reflexivity | by_decision | apply Nat.ltb_lt; reflexivity].
Defined.

Lemma check_etag_own_tag_witness :
  let h := bs "HTTP/1.1" ++ CRLF ++ bs "If-None-Match: " ++ QUOTE ++ bs "1000" ++ QUOTE in
  let w := sample_get (h ++ CRLF) in
  let tag := QUOTE ++ bs "1000" ++ QUOTE in
  let a := replicate RBUFFER 0 in
  check_etag a w
  = Some (if to_s32 1000 =? 1000
          then ((0, tag ++ 0 :: drop (S (length tag)) a),
                sent (set_status 304 w) (http_head w.(w_conn) 304 None None true 1000))
          else ((1, tag ++ 0 :: drop (S (length tag)) a), w)).
Proof.
  apply (check_etag_own_tag (replicate RBUFFER 0)
    (sample_get ((bs "HTTP/1.1" ++ CRLF ++ bs "If-None-Match: " ++ QUOTE ++ bs "1000" ++ QUOTE) ++ CRLF))
    (bs "HTTP/1.1" ++ CRLF ++ bs "If-None-Match: " ++ QUOTE ++ bs "1000" ++ QUOTE));
    [done | done | apply sample_has_header; by_decision | apply Nat.leb_le; reflexivity | reflexivity].
Defined.
