(* ===== verification/Compression.v ===== *)
(** * Files sent through gzip (instance.c)

    [write_compressed_file], which is compiled when __COMPRESSION is switched on in
    options.h.in, and the [write_file] that calls it.  The program gzip is a
    parameter: from the name of a file what it prints, or nothing when no process
    can be made for it. *)
From S2P Require Export SendFile.

(** ** Definitions *)

Definition NO_ACTION : Z := -120.
Definition SIZE_COMPRESS_MIN : Z := 512.
Definition SIZE_COMPRESS_MAX : Z := 4000000000.

(** Whether the header of the request keeps the file from being compressed; the
    end of the line is a NUL while it is looked at. *)
Definition wants_gzip (m : bytes) (http_param : nat) : option (bool * bytes) :=
  accept ← strstr m http_param (bs "Accept-Encoding:");
  match accept with
  | None => Some (true, m)
  | Some accept =>
      e ← strstr m accept CRLF;
      match e with
      | None => Some (true, m)
      | Some e =>
          m ← store m e 0;
          gzip ← strstr m accept (bs "gzip");
          m ← store m e CR;
          Some (if gzip is Some _ then true else false, m)
      end
  end.

Section Compression.
Context {F : Type} `{Posix F}.
Context (conf : weborf_configuration_t).
Context (gzip : F -> bytes -> option bytes).

Definition write_compressed_file : M F Z :=
  c ← conn;
  let size := c.(strfile_stat).(st_size) in
  if negb ((SIZE_COMPRESS_MIN <? size) && (size <? SIZE_COMPRESS_MAX)) then mret NO_ACTION
  else
    '(z, m) ← lift (wants_gzip c.(req) c.(http_param));
    _ ← upd (set_req m);
    if negb z then mret NO_ACTION
    else
      _ ← upd (set_keep_alive false);
      _ ← send_http_header 200 (Some size) (Some (bs "Content-Encoding: gzip" ++ CRLF)) false c.(strfile_stat).(st_mtime);
      path ← lift (cstr_at c.(strfile) 0);
      fs ← get_fs;
      match gzip fs path with
      | None => mret ERR_NOMEM
      | Some out => _ ← sock_send out; mret 0
      end.

(** [write_file] with compression. *)
Definition write_file_compressing : M F Z :=
  '(r, a) ← check_etag (fresh ABUFFER);
  if r =? 0 then mret 0
  else
    z ← write_compressed_file;
    if negb (z =? NO_ACTION) then mret z
    else
      '(count, errcode, pos) ← bytes_to_send conf a;
      if negb (errcode =? 0) then mret errcode
      else
        c ← conn;
        fs ← get_fs;
        fd_copy (drop (Z.to_nat pos) (px_contents fs c.(strfile_fd))) (px_read_error fs c.(strfile_fd)) (to_s64 count).
End Compression.

(** ** Specification *)

(** What the text of a header says: gzip is named in the rest of the line that
    has the field, or there is no such line. *)
Definition gzip_wanted (h : bytes) : bool :=
  match find_sub (bs "Accept-Encoding:") h with
  | None => true
  | Some i =>
      match find_sub CRLF (drop i h) with
      | None => true
      | Some j => if find_sub (bs "gzip") (take j (drop i h)) is Some _ then true else false
      end
  end.

(** ** Lemmas *)

Lemma wants_gzip_run pre h post :
  0 ∉ h -> wants_gzip (pre ++ h ++ 0 :: post) (length pre) = Some (gzip_wanted h, pre ++ h ++ 0 :: post).
Proof.
  intros H0. unfold wants_gzip, gzip_wanted. rewrite strstr_app by done. cbn [mbind option_bind].
  destruct (find_sub (bs "Accept-Encoding:") h) as [i|] eqn:Ei; cbn [fmap option_fmap option_map]; [|done].
  pose proof (find_sub_bound _ _ _ Ei) as Hi. set (s := drop i h).
  assert (pre ++ h ++ 0 :: post = (pre ++ take i h) ++ s ++ 0 :: post) as Em
    by (subst s; by rewrite <-app_assoc, (app_assoc (take i h)), take_drop).
  assert (0 ∉ s) as Hs by (by apply not_elem_of_drop).
  assert (length pre + i = length (pre ++ take i h))%nat as Lp by (rewrite length_app, length_take; lia).
  rewrite Em, Lp. set (p := pre ++ take i h). rewrite strstr_app by done. cbn [mbind option_bind].
  destruct (find_sub CRLF s) as [j|] eqn:Ej; cbn [fmap option_fmap option_map]; [|done].
  pose proof (find_sub_Some _ _ _ Ej) as [Es _]. pose proof (find_sub_bound _ _ _ Ej) as Hj. cbn [length CRLF] in Hj.
  set (r := drop (j + length CRLF) s) in *. set (t := take j s) in *.
  assert (length t = j) as Lt by (subst t; rewrite length_take; lia). clearbody r t. rewrite Es in *.
  replace (p ++ (t ++ CRLF ++ r) ++ 0 :: post) with ((p ++ t) ++ CR :: LF :: r ++ 0 :: post) by (by rewrite <-!app_assoc).
  rewrite store_mid_eq by (rewrite length_app; lia). change (to_char 0) with 0. cbn [mbind option_bind].
  rewrite <-app_assoc, strstr_app by (done || set_solver). cbn [mbind option_bind].
  rewrite app_assoc, store_mid_eq by (rewrite length_app; lia). cbn [mbind option_bind].
  by destruct (find_sub (bs "gzip") t).
Qed.

(** ** Theorems *)

(** Whether a file is compressed depends on the text of the header alone, and
    the header is as it was afterwards. *)
Theorem wants_gzip_text pre h post :
  0 ∉ h -> wants_gzip (pre ++ h ++ 0 :: post) (length pre) = Some (gzip_wanted h, pre ++ h ++ 0 :: post).
Proof. apply wants_gzip_run. Qed.

Section CompressionTheorems.
Context {F : Type} `{Posix F}.
Context (gzip : F -> bytes -> option bytes).

(** A file of a size worth it, for a client that takes it, goes through gzip: the
    header names no length and announces the end of the connection, and the
    output of gzip follows it. *)
Theorem compressed_file_sent (w : world F) h f out :
  let c := w.(w_conn) in
  let head := http_head (set_keep_alive false c) 200 (Some c.(strfile_stat).(st_size))
                (Some (bs "Content-Encoding: gzip" ++ CRLF)) false c.(strfile_stat).(st_mtime) in
  mem_ok -> client_reads -> has_header c h -> gzip_wanted (h ++ CRLF) = true -> cstr_at c.(strfile) 0 = Some f ->
  SIZE_COMPRESS_MIN < c.(strfile_stat).(st_size) < SIZE_COMPRESS_MAX -> (length head < HEADBUF)%nat ->
  gzip w.(w_fs) f = Some out ->
  write_compressed_file gzip w
  = Some (0, mkworld (set_status_code 200 (set_keep_alive false c)) (w.(w_out) ++ head ++ out) w.(w_read) w.(w_net) w.(w_fs)).
Proof.
  intros c head Hm Hc (pre & post & Hr & Hp & H0) Hz Hf Hs Hl Hg. unfold write_compressed_file. rewrite conn_bind. cbv zeta. fold c.
  destruct (Z.ltb_spec SIZE_COMPRESS_MIN (st_size (strfile_stat c))); [|lia].
  destruct (Z.ltb_spec (st_size (strfile_stat c)) SIZE_COMPRESS_MAX); [|lia]. cbn [andb negb].
  rewrite Hr, Hp. pose proof (wants_gzip_run pre (h ++ CRLF) post) as E.
  rewrite (lift_bind_Some _ _ _ _ (E ltac:(apply not_elem_of_app; split; [done | by_decision]))). cbn beta iota. rewrite Hz. cbn [negb].
  unfold mbind at 1, M_bind at 1, upd at 1. unfold mbind at 1, M_bind at 1, upd at 1. cbn [w_conn].
  replace (set_req (pre ++ (h ++ CRLF) ++ 0 :: post) (w_conn w)) with c by (subst c; rewrite <-Hr; by destruct (w_conn w)).
  rewrite (bind_run _ _ _ _ _ (send_http_header_all 200 (Some (st_size (strfile_stat c)))
    (Some (bs "Content-Encoding: gzip" ++ CRLF)) false (st_mtime (strfile_stat c)) (mkworld (set_keep_alive false c) (w_out w) (w_read w) (w_net w) (w_fs w)) Hm Hc Hl)).
  rewrite (lift_bind_Some _ _ _ _ Hf), get_fs_bind. cbn [sent set_status w_fs w_conn w_out w_read w_net]. rewrite Hg.
  rewrite (bind_run _ _ _ _ _ (sock_send_all _ _ Hc)). rewrite mret_run. unfold sent. cbn [w_out w_conn w_read w_net w_fs].
  by rewrite <-app_assoc.
Qed.
End CompressionTheorems.

(** A client that does not say what it takes is sent gzip. *)
Example gzip_unasked : gzip_wanted (bs "HTTP/1.1" ++ CRLF ++ bs "Host: a" ++ CRLF) = true.
Proof. reflexivity. Qed.
