(* ===== verification/Request.v ===== *)
(** * Reading requests (instance.c)

    [read_header] is the reading loop of [handle_requests] and
    [parse_request] what follows it up to [send_page]: the method, the tokens
    of the request line, the properties of the connection and the decoded page.
    [read_post_data] reads a request body. *)
From S2P Require Export MyString SendFile.

(** ** Definitions *)

Definition dotdot_slash : bytes := bs "../".

Definition modURL (m : bytes) (url : option nat) (params : bool) : option bytes :=
  m ← replaceEscape m url;
  if params then Some m
  else match url with
       | None => None
       | Some url => strReplace m url dotdot_slash 0
       end.

(** The method whose name the request begins with; the names are tried in this
    order. *)
Definition methods : list (bytes * Z) :=
  [(bs "GET", GET); (bs "POST", POST); (bs "PUT", PUT); (bs "DELETE", DELETE);
   (bs "OPTIONS", OPTIONS); (bs "PROPFIND", PROPFIND); (bs "MKCOL", MKCOL);
   (bs "COPY", COPY); (bs "MOVE", MOVE)].

Fixpoint find_method (ms : list (bytes * Z)) (s : bytes) : option Z :=
  match ms with
  | [] => None
  | (name, id) :: ms => if starts_with name s then Some id else find_method ms s
  end.

(** How the reading of a header ends: the client is gone, the request is not
    acceptable, or the empty line is at [end_]. *)
Inductive header_outcome :=
  | HdrClosed
  | HdrBad
  | HdrEnd (end_ : nat).

(** [string_t]: the length, and the region [data] points to. *)
Record string_t := mkstring {
  sp_len : Z;
  sp_data : option bytes;
}.

Section Request.
Context {F : Type} `{Posix F}.
Context (conf : weborf_configuration_t).

(** Changes the memory of the request. *)
Definition upd_req (f : bytes -> option bytes) : M F unit :=
  c ← conn; m ← lift (f c.(req)); upd (set_req m).

(** The inner loop: [from] is where the search starts, [bufFull] the part of
    [buf] in use.  Returns the two as well. *)
Fixpoint read_header (fuel from bufFull : nat) : M F (header_outcome * nat * nat) :=
  match fuel with
  | O => lift None
  | S f =>
      c ← conn;
      e ← lift (strstr c.(req) from (CRLF ++ [CR]));
      match e with
      | Some end_ => mret (HdrEnd end_, from, bufFull)
      | None =>
          '(r, data) ← sock_read 2;
          if r <=? 0 then mret (HdrClosed, from, bufFull)
          else
            _ ← upd_req (fun m => write_at m bufFull data);
            c ← conn;
            x ← lift (load c.(req) bufFull);
            let from := if negb ((x =? LF) || (x =? CR)) then bufFull else from in
            let bufFull := (bufFull + Z.to_nat r)%nat in
            if (INBUFFER <=? bufFull)%nat then mret (HdrBad, from, bufFull)
            else read_header f from bufFull
      end
  end.

(** The last byte of the empty line, when it was not read yet, and the NUL that
    ends the header. *)
Definition end_header (end_ from bufFull : nat) : M F nat :=
  c ← conn;
  e ← lift (strstr c.(req) from (CRLF ++ CRLF));
  bufFull ← (match e with
             | Some _ => mret bufFull
             | None =>
                 '(r, data) ← sock_read 1;
                 _ ← upd_req (fun m => write_at m bufFull data);
                 mret (bufFull + Z.to_nat r)%nat
             end);
  _ ← upd_req (fun m => store m (end_ + 2) 0);
  mret bufFull.

Definition get_basedir (http_param : nat) : M F bytes :=
  if negb conf.(c_virtual_host) then mret conf.(c_basedir)
  else
    c ← conn;
    h ← lift (strstr c.(req) http_param (CRLF ++ bs "Host: "));
    match h with
    | None => mret conf.(c_basedir)
    | Some h =>
        let h := (h + 8)%nat in
        e ← lift (strstr c.(req) h [CR]);
        match e with
        | None => mret conf.(c_basedir)
        | Some e =>
            (* the NUL is replaced by the [\r] again after the call *)
            m ← lift (store c.(req) e 0);
            name ← lift (cstr_at m h);
            mret (default conf.(c_basedir) (px_getenv name))
        end
    end.

(** [strncmp(a, s, len) == 0] with [len] the length of [s]. *)
Definition begins_with (a : bytes) (s : bytes) : bool := starts_with s (cstr_prefix a).

Definition set_connection_props : M F unit :=
  '(connection, a) ← param (bs "Connection") (fresh 12) 12;
  c ← conn;
  p7 ← lift (load c.(req) (c.(http_param) + 7));
  p5 ← lift (if p7 =? chr "1" then load c.(req) (c.(http_param) + 5) else Some 0);
  _ ← (if (p7 =? chr "1") && (p5 =? chr "1") then
         _ ← upd (set_protocol_version HTTP_1_1);
         upd (set_keep_alive (negb (connection && begins_with a (bs "close"))))
       else
         _ ← upd (set_protocol_version (schar p7));
         upd (set_keep_alive (connection && begins_with a (bs "Keep"))));
  c ← conn;
  c ← lift (split_get_params c);
  _ ← upd (fun _ => c);
  _ ← upd_req (fun m => modURL m (Some c.(page)) false);
  _ ← upd_req (fun m => modURL m c.(get_params) true);
  b ← get_basedir c.(http_param);
  upd (set_basedir b).

(** From the complete header to the request; [false] is [goto bad_request]. *)
Definition parse_request : M F bool :=
  s ← cstring 0;
  match find_method methods s with
  | None => mret false
  | Some id =>
      _ ← upd (set_method_id id);
      c ← conn;
      '(m, method_, lasts) ← lift (strtok_r c.(req) 0 (bs " "));
      '(m, page_, lasts) ← lift (strtok_r m lasts (bs " "));
      _ ← upd (set_req m);
      match page_, method_ with
      | Some p, Some q =>
          _ ← upd (fun c => set_page p (set_method q c));
          _ ← upd (set_http_param lasts);
          _ ← set_connection_props;
          mret true
      | _, _ => mret false
      end
  end.

Definition read_post_data : M F string_t :=
  '(r, a) ← param (bs "Content-Length") (fresh NBUFFER) (Z.of_nat NBUFFER);
  if (r : bool) then
    s ← lift (cstr_at a 0);
    let l := strtol s 0 in
    if (l <=? POST_MAX_SIZE) && px_malloc (to_u64 l) then
      '(n, data) ← sock_read l;
      mret (mkstring n (Some (data ++ fresh (Z.to_nat l - length data))))
    else mret (mkstring 0 None)
  else mret (mkstring 0 None).
End Request.

(** ** Specifications *)

(** The line end that ends a header, as the reading loop looks for it. *)
Definition empty_line : bytes := CRLF ++ [CR].

(** Reading one request header: the position of its end and the part of [buf]
    in use, nothing when the client is gone or the request is not acceptable. *)
Definition read_request {F} `{Posix F} : M F (option (nat * nat)) :=
  '(o, from, n) ← read_header INBUFFER 0 0;
  match o with
  | HdrEnd e => n ← end_header e from n; mret (Some (e, n))
  | _ => mret None
  end.

(** [buf] with [d] at its beginning and zeros behind it. *)
Definition buf_with (d : bytes) : bytes := d ++ replicate (INBUFFER + 1 - length d) 0.

(** ** Lemmas: reading a header *)

Lemma buf_with_length d : (length d <= INBUFFER + 1)%nat -> length (buf_with d) = (INBUFFER + 1)%nat.
Proof. intros. unfold buf_with. rewrite length_app, length_replicate. lia. Qed.

Lemma buf_with_write d x :
  (length d + length x <= INBUFFER + 1)%nat ->
  write_at (buf_with d) (length d) x = Some (buf_with (d ++ x)).
Proof.
  intros Hl. unfold buf_with. rewrite length_app.
  replace (INBUFFER + 1 - length d)%nat
    with (length x + (INBUFFER + 1 - (length d + length x)))%nat by lia.
  rewrite replicate_add, write_at_mid by apply length_replicate. by rewrite <-app_assoc.
Qed.

(** The string from [from] on: up to a NUL, at the latest the one behind [d]. *)
Lemma buf_with_strstr d from needle :
  (from <= length d)%nat -> (length d < INBUFFER + 1)%nat ->
  strstr (buf_with d) from needle = Some (Nat.add from <$> find_sub needle (cstr_prefix (drop from d))).
Proof.
  intros Hf Hl. unfold strstr, buf_with.
  rewrite <-(take_drop from d) at 1. rewrite <-app_assoc.
  replace (INBUFFER + 1 - length d)%nat with (S (INBUFFER - length d)) by lia.
  replace (drop from d ++ replicate (S (INBUFFER - length d)) 0)
    with ((drop from d ++ [0]) ++ replicate (INBUFFER - length d) 0) by (by rewrite <-app_assoc).
  rewrite cstr_at_is_Some by (rewrite ?length_take; (lia || set_solver)).
  cbn [mbind option_bind]. do 3 f_equal.
  destruct (cstr_prefix_split (drop from d)) as [E | [t E]].
  - rewrite E. apply cstr_prefix_app. rewrite <-E. apply cstr_prefix_clean.
  - rewrite E at 1. rewrite <-app_assoc. apply cstr_prefix_app, cstr_prefix_clean.
Qed.

Lemma upd_req_run {F} (f : bytes -> option bytes) (w : world F) m :
  f w.(w_conn).(req) = Some m ->
  upd_req f w = Some (tt, reading w m w.(w_read) w.(w_net)).
Proof. intros E. unfold upd_req. rewrite conn_bind, (lift_bind_Some _ _ _ _ E). done. Qed.

Section ReadHeader.
Context {F : Type} `{Posix F}.

(** One turn of the reading loop that gets [x] from the client. *)
Lemma read_header_step fuel from (w : world F) d x b es :
  w.(w_conn).(req) = buf_with d -> (from <= length d)%nat -> (length d < INBUFFER)%nat ->
  find_sub empty_line (cstr_prefix (drop from d)) = None ->
  sock_read 2 w = Some ((Z.of_nat (length x), x), mkworld w.(w_conn) w.(w_out) b es w.(w_fs)) ->
  (0 < length x <= 2)%nat ->
  read_header (S fuel) from (length d) w
  = let from' := if negb ((hd 0 x =? LF) || (hd 0 x =? CR)) then length d else from in
    let w' := reading w (buf_with (d ++ x)) b es in
    if (INBUFFER <=? length (d ++ x))%nat then Some ((HdrBad, from', length (d ++ x)), w')
    else read_header fuel from' (length (d ++ x)) w'.
Proof.
  intros Hr Hf Hd He Hs Hx. cbn [read_header]. rewrite conn_bind, Hr.
  rewrite (lift_bind_Some _ _ _ _ (buf_with_strstr d from _ Hf ltac:(lia))).
  unfold empty_line in He. rewrite He. cbn [fmap option_fmap option_map].
  rewrite (bind_run _ _ _ _ _ Hs). cbn beta iota.
  destruct (Z.leb_spec (Z.of_nat (length x)) 0); [lia|].
  assert (upd_req (fun m => write_at m (length d) x) (mkworld w.(w_conn) w.(w_out) b es w.(w_fs))
          = Some (tt, reading w (buf_with (d ++ x)) b es)) as E.
  { rewrite (upd_req_run _ _ (buf_with (d ++ x))); [done|]. cbn [w_conn]. rewrite Hr.
    apply buf_with_write. lia. }
  rewrite (bind_run _ _ _ _ _ E). clear E. rewrite conn_bind. cbn [reading w_conn set_req req].
  destruct x as [|y x]; [simpl in *; lia|].
  rewrite (lift_bind_Some _ y) by (unfold load, buf_with; rewrite <-app_assoc; apply lookup_mid).
  cbn [hd]. cbv zeta. rewrite Nat2Z.id. rewrite (length_app d).
  by destruct (INBUFFER <=? length d + length (y :: x))%nat.
Qed.

Lemma reading_same (w : world F) d b es :
  w.(w_conn).(req) = d -> mkworld w.(w_conn) w.(w_out) b es w.(w_fs) = reading w d b es.
Proof. intros <-. unfold reading. f_equal. by destruct (w_conn w). Qed.

Lemma cstr_prefix_app_rest l : exists t, l = cstr_prefix l ++ t.
Proof.
  destruct (cstr_prefix_split l) as [E | [t E]]; [exists [] | by exists (0 :: t)].
  by rewrite E, app_nil_r.
Qed.

(** What holds of the result of the reading loop for [d] received bytes. *)
Definition header_result (o : header_outcome) (d : bytes) : Prop :=
  match o with
  | HdrEnd e => (length d < INBUFFER)%nat /\ starts_with empty_line (drop e d) = true
  | HdrBad => (INBUFFER <= length d <= INBUFFER + 1)%nat
  | HdrClosed => (length d < INBUFFER)%nat
  end.

Lemma read_header_total fuel : forall d from (w : world F),
  buf_wf w.(w_read) -> w.(w_conn).(req) = buf_with d ->
  (from <= length d)%nat -> (length d < INBUFFER)%nat -> (INBUFFER <= fuel + length d)%nat ->
  exists o from' d' b es,
    read_header fuel from (length d) w = Some ((o, from', length d'), reading w (buf_with d') b es)
    /\ buf_wf b /\ (from' <= length d')%nat /\ header_result o d'.
Proof.
  induction fuel as [|f IH]; intros d from w Hwf Hr Hf Hd Hfuel; [lia|].
  destruct (find_sub empty_line (cstr_prefix (drop from d))) as [i|] eqn:Ei.
  - exists (HdrEnd (from + i)), from, d, w.(w_read), w.(w_net).
    cbn [read_header]. rewrite conn_bind, Hr.
    rewrite (lift_bind_Some _ _ _ _ (buf_with_strstr d from _ Hf ltac:(lia))).
    unfold empty_line in Ei. rewrite Ei. cbn [fmap option_fmap option_map].
    rewrite mret_run, <-(reading_same w) by done. cbn [header_result]. split_and!; [by destruct w | done | done | done |].
    destruct (cstr_prefix_app_rest (drop from d)) as [t Et].
    pose proof (find_sub_bound _ _ _ Ei). rewrite <-drop_drop, Et, drop_app_le by lia.
    by apply starts_with_app_l, find_sub_at.
  - destruct (sock_read_run 2 w Hwf ltac:(lia)) as (x & b & es & Hs & Hx & Hb & _).
    assert (length x <= 2)%nat by (subst x; rewrite length_take; lia).
    destruct (decide (length x = 0%nat)) as [Hx0|Hx0].
    + exists HdrClosed, from, d, b, es. cbn [read_header]. rewrite conn_bind, Hr.
      rewrite (lift_bind_Some _ _ _ _ (buf_with_strstr d from _ Hf ltac:(lia))).
      unfold empty_line in Ei. rewrite Ei. cbn [fmap option_fmap option_map].
      rewrite (bind_run _ _ _ _ _ Hs). cbn beta iota.
      destruct (Z.leb_spec (Z.of_nat (length x)) 0); [|lia].
      rewrite mret_run, (reading_same w (buf_with d)) by done. done.
    + rewrite (read_header_step f from w d x b es) by (done || lia). cbv zeta.
      set (from' := if negb _ then _ else _).
      assert (from' <= length d)%nat as Hf' by (subst from'; destruct (negb _); lia).
      pose proof (length_app d x) as Ldx.
      destruct (Nat.leb_spec INBUFFER (length (d ++ x))).
      * exists HdrBad, from', (d ++ x), b, es. split_and!; [done | done | lia | cbn [header_result]; lia].
      * destruct (IH (d ++ x) from' (reading w (buf_with (d ++ x)) b es))
          as (o & from2 & d' & b' & es' & E & R); [done | done | lia.. |].
        exists o, from2, d', b', es'. by rewrite E.
Qed.

(** A complete header: [h], the end of its last line and the empty line, which
    is the first thing in it that looks like one. *)
Definition complete_header (h : bytes) : Prop :=
  0 ∉ h /\ find_sub empty_line (h ++ CRLF ++ CRLF) = Some (length h)
  /\ (length h + 4 < INBUFFER)%nat.

Lemma complete_header_clean h : complete_header h -> 0 ∉ h ++ CRLF ++ CRLF.
Proof.
  intros (H0 & _). rewrite !not_elem_of_app. split_and!; [done | by_decision..].
Qed.

(** What the search of the loop finds when [n] bytes of the header are there. *)
Lemma header_search h n from needle :
  complete_header h -> (from <= length h)%nat -> needle <> [] ->
  find_sub needle (h ++ CRLF ++ CRLF) = Some (length h) ->
  find_sub needle (cstr_prefix (drop from (take n (h ++ CRLF ++ CRLF))))
  = if (length h + length needle <=? n)%nat then Some (length h - from)%nat else None.
Proof.
  intros Hh Hf Hn E. rewrite cstr_prefix_nonul
    by (by apply not_elem_of_drop, not_elem_of_take, complete_header_clean).
  by apply find_sub_window.
Qed.

Lemma header_next_byte h n :
  (length h <= n < length h + 3)%nat ->
  exists c, hd 0 (drop n (h ++ CRLF ++ CRLF)) = c /\ (c = LF \/ c = CR).
Proof.
  intros Hn. rewrite drop_app_ge by lia.
  assert (n - length h = 0 \/ n - length h = 1 \/ n - length h = 2)%nat as [-> | [-> | ->]] by lia;
    eexists; (split; [reflexivity|]); auto.
Qed.

Lemma read_header_finds h rest fuel : forall n from (w : world F),
  complete_header h -> buf_wf w.(w_read) ->
  w.(w_conn).(req) = buf_with (take n (h ++ CRLF ++ CRLF)) ->
  pending w = drop n ((h ++ CRLF ++ CRLF) ++ rest) ->
  (from <= length h)%nat -> (from <= n <= length h + 4)%nat -> (INBUFFER <= fuel + n)%nat ->
  exists from' n' b es,
    read_header fuel from n w
    = Some ((HdrEnd (length h), from', n'), reading w (buf_with (take n' (h ++ CRLF ++ CRLF))) b es)
    /\ buf_wf b /\ buffered b ++ stream es = drop n' ((h ++ CRLF ++ CRLF) ++ rest)
    /\ (length h + 3 <= n' <= length h + 4)%nat /\ (from' <= length h)%nat.
Proof.
  induction fuel as [|f IH]; intros n from w Hh Hwf Hr Hp Hf Hn Hfuel; pose proof Hh as (_ & He & Hlen);
    [lia|].
  set (s := h ++ CRLF ++ CRLF) in *.
  assert (length s = length h + 4)%nat as Ls
    by (subst s; unfold CRLF; rewrite !length_app; cbn [length]; lia).
  assert (length (take n s) = n) as Ln by (rewrite length_take; lia).
  pose proof (header_search h n from empty_line Hh Hf ltac:(done) He) as Es. fold s in Es.
  change (length empty_line) with 3%nat in Es.
  destruct (Nat.leb_spec (length h + 3) n).
  - exists from, n, w.(w_read), w.(w_net). cbn [read_header]. rewrite conn_bind, Hr.
    rewrite (lift_bind_Some _ _ _ _ (buf_with_strstr (take n s) from _ ltac:(lia) ltac:(lia))).
    unfold empty_line in Es. rewrite Es. cbn [fmap option_fmap option_map].
    rewrite mret_run, <-(reading_same w) by done.
    replace (from + (length h - from))%nat with (length h) by lia.
    split_and!; [by destruct w | done | done | lia..].
  - destruct (sock_read_run 2 w Hwf ltac:(lia)) as (x & b & es & Hs & Hx & Hb & Hrest).
    rewrite Hp in Hx, Hrest.
    assert (x = take 2 (drop n s)) as Hx'.
    { rewrite Hx. rewrite drop_app_le by lia. apply take_app_le. rewrite length_drop. lia. }
    assert (length x = 2%nat) as Lx by (rewrite Hx', length_take, length_drop; lia).
    replace (read_header (S f) from n w) with (read_header (S f) from (length (take n s)) w) by (by rewrite Ln).
    rewrite (read_header_step f from w (take n s) x b es) by (done || lia). cbv zeta. rewrite Ln.
    assert (take n s ++ x = take (n + 2) s) as -> by (by rewrite take_add, Hx').
    assert (length (take (n + 2) s) = n + 2)%nat as -> by (rewrite length_take; lia).
    destruct (Nat.leb_spec INBUFFER (n + 2)); [lia|].
    set (from' := if negb _ then _ else _).
    assert (from' <= length h /\ from' <= n)%nat as [Hf1 Hf2].
    { subst from'. destruct (negb _) eqn:Eb; [|lia]. split; [|lia].
      destruct (decide (n <= length h)%nat); [done|].
      destruct (header_next_byte h n ltac:(lia)) as (c & Hc & Hc'). fold s in Hc.
      assert (hd 0 x = c) as Ex by (rewrite Hx', <-Hc; by destruct (drop n s)).
      rewrite Ex in Eb. by destruct Hc' as [-> | ->]. }
    destruct (IH (n + 2)%nat from' (reading w (buf_with (take (n + 2) s)) b es))
      as (from2 & n' & b' & es' & E & R); [done | done | done | | lia.. |].
    + unfold pending. cbn [reading w_read w_net]. rewrite Hrest, drop_drop; [done|].
      rewrite length_drop, length_app. lia.
    + exists from2, n', b', es'. by rewrite E.
Qed.
(** The search for the whole empty line agrees. *)
Lemma complete_header_crlf h :
  complete_header h -> find_sub (CRLF ++ CRLF) (h ++ CRLF ++ CRLF) = Some (length h).
Proof.
  intros (_ & He & _). apply find_sub_first.
  - rewrite length_app. lia.
  - by rewrite drop_app_length.
  - intros j Hj. apply find_sub_Some in He as [_ He]. specialize (He j Hj).
    destruct (starts_with (CRLF ++ CRLF) _) eqn:E; [|done].
    apply starts_with_spec in E as [t E]. rewrite E in He.
    change (CRLF ++ CRLF) with (empty_line ++ [LF]) in He.
    by rewrite <-app_assoc, starts_with_app in He.
Qed.

(** The memory of a request whose header [h] is complete. *)
Definition header_buf (h : bytes) : bytes :=
  (h ++ CRLF) ++ 0 :: LF :: replicate (INBUFFER + 1 - (length h + 4)) 0.

Lemma header_buf_store h :
  store (buf_with (h ++ CRLF ++ CRLF)) (length h + 2) 0 = Some (header_buf h).
Proof.
  unfold buf_with, header_buf.
  assert (length (h ++ CRLF ++ CRLF) = length h + 4)%nat as -> by (rewrite !length_app; done).
  rewrite app_assoc, <-(app_assoc (h ++ CRLF)). cbn [CRLF app].
  rewrite store_mid_eq; [done|]. by rewrite length_app.
Qed.

Lemma end_header_run h rest n from (w : world F) :
  complete_header h -> buf_wf w.(w_read) ->
  w.(w_conn).(req) = buf_with (take n (h ++ CRLF ++ CRLF)) ->
  pending w = drop n ((h ++ CRLF ++ CRLF) ++ rest) ->
  (length h + 3 <= n <= length h + 4)%nat -> (from <= length h)%nat ->
  exists b es,
    end_header (length h) from n w
    = Some ((length h + 4)%nat, reading w (header_buf h) b es)
    /\ buf_wf b /\ buffered b ++ stream es = rest.
Proof.
  intros Hh Hwf Hr Hp Hn Hf. pose proof Hh as (_ & _ & Hlen). unfold end_header.
  set (s := h ++ CRLF ++ CRLF) in *.
  assert (length s = length h + 4)%nat as Ls by (subst s; rewrite !length_app; done).
  assert (length (take n s) = n) as Ln by (rewrite length_take; lia).
  rewrite conn_bind, Hr.
  rewrite (lift_bind_Some _ _ _ _ (buf_with_strstr (take n s) from _ ltac:(lia) ltac:(lia))).
  pose proof (header_search h n from (CRLF ++ CRLF) Hh Hf ltac:(done) (complete_header_crlf h Hh)) as Es.
  fold s in Es. rewrite Es. clear Es. change (length (CRLF ++ CRLF)) with 4%nat.
  destruct (Nat.leb_spec (length h + 4) n).
  - cbn [fmap option_fmap option_map]. rewrite mret_bind.
    rewrite (bind_run _ _ _ _ _ (upd_req_run (fun m => store m (length h + 2) 0) w (header_buf h)
      ltac:(rewrite Hr, take_ge by lia; apply header_buf_store))).
    exists w.(w_read), w.(w_net). rewrite mret_run. split_and!; [do 2 f_equal; lia | done |].
    unfold pending in Hp. rewrite Hp, drop_app_length' by lia. done.
  - cbn [fmap option_fmap option_map].
    destruct (sock_read_run 1 w Hwf ltac:(lia)) as (x & b & es & Hs & Hx & Hb & Hrest).
    rewrite Hp in Hx, Hrest. replace n with (length h + 3)%nat in * by lia.
    assert (x = [LF]) as Ex.
    { rewrite Hx. change (Z.to_nat 1) with 1%nat. rewrite drop_app_le by lia. subst s.
      rewrite drop_app_ge by lia. by replace (length h + 3 - length h)%nat with 3%nat by lia. }
    assert (upd_req (fun m => write_at m (length h + 3) x) (mkworld w.(w_conn) w.(w_out) b es w.(w_fs))
            = Some (tt, reading w (buf_with s) b es)) as E1.
    { rewrite (upd_req_run _ _ (buf_with s)); [done|]. cbn [w_conn]. rewrite Hr, Ex.
      pose proof (buf_with_write (take (length h + 3) s) [LF]) as Ew. rewrite Ln in Ew.
      rewrite Ew by (cbn [length]; lia). do 2 f_equal. subst s.
      rewrite take_app_ge, Nat.add_comm, Nat.add_sub by lia. by rewrite <-app_assoc. }
    rewrite (bind_run _ _ w (length h + 4)%nat (reading w (buf_with s) b es)).
    2:{ rewrite (bind_run _ _ _ _ _ Hs). cbn beta iota. rewrite (bind_run _ _ _ _ _ E1), mret_run.
        rewrite Ex. do 2 f_equal. cbn [length]. lia. }
    rewrite (bind_run _ _ _ _ _ (upd_req_run (fun m => store m (length h + 2) 0) (reading w (buf_with s) b es) (header_buf h)
      (header_buf_store h))).
    exists b, es. rewrite mret_run. split_and!; [done | done |].
    rewrite Hrest, drop_drop by (rewrite length_drop, length_app; lia).
    rewrite drop_app_length'; [done | lia].
Qed.
End ReadHeader.

(** ** Specifications: the page *)

(** The page that [modURL] leaves of the text [s] of the request line. *)
Definition clean_page (s : bytes) : bytes := cut_at dotdot_slash (cstr_prefix (unescape s)).

(** The components of a path: the pieces between the slashes. *)
Fixpoint components (s : bytes) : list bytes :=
  match s with
  | [] => [[]]
  | c :: r =>
      if c =? chr "/" then [] :: components r
      else match components r with
           | [] => [[c]]
           | x :: xs => (c :: x) :: xs
           end
  end.

(** ** Lemmas: the page *)

Lemma components_nonempty s : components s <> [].
Proof. destruct s as [|c r]; simpl; [done|]. destruct (c =? 47); [done|]. by destruct (components r). Qed.

(** Every component but the last is followed by a slash. *)
Lemma components_head r x y xs :
  components r = x :: y :: xs -> starts_with (x ++ bs "/") r = true.
Proof.
  revert x y xs. induction r as [|c r IH]; intros x y xs; simpl; [done|].
  destruct (Z.eqb_spec c 47) as [->|]; [by intros [= <- _]|].
  destruct (components r) as [|x' [|y' xs']] eqn:E; [done | done |].
  intros [= <- <- <-]. simpl. rewrite Z.eqb_refl. simpl. by eapply IH.
Qed.

Lemma components_contains s x :
  x ∈ removelast (components s) -> contains (x ++ bs "/") s.
Proof.
  induction s as [|c r IH]; simpl; [by intros ?%elem_of_nil|].
  pose proof (components_nonempty r) as Hne.
  destruct (components r) as [|y ys] eqn:E; [done|].
  destruct (Z.eqb_spec c 47) as [->|Hc].
  - rewrite contains_cons. cbn [removelast]. rewrite elem_of_cons.
    intros [-> | Hin]; [by left | right; by apply IH].
  - destruct ys as [|z zs]; simpl; [by intros ?%elem_of_nil|].
    rewrite elem_of_cons, contains_cons. intros [-> | Hin].
    + left. simpl. rewrite Z.eqb_refl. simpl. by apply components_head in E.
    + right. apply IH. cbn [removelast]. apply elem_of_cons. by right.
Qed.

Lemma clean_page_clean u : 0 ∉ clean_page u.
Proof.
  unfold clean_page. intros Hin. apply (cstr_prefix_clean (unescape u)).
  unfold cut_at in Hin. destruct (find_sub _ _); [by eapply elem_of_take in Hin as (? & ? & _); eapply list_elem_of_lookup_2 | done].
Qed.

Lemma modURL_run pre s post :
  0 ∉ s -> post <> [] ->
  exists stale,
    modURL (pre ++ s ++ 0 :: post) (Some (length pre)) false
    = Some (pre ++ clean_page s ++ 0 :: stale ++ post)
    /\ (length (clean_page s) + length stale = length s)%nat.
Proof.
  intros H0 Hp. unfold modURL, replaceEscape.
  destruct (replaceEscape_run (S (length (pre ++ s ++ 0 :: post))) pre s post (length pre))
    as (st & E & L); [done | rewrite !length_app; lia | done | done |].
  rewrite E. cbn [mbind option_bind]. set (u := unescape s) in *.
  assert (exists t, u ++ 0 :: st ++ post = cstr_prefix u ++ 0 :: t ++ post
                    /\ (length (cstr_prefix u) + length t = length s)%nat) as (t & Et & Lt).
  { destruct (cstr_prefix_split u) as [Eu | [t Eu]].
    - exists st. by rewrite Eu.
    - exists (t ++ 0 :: st). rewrite Eu at 1. rewrite <-!app_assoc. cbn [app]. split; [done|].
      rewrite length_app, length_cons. apply (f_equal length) in Eu.
      rewrite length_app, length_cons in Eu. lia. }
  rewrite Et. unfold strReplace, clean_page. fold u.
  destruct (strReplace_nul_run (S (length (pre ++ cstr_prefix u ++ 0 :: t ++ post))) pre (cstr_prefix u)
              (t ++ post) (length pre) dotdot_slash) as (st2 & E2 & L2);
    [done | rewrite !length_app; cbn [length]; lia | apply cstr_prefix_clean | done | by_decision |].
  exists (st2 ++ t). rewrite E2. split; [by rewrite <-app_assoc|]. rewrite length_app. lia.
Qed.

(** ** Theorems *)

Section RequestTheorems.
Context {F : Type} `{Posix F}.

(** Whatever the network does, reading a header ends within [INBUFFER]
    turns and stays inside the buffer of [INBUFFER + 1] bytes: the client
    is gone, or the request is refused because it does not fit, or an empty line was
    found among the bytes received, whose last position still holds a NUL. *)
Theorem read_header_safe (w : world F) :
  buf_wf w.(w_read) -> w.(w_conn).(req) = replicate (INBUFFER + 1) 0 ->
  exists o from d b es,
    read_header INBUFFER 0 0 w = Some ((o, from, length d), reading w (buf_with d) b es)
    /\ buf_wf b /\ (length (buf_with d) = INBUFFER + 1)%nat /\ header_result o d.
Proof.
  intros Hwf Hr.
  assert (req (w_conn w) = buf_with []) as Hr' by (by rewrite Hr).
  destruct (read_header_total INBUFFER [] 0 w Hwf Hr' ltac:(done) ltac:(unfold INBUFFER; simpl; lia)
              ltac:(lia)) as (o & from & d & b & es & E & Hb & Hf & Hres).
  exists o, from, d, b, es. split_and!; [done | done | | done].
  apply buf_with_length. destruct o; cbn [header_result] in Hres; lia.
Qed.

(** A request header that fits is read exactly: nothing is lost of it,
    the end is found where it is, whatever the pieces it arrives in, a NUL
    is put behind its last line, and no byte of the request that may follow
    (a pipelined one, or a body) is consumed.  The search that starts in the
    middle of the buffer finds what a search of the whole would. *)
Theorem read_request_exact h rest (w : world F) :
  complete_header h -> buf_wf w.(w_read) -> w.(w_conn).(req) = replicate (INBUFFER + 1) 0 ->
  pending w = h ++ CRLF ++ CRLF ++ rest ->
  exists b es,
    read_request w = Some (Some (length h, length h + 4)%nat, reading w (header_buf h) b es)
    /\ buf_wf b /\ buffered b ++ stream es = rest.
Proof.
  intros Hh Hwf Hr Hp. unfold read_request.
  destruct (read_header_finds h rest INBUFFER 0 0 w) as (from & n & b & es & E & Hb & Hrest & Hn & Hf);
    [done | done | by rewrite Hr | by rewrite Hp, drop_0, <-!app_assoc | lia | lia | lia |].
  rewrite (bind_run _ _ _ _ _ E). cbn beta iota.
  destruct (end_header_run h rest n from (reading w (buf_with (take n (h ++ CRLF ++ CRLF))) b es))
    as (b' & es' & E2 & R); [done | done | done | done | lia | lia |].
  rewrite (bind_run _ _ _ _ _ E2). exists b', es'. done.
Qed.
End RequestTheorems.

(** C10: decoding and cleaning the page stays inside the memory of the request
    and never lets the page name a parent directory with a slash behind it:
    there is no "../" in it, in particular none that was written with escapes
    or is uncovered by them, and no component but possibly the last is "..". *)
Theorem modURL_confines pre s post :
  0 ∉ s -> post <> [] ->
  exists p stale,
    modURL (pre ++ s ++ 0 :: post) (Some (length pre)) false = Some (pre ++ p ++ 0 :: stale ++ post)
    /\ p = cut_at dotdot_slash (cstr_prefix (unescape s))
    /\ (length p + length stale = length s)%nat
    /\ ~ contains dotdot_slash p /\ bs ".." ∉ removelast (components p).
Proof.
  intros H0 Hp. destruct (modURL_run pre s post H0 Hp) as (stale & E & L).
  assert (~ contains dotdot_slash (clean_page s)) as Hc by (by apply cut_at_clean).
  exists (clean_page s), stale. split_and!; [done..|].
  intros Hin. apply Hc. by apply components_contains in Hin.
Qed.

(** The last component is not looked at. *)
Example modURL_last_component :
  modURL (bs "/a/.." ++ [0; 0]) (Some 0%nat) false = Some (bs "/a/.." ++ [0; 0]).
Proof. reflexivity. Qed.

(** ** Witnesses *)

Definition sample_input (data : bytes) : world sample_fs :=
  let w := sample_world [] [] [NetData (take 5 data); NetData (drop 5 data); NetTimeout] in
  mkworld (set_req (replicate (INBUFFER + 1) 0) w.(w_conn)) w.(w_out) w.(w_read) w.(w_net) w.(w_fs).

Lemma sample_buf_wf data : buf_wf (w_read (sample_input data)).
Proof. unfold buf_wf. simpl. lia. Qed.

Lemma read_header_safe_witness :
  exists o from d b es,
    read_header INBUFFER 0 0 (sample_input (bs "GET"))
    = Some ((o, from, length d), reading (sample_input (bs "GET")) (buf_with d) b es)
    /\ buf_wf b /\ (length (buf_with d) = INBUFFER + 1)%nat /\ header_result o d.
Proof. apply (read_header_safe (sample_input (bs "GET"))); [apply sample_buf_wf | reflexivity]. Defined.

Lemma read_request_exact_witness :
  let h := bs "GET /a HTTP/1.1" in
  let w := sample_input (h ++ CRLF ++ CRLF ++ bs "PUT") in
  exists b es,
    read_request w = Some (Some (length h, length h + 4)%nat, reading w (header_buf h) b es)
    /\ buf_wf b /\ buffered b ++ stream es = bs "PUT".
Proof.
  apply (read_request_exact (bs "GET /a HTTP/1.1") (bs "PUT")
           (sample_input (bs "GET /a HTTP/1.1" ++ CRLF ++ CRLF ++ bs "PUT")));
    [|apply sample_buf_wf | reflexivity | reflexivity].
  split_and!; [by_decision | reflexivity | apply Nat.ltb_lt; reflexivity].
Defined.

Lemma modURL_confines_witness :
  exists p stale,
    modURL (bs "GET " ++ bs "/x/%2e%2e/y" ++ 0 :: [0]) (Some 4%nat) false
    = Some (bs "GET " ++ p ++ 0 :: stale ++ [0])
    /\ p = cut_at dotdot_slash (cstr_prefix (unescape (bs "/x/%2e%2e/y")))
    /\ (length p + length stale = 11)%nat
    /\ ~ contains dotdot_slash p /\ bs ".." ∉ removelast (components p).
Proof.
  apply (modURL_confines (bs "GET ") (bs "/x/%2e%2e/y") [0]); [by_decision | done].
Defined.
