(* ===== verification/Auth.v ===== *)
(** * Authentication (auth.c)

    [auth_check_request] extracts the credentials of a request and asks the
    authentication program behind the Unix socket; anything but a complete
    exchange that it ends without output is a refusal. *)
From S2P Require Export Base64 Request.

(** ** Definitions *)

(** The outcome of [auth_set_socket]: the new setting, or [exit(5)]. *)
Definition auth_set_socket (st : option stat_t) (u_socket : bytes)
    (conf : weborf_configuration_t) : option weborf_configuration_t :=
  match st with
  | None => None
  | Some sb =>
      if negb (Z.land sb.(st_mode) S_IFMT =? S_IFSOCK) then None
      else Some (mkconf conf.(c_basedir) (Some u_socket) conf.(c_uid) conf.(c_gid)
                   conf.(c_send_content_type) conf.(c_is_inetd) conf.(c_cgi_paths)
                   conf.(c_virtual_host) conf.(c_exec_script) conf.(c_tar_directory)
                   conf.(c_daemonize) conf.(c_ip) conf.(c_port) conf.(c_indexes))
  end.

Definition basic_field : bytes := bs "Authorization: Basic ".

(** What is written to the authentication program. *)
Definition auth_message (page ip method username password header : bytes) : bytes :=
  page ++ CRLF ++ ip ++ CRLF ++ method ++ CRLF ++ username ++ CRLF ++ password ++ CRLF
  ++ header ++ CRLF.

(** Credentials of a request: an early return, or user name and password. *)
Definition credentials : Type := Z + bytes * bytes.

(** The room for a path in the address of a Unix socket, and whether the
    configured socket fits there, its NUL included. *)
Definition SUN_PATH : nat := 108.

Definition socket_fits (conf : weborf_configuration_t) : Prop :=
  forall sock, conf.(c_authsock) = Some sock -> (length sock < SUN_PATH)%nat.

Section Auth.
Context {F : Type} `{Posix F}.
Context (conf : weborf_configuration_t).

Definition auth_credentials : M F credentials :=
  c ← conn;
  auth ← lift (strstr c.(req) c.(http_param) basic_field);
  match auth with
  | None => mret (inr ([], []))
  | Some auth =>
      auth_end ← lift (strstr c.(req) auth CRLF);
      match auth_end with
      | None => mret (inl (-1))
      | Some auth_end =>
          let auth := (auth + 21)%nat in
          let n := Z.of_nat auth_end - Z.of_nat auth in
          if n + 1 <? Z.of_nat (PWDLIMIT * 2) then
            enc ← lift (load_n c.(req) auth (Z.to_nat n));
            a ← lift (write_at (fresh (PWDLIMIT * 2)) 0 enc);
            a ← lift (store a (Z.to_nat n) 0);
            username ← lift (decode64 (fresh (PWDLIMIT * 2)) 0 a 0);
            sep ← lift (strstr username 0 (bs ":"));
            match sep with
            | None => mret (inl (-1))
            | Some sep =>
                username ← lift (store username sep 0);
                u ← lift (cstr_at username 0);
                p ← lift (cstr_at username (sep + 1));
                mret (inr (u, p))
            end
          else mret (inl ERR_NOMEM)
      end
  end.

(** Size of the message buffer. *)
Definition AUTHBUF : nat := HEADBUF + PWDLIMIT * 2.

Definition auth_check_request : M F Z :=
  match conf.(c_authsock) with
  | None => mret 0
  | Some sock =>
      cr ← auth_credentials;
      match cr with
      | inl err => mret err
      | inr (username, password) =>
          _ ← lift (write_at (fresh SUN_PATH) 0 (sock ++ [0]));
          if negb px_auth_connect then mret (-1)
          else if negb (px_malloc (Z.of_nat AUTHBUF)) then mret (-1)
          else
            c ← conn;
            page ← cstring c.(page);
            method ← cstring c.(method);
            header ← cstring c.(http_param);
            '(auth_str, auth_str_l) ← lift (snprintf (fresh AUTHBUF) 0 AUTHBUF
              (auth_message page c.(ip_addr) method username password header));
            msg ← lift (load_n auth_str 0 (Z.to_nat auth_str_l));
            mret (if (px_auth_write msg =? auth_str_l) && (px_auth_read msg =? 0) then 0 else -1)
      end
  end.
End Auth.

(** ** Lemmas *)

Section AuthLemmas.
Context {F : Type} `{Posix F}.
Context (conf : weborf_configuration_t).

Lemma auth_credentials_keeps {B} (view : world F -> B) : keeps view auth_credentials.
Proof. unfold auth_credentials. keeps. Qed.

Lemma auth_check_request_keeps {B} (view : world F -> B) : keeps view (auth_check_request conf).
Proof. pose proof (@auth_credentials_keeps B view). unfold auth_check_request. keeps. Qed.
End AuthLemmas.

#[export] Hint Resolve auth_check_request_keeps : keeps.

(** ** Lemmas: credentials *)

Lemma find_sub_crlf x r : CR ∉ x -> find_sub CRLF (x ++ CRLF ++ r) = Some (length x).
Proof.
  intros H. apply find_sub_app_first. intros j Hj.
  destruct (lookup_lt_is_Some_2 x j Hj) as [c Hc].
  rewrite (drop_S _ c) by (by rewrite lookup_app_l).
  assert (c <> CR) by (intros ->; by apply list_elem_of_lookup_2 in Hc).
  unfold CRLF, CR in *. cbn [starts_with]. by destruct (Z.eqb_spec 13 c).
Qed.

(** The credentials of the text [u:p], decoded into the buffer for user names. *)
Lemma decode_credentials {F} `{Posix F} u p a :
  Forall is_byte (u ++ bs ":" ++ p) -> 0 ∉ u ++ bs ":" ++ p ->
  (length (b64_encode (u ++ bs ":" ++ p)) + 1 < PWDLIMIT * 2)%nat ->
  let enc := b64_encode (u ++ bs ":" ++ p) in
  exists post, decode64 (fresh (PWDLIMIT * 2)) 0 (enc ++ 0 :: a) 0
               = Some ((u ++ bs ":" ++ p) ++ 0 :: post).
Proof.
  intros Hb H0 Hl enc. set (s := u ++ bs ":" ++ p) in *.
  destruct (b64_encode_spec s Hb) as (Hd & Hdiv & Hc & Hne). fold enc in Hd, Hdiv, Hc, Hne, Hl.
  assert (0 ∉ enc) as He0 by (rewrite Forall_forall in Hc; intros Hin; by apply (Hc 0)).
  destruct Hdiv as [k Hk]. pose proof (b64_decode_length enc k Hk) as Ld.
  pose proof (fresh_length (PWDLIMIT * 2)) as Lf. set (m := fresh _) in *.
  assert (enc <> []) as Hnil by (apply Hne; subst s; by destruct u).
  destruct (lookup_lt_is_Some_2 m (k * 3) ltac:(lia)) as [x Hx].
  pose proof (take_drop_middle m (k * 3) x Hx) as Em. unfold decode64. rewrite <-Em.
  rewrite (decode64_run _ [] (take (k * 3) m) x (drop (S (k * 3)) m) [] enc a) by
    (try done; rewrite ?length_app, ?length_take, ?length_cons; try lia; by exists k).
  rewrite Hd. destruct enc; [done|]. cbn [app]. rewrite <-app_assoc.
  destruct (b64_padding s) as [|n]; [by eexists | by eexists].
Qed.

Lemma enc_char_ge v : 0 <= v -> 43 <= enc_char v.
Proof. intros. unfold enc_char. btest; lia. Qed.

Lemma enc_group_ge a b c :
  is_byte a -> is_byte b -> is_byte c -> Forall (fun x => 43 <= x) (enc_group a b c).
Proof.
  unfold is_byte. intros Ha Hb Hc. unfold enc_group.
  repeat constructor; apply enc_char_ge; Z.to_euclidean_division_equations; lia.
Qed.

Lemma b64_encode_ge s : Forall is_byte s -> Forall (fun x => 43 <= x) (b64_encode s).
Proof.
  assert (is_byte 0) as H0 by (unfold is_byte; lia).
  induction s as [|a|a b|a b c s IH] using list3_ind; intros Hs; cbn [b64_encode]; [done|..];
    repeat match goal with H : Forall is_byte (_ :: _) |- _ => inversion H; clear H; subst end.
  - apply Forall_app. split; [by apply Forall_take, enc_group_ge | by repeat constructor].
  - apply Forall_app. split; [by apply Forall_take, enc_group_ge | by repeat constructor].
  - apply Forall_app. split; [by apply enc_group_ge | by apply IH].
Qed.

(** The header [h] carries the user name [u] and the password [p]. *)
Record basic_request (h u p : bytes) : Prop := {
  br_bytes : Forall is_byte (u ++ bs ":" ++ p);
  br_text : 0 ∉ u ++ bs ":" ++ p;
  br_user : chr ":" ∉ u;
  br_field : exists a r, h ++ CRLF = a ++ basic_field ++ b64_encode (u ++ bs ":" ++ p) ++ CRLF ++ r
                         /\ find_sub basic_field (h ++ CRLF) = Some (length a);
  br_fits : (length (b64_encode (u ++ bs ":" ++ p)) + 1 < PWDLIMIT * 2)%nat;
}.

(** The field holds [enc], and the buffer for user names then holds [u:p]. *)
Lemma auth_credentials_decoded {F} `{Posix F} (w : world F) h enc u p a r :
  has_header w.(w_conn) h ->
  h ++ CRLF = a ++ basic_field ++ enc ++ CRLF ++ r -> find_sub basic_field (h ++ CRLF) = Some (length a) ->
  CR ∉ enc -> (length enc + 1 < PWDLIMIT * 2)%nat -> 0 ∉ u ++ bs ":" ++ p -> chr ":" ∉ u ->
  (forall rest, exists q, decode64 (fresh (PWDLIMIT * 2)) 0 (enc ++ 0 :: rest) 0
                          = Some ((u ++ bs ":" ++ p) ++ 0 :: q)) ->
  auth_credentials w = Some (inr (u, p), w).
Proof.
  intros (pre & post & Hr & Hp & H0) Hh Hf Henc Hl Ht Hu Hdec. unfold auth_credentials.
  rewrite conn_bind, Hr, Hp.
  assert (0 ∉ h ++ CRLF) as H0' by (rewrite not_elem_of_app; split; [done | by_decision]).
  rewrite (lift_bind_Some _ _ _ _ (strstr_app pre (h ++ CRLF) post _ basic_field eq_refl H0')).
  rewrite Hf. cbn [fmap option_fmap option_map].
  assert (CR ∉ basic_field ++ enc) as Hcr by (rewrite not_elem_of_app; split; [by_decision | done]).
  rewrite Hh in H0' |- *. set (m := pre ++ _).
  assert (m = (pre ++ a) ++ ((basic_field ++ enc) ++ CRLF ++ r) ++ 0 :: post) as E1
    by (subst m; by rewrite <-!app_assoc).
  assert (m = (pre ++ a ++ basic_field) ++ enc ++ CRLF ++ r ++ 0 :: post) as E2
    by (subst m; by rewrite <-!app_assoc).
  assert (strstr m (length pre + length a) CRLF
          = Some (Some (length pre + length a + (21 + length enc))%nat)) as E3.
  { rewrite E1, strstr_app, find_sub_crlf by
      (done || (by rewrite length_app) || (rewrite app_assoc in H0'; revert H0'; rewrite <-!app_assoc, !not_elem_of_app; tauto)).
    cbn [fmap option_fmap option_map]. by rewrite length_app. }
  rewrite (lift_bind_Some _ _ _ _ E3). cbv zeta.
  replace (Z.of_nat (length pre + length a + (21 + length enc)) - Z.of_nat (length pre + length a + 21))
    with (Z.of_nat (length enc)) by lia.
  destruct (Z.ltb_spec (Z.of_nat (length enc) + 1) (Z.of_nat (PWDLIMIT * 2))); [|lia].
  rewrite Nat2Z.id. rewrite (lift_bind_Some _ enc)
    by (rewrite E2; apply load_n_app; [rewrite !length_app; change (length basic_field) with 21%nat; lia | done]).
  pose proof (fresh_length (PWDLIMIT * 2)) as Lf.
  rewrite (lift_bind_Some _ (enc ++ drop (length enc) (fresh (PWDLIMIT * 2))))
    by (rewrite write_at_Some by lia; done).
  destruct (drop (length enc) (fresh (PWDLIMIT * 2))) as [|x rest] eqn:Ed.
  { apply (f_equal length) in Ed. rewrite length_drop in Ed. cbn [length] in Ed. lia. }
  rewrite (lift_bind_Some _ _ _ _ (store_mid enc x rest 0)).
  destruct (Hdec rest) as (q & Eq). rewrite (lift_bind_Some _ _ _ _ Eq). clear Eq.
  assert (0 ∉ u /\ 0 ∉ p) as [Hu0 Hp0] by (rewrite !not_elem_of_app in Ht; tauto).
  rewrite (lift_bind_Some _ (Some (length u))).
  2:{ unfold strstr. rewrite cstr_at_0 by done. cbn [mbind option_bind].
      rewrite find_sub_single. change (bs ":" ++ p) with (58 :: p). by rewrite find_byte_app. }
  rewrite <-app_assoc. rewrite (lift_bind_Some _ _ _ _ (store_mid u 58 (p ++ 0 :: q) 0)).
  rewrite (lift_bind_Some _ _ _ _ (cstr_at_0 u _ Hu0)).
  rewrite (lift_bind_Some _ p); [done|].
  change (to_char 0) with 0. change (u ++ 0 :: p ++ 0 :: q) with (u ++ [0] ++ p ++ 0 :: q).
  rewrite app_assoc. apply cstr_at_app; [by rewrite length_app | done].
Qed.

Lemma auth_credentials_basic {F} `{Posix F} (w : world F) h u p :
  has_header w.(w_conn) h -> basic_request h u p ->
  auth_credentials w = Some (inr (u, p), w).
Proof.
  intros Hh [Hb Ht Hu (a & r & Ea & Hf) Hl].
  apply (auth_credentials_decoded w h (b64_encode (u ++ bs ":" ++ p)) u p a r); try done.
  - intros Hin. pose proof (b64_encode_ge _ Hb) as Hge. rewrite Forall_forall in Hge.
    specialize (Hge _ Hin). unfold CR in Hge. lia.
  - intros rest. by apply decode_credentials.
Qed.

(** A path that fits is copied into the address. *)
Lemma auth_address {F} `{Posix F} {B} conf sock (k : M F B) (w : world F) :
  socket_fits conf -> conf.(c_authsock) = Some sock ->
  (_ ← lift (write_at (fresh SUN_PATH) 0 (sock ++ [0])); k) w = k w.
Proof.
  intros Hf Hs. specialize (Hf sock Hs). pose proof (fresh_length SUN_PATH).
  by rewrite (lift_bind_Some _ _ _ _ (write_at_Some (fresh SUN_PATH) 0 (sock ++ [0]) ltac:(rewrite length_app; simpl; lia))).
Qed.

(** The exchange with the authentication program, whatever the credentials. *)
Lemma auth_check_text {F} `{Posix F} conf (w : world F) sock hd u p pg me :
  socket_fits conf -> conf.(c_authsock) = Some sock ->
  auth_credentials w = Some (inr (u, p), w) ->
  cstr_at w.(w_conn).(req) w.(w_conn).(http_param) = Some hd ->
  cstr_at w.(w_conn).(req) w.(w_conn).(page) = Some pg ->
  cstr_at w.(w_conn).(req) w.(w_conn).(method) = Some me ->
  let msg := auth_message pg w.(w_conn).(ip_addr) me u p hd in
  (length msg < AUTHBUF)%nat ->
  auth_check_request conf w
  = Some (if px_auth_connect && px_malloc (Z.of_nat AUTHBUF)
             && ((px_auth_write msg =? Z.of_nat (length msg)) && (px_auth_read msg =? 0))
          then 0 else -1, w).
Proof.
  intros Hsf Hs Hb Hhd Hpg Hme msg Hl. unfold auth_check_request. rewrite Hs.
  rewrite (bind_run _ _ _ _ _ Hb). cbn beta iota. rewrite (auth_address conf) by done.
  destruct px_auth_connect; [|done]. destruct (px_malloc _); [|done]. cbn [negb andb]. rewrite conn_bind.
  assert (forall q s, cstr_at w.(w_conn).(req) q = Some s -> cstring q w = Some (s, w)) as Hc
    by (intros q s E; unfold cstring; rewrite conn_bind; by apply lift_run).
  rewrite (bind_run _ _ _ _ _ (Hc _ _ Hpg)), (bind_run _ _ _ _ _ (Hc _ _ Hme)), (bind_run _ _ _ _ _ (Hc _ _ Hhd)).
  fold msg. pose proof (fresh_length AUTHBUF) as Lf.
  rewrite (lift_bind_Some _ _ _ _ (snprintf_fits (fresh AUTHBUF) 0 AUTHBUF msg Hl ltac:(lia))). cbn beta iota.
  rewrite Nat2Z.id. by rewrite (lift_bind_Some _ msg) by (apply (load_n_app []); done).
Qed.

Lemma auth_check_run {F} `{Posix F} conf (w : world F) sock h u p pg me :
  socket_fits conf -> conf.(c_authsock) = Some sock -> mem_ok ->
  auth_credentials w = Some (inr (u, p), w) -> has_header w.(w_conn) h ->
  cstr_at w.(w_conn).(req) w.(w_conn).(page) = Some pg ->
  cstr_at w.(w_conn).(req) w.(w_conn).(method) = Some me ->
  let msg := auth_message pg w.(w_conn).(ip_addr) me u p (h ++ CRLF) in
  (length msg < AUTHBUF)%nat ->
  auth_check_request conf w
  = Some (if px_auth_connect && (px_auth_write msg =? Z.of_nat (length msg)) && (px_auth_read msg =? 0)
          then 0 else -1, w).
Proof.
  intros Hf Hs Hm Hb (pre & post & Hr & Hp & H0) Hpg Hme msg Hl.
  rewrite (auth_check_text conf w sock (h ++ CRLF) u p pg me); try done.
  - by rewrite Hm, andb_true_r, andb_assoc.
  - rewrite Hr, Hp. apply cstr_at_app; [done|]. rewrite not_elem_of_app. split; [done | by_decision].
Qed.

(** Credentials of any form: the header has none, or they are not empty. *)
Definition credentials_given (h : bytes) : Prop := ~ contains (basic_field ++ CRLF) (h ++ CRLF).

(** The text between the field and the line end starts with a character. *)
Lemma credentials_first pre h post i q :
  0 ∉ h -> credentials_given h -> find_sub basic_field (h ++ CRLF) = Some i ->
  strstr (pre ++ (h ++ CRLF) ++ 0 :: post) (length pre + i) CRLF = Some (Some q) ->
  exists c, load (pre ++ (h ++ CRLF) ++ 0 :: post) (length pre + i + 21) = Some c /\ c <> 0
            /\ (length pre + i + 21 < q)%nat.
Proof.
  intros H0 Hg Hf Hq. pose proof (find_sub_at _ _ _ Hf) as Hb. apply starts_with_spec in Hb as [r Hr].
  assert (0 ∉ h ++ CRLF) as H0' by (rewrite not_elem_of_app; split; [done | by_decision]).
  assert (0 ∉ basic_field ++ r) as Hr0 by (rewrite <-Hr; by apply not_elem_of_drop).
  pose proof (find_sub_bound _ _ _ Hf) as Hi.
  assert (pre ++ (h ++ CRLF) ++ 0 :: post = (pre ++ take i (h ++ CRLF)) ++ (basic_field ++ r) ++ 0 :: post) as Em
    by (rewrite <-Hr, <-(take_drop i (h ++ CRLF)) at 1; by rewrite <-!app_assoc).
  rewrite Em in Hq |- *.
  assert (length (pre ++ take i (h ++ CRLF)) = length pre + i)%nat as Lp by (rewrite length_app, length_take; lia).
  rewrite (strstr_app _ (basic_field ++ r) post _ CRLF) in Hq by done.
  destruct (find_sub CRLF (basic_field ++ r)) as [j|] eqn:Ej; [|done]. injection Hq as <-.
  pose proof (find_sub_at _ _ _ Ej) as Hj. pose proof (find_sub_bound _ _ _ Ej) as Lj.
  assert (21 < j)%nat as Hlt.
  { change 21%nat with (length basic_field). destruct (Nat.lt_trichotomy j (length basic_field)) as [Hlt|[->|?]]; [|  |done].
    - destruct (lookup_lt_is_Some_2 basic_field j Hlt) as [c Hc].
      rewrite (drop_S _ c) in Hj by (by rewrite lookup_app_l). cbn [starts_with CRLF] in Hj.
      apply andb_true_iff in Hj as [<-%Z.eqb_eq _]. apply list_elem_of_lookup_2 in Hc. exfalso. revert Hc. by_decision.
    - rewrite drop_app_length in Hj. apply starts_with_spec in Hj as [t ->]. exfalso. apply Hg.
      exists (take i (h ++ CRLF)), t. by rewrite <-(take_drop i (h ++ CRLF)) at 1; rewrite Hr, <-!app_assoc. }
  destruct r as [|c r]; [rewrite app_nil_r in Lj; change (length basic_field) with 21%nat in Lj; lia|]. exists c.
  rewrite not_elem_of_app, not_elem_of_cons in Hr0. destruct Hr0 as (_ & Hc0 & _). split_and!; [| by intros -> | lia].
  unfold load. rewrite lookup_app_r by lia. rewrite Lp.
  replace (length pre + i + 21 - (length pre + i))%nat with (length basic_field) by (rewrite Nat.add_comm, Nat.add_sub; done).
  rewrite <-app_assoc. apply (lookup_mid basic_field).
Qed.

(** Both together are shorter than the text that was decoded. *)
Lemma credentials_length {F} `{Posix F} (w w' : world F) h u p :
  has_header w.(w_conn) h -> credentials_given h ->
  auth_credentials w = Some (inr (u, p), w') -> (length u + length p <= 450)%nat /\ w' = w.
Proof.
  intros (pre & post & Hr & Hp & H0) Hg E. split; [|exact (auth_credentials_keeps (fun w => w) w _ w' E)].
  unfold auth_credentials in E. rewrite conn_bind, Hr, Hp in E.
  assert (0 ∉ h ++ CRLF) as H0' by (rewrite not_elem_of_app; split; [done | by_decision]).
  rewrite (lift_bind_Some _ _ _ _ (strstr_app pre (h ++ CRLF) post _ basic_field eq_refl H0')) in E.
  destruct (find_sub basic_field (h ++ CRLF)) as [i|] eqn:Ei; cbn [fmap option_fmap option_map] in E;
    [|injection E as <- <- _; simpl; lia].
  apply bind_inv in E as ([q|] & w1 & E1 & E); [|done]. unfold lift in E1.
  destruct (strstr _ _ CRLF) as [q'|] eqn:Eq; [|done]. injection E1 as -> <-.
  destruct (credentials_first pre h post i q H0 Hg Ei Eq) as (c & Hc & Hc0 & Hlt). cbv zeta in E.
  destruct (_ <? _) eqn:Ew; [|done]. clear Ew.
  set (n := Z.to_nat (Z.of_nat q - Z.of_nat (length pre + i + 21))) in *.
  assert (0 < n)%nat as Hn by lia.
  apply lift_bind_inv in E as (enc & Eenc & E). apply lift_bind_inv in E as (a & Ea & E).
  apply lift_bind_inv in E as (a0 & Ea0 & E). apply lift_bind_inv in E as (un & Eun & E).
  apply lift_bind_inv in E as (sep & Esep & E). destruct sep as [sep|]; [|done].
  apply lift_bind_inv in E as (un' & Eun' & E). apply lift_bind_inv in E as (u' & Eu & E).
  apply lift_bind_inv in E as (p' & Ep & E). injection E as -> -> _.
  assert (load a0 0 = Some c) as Hfirst.
  { unfold load_n in Eenc. destruct (_ <=? _)%nat; [|done]. injection Eenc as <-.
    unfold write_at in Ea. destruct (_ <=? _)%nat; [|done]. injection Ea as <-.
    unfold store in Ea0. destruct (_ <? _)%nat; [|done]. injection Ea0 as <-.
    unfold load in *. rewrite list_lookup_insert_ne by lia. cbn [take app].
    rewrite lookup_app_l by (apply lookup_lt_Some in Hc; rewrite length_take, length_drop; lia).
    rewrite lookup_take_lt, lookup_drop by lia. by rewrite Nat.add_0_r. }
  assert (length a0 = 600)%nat as La
    by (apply store_length in Ea0; apply write_at_length in Ea; rewrite fresh_length in Ea; unfold PWDLIMIT in *; lia).
  destruct (decode64_loop_nul _ _ _ _ _ _ _ Hfirst Hc0 Eun) as (e & He & _ & Hbound).
  rewrite La in Hbound. clear -Esep Eun' Eu Ep He Hbound.
  unfold strstr in Esep. destruct (cstr_at un 0) as [s|] eqn:Es; [|done]. cbn [mbind option_bind] in Esep.
  destruct (find_sub (bs ":") s) as [k|] eqn:Ek; [|done]. injection Esep as <-.
  pose proof (cstr_before _ _ _ _ He (Nat.le_0_l e) Es) as Hs. pose proof (find_sub_bound _ _ _ Ek) as Hk.
  cbn [length] in Hk. unfold store in Eun'. destruct (Nat.ltb_spec k (length un)) as [Hlt|]; [|done].
  injection Eun' as <-.
  assert (<[k := to_char 0]> un !! e = Some 0) as He' by (by rewrite list_lookup_insert_ne by lia).
  pose proof (cstr_before k _ 0 u (list_lookup_insert_eq un k (to_char 0) Hlt) (Nat.le_0_l k) Eu).
  pose proof (cstr_before e _ (k + 1) p He' ltac:(lia) Ep). lia.
Qed.

(** ** Theorems *)

Section AuthTheorems.
Context {F : Type} `{Posix F}.
Context (conf : weborf_configuration_t).

(** With authentication in use, a request with Basic credentials is
    accepted if and only if the authentication program could be reached, took
    the whole message and closed without saying anything; the message holds the
    page, the address, the method, the decoded user name and password and the
    header, each ended by a line end.  The check changes nothing. *)
Theorem auth_check_basic (w : world F) sock h u p pg me :
  socket_fits conf -> conf.(c_authsock) = Some sock -> mem_ok ->
  has_header w.(w_conn) h -> basic_request h u p ->
  cstr_at w.(w_conn).(req) w.(w_conn).(page) = Some pg ->
  cstr_at w.(w_conn).(req) w.(w_conn).(method) = Some me ->
  let msg := auth_message pg w.(w_conn).(ip_addr) me u p (h ++ CRLF) in
  (length msg < AUTHBUF)%nat ->
  auth_check_request conf w
  = Some (if px_auth_connect && (px_auth_write msg =? Z.of_nat (length msg)) && (px_auth_read msg =? 0)
          then 0 else -1, w).
Proof.
  intros Hf Hs Hm Hh Hb Hpg Hme msg Hl.
  exact (auth_check_run conf w sock h u p pg me Hf Hs Hm (auth_credentials_basic w h u p Hh Hb) Hh Hpg Hme Hl).
Qed.

(** The message for the authentication program fits its buffer, of [HEADBUF]
    and twice [PWDLIMIT] bytes, for every request that the buffer of
    [INBUFFER] bytes can hold and whatever credentials it carries, as long as
    they are not empty and could be decoded: only the program decides. *)
Theorem auth_message_fits (w w' : world F) sock h u p pg me :
  socket_fits conf -> conf.(c_authsock) = Some sock -> mem_ok ->
  has_header w.(w_conn) h -> credentials_given h ->
  auth_credentials w = Some (inr (u, p), w') ->
  cstr_at w.(w_conn).(req) w.(w_conn).(page) = Some pg ->
  cstr_at w.(w_conn).(req) w.(w_conn).(method) = Some me ->
  (length me + length pg + length (h ++ CRLF) <= INBUFFER)%nat ->
  (length w.(w_conn).(ip_addr) < INET6_ADDRSTRLEN)%nat ->
  let msg := auth_message pg w.(w_conn).(ip_addr) me u p (h ++ CRLF) in
  (length msg < AUTHBUF)%nat
  /\ auth_check_request conf w
     = Some (if px_auth_connect && (px_auth_write msg =? Z.of_nat (length msg)) && (px_auth_read msg =? 0)
             then 0 else -1, w).
Proof.
  intros Hf Hs Hm Hh Hg Hcr Hpg Hme Hroom Hip msg.
  destruct (credentials_length w w' h u p Hh Hg Hcr) as [Hl ->].
  assert (length msg < AUTHBUF)%nat as Hfit.
  { subst msg. unfold auth_message, AUTHBUF, HEADBUF, PWDLIMIT, INBUFFER, INET6_ADDRSTRLEN in *.
    rewrite !length_app in *. change (length CRLF) with 2%nat in *. lia. }
  split; [done|]. by apply (auth_check_run conf w sock h u p pg me).
Qed.

(** Empty credentials are decoded to nothing at all: the buffer on the stack is
    read as it was found, and what an earlier call left there is taken for the
    user name and the password. *)
Theorem empty_credentials_read_stack (w : world F) h u p rest a r :
  has_header w.(w_conn) h ->
  h ++ CRLF = a ++ basic_field ++ CRLF ++ r -> find_sub basic_field (h ++ CRLF) = Some (length a) ->
  fresh (PWDLIMIT * 2) = (u ++ bs ":" ++ p) ++ 0 :: rest -> 0 ∉ u ++ bs ":" ++ p -> chr ":" ∉ u ->
  auth_credentials w = Some (inr (u, p), w).
Proof.
  intros Hh Ea Hf Hs Ht Hu. apply (auth_credentials_decoded w h [] u p a r); try done.
  - by_decision.
  - apply Nat.ltb_lt. reflexivity.
  - intros rest2. exists rest. by rewrite Hs.
Qed.

(** A path of 108 bytes or more, which [auth_set_socket] accepts as long as a
    socket is found there, is written beyond the address by the first request
    whose credentials can be read. *)
Theorem long_socket_overruns (w w' : world F) sock cr :
  conf.(c_authsock) = Some sock -> (SUN_PATH <= length sock)%nat ->
  auth_credentials w = Some (inr cr, w') -> auth_check_request conf w = None.
Proof.
  intros Hs Hl Hcr. unfold auth_check_request. rewrite Hs, (bind_run _ _ _ _ _ Hcr). destruct cr as [u p].
  unfold mbind, M_bind, lift. rewrite write_at_None; [done|]. rewrite fresh_length, length_app. simpl. lia.
Qed.

(** C6: authentication fails closed: when it is in use and the authentication
    program cannot be reached, or never ends an exchange without output, no
    request is accepted, whatever its header holds. *)
Theorem auth_fails_closed (w w' : world F) sock r :
  conf.(c_authsock) = Some sock ->
  px_auth_connect = false \/ (forall m, px_auth_read m <> 0) ->
  auth_check_request conf w = Some (r, w') -> r <> 0 /\ w' = w.
Proof.
  intros Hs Hdown E. split; [|exact (auth_check_request_keeps conf (fun w => w) w r w' E)].
  unfold auth_check_request in E. rewrite Hs in E.
  apply bind_inv in E as (cr & w1 & Ecr & E).
  destruct cr as [err | [u p]].
  - assert (err <> 0) as He; [|by injection E as <- _].
    clear E. unfold auth_credentials in Ecr.
    repeat match goal with
    | E : (mbind _ _) _ = Some _ |- _ => apply bind_inv in E as (? & ? & _ & E)
    | E : (match ?x with _ => _ end) _ = Some _ |- _ => destruct x
    | E : (mret _) _ = Some _ |- _ => injection E as <- _ || discriminate E
    end; done.
  - apply bind_inv in E as (? & ? & _ & E). destruct Hdown as [Hd | Hd]; [rewrite Hd in E; by injection E as <- _|].
    destruct (negb px_auth_connect); [by injection E as <- _|].
    destruct (negb (px_malloc _)); [by injection E as <- _|].
    do 4 apply bind_inv in E as (? & ? & _ & E).
    apply bind_inv in E as ([? ?] & ? & _ & E). apply bind_inv in E as (m & ? & _ & E).
    injection E as <- _. destruct (Z.eqb_spec (px_auth_read m) 0) as [Hr|]; [by apply Hd in Hr|].
    by rewrite andb_false_r.
Qed.
End AuthTheorems.

(** ** Witnesses *)

(** User "u", password "pw". *)
Definition sample_auth_header : bytes :=
  bs "HTTP/1.1" ++ CRLF ++ basic_field ++ b64_encode (bs "u:pw").

Lemma sample_basic_request : basic_request sample_auth_header (bs "u") (bs "pw").
Proof.
  split; [by repeat constructor | by_decision | by_decision | | apply Nat.ltb_lt; reflexivity].
  by exists (bs "HTTP/1.1" ++ CRLF), [].
Qed.

Lemma sample_socket : socket_fits sample_conf_auth.
Proof. intros sock [= <-]. apply Nat.ltb_lt. reflexivity. Qed.

Lemma auth_check_basic_witness :
  let w := sample_get (sample_auth_header ++ CRLF) in
  let msg := auth_message (bs "/a") (bs "::1") (bs "GET") (bs "u") (bs "pw")
               (sample_auth_header ++ CRLF) in
  auth_check_request sample_conf_auth w
  = Some (if px_auth_connect && (px_auth_write msg =? Z.of_nat (length msg)) && (px_auth_read msg =? 0)
          then 0 else -1, w).
Proof.
  apply (auth_check_basic sample_conf_auth (sample_get (sample_auth_header ++ CRLF))
           (bs "/run/auth.sock") sample_auth_header (bs "u") (bs "pw") (bs "/a") (bs "GET"));
    [exact sample_socket | reflexivity | done | apply sample_has_header; by_decision | apply sample_basic_request
    | reflexivity | reflexivity | apply Nat.ltb_lt; reflexivity].
Defined.

(** Credentials that are no base64 text of whole groups are decoded as well. *)
Lemma auth_message_fits_witness :
  let h := bs "HTTP/1.1" ++ CRLF ++ basic_field ++ bs "dTpw!!!!" in
  let w := sample_get (h ++ CRLF) in
  exists u p,
    auth_credentials w = Some (inr (u, p), w) /\ u = bs "u"
    /\ let msg := auth_message (bs "/a") (bs "::1") (bs "GET") u p (h ++ CRLF) in
       (length msg < AUTHBUF)%nat
       /\ auth_check_request sample_conf_auth w
          = Some (if px_auth_connect && (px_auth_write msg =? Z.of_nat (length msg)) && (px_auth_read msg =? 0)
                  then 0 else -1, w).
Proof.
  eexists (bs "u"), _. split; [vm_compute; reflexivity|]. split; [reflexivity|].
  apply (auth_message_fits sample_conf_auth (sample_get ((bs "HTTP/1.1" ++ CRLF ++ basic_field ++ bs "dTpw!!!!") ++ CRLF))
           (sample_get ((bs "HTTP/1.1" ++ CRLF ++ basic_field ++ bs "dTpw!!!!") ++ CRLF)) (bs "/run/auth.sock")).
  - exact sample_socket.
  - reflexivity.
  - done.
  - apply sample_has_header. by_decision.
  - unfold credentials_given. rewrite <-find_sub_None. reflexivity.
  - vm_compute. reflexivity.
  - reflexivity.
  - reflexivity.
  - apply Nat.leb_le. reflexivity.
  - apply Nat.ltb_lt. reflexivity.
Defined.

Lemma empty_credentials_read_stack_witness :
  let h := bs "HTTP/1.1" ++ CRLF ++ basic_field in
  let w := sample_get (h ++ CRLF) in
  @auth_credentials _ (sample_stack (bs "root:secret" ++ [0])) w = Some (inr (bs "root", bs "secret"), w).
Proof.
  apply (@empty_credentials_read_stack _ (sample_stack (bs "root:secret" ++ [0]))
           (sample_get ((bs "HTTP/1.1" ++ CRLF ++ basic_field) ++ CRLF)) (bs "HTTP/1.1" ++ CRLF ++ basic_field)
           (bs "root") (bs "secret") (replicate 588 0) (bs "HTTP/1.1" ++ CRLF) []).
  - apply sample_has_header. by_decision.
  - reflexivity.
  - reflexivity.
  - vm_compute. reflexivity.
  - by_decision.
  - by_decision.
Defined.

(** A path of 120 bytes, and no credentials at all. *)
Lemma long_socket_overruns_witness :
  exists conf, auth_set_socket (Some (mkstat (S_IFSOCK + 420) 0 0 0 0)) (replicate 120 97) sample_conf = Some conf
    /\ auth_check_request conf (sample_get (bs "HTTP/1.1" ++ CRLF)) = None.
Proof.
  eexists. split; [reflexivity|].
  apply (long_socket_overruns _ _ (sample_get (bs "HTTP/1.1" ++ CRLF)) (replicate 120 97) ([], []));
    [reflexivity | apply Nat.leb_le; reflexivity | vm_compute; reflexivity].
Defined.

Lemma auth_fails_closed_witness :
  let w := sample_get (sample_auth_header ++ CRLF) in
  @auth_check_request _ (sample_with false) sample_conf_auth w = Some (-1, w) /\ -1 <> 0 /\ w = w.
Proof.
  split.
  - by vm_compute.
  - apply (@auth_fails_closed _ (sample_with false) sample_conf_auth
             (sample_get (sample_auth_header ++ CRLF)) (sample_get (sample_auth_header ++ CRLF))
             (bs "/run/auth.sock") (-1)); [reflexivity | by left | by vm_compute].
Defined.
