(* ===== verification/Provider.v ===== *)
(** * Authentication programs (examples/weborf_auth.c, examples/weborf_auth_dav.c,
    embedded_auth.h)

    The two sample programs behind the authentication socket, from the message
    they receive to what they send back, and the policy that can be compiled
    into the server instead of a program.  The memory of the programs is
    explicit: [str] is the array on their stack, which keeps the bytes of
    earlier messages; an access outside it, or through a NULL pointer, is
    [None]. *)
From S2P Require Export Auth.

(** ** Definitions: the programs *)

Definition SIZE : nat := 1024.

Definition local_prefix : bytes := bs "::ffff:10.0.".

(** [t = recv(s2, str, SIZE, 0); str[t] = 0]; a failed [recv] is -1. *)
Definition receive (str : bytes) (data : option bytes) : option bytes :=
  match data with
  | None => None
  | Some data => m ← write_at str 0 data; store m (length data) 0
  end.

(** One message to weborf_auth_dav: the array and the bytes that are sent back. *)
Definition auth_dav (str : bytes) (data : option bytes) : option (bytes * bytes) :=
  str ← receive str data;
  '(str, uri, l) ← strtok_r str 0 CRLF;
  '(str, ip, l) ← strtok_r str l CRLF;
  '(str, method, l) ← strtok_r str l CRLF;
  method ← method;
  m ← cstr_at str method;
  if starts_with (bs "GET") m || starts_with (bs "POST") m || negb (starts_with (bs "OPTIONS") m)
  then Some (str, [])
  else if starts_with (bs "PROPFIND") m || starts_with (bs "PUT") m || starts_with (bs "MKCOL") m
  then
    ip ← ip;
    a ← cstr_at str ip;
    Some (str, if negb (starts_with local_prefix a) then bs "c" else [])
  else Some (str, bs "c").

(** One message to weborf_auth. *)
Definition auth_film (str : bytes) (data : option bytes) : option (bytes * bytes) :=
  str ← receive str data;
  four ← load_n str 1 4;
  if bool_decide (four = bs "film") then
    local ← strstr str 0 local_prefix;
    Some (str, if local is Some _ then [] else bs "c")
  else Some (str, []).

(** ** Definitions: the programs as a whole *)

(** What the programs call, but for the messages they receive. *)
Inductive prog_call :=
  | PUnlink
  | PSocket
  | PBind
  | PListen
  | PAccept
  | PReply (data : bytes)
  | PClose.

(** What [accept] and then [recv] answer. *)
Inductive client_turn :=
  | AcceptFails
  | Client (data : option bytes).

(** The loop over the connections, with what it exits with, if it does. *)
Fixpoint serve_clients (answer : bytes -> option bytes -> option (bytes * bytes)) (str : bytes)
    (cs : list client_turn) : option (list prog_call * option Z) :=
  match cs with
  | [] => Some ([], None)
  | AcceptFails :: _ => Some ([PAccept], Some 1)
  | Client data :: cs =>
      '(str, reply) ← answer str data;
      '(t, code) ← serve_clients answer str cs;
      Some (PAccept :: (if reply is [] then [] else [PReply reply]) ++ PClose :: t, code)
  end.

(** The socket has been made: it is bound to its name and clients are served. *)
Definition bind_and_serve (answer : bytes -> option bytes -> option (bytes * bytes))
    (bind_ok listen_ok : bool) (str : bytes) (cs : list client_turn) : option (list prog_call * option Z) :=
  if negb bind_ok then Some ([PUnlink; PBind], Some 1)
  else if negb listen_ok then Some ([PUnlink; PBind; PListen], Some 1)
  else '(t, code) ← serve_clients answer str cs; Some ([PUnlink; PBind; PListen] ++ t, code).

Definition film_main (socket_ok bind_ok listen_ok : bool) (str : bytes) (cs : list client_turn)
    : option (list prog_call * option Z) :=
  if negb socket_ok then Some ([PSocket], Some 1)
  else '(t, code) ← bind_and_serve auth_film bind_ok listen_ok str cs; Some (PSocket :: t, code).

Definition dav_main (socket_ok bind_ok listen_ok : bool) (str : bytes) (cs : list client_turn)
    : option (list prog_call * option Z) :=
  if negb socket_ok then Some ([PUnlink; PSocket], Some 1)
  else '(t, code) ← bind_and_serve auth_dav bind_ok listen_ok str cs; Some (PUnlink :: PSocket :: t, code).

(** ** Definitions: the policy of embedded_auth.h *)

Definition emb_check_password (username password : bytes) : Z :=
  if starts_with (bs "gentoo") username && starts_with (bs "lalalala") password then 0 else -1.

(** The header is a parameter that the policy does not use. *)
Definition c_auth (page ip_addr method username password http_param : bytes) : Z :=
  if starts_with (bs "::ffff:10.") ip_addr then 0
  else if starts_with (bs "PROPFIND") method || starts_with (bs "OPTIONS") method
  then emb_check_password username password
  else if negb (starts_with (bs "GET") method || starts_with (bs "POST") method) then -1
  else if starts_with (bs "/foto/") page then emb_check_password username password
  else 0.

Section Embedded.
Context {F : Type} `{Posix F}.
Context (conf : weborf_configuration_t).

(** [auth_set_socket] and [auth_check_request] compiled with EMBEDDED_AUTH. *)
Definition auth_set_socket_embedded (conf : weborf_configuration_t) : weborf_configuration_t :=
  mkconf conf.(c_basedir) (Some (bs "embedded")) conf.(c_uid) conf.(c_gid)
    conf.(c_send_content_type) conf.(c_is_inetd) conf.(c_cgi_paths) conf.(c_virtual_host)
    conf.(c_exec_script) conf.(c_tar_directory) conf.(c_daemonize) conf.(c_ip) conf.(c_port)
    conf.(c_indexes).

Definition auth_check_request_embedded : M F Z :=
  match conf.(c_authsock) with
  | None => mret 0
  | Some _ =>
      cr ← auth_credentials;
      match cr with
      | inl err => mret err
      | inr (username, password) =>
          c ← conn;
          page ← cstring c.(page);
          method ← cstring c.(method);
          header ← cstring c.(http_param);
          mret (c_auth page c.(ip_addr) method username password header)
      end
  end.
End Embedded.

(** ** Specification *)

(** A line of a message: some text without a line end or a NUL. *)
Definition line (s : bytes) : Prop :=
  s <> [] /\ Forall (fun c => in_set CRLF c = false) s /\ 0 ∉ s.

(** What the comment of weborf_auth_dav announces: GET, POST and OPTIONS for
    everybody, PROPFIND, MKCOL and PUT from 10.0.x.x, nothing else. *)
Definition dav_policy (ip method : bytes) : bool :=
  starts_with (bs "GET") method || starts_with (bs "POST") method || starts_with (bs "OPTIONS") method
  || ((starts_with (bs "PROPFIND") method || starts_with (bs "PUT") method
       || starts_with (bs "MKCOL") method) && starts_with local_prefix ip).

(** What it does. *)
Definition dav_decision (method : bytes) : bool := negb (starts_with (bs "OPTIONS") method).

(** The server talks to the program [p], whose array is [str]: a read returns
    as many bytes as the program has sent, at most one. *)
Definition talks_to {F} `{Posix F} (p : bytes -> option bytes -> option (bytes * bytes)) (str : bytes)
    : Prop :=
  px_auth_connect = true
  /\ (forall m, px_auth_write m = Z.of_nat (length m))
  /\ (forall m str' r, (length m <= SIZE)%nat -> p str (Some m) = Some (str', r) ->
        px_auth_read m = Z.min 1 (Z.of_nat (length r))).

(** ** Lemmas *)

Lemma receive_run str msg :
  length str = SIZE -> (length msg < SIZE)%nat ->
  receive str (Some msg) = Some (msg ++ 0 :: drop (S (length msg)) str).
Proof.
  intros Hs Hm. unfold receive. rewrite write_at_Some by lia. rewrite take_0. cbn [app mbind option_bind Nat.add].
  destruct (drop (length msg) str) as [|x rest] eqn:E.
  { apply (f_equal length) in E. rewrite length_drop in E. simpl in E. lia. }
  rewrite store_mid. do 3 f_equal. by rewrite <-Nat.add_1_r, <-drop_drop, E.
Qed.

(** A message of [SIZE] bytes leaves no room for the NUL. *)
Lemma receive_full str msg : length str = SIZE -> length msg = SIZE -> receive str (Some msg) = None.
Proof.
  intros Hs Hm. unfold receive. rewrite write_at_Some by lia. rewrite take_0, drop_ge by lia.
  cbn [app mbind option_bind Nat.add]. rewrite app_nil_r. unfold store. by rewrite Nat.ltb_irrefl.
Qed.

Lemma line_nul s : line s -> 0 ∉ s.
Proof. by intros (_ & _ & ?). Qed.

(** The next line of a message, behind the [k] bytes that were left of the line
    end in front of it. *)
Lemma next_line pre k tok rest tail :
  line tok -> (k <= 1)%nat -> 0 ∉ rest ->
  strtok_r (pre ++ replicate k LF ++ tok ++ CRLF ++ rest ++ 0 :: tail) (length pre) CRLF
  = Some ((pre ++ replicate k LF ++ tok ++ [0]) ++ replicate 1 LF ++ rest ++ 0 :: tail,
          Some (length pre + k)%nat, length (pre ++ replicate k LF ++ tok ++ [0])).
Proof.
  intros (Hne & Ht & H0) Hk Hr.
  pose proof (strtok_run pre (replicate k LF) tok CR (LF :: rest) tail (length pre) CRLF) as E.
  rewrite <-app_assoc. cbn [app replicate]. rewrite <-app_assoc.
  replace (tok ++ CRLF ++ rest ++ 0 :: tail) with (tok ++ CR :: (LF :: rest) ++ 0 :: tail) by done.
  rewrite E; [|done| |done|done|done|].
  - f_equal. f_equal; [f_equal|].
    + cbn [app]. by rewrite <-!app_assoc.
    + by rewrite length_replicate.
    + rewrite length_replicate, !length_app, length_replicate. cbn [length]. lia.
  - apply Forall_replicate. reflexivity.
  - rewrite !not_elem_of_app. split_and!; [by intros [? _]%elem_of_replicate | done |].
    rewrite !not_elem_of_cons. split_and!; done.
Qed.

(** The three lines weborf_auth_dav looks at, and its answer. *)
Lemma auth_dav_run str pg ip me rest :
  length str = SIZE -> line pg -> line ip -> line me -> 0 ∉ rest ->
  (length (pg ++ CRLF ++ ip ++ CRLF ++ me ++ CRLF ++ rest) < SIZE)%nat ->
  exists str', auth_dav str (Some (pg ++ CRLF ++ ip ++ CRLF ++ me ++ CRLF ++ rest))
               = Some (str', if dav_decision me then [] else bs "c").
Proof.
  intros Hs Hp Hi Hm H0 Hl. unfold auth_dav. rewrite receive_run by done.
  set (tail := drop _ str). cbn [mbind option_bind].
  pose proof (line_nul _ Hi). pose proof (line_nul _ Hm).
  assert (0 ∉ CRLF) by by_decision.
  pose proof (next_line [] 0 pg (ip ++ CRLF ++ me ++ CRLF ++ rest) tail Hp ltac:(lia)
                ltac:(rewrite !not_elem_of_app; tauto)) as E1.
  cbn [app replicate length] in E1. rewrite <-!app_assoc in E1. rewrite <-!app_assoc.
  rewrite E1. clear E1. cbn [mbind option_bind].
  pose proof (next_line (pg ++ [0]) 1 ip (me ++ CRLF ++ rest) tail Hi ltac:(lia)
                ltac:(rewrite !not_elem_of_app; tauto)) as E2.
  cbn [replicate] in E2. rewrite <-!app_assoc in E2. cbn [app] in E2. cbn [app].
  rewrite <-?app_assoc. rewrite E2. clear E2. cbn [mbind option_bind].
  set (pre := pg ++ 0 :: LF :: ip ++ [0]).
  pose proof (next_line pre 1 me rest tail Hm ltac:(lia) H0) as E3.
  assert (pre ++ replicate 1 LF ++ me ++ CRLF ++ rest ++ 0 :: tail
          = pg ++ 0 :: LF :: ip ++ 0 :: LF :: me ++ CRLF ++ rest ++ 0 :: tail) as Em
    by (subst pre; cbn [replicate app]; rewrite <-app_assoc; cbn [app]; by rewrite <-app_assoc).
  rewrite Em in E3. rewrite E3. clear E3 Em. cbn [mbind option_bind].
  assert (cstr_at ((pre ++ replicate 1 LF ++ me ++ [0]) ++ replicate 1 LF ++ rest ++ 0 :: tail)
            (length pre + 1) = Some me) as E4.
  { replace ((pre ++ replicate 1 LF ++ me ++ [0]) ++ replicate 1 LF ++ rest ++ 0 :: tail)
      with ((pre ++ [LF]) ++ me ++ 0 :: replicate 1 LF ++ rest ++ 0 :: tail) by (by rewrite <-!app_assoc).
    apply cstr_at_app; [by rewrite length_app | done]. }
  rewrite E4. cbn [mbind option_bind]. unfold dav_decision.
  destruct (starts_with (bs "OPTIONS") me) eqn:Eo.
  - apply starts_with_spec in Eo as [t ->]. by eexists.
  - rewrite orb_true_r. by eexists.
Qed.

Lemma receive_length str data str' : receive str data = Some str' -> length str' = length str.
Proof.
  unfold receive. destruct data as [data|]; [|done]. destruct (write_at str 0 data) as [m|] eqn:Ew; [|done].
  cbn [mbind option_bind]. apply write_at_length in Ew. unfold store.
  destruct (_ <? _)%nat; [|done]. intros [= <-]. by rewrite length_insert.
Qed.

Lemma strtok_length m p d m' t l : strtok_r m p d = Some (m', t, l) -> length m' = length m.
Proof.
  unfold strtok_r. destruct (cstr_at m p) as [s|]; [|done]. cbn [mbind option_bind].
  destruct (drop _ s) as [|c tok]; [by intros [= <- _ _]|]. destruct (_ =? _)%nat; [by intros [= <- _ _]|].
  unfold store. destruct (_ <? _)%nat; [|done]. cbn [mbind option_bind]. intros [= <- _ _]. by rewrite length_insert.
Qed.

(** The array keeps its length from message to message. *)
Lemma auth_dav_length str data str' r : auth_dav str data = Some (str', r) -> length str' = length str.
Proof.
  unfold auth_dav. destruct (receive str data) as [m|] eqn:E; [|done]. cbn [mbind option_bind].
  apply receive_length in E. rewrite <-E. clear E.
  destruct (strtok_r m 0 CRLF) as [[[m1 uri] l1]|] eqn:E1; [|done]. cbn [mbind option_bind].
  destruct (strtok_r m1 l1 CRLF) as [[[m2 ip] l2]|] eqn:E2; [|done]. cbn [mbind option_bind].
  destruct (strtok_r m2 l2 CRLF) as [[[m3 me] l3]|] eqn:E3; [|done]. cbn [mbind option_bind].
  apply strtok_length in E1, E2, E3. rewrite <-E1, <-E2, <-E3.
  destruct me as [me|]; [|done]. cbn [mbind option_bind]. destruct (cstr_at m3 me) as [w|]; [|done]. cbn [mbind option_bind].
  destruct (_ || _); [by intros [= <- _]|]. destruct (_ || _); [|by intros [= <- _]].
  destruct ip as [ip|]; [|done]. cbn [mbind option_bind]. destruct (cstr_at m3 ip); [|done]. by intros [= <- _].
Qed.

(** What is decided when the array of the program is [SIZE] bytes long and the
    message fits, whatever was in the array. *)
Lemma talks_to_run {F} `{Posix F} p str m str' r :
  talks_to p str -> (length m <= SIZE)%nat -> p str (Some m) = Some (str', r) ->
  px_auth_connect && (px_auth_write m =? Z.of_nat (length m)) && (px_auth_read m =? 0)
  = bool_decide (r = []).
Proof.
  intros (Hc & Hw & Hr) Hl E. rewrite Hc, Hw, Z.eqb_refl, (Hr m str' r Hl E). cbn [andb].
  destruct r as [|x r]; [done|]. rewrite bool_decide_eq_false_2 by done.
  apply Z.eqb_neq. simpl length. lia.
Qed.

(** ** Theorems *)

(** C8: the server together with the sample program weborf_auth_dav accepts
    every request but OPTIONS, from every address and with every method,
    DELETE and PUT included, and refuses OPTIONS: as long as page, address and
    method hold no line end the program sees exactly these three, but its
    first test is inverted.  The message has to be shorter than the program's
    array of [SIZE] bytes. *)
Theorem auth_dav_accepts {F} `{Posix F} conf (w : world F) sock str h u p pg me :
  socket_fits conf -> conf.(c_authsock) = Some sock -> mem_ok -> talks_to auth_dav str -> length str = SIZE ->
  auth_credentials w = Some (inr (u, p), w) -> has_header w.(w_conn) h -> 0 ∉ u -> 0 ∉ p ->
  cstr_at w.(w_conn).(req) w.(w_conn).(page) = Some pg ->
  cstr_at w.(w_conn).(req) w.(w_conn).(method) = Some me ->
  line pg -> line w.(w_conn).(ip_addr) -> line me ->
  (length (auth_message pg w.(w_conn).(ip_addr) me u p (h ++ CRLF)) < SIZE)%nat ->
  auth_check_request conf w = Some (if starts_with (bs "OPTIONS") me then -1 else 0, w).
Proof.
  intros Hf Hs Hm Ht Hstr Hcr Hh Hu Hp Hpg Hme Lp Li Lm Hl.
  assert (SIZE <= AUTHBUF)%nat as Hsz by (apply Nat.leb_le; reflexivity).
  rewrite (auth_check_run conf w sock h u p pg me) by (done || (eapply Nat.lt_le_trans; done)).
  unfold auth_message in *.
  set (rest := u ++ CRLF ++ p ++ CRLF ++ (h ++ CRLF) ++ CRLF) in *.
  assert (0 ∉ rest) as H0.
  { destruct Hh as (_ & _ & _ & _ & Hh). assert (0 ∉ CRLF) by by_decision.
    subst rest. rewrite !not_elem_of_app. tauto. }
  destruct (auth_dav_run str pg (ip_addr (w_conn w)) me rest Hstr Lp Li Lm H0 Hl) as (str' & E).
  rewrite (talks_to_run auth_dav str _ str' _ Ht (Nat.lt_le_incl _ _ Hl) E). unfold dav_decision.
  by destruct (starts_with _ me).
Qed.

(** The page is decoded before it is put into the message, and a line end in it
    ends the line: a client can write the address and the method that a program
    reads, whatever its own are. *)
Example page_forges_lines (h : bytes) :
  exists rest,
    auth_message (clean_page (bs "/dav%0d%0a::ffff:10.0.0.1%0d%0aPROPFIND")) (bs "::ffff:8.8.8.8") (bs "PUT") [] [] h
    = bs "/dav" ++ CRLF ++ bs "::ffff:10.0.0.1" ++ CRLF ++ bs "PROPFIND" ++ CRLF ++ rest.
Proof. eexists. reflexivity. Qed.

(** The comment of the program announces another policy. *)
Example dav_policy_differs :
  dav_policy (bs "::ffff:8.8.8.8") (bs "DELETE") = false /\ dav_decision (bs "DELETE") = true
  /\ dav_policy (bs "::ffff:10.0.0.1") (bs "OPTIONS") = true /\ dav_decision (bs "OPTIONS") = false.
Proof. done. Qed.

(** A message of [SIZE] bytes or more, which the server sends for a long header
    (it has [AUTHBUF] bytes), puts a NUL behind the array of the program. *)
Theorem auth_dav_overruns str msg :
  length str = SIZE -> length msg = SIZE -> auth_dav str (Some msg) = None /\ auth_film str (Some msg) = None.
Proof. intros Hs Hm. unfold auth_dav, auth_film. by rewrite receive_full. Qed.

(** A message with its three first lines, short enough for the array. *)
Record dav_message := mkdavmsg {
  dm_page : bytes;
  dm_ip : bytes;
  dm_method : bytes;
  dm_rest : bytes;
}.

Definition dav_text (m : dav_message) : bytes :=
  m.(dm_page) ++ CRLF ++ m.(dm_ip) ++ CRLF ++ m.(dm_method) ++ CRLF ++ m.(dm_rest).

Definition dav_message_ok (m : dav_message) : Prop :=
  line m.(dm_page) /\ line m.(dm_ip) /\ line m.(dm_method) /\ 0 ∉ m.(dm_rest) /\ (length (dav_text m) < SIZE)%nat.

(** The program answers one message after the other, each by its own method: no
    message is answered by what an earlier one has left in the array, and the
    program never ends. *)
Theorem dav_main_answers str ms :
  length str = SIZE -> Forall dav_message_ok ms ->
  dav_main true true true str (map (fun m => Client (Some (dav_text m))) ms)
  = Some ([PUnlink; PSocket; PUnlink; PBind; PListen]
          ++ flat_map (fun m => PAccept :: (if dav_decision m.(dm_method) then [] else [PReply (bs "c")]) ++ [PClose]) ms,
          None).
Proof.
  intros Hs Hm. unfold dav_main, bind_and_serve. cbn [negb].
  assert (serve_clients auth_dav str (map (fun m => Client (Some (dav_text m))) ms)
          = Some (flat_map (fun m => PAccept :: (if dav_decision m.(dm_method) then [] else [PReply (bs "c")]) ++ [PClose]) ms, None))
    as ->; [|done].
  revert str Hs. induction Hm as [|m ms (Hp & Hi & Hme & H0 & Hl) _ IH]; intros str Hs; [done|].
  cbn [map serve_clients flat_map]. destruct (auth_dav_run str _ _ _ _ Hs Hp Hi Hme H0 Hl) as (str' & E).
  fold (dav_text m) in E. rewrite E. cbn [mbind option_bind].
  rewrite IH by (rewrite <-Hs; by eapply auth_dav_length). cbn [mbind option_bind].
  do 2 f_equal. cbn [app]. by destruct (dav_decision (dm_method m)).
Qed.

(** Any client of the socket can stop both programs with one message: the NUL
    is written behind the array. *)
Theorem programs_stopped str cs msg :
  length str = SIZE -> length msg = SIZE ->
  film_main true true true str (Client (Some msg) :: cs) = None
  /\ dav_main true true true str (Client (Some msg) :: cs) = None.
Proof.
  intros Hs Hm. unfold film_main, dav_main, bind_and_serve. cbn [negb serve_clients].
  unfold auth_film, auth_dav. by rewrite !receive_full.
Qed.

(** weborf_auth looks for the address of the local network anywhere in the
    message: a header field that holds it is enough. *)
Theorem auth_film_bypass str msg :
  length str = SIZE -> (length msg < SIZE)%nat -> 0 ∉ msg -> contains local_prefix msg ->
  exists str', auth_film str (Some msg) = Some (str', []).
Proof.
  intros Hs Hm H0 Hc. unfold auth_film. rewrite receive_run by done. cbn [mbind option_bind].
  set (str' := msg ++ _).
  assert (length str' = SIZE) as L by (subst str'; rewrite length_app, length_cons, length_drop; lia).
  unfold load_n. rewrite L. cbn [SIZE Nat.leb Nat.add mbind option_bind].
  case_bool_decide; [|by eexists]. unfold strstr. subst str'. rewrite cstr_at_0 by done. cbn [mbind option_bind].
  apply find_sub_is_Some in Hc as [i ->]. by eexists.
Qed.

Section EmbeddedTheorems.
Context {F : Type} `{Posix F}.
Context (conf : weborf_configuration_t).

(** With the policy compiled in, a request from outside 10.x.x.x is accepted
    only for GET, POST, PROPFIND and OPTIONS, and with the right beginning of
    user name and password unless it is a GET or a POST of a page outside
    /foto/. *)
Theorem embedded_auth_outside (w w' : world F) sock u p pg me :
  conf.(c_authsock) = Some sock -> auth_credentials w = Some (inr (u, p), w) ->
  cstr_at w.(w_conn).(req) w.(w_conn).(page) = Some pg ->
  cstr_at w.(w_conn).(req) w.(w_conn).(method) = Some me ->
  starts_with (bs "::ffff:10.") w.(w_conn).(ip_addr) = false ->
  auth_check_request_embedded conf w = Some (0, w') ->
  w' = w
  /\ existsb (fun m => starts_with m me) [bs "GET"; bs "POST"; bs "PROPFIND"; bs "OPTIONS"] = true
  /\ (starts_with (bs "gentoo") u && starts_with (bs "lalalala") p = true
      \/ starts_with (bs "/foto/") pg = false
         /\ existsb (fun m => starts_with m me) [bs "GET"; bs "POST"] = true).
Proof.
  intros Hs Hcr Hpg Hme Hip E. unfold auth_check_request_embedded in E. rewrite Hs in E.
  rewrite (bind_run _ _ _ _ _ Hcr), conn_bind in E.
  rewrite (bind_run _ _ _ _ _ (cstring_run w _ _ Hpg)), (bind_run _ _ _ _ _ (cstring_run w _ _ Hme)) in E.
  apply bind_inv in E as (hd & w1 & E1 & E). apply cstring_keeps with (view := fun w => w) in E1; subst w1.
  injection E as E <-. split; [done|]. unfold c_auth, emb_check_password in E. rewrite Hip in E.
  cbn [existsb]. destruct (starts_with (bs "PROPFIND") me), (starts_with (bs "OPTIONS") me),
    (starts_with (bs "GET") me), (starts_with (bs "POST") me), (starts_with (bs "/foto/") pg),
    (starts_with (bs "gentoo") u && starts_with (bs "lalalala") p); cbn in E |- *; try discriminate E; auto.
Qed.
End EmbeddedTheorems.

(** Only the beginning of user name and password is compared. *)
Example emb_check_password_prefix : emb_check_password (bs "gentoo2") (bs "lalalala-wrong") = 0.
Proof. reflexivity. Qed.

(** ** Witnesses *)

(** What a read from the sample program returns. *)
Definition dav_reply (m : bytes) : Z :=
  match auth_dav (replicate SIZE 0) (Some m) with
  | Some (_, r) => Z.min 1 (Z.of_nat (length r))
  | None => -1
  end.

Definition dav_posix : Posix sample_fs := sample_auth true dav_reply.

(** [w] without an Authorization field: a DELETE from outside. *)
Definition sample_delete : world sample_fs :=
  let c := sample_conn (bs "/a") (bs "HTTP/1.1" ++ CRLF) in
  mkworld (set_req (bs "DEL" ++ drop 3 c.(req)) c) [] (mkbuf (replicate 16 0) 0 0 16) [] sample_fs0.

Lemma auth_dav_accepts_witness :
  @auth_check_request _ dav_posix sample_conf_auth sample_delete = Some (0, sample_delete).
Proof.
  apply (@auth_dav_accepts _ dav_posix sample_conf_auth sample_delete (bs "/run/auth.sock")
           (replicate SIZE 0) (bs "HTTP/1.1") [] [] (bs "/a") (bs "DEL")).
  - exact sample_socket.
  - reflexivity.
  - done.
  - split_and!; [done | done |]. intros m str' r Hl E. cbn. unfold dav_reply. by rewrite E.
  - reflexivity.
  - vm_compute. reflexivity.
  - exists (bs "DEL" ++ [0] ++ bs "/a" ++ [0]), []. split_and!; [reflexivity | reflexivity | by_decision].
  - by_decision.
  - by_decision.
  - reflexivity.
  - reflexivity.
  - split_and!; [done | by repeat constructor | by_decision].
  - split_and!; [done | by repeat constructor | by_decision].
  - split_and!; [done | by repeat constructor | by_decision].
  - apply Nat.ltb_lt. reflexivity.
Defined.

Lemma auth_dav_overruns_witness :
  auth_dav (replicate SIZE 0) (Some (replicate SIZE 65)) = None
  /\ auth_film (replicate SIZE 0) (Some (replicate SIZE 65)) = None.
Proof. apply (auth_dav_overruns (replicate SIZE 0) (replicate SIZE 65)); reflexivity. Defined.

Lemma auth_film_bypass_witness :
  exists str', auth_film (replicate SIZE 0)
                 (Some (bs "/film/x" ++ CRLF ++ bs "::1" ++ CRLF ++ bs "X: ::ffff:10.0.1"))
               = Some (str', []).
Proof.
  apply (auth_film_bypass (replicate SIZE 0)
           (bs "/film/x" ++ CRLF ++ bs "::1" ++ CRLF ++ bs "X: ::ffff:10.0.1"));
    [reflexivity | apply Nat.ltb_lt; reflexivity | by_decision |].
  by apply find_sub_is_Some.
Defined.

Lemma embedded_auth_outside_witness :
  let w := sample_delete in
  let g := mkworld (set_req (bs "GET" ++ drop 3 w.(w_conn).(req)) w.(w_conn)) [] w.(w_read) [] sample_fs0 in
  g = g
  /\ existsb (fun m => starts_with m (bs "GET")) [bs "GET"; bs "POST"; bs "PROPFIND"; bs "OPTIONS"] = true
  /\ (starts_with (bs "gentoo") [] && starts_with (bs "lalalala") [] = true
      \/ starts_with (bs "/foto/") (bs "/a") = false
         /\ existsb (fun m => starts_with m (bs "GET")) [bs "GET"; bs "POST"] = true).
Proof.
  intros w g.
  apply (embedded_auth_outside sample_conf_auth g g (bs "/run/auth.sock") [] [] (bs "/a") (bs "GET"));
    [reflexivity | vm_compute; reflexivity | reflexivity | reflexivity | reflexivity
    | vm_compute; reflexivity].
Defined.
