(* ===== verification/CacheDir.v ===== *)
(** * The cache of generated pages (cachedir.c)

    Listings and PROPFIND answers are kept in files of the cache directory,
    whose names identify the kind of page and the version of the directory it
    describes.  [cachedir] is the global variable of that name, [None] when
    the cache is not in use. *)
From S2P Require Export SendFile.

(** ** Definitions *)

(** The text the name is printed from. *)
Definition cached_name (dir : bytes) (uprefix : Z) (st : stat_t) : bytes :=
  dir ++ bs "/" ++ dec_u (to_u32 uprefix) ++ bs "-" ++ dec_u (to_u64 st.(st_ino)) ++ bs "-"
  ++ dec_u (to_u64 st.(st_dev)) ++ bs "-" ++ dec_s st.(st_mtime).

(** [snprintf] into a buffer of [PATH_LEN] bytes. *)
Definition cached_filename (dir : bytes) (uprefix : Z) (c : connection_t) : bytes :=
  take (PATH_LEN - 1) (cached_name dir uprefix c.(strfile_stat)).

(** The new value of [cachedir], or [exit(10)]. *)
Definition cache_init {F} `{Posix F} (dir : bytes) (fs : F) : option bytes :=
  match px_stat fs dir with
  | None => None
  | Some st => if negb (S_ISDIR st.(st_mode)) then None
               else if negb (px_access_rw fs dir) then None else Some dir
  end.

Section CacheDir.
Context {F : Type} `{Posix F}.
Context (conf : weborf_configuration_t).
Context (cachedir : option bytes).

Definition cache_is_enabled : bool := if cachedir is Some _ then true else false.

Definition cache_get_item_fd (uprefix : Z) : M F Z :=
  match cachedir with
  | None => mret (-1)
  | Some dir =>
      c ← conn;
      fs ← get_fs;
      let fd := px_open_rd fs (cached_filename dir uprefix c) in
      if fd =? -1 then mret (-1)
      else if px_flock fs fd false then mret fd else mret (-1)
  end.

Definition cache_get_item_fd_wr (uprefix : Z) : M F Z :=
  match cachedir with
  | None => mret (-1)
  | Some dir =>
      c ← conn;
      fd ← on_fs (fun fs => px_open_rdwr fs (cached_filename dir uprefix c));
      fs ← get_fs;
      if px_flock fs fd true then mret fd else mret (-1)
  end.

Definition cache_store_item (uprefix : Z) (content : bytes) : M F unit :=
  match cachedir with
  | None => mret tt
  | Some dir =>
      c ← conn;
      let fname := cached_filename dir uprefix c in
      fd ← on_fs (fun fs => px_open_wr fs fname);
      if fd =? -1 then mret tt
      else
        fs ← get_fs;
        if negb (px_flock fs fd true) then mret tt
        else
          n ← on_fs (fun fs => px_write fs fd content);
          if negb (n =? Z.of_nat (length content))
          then _ ← on_fs (fun fs => px_unlink fs fname); mret tt
          else mret tt
  end.

(** The result of [write_file] is not looked at. *)
Definition cache_send_item (uprefix : Z) : M F bool :=
  cachedfd ← cache_get_item_fd uprefix;
  if cachedfd =? -1 then mret false
  else
    c ← conn;
    let oldfd := c.(strfile_fd) in
    fs ← get_fs;
    _ ← upd (fun c => set_strfile_stat (px_fstat fs cachedfd) (set_strfile_fd cachedfd c));
    _ ← write_file conf;
    _ ← upd (set_strfile_fd oldfd);
    mret true.
End CacheDir.

(** ** Lemmas *)

Lemma cache_get_item_fd_keeps {F B} `{Posix F} (view : world F -> B) cachedir p :
  keeps view (cache_get_item_fd cachedir p).
Proof. unfold cache_get_item_fd. keeps. Qed.

#[export] Hint Resolve cache_get_item_fd_keeps : keeps.

(** Two texts cut at the same separator. *)
Lemma sep_inj (c : Z) a b r r' :
  c ∉ a -> c ∉ b -> a ++ c :: r = b ++ c :: r' -> a = b /\ r = r'.
Proof.
  intros Ha Hb E. pose proof (find_byte_app c a r Ha) as E1.
  rewrite E, find_byte_app in E1 by done. injection E1 as El.
  apply app_inj_1 in E as [-> E]; [|done]. by injection E.
Qed.

Lemma cached_name_inj dir p st p' st' :
  cached_name dir p st = cached_name dir p' st' ->
  to_u32 p = to_u32 p' /\ to_u64 st.(st_ino) = to_u64 st'.(st_ino)
  /\ to_u64 st.(st_dev) = to_u64 st'.(st_dev) /\ st.(st_mtime) = st'.(st_mtime).
Proof.
  unfold cached_name. intros E. do 2 apply app_inv_head in E.
  assert (forall w z, 0 <= w -> 0 <= to_u w z) as Hu by (intros; by apply to_u_range).
  assert (forall w z, 0 <= w -> 45 ∉ dec_u (to_u w z)) as H45
    by (intros; apply digits_not_in; [auto | unfold is_digit; lia]).
  cbn [app] in E. apply sep_inj in E as [E1 E]; [|by apply H45..].
  apply sep_inj in E as [E2 E]; [|by apply H45..].
  apply sep_inj in E as [E3 E4]; [|by apply H45..].
  apply dec_u_inj in E1, E2, E3; [|by apply Hu..]. by apply dec_s_inj in E4.
Qed.

(** A page is stored when the cache file can be opened and locked and takes it. *)
Lemma cache_store_item_run {F} `{Posix F} dir p content (w : world F) fd fs1 fs2 :
  px_open_wr w.(w_fs) (cached_filename dir p w.(w_conn)) = (fd, fs1) -> fd <> -1 ->
  px_flock fs1 fd true = true -> px_write fs1 fd content = (Z.of_nat (length content), fs2) ->
  cache_store_item (Some dir) p content w = Some (tt, with_fs w fs2).
Proof.
  intros Ho Hfd Hl Hw. unfold cache_store_item. rewrite conn_bind. cbv zeta.
  rewrite (bind_run _ _ _ _ _ (on_fs_run _ _)), Ho. cbn [fst snd].
  destruct (Z.eqb_spec fd (-1)); [done|]. rewrite get_fs_bind. cbn [with_fs w_fs]. rewrite Hl. cbn [negb].
  rewrite (bind_run _ _ _ _ _ (on_fs_run _ _)). cbn [with_fs w_fs]. rewrite Hw. cbn [fst snd].
  by rewrite Z.eqb_refl.
Qed.

(** ** Theorems *)

(** As long as the names fit [PATH_LEN] bytes, two pages share a cache file
    only if they are the same kind of page about the same inode of the same
    device with the same modification time: a changed directory, another
    directory or another selection of properties is never answered from the
    wrong file. *)
Theorem cached_filename_injective dir p p' (c c' : connection_t) :
  (length (cached_name dir p c.(strfile_stat)) < PATH_LEN)%nat ->
  (length (cached_name dir p' c'.(strfile_stat)) < PATH_LEN)%nat ->
  cached_filename dir p c = cached_filename dir p' c' ->
  to_u32 p = to_u32 p'
  /\ to_u64 c.(strfile_stat).(st_ino) = to_u64 c'.(strfile_stat).(st_ino)
  /\ to_u64 c.(strfile_stat).(st_dev) = to_u64 c'.(strfile_stat).(st_dev)
  /\ c.(strfile_stat).(st_mtime) = c'.(strfile_stat).(st_mtime).
Proof.
  intros H1 H2. unfold cached_filename. rewrite !take_ge by lia. apply cached_name_inj.
Qed.

(** A page is stored whole or not at all: when the cache file could be opened
    and locked, it ends up with exactly the content, or it is unlinked after
    a short write; the client, the connection and the answer are not touched. *)
Theorem cache_store_whole {F} `{Posix F} dir p content (w : world F) fd fs1 inv written :
  let fname := cached_filename dir p w.(w_conn) in
  px_open_wr w.(w_fs) fname = (fd, fs1) -> fd <> -1 -> px_flock fs1 fd true = true ->
  inv fs1 -> written fs1 = [] -> write_law fd inv written ->
  exists fs2,
    (written fs2 = content /\ cache_store_item (Some dir) p content w = Some (tt, with_fs w fs2))
    \/ cache_store_item (Some dir) p content w = Some (tt, with_fs w (snd (px_unlink fs2 fname))).
Proof.
  intros fname Ho Hfd Hl Hi He Hw. unfold cache_store_item. rewrite conn_bind. cbv zeta. fold fname.
  rewrite (bind_run _ _ _ _ _ (on_fs_run _ _)), Ho. cbn [fst snd].
  destruct (Z.eqb_spec fd (-1)); [done|]. rewrite get_fs_bind. cbn [with_fs w_fs]. rewrite Hl. cbn [negb].
  rewrite (bind_run _ _ _ _ _ (on_fs_run _ _)). cbn [with_fs w_fs].
  pose proof (Hw fs1 content Hi) as Hc. destruct (px_write fs1 fd content) as [k fs2].
  cbn [fst snd]. destruct Hc as (Hk & _ & Hc). rewrite He in Hc. cbn [app] in Hc.
  exists fs2. destruct (Z.eqb_spec k (Z.of_nat (length content))) as [->|Hne]; cbn [negb].
  - left. split; [by rewrite Hc, Nat2Z.id, take_ge | done].
  - right. by rewrite (bind_run _ _ _ _ _ (on_fs_run _ _)).
Qed.

Lemma cached_filename_injective_witness :
  let c := sample_conn [] [] in
  to_u32 0 = to_u32 0
  /\ to_u64 (st_ino (strfile_stat c)) = to_u64 (st_ino (strfile_stat c))
  /\ to_u64 (st_dev (strfile_stat c)) = to_u64 (st_dev (strfile_stat c))
  /\ st_mtime (strfile_stat c) = st_mtime (strfile_stat c).
Proof.
  apply (cached_filename_injective (bs "/var/cache") 0 0 (sample_conn [] []) (sample_conn [] []));
    [apply Nat.ltb_lt; reflexivity | apply Nat.ltb_lt; reflexivity | reflexivity].
Defined.

Lemma cache_store_whole_witness :
  let w := sample_world [] [] [] in
  let fname := cached_filename (bs "/c") 0 w.(w_conn) in
  exists fs2,
    (sf_written fs2 2 = bs "page" /\ cache_store_item (Some (bs "/c")) 0 (bs "page") w = Some (tt, with_fs w fs2))
    \/ cache_store_item (Some (bs "/c")) 0 (bs "page") w = Some (tt, with_fs w (snd (px_unlink fs2 fname))).
Proof.
  apply (cache_store_whole (bs "/c") 0 (bs "page") (sample_world [] [] []) 2
           (snd (sf_open_wr sample_fs0 (cached_filename (bs "/c") 0 (w_conn (sample_world [] [] [])))))
           (sf_open_fd 2) (fun fs => sf_written fs 2)).
  - reflexivity.
  - discriminate.
  - reflexivity.
  - eexists. split; [reflexivity | simpl; lia].
  - reflexivity.
  - apply sf_write_law.
Defined.
