(* ===== verification/Cgi.v ===== *)
(** * CGI (cgi.c)

    The child of a CGI request builds the environment from the request and
    executes the script ([cgi_execute_child]); the parent turns the output of
    the script into a response ([cgi_waitfor_child]).  The child works on a
    copy of the memory, so its changes to the request do not come back. *)
From S2P Require Export Request.

(** ** Definitions: the environment *)

Abbreviation environ := (list (bytes * bytes)).

(** [getenv] and [setenv] with overwriting; names that are empty or hold an =
    are refused. *)
Fixpoint env_get (name : bytes) (e : environ) : option bytes :=
  match e with
  | [] => None
  | (n, v) :: e => if bool_decide (n = name) then Some v else env_get name e
  end.

Fixpoint env_put (name value : bytes) (e : environ) : environ :=
  match e with
  | [] => [(name, value)]
  | (n, v) :: e => if bool_decide (n = name) then (name, value) :: e
                   else (n, v) :: env_put name value e
  end.

Definition setenv (name value : bytes) (e : environ) : environ :=
  if bool_decide (name = [] \/ chr "=" ∈ name) then e else env_put name value e.

(** The first [i < p_len] with a colon and a space at [param + i]. *)
Fixpoint find_colon (fuel : nat) (m : bytes) (param i p_len : nat) : option (option nat) :=
  match fuel with
  | O => Some None
  | S f =>
      if (i <? p_len)%nat then
        x ← load m (param + i);
        y ← (if x =? chr ":" then load m (param + i + 1) else Some 0);
        if (x =? chr ":") && (y =? chr " ") then Some (Some i)
        else find_colon f m param (S i) p_len
      else Some None
  end.

(** Size of [hparam]. *)
Definition HPARAM : nat := 200.

(** One header line, from [param] to the NUL that [strtok_r] put before [lasts]. *)
Definition cgi_header_var (m : bytes) (hparam : bytes) (param lasts : nat) (e : environ)
    : option (bytes * bytes * environ) :=
  let p_len := (lasts - param - 1)%nat in
  i ← find_colon p_len m param 0 p_len;
  match i with
  | None => Some (m, hparam, e)
  | Some i =>
      m ← store m (param + i) 0;
      m ← strToUpper m param;
      m ← strReplace m param (bs "-") (chr "_");
      name ← cstr_at m param;
      (* [memccpy] of at most 195 bytes, the NUL included *)
      hparam ← write_at hparam 5 (take 195 (name ++ [0]));
      hname ← cstr_at hparam 0;
      value ← cstr_at m (param + i + 2);
      Some (m, hparam, setenv hname value e)
  end.

Fixpoint cgi_header_vars (fuel : nat) (m hparam : bytes) (lasts : nat) (e : environ)
    : option (bytes * environ) :=
  match fuel with
  | O => None
  | S f =>
      '(m, param, lasts) ← strtok_r m lasts CRLF;
      match param with
      | None => Some (m, e)
      | Some param =>
          '(m, hparam, e) ← cgi_header_var m hparam param lasts e;
          cgi_header_vars f m hparam lasts e
      end
  end.

Definition cgi_set_http_env_vars (m : bytes) (http_param : nat) (hparam : bytes) (e : environ)
    : option (bytes * environ) :=
  '(m, param, lasts) ← strtok_r m http_param CRLF;
  (* [setenv] of a NULL value *)
  param ← param;
  v ← cstr_at m param;
  let e := setenv (bs "SERVER_PROTOCOL") v e in
  hparam ← write_at hparam 0 (bs "HTTP_");
  cgi_header_vars (S (length m)) m hparam lasts e.

Definition cgi_set_SERVER_ADDR_PORT (addr port : bytes) (e : environ) : environ :=
  setenv (bs "SERVER_PORT") port (setenv (bs "SERVER_ADDR") addr e).

Definition cgi_set_env_vars (c : connection_t) (m : bytes) (real_basedir : bytes) (e : environ)
    : option environ :=
  method ← cstr_at m c.(method);
  strfile ← cstr_at c.(strfile) 0;
  page_ ← cstr_at m c.(page);
  let e := setenv (bs "SERVER_SIGNATURE") SIGNATURE e in
  let e := setenv (bs "SERVER_SOFTWARE") SIGNATURE e in
  let e := setenv (bs "GATEWAY_INTERFACE") (bs "CGI/1.1") e in
  let e := setenv (bs "REQUEST_METHOD") method e in
  let e := setenv (bs "REDIRECT_STATUS") (bs "Ciao") e in
  let e := setenv (bs "SCRIPT_FILENAME") strfile e in
  let e := setenv (bs "DOCUMENT_ROOT") real_basedir e in
  let e := setenv (bs "REMOTE_ADDR") c.(ip_addr) e in
  let e := setenv (bs "SCRIPT_NAME") page_ e in
  let e := match env_get (bs "HTTP_HOST") e with
           | Some http_host => setenv (bs "SERVER_NAME") http_host e
           | None => e
           end in
  match c.(get_params) with
  | None =>
      let e := setenv (bs "REQUEST_URI") page_ e in
      Some (setenv (bs "QUERY_STRING") [] e)
  | Some g =>
      params ← cstr_at m g;
      let e := setenv (bs "QUERY_STRING") params e in
      let delim := to_s32 c.(page_len) in
      (* the NUL comes back after the call *)
      m ← store m (c.(page) + Z.to_nat delim) (chr "?");
      uri ← cstr_at m c.(page);
      Some (setenv (bs "REQUEST_URI") uri e)
  end.

Definition cgi_set_env_content_length (e : environ) : environ :=
  match env_get (bs "HTTP_CONTENT_LENGTH") e, env_get (bs "HTTP_CONTENT_TYPE") e with
  | Some content_l, Some content_type =>
      setenv (bs "CONTENT_TYPE") content_type (setenv (bs "CONTENT_LENGTH") content_l e)
  | _, _ => e
  end.

(** The directory of the script and its name in it. *)
Definition cgi_child_chdir (strfile : bytes) : option (bytes * bytes) :=
  i ← find_byte (chr "/") (reverse strfile);
  let last_slash := (length strfile - 1 - i)%nat in
  Some (take last_slash strfile, drop (S last_slash) strfile).

(** ** Definitions: the output of the script *)

(** [read] of at most [n] bytes from the pipe. *)
Definition pipe_read (n : nat) (ps : list bytes) : bytes * list bytes :=
  match ps with
  | [] => ([], [])
  | p :: ps => if (length p <=? n)%nat then (p, ps) else (take n p, drop n p :: ps)
  end.

Definition pipe_size (ps : list bytes) : nat := length (concat ps) + length ps.

Section Cgi.
Context {F : Type} `{Posix F}.
Context (conf : weborf_configuration_t).

Definition cgi_environ (c : connection_t) (real_basedir : bytes) : option environ :=
  '(m, e) ← cgi_set_http_env_vars c.(req) c.(http_param) (fresh HPARAM) [];
  let e := cgi_set_SERVER_ADDR_PORT px_sock_addr conf.(c_port) e in
  e ← cgi_set_env_vars c m real_basedir e;
  Some (cgi_set_env_content_length e).

(** Up to the call of [execl]. *)
Definition cgi_execute_child (c : connection_t) (stdin : option bytes)
    (executor real_basedir : bytes) : option cgi_exec :=
  strfile ← cstr_at c.(strfile) 0;
  let executor := if (length executor =? 0)%nat then strfile else executor in
  e ← cgi_environ c real_basedir;
  '(dir, filename) ← cgi_child_chdir strfile;
  Some (mkexec executor filename dir e stdin).

(** The loop that sends what follows the first read. *)
Fixpoint cgi_copy_loop (fuel : nat) (ps : list bytes) : M F unit :=
  match fuel with
  | O => lift None
  | S f =>
      let '(d, ps) := pipe_read (Z.to_nat MAXSCRIPTOUT + HEADBUF) ps in
      n ← sock_send d;
      if negb (n =? Z.of_nat (length d)) then mret tt
      else if (length d =? 0)%nat then mret tt else cgi_copy_loop f ps
  end.

(** The text of the header and the content in what was read first. *)
Definition split_output (buf : bytes) : option (option (bytes * bytes)) :=
  let m := buf ++ [0] in
  e ← strstr m 0 (CRLF ++ CRLF);
  match e with
  | None => Some None
  | Some e =>
      m ← store m (e + 2) 0;
      h ← cstr_at m 0;
      Some (Some (h, drop (e + 4) buf))
  end.

Definition cgi_status (header : bytes) : Z :=
  match find_sub (bs "Status: ") header with
  | None => 200
  | Some i => to_s32 (to_u32 (strtoul (drop (i + 8) header) 0))
  end.

Definition cgi_waitfor_child (ps : list bytes) : M F Z :=
  if negb (px_malloc (MAXSCRIPTOUT + Z.of_nat HEADBUF)) then mret ERR_NOMEM
  else
    let '(buf, ps) := pipe_read (Z.to_nat MAXSCRIPTOUT + HEADBUF - 1) ps in
    out ← lift (split_output buf);
    match out with
    | Some (header, content) =>
        let status := cgi_status header in
        _ ← upd (set_keep_alive false);
        _ ← send_http_header status None (Some header) true (-1);
        _ ← (if (length content =? 0)%nat then mret tt else _ ← sock_send content; mret tt);
        _ ← cgi_copy_loop (S (pipe_size ps)) ps;
        mret 0
    | None => _ ← send_err 500 (bs "Internal server error"); mret 0
    end.

Definition exec_page (executor : bytes) (post_param : string_t) (real_basedir : bytes) : M F Z :=
  c ← conn;
  fs ← get_fs;
  stdin ← lift (match post_param.(sp_data) with
                | None => Some None
                | Some d => d ← load_n d 0 (Z.to_nat post_param.(sp_len)); Some (Some d)
                end);
  ex ← lift (cgi_execute_child c stdin executor real_basedir);
  match px_script fs ex with
  | None => mret ERR_NOMEM
  | Some ps => cgi_waitfor_child ps
  end.
End Cgi.

(** ** Specifications *)

(** The variables that the server sets. *)
Definition cgi_names : list bytes :=
  [bs "SERVER_PROTOCOL"; bs "SERVER_ADDR"; bs "SERVER_PORT"; bs "SERVER_SIGNATURE";
   bs "SERVER_SOFTWARE"; bs "GATEWAY_INTERFACE"; bs "REQUEST_METHOD"; bs "REDIRECT_STATUS";
   bs "SCRIPT_FILENAME"; bs "DOCUMENT_ROOT"; bs "REMOTE_ADDR"; bs "SCRIPT_NAME";
   bs "SERVER_NAME"; bs "REQUEST_URI"; bs "QUERY_STRING"; bs "CONTENT_LENGTH"; bs "CONTENT_TYPE"].

Definition name_ok (n : bytes) : Prop := starts_with (bs "HTTP_") n = true \/ In n cgi_names.

Definition environ_ok (e : environ) : Prop := Forall (fun nv => name_ok nv.1) e.

(** Those whose values are the server's own, for a script below [b]. *)
Definition server_variables {F} `{Posix F} (conf : weborf_configuration_t) (c : connection_t) (b : bytes)
    : list (bytes * option bytes) :=
  [(bs "SCRIPT_FILENAME", cstr_at c.(strfile) 0); (bs "DOCUMENT_ROOT", Some b);
   (bs "REMOTE_ADDR", Some c.(ip_addr)); (bs "SERVER_ADDR", Some px_sock_addr);
   (bs "SERVER_PORT", Some conf.(c_port)); (bs "SERVER_SIGNATURE", Some SIGNATURE);
   (bs "SERVER_SOFTWARE", Some SIGNATURE); (bs "GATEWAY_INTERFACE", Some (bs "CGI/1.1"));
   (bs "REDIRECT_STATUS", Some (bs "Ciao"))].

(** The status that the header lines of a script ask for: 200 when they do not
    name one, or the number, in decimal, that follows the first "Status: ". *)
Inductive chooses_status (header : bytes) : Z -> Prop :=
  | status_default : ~ contains (bs "Status: ") header -> chooses_status header 200
  | status_chosen a code rest :
      header = (a ++ bs "Status: ") ++ dec_u code ++ rest ->
      find_sub (bs "Status: ") (a ++ bs "Status: ") = Some (length a) ->
      0 <= code < 2 ^ 31 -> number_stop rest -> chooses_status header code.

(** ** Lemmas: the environment *)

Lemma env_get_put_eq n v e : env_get n (env_put n v e) = Some v.
Proof.
  induction e as [|[n' v'] e IH]; simpl; [by rewrite bool_decide_eq_true_2|].
  case_bool_decide as E; simpl; [by rewrite bool_decide_eq_true_2|]. by rewrite bool_decide_eq_false_2.
Qed.

Lemma env_get_put_ne n n' v e : n <> n' -> env_get n (env_put n' v e) = env_get n e.
Proof.
  intros Hn. induction e as [|[m w] e IH]; simpl; [by rewrite bool_decide_eq_false_2|].
  case_bool_decide as E; simpl.
  - subst m. by rewrite !bool_decide_eq_false_2.
  - by rewrite IH.
Qed.

Lemma env_get_setenv_eq n v e : n <> [] -> chr "=" ∉ n -> env_get n (setenv n v e) = Some v.
Proof. intros. unfold setenv. rewrite bool_decide_eq_false_2 by tauto. apply env_get_put_eq. Qed.

Lemma env_get_setenv_ne n n' v e : n <> n' -> env_get n (setenv n' v e) = env_get n e.
Proof. intros. unfold setenv. case_bool_decide; [done|]. by apply env_get_put_ne. Qed.

Lemma setenv_ok n v e : name_ok n -> environ_ok e -> environ_ok (setenv n v e).
Proof.
  unfold setenv, environ_ok. intros Hn He. case_bool_decide; [done|].
  induction He as [|[m w] e Hm He IH]; simpl; [by apply Forall_singleton|].
  case_bool_decide; apply Forall_cons; done.
Qed.

(** [hparam] always begins with the prefix. *)
Definition prefixed (hparam : bytes) : Prop := exists r, hparam = bs "HTTP_" ++ r.

Lemma prefixed_cstr h n : prefixed h -> cstr_at h 0 = Some n -> starts_with (bs "HTTP_") n = true.
Proof.
  intros [r ->] E. apply cstr_at_prefix in E. rewrite drop_0 in E. subst n. reflexivity.
Qed.

Lemma prefixed_write h x h' : prefixed h -> write_at h 5 x = Some h' -> prefixed h'.
Proof.
  intros [r ->]. unfold write_at. destruct (_ <=? _)%nat; [|done]. intros [= <-].
  eexists. reflexivity.
Qed.

Lemma cgi_header_var_ok m hparam param lasts e m' hparam' e' :
  cgi_header_var m hparam param lasts e = Some (m', hparam', e') ->
  prefixed hparam -> environ_ok e -> prefixed hparam' /\ environ_ok e'.
Proof.
  unfold cgi_header_var. intros E Hp He.
  destruct (find_colon _ _ _ _ _) as [[i|]|]; simplify_option_eq; [|done].
  repeat (case_match || simplify_option_eq).
  match goal with H : write_at _ _ _ = Some _ |- _ => pose proof (prefixed_write _ _ _ Hp H) as Hp' end.
  split; [done|]. apply setenv_ok; [|done]. left. by eapply prefixed_cstr.
Qed.

Lemma cgi_header_vars_ok fuel : forall m hparam lasts e m' e',
  cgi_header_vars fuel m hparam lasts e = Some (m', e') ->
  prefixed hparam -> environ_ok e -> environ_ok e'.
Proof.
  induction fuel as [|f IH]; intros m hparam lasts e m' e' E Hp He; [done|].
  cbn [cgi_header_vars] in E.
  destruct (strtok_r m lasts CRLF) as [[[m1 [param|]] l1]|]; [|by simplify_option_eq|done].
  cbn [mbind option_bind] in E.
  destruct (cgi_header_var m1 hparam param l1 e) as [[[m2 h2] e2]|] eqn:E2; [|done].
  cbn [mbind option_bind] in E. apply cgi_header_var_ok in E2 as [Hp2 He2]; [|done..].
  by eapply IH.
Qed.

(** The names of the variables are closed: one of the list, by computation. *)
Ltac listed := right; simpl; tauto.

Lemma cgi_set_http_env_vars_ok m p h m' e :
  cgi_set_http_env_vars m p h [] = Some (m', e) -> environ_ok e.
Proof.
  unfold cgi_set_http_env_vars. intros E.
  destruct (strtok_r m p CRLF) as [[[m1 [param|]] l1]|]; [|done..]. cbn [mbind option_bind] in E.
  destruct (cstr_at m1 param) as [v|]; [|done]. cbn [mbind option_bind] in E.
  destruct (write_at h 0 (bs "HTTP_")) as [h'|] eqn:Eh; [|done]. cbn [mbind option_bind] in E.
  eapply cgi_header_vars_ok; [exact E | |].
  - unfold write_at in Eh. destruct (_ <=? _)%nat; [|done]. injection Eh as <-. eexists. reflexivity.
  - apply setenv_ok; [listed | apply Forall_nil_2].
Qed.

Lemma cgi_set_env_vars_ok c m b e e' :
  cgi_set_env_vars c m b e = Some e' -> environ_ok e -> environ_ok e'.
Proof.
  unfold cgi_set_env_vars. intros E He.
  destruct (cstr_at m (method c)); [|done]. cbn [mbind option_bind] in E.
  destruct (cstr_at (strfile c) 0); [|done]. cbn [mbind option_bind] in E.
  destruct (cstr_at m (page c)); [|done]. cbn [mbind option_bind] in E. cbv zeta in E.
  destruct (env_get (bs "HTTP_HOST") _); (destruct (get_params c) as [g|];
    [destruct (cstr_at m g); [|done]; cbn [mbind option_bind] in E;
     destruct (store m _ _); [|done]; cbn [mbind option_bind] in E;
     destruct (cstr_at _ (page c)); [|done]; cbn [mbind option_bind] in E|]);
    injection E as <-; repeat (apply setenv_ok; [listed|]); done.
Qed.

Section CgiLemmas.
Context {F : Type} `{Posix F}.
Context (conf : weborf_configuration_t).

(** The steps of [cgi_environ]. *)
Lemma cgi_environ_inv c b e :
  cgi_environ conf c b = Some e ->
  exists m e1 e2, environ_ok e1
    /\ cgi_set_env_vars c m b (cgi_set_SERVER_ADDR_PORT px_sock_addr conf.(c_port) e1) = Some e2
    /\ e = cgi_set_env_content_length e2.
Proof.
  unfold cgi_environ. intros E.
  destruct (cgi_set_http_env_vars _ _ _ _) as [[m e1]|] eqn:E1; [|done]. cbn [mbind option_bind] in E.
  destruct (cgi_set_env_vars _ _ _ _) as [e2|] eqn:E2; [|done]. cbn [mbind option_bind] in E.
  injection E as <-. exists m, e1, e2. split_and!; [|done..]. by eapply cgi_set_http_env_vars_ok.
Qed.

Lemma content_length_other n e :
  n <> bs "CONTENT_LENGTH" -> n <> bs "CONTENT_TYPE" ->
  env_get n (cgi_set_env_content_length e) = env_get n e.
Proof.
  intros H1 H2. unfold cgi_set_env_content_length.
  destruct (env_get (bs "HTTP_CONTENT_LENGTH") e), (env_get (bs "HTTP_CONTENT_TYPE") e); try done.
  by rewrite !env_get_setenv_ne.
Qed.
End CgiLemmas.

(** ** Lemmas: the output of a script *)

Section CgiOutput.
Context {F : Type} `{Posix F}.

Lemma cgi_copy_loop_run fuel : forall ps (w : world F),
  client_reads -> Forall (fun p => p <> []) ps -> (pipe_size ps < fuel)%nat ->
  cgi_copy_loop fuel ps w = Some (tt, sent w (concat ps)).
Proof.
  set (N := (Z.to_nat MAXSCRIPTOUT + HEADBUF)%nat). assert (0 < N)%nat as HN by (subst N; unfold HEADBUF; lia).
  induction fuel as [|f IH]; intros ps w Hc Hp Hf; [lia|]. cbn [cgi_copy_loop]. fold N.
  destruct ps as [|p ps]; cbn [pipe_read].
  - rewrite (bind_run _ _ _ _ _ (sock_send_all _ w Hc)). done.
  - inversion Hp as [|? ? Hne Hps]; subst.
    assert (length p <> 0)%nat as Lp by (by destruct p).
    unfold pipe_size in Hf. cbn [concat length] in Hf. rewrite length_app in Hf.
    destruct (Nat.leb_spec (length p) N).
    + rewrite (bind_run _ _ _ _ _ (sock_send_all _ w Hc)), Z.eqb_refl. cbn [negb].
      destruct (Nat.eqb_spec (length p) 0); [lia|].
      rewrite IH, sent_sent by (done || (unfold pipe_size; lia)). done.
    + rewrite (bind_run _ _ _ _ _ (sock_send_all _ w Hc)), Z.eqb_refl. cbn [negb].
      assert (length (take N p) = N) as LN by (rewrite length_take; lia).
      destruct (Nat.eqb_spec (length (take N p)) 0); [lia|].
      rewrite IH, sent_sent.
      * cbn [concat]. by rewrite app_assoc, take_drop.
      * done.
      * constructor; [|done]. intros E. apply (f_equal length) in E. rewrite length_drop in E.
        cbn [length] in E. lia.
      * unfold pipe_size. cbn [concat length]. rewrite length_app, length_drop. lia.
Qed.

(** The header [h] and the content of an output. *)
Definition script_output (h content : bytes) : bytes := h ++ CRLF ++ CRLF ++ content.

Lemma split_output_run h content :
  0 ∉ h -> find_sub (CRLF ++ CRLF) (h ++ CRLF ++ CRLF) = Some (length h) ->
  split_output (script_output h content) = Some (Some (h ++ CRLF, content)).
Proof.
  intros H0 Hf. unfold split_output, script_output.
  assert (exists s t, cstr_at ((h ++ CRLF ++ CRLF ++ content) ++ [0]) 0 = Some ((h ++ CRLF ++ CRLF) ++ s)
                      /\ content ++ [0] = s ++ 0 :: t) as (s & t & Es & Et).
  { destruct (cstr_prefix_split (content ++ [0])) as [E | [t E]].
    - exfalso. apply (cstr_prefix_clean (content ++ [0])). rewrite E. set_solver.
    - exists (cstr_prefix (content ++ [0])), t. split; [|done].
      replace ((h ++ CRLF ++ CRLF ++ content) ++ [0])
        with (((h ++ CRLF ++ CRLF) ++ cstr_prefix (content ++ [0])) ++ 0 :: t)
        by (rewrite <-app_assoc, <-E, <-!app_assoc; done).
      apply cstr_at_0. rewrite !not_elem_of_app.
      split_and!; [done | by_decision | by_decision | apply cstr_prefix_clean]. }
  assert (strstr ((h ++ CRLF ++ CRLF ++ content) ++ [0]) 0 (CRLF ++ CRLF) = Some (Some (length h))) as ->.
  { unfold strstr. rewrite Es. cbn [mbind option_bind].
    by rewrite (find_sub_app_l _ _ s _ Hf). }
  cbn [mbind option_bind].
  assert (store ((h ++ CRLF ++ CRLF ++ content) ++ [0]) (length h + 2) 0
          = Some ((h ++ CRLF) ++ 0 :: LF :: content ++ [0])) as ->.
  { replace ((h ++ CRLF ++ CRLF ++ content) ++ [0]) with ((h ++ CRLF) ++ CR :: LF :: content ++ [0])
      by (by rewrite <-!app_assoc).
    apply store_mid_eq. by rewrite length_app. }
  cbn [mbind option_bind]. rewrite cstr_at_0 by (rewrite not_elem_of_app; split; [done | by_decision]).
  cbn [mbind option_bind]. do 3 f_equal.
  replace (h ++ CRLF ++ CRLF ++ content) with ((h ++ CRLF ++ CRLF) ++ content) by (by rewrite <-!app_assoc).
  rewrite drop_app_length'; [done|]. by rewrite !length_app.
Qed.

(** The connection after a script: it will be closed. *)
Definition closing (w : world F) : world F :=
  mkworld (set_keep_alive false w.(w_conn)) w.(w_out) w.(w_read) w.(w_net) w.(w_fs).

Lemma cgi_waitfor_child_run h content ps (w : world F) :
  mem_ok -> client_reads -> 0 ∉ h ->
  find_sub (CRLF ++ CRLF) (h ++ CRLF ++ CRLF) = Some (length h) ->
  Forall (fun p => p <> []) ps ->
  (length (script_output h content) < Z.to_nat MAXSCRIPTOUT + HEADBUF)%nat ->
  let status := cgi_status (h ++ CRLF) in
  let head := http_head (closing w).(w_conn) status None (Some (h ++ CRLF)) true (-1) in
  cgi_waitfor_child (script_output h content :: ps) w
  = if (length head <=? HEADBUF)%nat then
      Some (0, sent (set_status status (closing w))
                 ((if (length head =? HEADBUF)%nat then take (HEADBUF - 1) head ++ [0] else head)
                  ++ content ++ concat ps))
    else None.
Proof.
  intros Hm Hc H0 Hf Hp Hl status head. unfold cgi_waitfor_child. rewrite Hm. cbn [negb pipe_read].
  destruct (Nat.leb_spec (length (script_output h content)) (Z.to_nat MAXSCRIPTOUT + HEADBUF - 1)); [|lia].
  rewrite (lift_bind_Some _ _ _ _ (split_output_run h content H0 Hf)). cbn beta iota. fold status.
  rewrite (bind_run _ _ w tt (closing w)) by done.
  unfold mbind at 1, M_bind at 1. rewrite (send_http_header_run status None (Some (h ++ CRLF)) true (-1)) by done.
  cbv zeta. fold head. destruct (Nat.leb_spec (length head) HEADBUF); [|done].
  set (data := if (length head =? HEADBUF)%nat then _ else _).
  rewrite Hc, Nat2Z.id, (take_ge data) by lia.
  rewrite (bind_run _ _ _ tt (sent (set_status status (closing w)) (data ++ content))).
  2:{ destruct (Nat.eqb_spec (length content) 0) as [E|].
      - apply length_zero_iff_nil in E as ->. by rewrite app_nil_r.
      - rewrite (bind_run _ _ _ _ _ (sock_send_all _ _ Hc)). by rewrite mret_run, sent_sent. }
  rewrite (bind_run _ _ _ _ _ (cgi_copy_loop_run (S (pipe_size ps)) ps _ Hc Hp ltac:(lia))).
  by rewrite mret_run, sent_sent, <-app_assoc.
Qed.
End CgiOutput.

(** Looks a closed name up in a chain of [setenv]. *)
Ltac env_lookup :=
  repeat match goal with
  | |- context [env_get ?n (setenv ?n _ _)] =>
      rewrite (env_get_setenv_eq n) by (done || by_decision)
  | |- context [env_get ?n (setenv ?n' _ _)] => rewrite (env_get_setenv_ne n n') by done
  end.

(** The variables of the server keep their values. *)
Lemma server_variables_set {F} `{Posix F} conf c m b e1 e2 :
  cgi_set_env_vars c m b (cgi_set_SERVER_ADDR_PORT px_sock_addr conf.(c_port) e1) = Some e2 ->
  Forall (fun nv => env_get nv.1 (cgi_set_env_content_length e2) = nv.2) (server_variables conf c b).
Proof.
  intros E. unfold server_variables. rewrite !Forall_cons. cbn [fst snd].
  rewrite !content_length_other by done. unfold cgi_set_env_vars, cgi_set_SERVER_ADDR_PORT in E.
  destruct (cstr_at m (method c)); [|done]. cbn [mbind option_bind] in E.
  destruct (cstr_at (strfile c) 0); [|done]. cbn [mbind option_bind] in E.
  destruct (cstr_at m (page c)); [|done]. cbn [mbind option_bind] in E. cbv zeta in E.
  destruct (env_get (bs "HTTP_HOST") _); (destruct (get_params c) as [g|];
    [destruct (cstr_at m g); [|done]; cbn [mbind option_bind] in E;
     destruct (store m _ _); [|done]; cbn [mbind option_bind] in E;
     destruct (cstr_at _ (page c)); [|done]; cbn [mbind option_bind] in E|]);
    injection E as <-; env_lookup; split_and!; done || constructor.
Qed.

(** The status is read as it is chosen. *)
Lemma cgi_status_chosen header code : chooses_status header code -> cgi_status header = code.
Proof.
  unfold cgi_status. intros [Hn | a n rest -> Hf Hc Hr].
  - apply find_sub_None in Hn. by rewrite Hn.
  - rewrite (find_sub_app_l _ _ (dec_u n ++ rest) _ Hf), drop_app_length'
      by (rewrite length_app; reflexivity).
    rewrite strtoul_dec_u by (done || auto with lia).
    unfold to_s, to_u. change (2 ^ (32 - 1)) with (2 ^ 31). rewrite !(Z.mod_small n) by lia.
    by destruct (Z.ltb_spec n (2 ^ 31)); [|lia].
Qed.

(** ** Theorems *)

Section CgiTheorems.
Context {F : Type} `{Posix F}.
Context (conf : weborf_configuration_t).

(** C36: of the names of a script's variables a client chooses only what follows
    HTTP_: whatever its header holds, every variable is one of the fixed list or
    begins with that prefix, and nothing is inherited from the server.  Nor does
    it choose what tells a script what to run and for whom: these variables
    have the values of the server and of the connection. *)
Theorem cgi_environ_confined c b e :
  cgi_environ conf c b = Some e ->
  Forall (fun nv => starts_with (bs "HTTP_") nv.1 = true \/ In nv.1 cgi_names) e
  /\ Forall (fun nv => env_get nv.1 e = nv.2) (server_variables conf c b).
Proof.
  intros (m & e1 & e2 & H1 & H2 & ->)%cgi_environ_inv. split; [|by eapply server_variables_set].
  assert (environ_ok e2) as He.
  { eapply cgi_set_env_vars_ok; [exact H2|]. unfold cgi_set_SERVER_ADDR_PORT.
    repeat (apply setenv_ok; [listed|]). done. }
  unfold cgi_set_env_content_length.
  destruct (env_get (bs "HTTP_CONTENT_LENGTH") e2), (env_get (bs "HTTP_CONTENT_TYPE") e2);
    repeat (apply setenv_ok; [listed|]); done.
Qed.

(** C37: the output of a script becomes the response: the status is the one its
    header lines choose, 200 if they choose none, its lines are the extra lines
    of the header, and everything follows that the script prints after the empty
    line, first read or later; the connection will be closed because the length
    is not known. *)
Theorem cgi_output_sent h content ps status (w : world F) :
  mem_ok -> client_reads -> 0 ∉ h ->
  find_sub (CRLF ++ CRLF) (h ++ CRLF ++ CRLF) = Some (length h) ->
  Forall (fun p => p <> []) ps ->
  (length (script_output h content) < Z.to_nat MAXSCRIPTOUT + HEADBUF)%nat ->
  chooses_status (h ++ CRLF) status ->
  let head := http_head (closing w).(w_conn) status None (Some (h ++ CRLF)) true (-1) in
  (length head < HEADBUF)%nat ->
  cgi_waitfor_child (script_output h content :: ps) w
  = Some (0, sent (set_status status (closing w)) (head ++ content ++ concat ps)).
Proof.
  intros Hm Hc H0 Hf Hp Hl Hs head Hh. rewrite cgi_waitfor_child_run by done.
  rewrite (cgi_status_chosen _ _ Hs). fold head.
  by destruct (Nat.leb_spec (length head) HEADBUF), (Nat.eqb_spec (length head) HEADBUF); try lia.
Qed.

(** A script may print more header lines than [HEADBUF] bytes: the header
    that is sent is then read past the end of its buffer (the model is stuck). *)
Theorem cgi_long_header_overreads h content ps (w : world F) :
  mem_ok -> client_reads -> 0 ∉ h ->
  find_sub (CRLF ++ CRLF) (h ++ CRLF ++ CRLF) = Some (length h) ->
  Forall (fun p => p <> []) ps ->
  (length (script_output h content) < Z.to_nat MAXSCRIPTOUT + HEADBUF)%nat ->
  (HEADBUF < length h)%nat ->
  cgi_waitfor_child (script_output h content :: ps) w = None.
Proof.
  intros Hm Hc H0 Hf Hp Hl Hh. rewrite cgi_waitfor_child_run by done.
  destruct (Nat.leb_spec (length (http_head (w_conn (closing w)) (cgi_status (h ++ CRLF)) None
    (Some (h ++ CRLF)) true (-1))) HEADBUF) as [Hle|]; [|done].
  unfold http_head in Hle. rewrite ?length_app in Hle. cbn [default id] in Hle.
  rewrite ?length_app in Hle. lia.
Qed.
End CgiTheorems.

(** ** Witnesses *)

(** A script under /srv, asked for with one header field. *)
Definition sample_cgi_conn : connection_t :=
  set_strfile (bs "/srv/x.php" ++ [0])
    (sample_conn (bs "/x.php") (bs "HTTP/1.1" ++ CRLF ++ bs "X-Remote-Addr: me" ++ CRLF)).

Definition sample_environ : environ :=
  default [] (cgi_environ sample_conf sample_cgi_conn (bs "/srv")).

Lemma sample_environ_ok : cgi_environ sample_conf sample_cgi_conn (bs "/srv") = Some sample_environ.
Proof. vm_compute. reflexivity. Qed.

Lemma cgi_environ_confined_witness :
  Forall (fun nv => starts_with (bs "HTTP_") nv.1 = true \/ In nv.1 cgi_names) sample_environ
  /\ Forall (fun nv => env_get nv.1 sample_environ = nv.2) (server_variables sample_conf sample_cgi_conn (bs "/srv")).
Proof.
  apply (cgi_environ_confined sample_conf sample_cgi_conn (bs "/srv")). apply sample_environ_ok.
Defined.

(** What the client calls Proxy is the variable that programs take for their
    own configuration. *)
Example client_sets_proxy :
  let c := set_strfile (bs "/srv/x.php" ++ [0])
             (sample_conn (bs "/x.php") (bs "HTTP/1.1" ++ CRLF ++ bs "Proxy: evil" ++ CRLF)) in
  (e ← cgi_environ sample_conf c (bs "/srv"); env_get (bs "HTTP_PROXY") e) = Some (bs "evil").
Proof. vm_compute. reflexivity. Qed.

Lemma cgi_output_sent_witness :
  let h := bs "Status: 404 Gone" in
  let w := sample_world (bs "/x.php") [] [] in
  let head := http_head (closing w).(w_conn) 404 None (Some (h ++ CRLF)) true (-1) in
  cgi_waitfor_child (script_output h (bs "no ") :: [bs "page"]) w
  = Some (0, sent (set_status 404 (closing w)) (head ++ bs "no " ++ concat [bs "page"])).
Proof.
  apply (cgi_output_sent (bs "Status: 404 Gone") (bs "no ") [bs "page"] 404 (sample_world (bs "/x.php") [] []));
    [done | done | by_decision | reflexivity | by repeat constructor | | | apply Nat.ltb_lt; reflexivity].
  - change (length (script_output (bs "Status: 404 Gone") (bs "no "))) with 23%nat. unfold HEADBUF. lia.
  - apply (status_chosen _ [] 404 (bs " Gone" ++ CRLF)); done.
Defined.

Lemma cgi_long_header_overreads_witness :
  cgi_waitfor_child (script_output (replicate 1100 (chr "x")) [] :: []) (sample_world (bs "/x.php") [] [])
  = None.
Proof.
  apply (cgi_long_header_overreads (replicate 1100 (chr "x")) [] [] (sample_world (bs "/x.php") [] []));
    [done | done | | by vm_compute | by constructor | |].
  - intros [E _]%elem_of_replicate. discriminate E.
  - unfold script_output. rewrite !length_app, length_replicate. cbn [length CRLF]. unfold HEADBUF, MAXSCRIPTOUT. lia.
  - rewrite length_replicate. unfold HEADBUF. lia.
Defined.
