(* ===== verification/CgiPipes.v ===== *)
(** * A script and the worker that waits for it (cgi.c)

    [exec_page] joins a worker and a script by two pipes: the worker writes the
    body of a POST to the script, then reads the script's output and sends it
    to the client, then waits for the script's end.  A pipe holds [CAP] bytes and
    its ends block; so does a client that does not read.  Which processes hold
    which end open decides who is told of the end of the other.  Here the worker
    and all the processes that hold the output are a step relation; a script is
    an arbitrary program, which may run for ever, fork, give up its alarm or its
    output.  That everybody who can go on at some time does so is a fairness of
    runs. *)
From stdpp Require Import relations.
From S2P Require Export Cgi.

(** ** Definitions *)

(** What a program in a state of [X] does next: the system calls that matter
    to the pipes, and [Work], which is anything else.  A read gives at most
    [n] bytes, a write says whether it succeeded; SIGPIPE is ignored, as the
    worker has set it before [fork]. *)
Inductive action (X : Type) :=
  | Exit
  | Work (x : X)
  | Read (n : nat) (k : bytes -> X)
  | Write (d : bytes) (k : bool -> X)
  | CloseOutput (x : X)
  | Disarm (x : X)
  | Fork (child x : X).
Arguments Exit {X}.
Arguments Work {X} x.
Arguments Read {X} n k.
Arguments Write {X} d k.
Arguments CloseOutput {X} x.
Arguments Disarm {X} x.
Arguments Fork {X} child x.

(** A process that holds the pipe of the output.  The worker waits for
    [p_main]; [p_own] are those whose standard streams are the pipes of this
    request; [p_left] is what is left of a write that has begun. *)
Record proc (X : Type) := mkproc {
  p_main : bool;
  p_own : bool;
  p_out : bool;
  p_armed : bool;
  p_at : X;
  p_left : option bytes;
}.
Arguments mkproc {X}.
Arguments p_main {X}.
Arguments p_own {X}.
Arguments p_out {X}.
Arguments p_armed {X}.
Arguments p_at {X}.
Arguments p_left {X}.

(** The worker in [cgi_waitfor_child]: at [kill], for want of memory; in
    [write] with what is left of the body; in the first [read], or in a later
    one; sending to the client the head with what came with it, a later part, or
    an error page; in [waitpid]; returned. *)
Inductive parent_pc :=
  | PKill
  | PWrite (rest : bytes)
  | PRead (first : bool)
  | PSendHead
  | PSendRest
  | PSendErr
  | PWait
  | PDone.

(** [ipipe] and [wpipe] are the bytes in the pipes, [listening] whether the
    worker holds [wpipe[0]]. *)
Record cgi_sys (X : Type) := mksys {
  parent : parent_pc;
  procs : list (proc X);
  ipipe : bytes;
  wpipe : bytes;
  listening : bool;
}.
Arguments mksys {X}.
Arguments parent {X}.
Arguments procs {X}.
Arguments ipipe {X}.
Arguments wpipe {X}.
Arguments listening {X}.

(** Who makes a step. *)
Inductive actor := Worker | Client | Script | Alarm.

(** Whether there is a header in what was read first. *)
Definition has_head (d : bytes) : bool :=
  match split_output d with Some (Some _) => true | _ => false end.

Section Pipes.
Context {X : Type} (act : X -> action X).
(** The size of a pipe, and whether the script's input is one. *)
Context (CAP : nat) (post : bool).
Implicit Type (p : proc X).

(** The script after [fork], its alarm set; [others] are the processes of
    other workers that inherited the output, which was not closed on exec. *)
Definition cgi_start (mem : bool) (body : option bytes) (x : X) (others : list (proc X)) : cgi_sys X :=
  mksys (if mem then if body is Some d then PWrite d else PRead true else PKill)
    (mkproc true true true true x None :: others) [] [] mem.

Definition goes_to (x : X) p : proc X := mkproc p.(p_main) p.(p_own) p.(p_out) p.(p_armed) x None.

(** One step of a process: the pipes before and after, and what becomes of it.
    It holds [ipipe[1]] itself, so that its read of an empty pipe never returns;
    an alarm is not inherited by [fork]. *)
Inductive proc_step : bytes -> bytes -> bool -> proc X -> bytes -> bytes -> list (proc X) -> Prop :=
  | proc_exits ip wp l p : act p.(p_at) = Exit -> proc_step ip wp l p ip wp []
  | proc_works ip wp l p x : act p.(p_at) = Work x -> proc_step ip wp l p ip wp [goes_to x p]
  | proc_disarms ip wp l p x :
      act p.(p_at) = Disarm x ->
      proc_step ip wp l p ip wp [mkproc p.(p_main) p.(p_own) p.(p_out) false x None]
  | proc_forks ip wp l p y x :
      act p.(p_at) = Fork y x ->
      proc_step ip wp l p ip wp [goes_to x p; mkproc false p.(p_own) p.(p_out) false y None]
  | proc_closes ip wp l p x :
      act p.(p_at) = CloseOutput x ->
      proc_step ip wp l p ip wp [mkproc p.(p_main) p.(p_own) false p.(p_armed) x None]
  | proc_reads ip wp l p n k m :
      act p.(p_at) = Read n k -> p.(p_own) && post = true -> (0 < m <= n)%nat -> (m <= length ip)%nat ->
      proc_step ip wp l p (drop m ip) wp [goes_to (k (take m ip)) p]
  | proc_reads_other ip wp l p n k d :
      act p.(p_at) = Read n k -> p.(p_own) && post = false -> (length d <= n)%nat ->
      proc_step ip wp l p ip wp [goes_to (k d) p]
  | proc_writes ip wp p d k n :
      let rest := default d p.(p_left) in
      act p.(p_at) = Write d k -> p.(p_own) && p.(p_out) = true ->
      (0 < n <= length rest)%nat -> (length wp + n <= CAP)%nat ->
      proc_step ip wp true p ip (wp ++ take n rest)
        [mkproc p.(p_main) p.(p_own) p.(p_out) p.(p_armed) p.(p_at) (Some (drop n rest))]
  | proc_wrote ip wp l p d k :
      act p.(p_at) = Write d k -> default d p.(p_left) = [] -> proc_step ip wp l p ip wp [goes_to (k true) p]
  | proc_write_fails ip wp l p d k :
      act p.(p_at) = Write d k -> p.(p_own) = true -> l && p.(p_out) = false ->
      proc_step ip wp l p ip wp [goes_to (k false) p]
  | proc_writes_other ip wp l p d k r :
      act p.(p_at) = Write d k -> p.(p_own) = false -> proc_step ip wp l p ip wp [goes_to (k r) p].

(** Both the worker and the script hold [ipipe[0]], so that the worker's
    [write] is never told that nobody reads. *)
Inductive cgi_step : actor -> cgi_sys X -> cgi_sys X -> Prop :=
  | parent_kills l1 p l2 ip wp l :
      p.(p_main) = true ->
      cgi_step Worker (mksys PKill (l1 ++ p :: l2) ip wp l) (mksys PWait (l1 ++ l2) ip wp l)
  | parent_kills_nobody ps ip wp l :
      (forall p, p ∈ ps -> p.(p_main) = false) ->
      cgi_step Worker (mksys PKill ps ip wp l) (mksys PWait ps ip wp l)
  | parent_writes rest ps ip wp l n :
      (0 < n <= length rest)%nat -> (length ip + n <= CAP)%nat ->
      cgi_step Worker (mksys (PWrite rest) ps ip wp l) (mksys (PWrite (drop n rest)) ps (ip ++ take n rest) wp l)
  | parent_closes ps ip wp l :
      cgi_step Worker (mksys (PWrite []) ps ip wp l) (mksys (PRead true) ps ip wp l)
  | parent_reads_head ps ip wp l n :
      (0 < n <= length wp)%nat ->
      cgi_step Worker (mksys (PRead true) ps ip wp l)
        (mksys (if has_head (take n wp) then PSendHead else PSendErr) ps ip (drop n wp) l)
  | parent_reads ps ip wp l n :
      (0 < n <= length wp)%nat ->
      cgi_step Worker (mksys (PRead false) ps ip wp l) (mksys PSendRest ps ip (drop n wp) l)
  | parent_end_first ps ip l :
      (forall p, p ∈ ps -> p.(p_out) = false) ->
      cgi_step Worker (mksys (PRead true) ps ip [] l) (mksys PSendErr ps ip [] l)
  | parent_end ps ip l :
      (forall p, p ∈ ps -> p.(p_out) = false) ->
      cgi_step Worker (mksys (PRead false) ps ip [] l) (mksys PWait ps ip [] false)
  | parent_waits ps ip wp l :
      (forall p, p ∈ ps -> p.(p_main) = false) ->
      cgi_step Worker (mksys PWait ps ip wp l) (mksys PDone ps ip wp l)
  | client_takes_head ps ip wp l : cgi_step Client (mksys PSendHead ps ip wp l) (mksys (PRead false) ps ip wp l)
  | client_takes_rest ps ip wp l : cgi_step Client (mksys PSendRest ps ip wp l) (mksys (PRead false) ps ip wp l)
  | client_is_gone ps ip wp l : cgi_step Client (mksys PSendRest ps ip wp l) (mksys PWait ps ip wp false)
  | client_takes_error ps ip wp l : cgi_step Client (mksys PSendErr ps ip wp l) (mksys PWait ps ip wp l)
  | script_moves pc l1 p l2 ip wp l ip' wp' ps :
      proc_step ip wp l p ip' wp' ps ->
      cgi_step Script (mksys pc (l1 ++ p :: l2) ip wp l) (mksys pc (l1 ++ ps ++ l2) ip' wp' l)
  | alarm_rings pc l1 p l2 ip wp l :
      p.(p_armed) = true ->
      cgi_step Alarm (mksys pc (l1 ++ p :: l2) ip wp l) (mksys pc (l1 ++ l2) ip wp l).

Definition any_step (s s' : cgi_sys X) : Prop := exists a, cgi_step a s s'.
End Pipes.

(** ** Specification *)

Section PipesSpec.
Context {X : Type} (act : X -> action X).
Context (CAP : nat) (post : bool).
Abbreviation step := (cgi_step act CAP post).

(** A run, in which nothing may happen for a while. *)
Definition is_run (run : nat -> cgi_sys X) : Prop :=
  forall n, run (S n) = run n \/ exists a, step a (run n) (run (S n)).

Definition enabled (a : actor) (s : cgi_sys X) : Prop := exists s', step a s s'.

(** Who can always go on does so. *)
Definition fair (a : actor) (run : nat -> cgi_sys X) : Prop :=
  forall n, exists m, (n <= m)%nat /\ (~ enabled a (run m) \/ step a (run m) (run (S m))).

(** Programs that keep their alarm and do not fork. *)
Definition tame (Q : X -> Prop) : Prop :=
  forall x, Q x ->
  match act x with
  | Exit => True
  | Work y | CloseOutput y => Q y
  | Read _ k => forall d, Q (k d)
  | Write _ k => forall r, Q (k r)
  | Disarm _ | Fork _ _ => False
  end.

(** Programs that look at none of their input. *)
Definition ignores_input (Q : X -> Prop) : Prop :=
  forall x, Q x ->
  match act x with
  | Exit => True
  | Work y | CloseOutput y | Disarm y => Q y
  | Read _ _ => False
  | Write _ k => forall r, Q (k r)
  | Fork z y => Q z /\ Q y
  end.

(** Programs that neither end nor use their output. *)
Definition lingers (Q : X -> Prop) : Prop :=
  forall x, Q x ->
  match act x with
  | Work y | Disarm y => Q y
  | Read _ k => forall d, Q (k d)
  | Fork z y => Q z /\ Q y
  | Exit | Write _ _ | CloseOutput _ => False
  end.

(** A process in [Q] whose alarm is set. *)
Definition tame_proc (Q : X -> Prop) (p : proc X) : Prop := Q p.(p_at) /\ p.(p_armed) = true.

(** The body is on its way: what is left and what is in the pipe. *)
Definition on_the_way (s : cgi_sys X) : nat :=
  length s.(ipipe) + match s.(parent) with PWrite rest => length rest | _ => 0%nat end.
End PipesSpec.

(** ** Lemmas *)

Section PipesLemmas.
Context {X : Type} (act : X -> action X).
Context (CAP : nat) (post : bool).
Abbreviation step := (cgi_step act CAP post).
Abbreviation pstep := (proc_step act CAP post).

Lemma on_the_way_step a (s s' : cgi_sys X) : step a s s' -> (on_the_way s' <= on_the_way s)%nat.
Proof.
  intros Hst. destruct Hst; unfold on_the_way; cbn [parent ipipe];
    try match goal with H : proc_step _ _ _ _ _ _ _ _ _ _ |- _ => destruct H end;
    repeat case_match; rewrite ?length_app, ?length_take, ?length_drop; simplify_eq; lia.
Qed.

(** *** Processes *)

(** Only the script itself is the one that is waited for. *)
Lemma proc_step_main ip wp l p ip' wp' ps q :
  pstep ip wp l p ip' wp' ps -> q ∈ ps -> p_main q = true -> p_main p = true.
Proof.
  intros Hst. destruct Hst; rewrite ?elem_of_cons, ?elem_of_nil; try done;
    repeat (intros [-> | Hq]; [done | revert Hq]); done.
Qed.

(** A process that is the only one. *)
Lemma script_alone pc p ip wp l ip' wp' ps :
  pstep ip wp l p ip' wp' ps -> step Script (mksys pc [p] ip wp l) (mksys pc ps ip' wp' l).
Proof. intros Hp. rewrite <-(app_nil_r ps). by apply (script_moves _ _ _ pc [] p []). Qed.

Definition reaped (s : cgi_sys X) : Prop :=
  s.(parent) = PDone -> forall p, p ∈ s.(procs) -> p_main p = false.

Lemma reaped_step a s s' : reaped s -> step a s s' -> reaped s'.
Proof.
  unfold reaped. intros Hr Hst. destruct Hst; cbn [parent procs] in *; try done.
  - by destruct (has_head _).
  - intros Hd q Hq. specialize (Hr Hd). rewrite !elem_of_app in Hq.
    destruct Hq as [Hq|[Hq|Hq]]; [apply Hr; set_solver | | apply Hr; set_solver].
    destruct (p_main q) eqn:Em; [|done]. pose proof (proc_step_main _ _ _ _ _ _ _ _ H Hq Em) as Hp.
    rewrite <-Hp. apply Hr. set_solver.
  - intros Hd q Hq. apply Hr; [done|]. set_solver.
Qed.

(** What holds of the processes of a set that is closed under their steps. *)
Lemma procs_step (P : proc X -> Prop) a s s' :
  (forall ip wp l p ip' wp' ps, P p -> pstep ip wp l p ip' wp' ps -> Forall P ps) ->
  Forall P s.(procs) -> step a s s' -> Forall P s'.(procs).
Proof.
  intros HP Hf Hst. destruct Hst; cbn [procs] in *; try done;
    rewrite ?Forall_app, ?Forall_cons in *; destruct Hf as (H1 & Hp & H2); split_and!; try done.
  by eapply HP.
Qed.

Lemma tame_step Q ip wp l p ip' wp' ps :
  tame act Q -> tame_proc Q p -> pstep ip wp l p ip' wp' ps ->
  Forall (tame_proc Q) ps /\ (length ps <= 1)%nat.
Proof.
  intros Ht [Hq Ha] Hst. pose proof (Ht _ Hq) as Hn.
  destruct Hst; try match goal with H : act _ = _ |- _ => rewrite H in Hn end; try done;
    (split; [|cbn; lia]); repeat constructor; cbn; auto.
Qed.

Lemma tame_procs_step Q a s s' :
  tame act Q -> Forall (tame_proc Q) s.(procs) -> step a s s' ->
  Forall (tame_proc Q) s'.(procs)
  /\ (length s'.(procs) <= length s.(procs))%nat
  /\ (a = Alarm -> (length s'.(procs) < length s.(procs))%nat).
Proof.
  intros Ht Hf Hst. split; [eapply procs_step; [|done..]; intros; by eapply tame_step|].
  destruct Hst; cbn [procs] in *; try done; rewrite ?length_app; cbn [length]; rewrite ?length_app; try by (split; lia).
  rewrite Forall_app, Forall_cons in Hf. destruct Hf as (_ & Hp & _).
  pose proof (tame_step _ _ _ _ _ _ _ _ Ht Hp H) as [_ Hl]. split; [lia | done].
Qed.

(** *** The worker alone *)

(** The work that is left to the worker and its client. *)
Definition work (s : cgi_sys X) : nat :=
  match s.(parent) with
  | PKill => 2
  | PWrite rest => length rest + 6
  | PRead true => 5
  | PSendHead => 4
  | PRead false => 3
  | PSendRest => 4
  | PSendErr => 2
  | PWait => 1
  | PDone => 0
  end + 3 * length s.(wpipe).

Lemma work_step a s s' :
  s.(procs) = [] -> step a s s' -> s'.(procs) = [] /\ (work s' < work s)%nat /\ a <> Alarm /\ a <> Script.
Proof.
  intros Hp Hst. destruct Hst; cbn [procs] in *; try (by destruct l1); (split; [done|split; [|done]]);
    unfold work; cbn [parent wpipe]; repeat case_match; rewrite ?length_drop; cbn [length]; (discriminate || lia).
Qed.

(** It can go on until it is done, and only one of the two can. *)
Lemma work_progress s :
  s.(procs) = [] -> (on_the_way s <= CAP)%nat -> s.(parent) <> PDone ->
  exists a, (a = Worker \/ a = Client) /\ enabled act CAP post a s.
Proof.
  intros Hp Hw Hd. destruct s as [pc ps ip wp l]. cbn [procs parent] in *. subst ps. unfold on_the_way in Hw.
  assert (forall p : proc X, p ∈ [] -> p_main p = false) as H1 by (by intros p ?%elem_of_nil).
  assert (forall p : proc X, p ∈ [] -> p_out p = false) as H2 by (by intros p ?%elem_of_nil).
  destruct pc as [|[|x rest]|[]| | | | |]; cbn [parent ipipe length] in Hw; [..|done].
  - exists Worker. split; [by left|]. eexists. by apply parent_kills_nobody.
  - exists Worker. split; [by left|]. eexists. apply parent_closes.
  - exists Worker. split; [by left|]. eexists. apply (parent_writes _ _ _ (x :: rest) _ _ _ _ 1); cbn [length]; lia.
  - exists Worker. split; [by left|]. destruct wp as [|y wp]; eexists; [by apply parent_end_first|].
    apply (parent_reads_head _ _ _ _ _ (y :: wp) _ 1). cbn [length]. lia.
  - exists Worker. split; [by left|]. destruct wp as [|y wp]; eexists; [by apply parent_end|].
    apply (parent_reads _ _ _ _ _ (y :: wp) _ 1). cbn [length]. lia.
  - exists Client. split; [by right|]. eexists. apply client_takes_head.
  - exists Client. split; [by right|]. eexists. apply client_takes_rest.
  - exists Client. split; [by right|]. eexists. apply client_takes_error.
  - exists Worker. split; [by left|]. eexists. by apply parent_waits.
Qed.

(** *** Runs *)

Section Runs.
Context (run : nat -> cgi_sys X) (Hrun : is_run act CAP post run).

(** What a step keeps, a run keeps. *)
Lemma run_keeps (P : cgi_sys X -> Prop) n m :
  (forall a s s', P s -> step a s s' -> P s') -> (n <= m)%nat -> P (run n) -> P (run m).
Proof.
  intros HP Hle Hn. induction Hle as [|m _ IH]; [done|].
  destruct (Hrun m) as [->|[a Hs]]; [done|]. by eapply HP.
Qed.

(** A run stays where it is, or [f] has become smaller. *)
Lemma run_stays (P : cgi_sys X -> Prop) (f : cgi_sys X -> nat) n m :
  (forall a s s', P s -> step a s s' -> P s' /\ (f s' < f s)%nat) ->
  P (run n) -> (n <= m)%nat -> run m = run n \/ exists k, (k <= m)%nat /\ P (run k) /\ (f (run k) < f (run n))%nat.
Proof.
  intros HP Hn Hle. induction Hle as [|m Hle IH]; [by left|].
  destruct IH as [E|(k & Hk & Hpk & Hf)]; [|right; exists k; auto].
  destruct (Hrun m) as [->|[a Hs]]; [by left|]. rewrite E in Hs.
  destruct (HP _ _ _ Hn Hs). right. by exists (S m).
Qed.

(** The alarms end all processes. *)
Lemma procs_end Q n :
  tame act Q -> fair act CAP post Alarm run -> Forall (tame_proc Q) (run n).(procs) ->
  exists m, (n <= m)%nat /\ (run m).(procs) = [].
Proof.
  intros Ht Hfair. remember (length (run n).(procs)) as k eqn:Hk. revert n Hk.
  induction k as [k IH] using lt_wf_ind. intros n -> Hf.
  destruct (Hfair n) as (m & Hle & Hm).
  assert (Forall (tame_proc Q) (run m).(procs) /\ (length (run m).(procs) <= length (run n).(procs))%nat) as [Hf' Hl].
  { apply (run_keeps (fun s => Forall (tame_proc Q) s.(procs) /\ (length s.(procs) <= length (run n).(procs))%nat) n m); [|done..].
    intros a s s' [H1 H2] Hs. destruct (tame_procs_step Q a s s' Ht H1 Hs) as (H3 & H4 & _). split; [done | lia]. }
  destruct Hm as [Hno|Hs].
  - exists m. split; [done|]. destruct (run m) as [pc [|p ps] ip wp l] eqn:E; [done|]. exfalso. apply Hno.
    cbn [procs] in Hf'. apply Forall_cons in Hf' as [[_ Ha] _].
    eexists. by apply (alarm_rings _ _ _ pc [] p ps).
  - destruct (tame_procs_step Q Alarm _ _ Ht Hf' Hs) as (H3 & _ & H4). specialize (H4 eq_refl).
    destruct (IH (length (run (S m)).(procs)) ltac:(lia) (S m) eq_refl H3) as (m' & Hm' & E). exists m'. split; [lia | done].
Qed.

(** The worker, alone with its client, returns. *)
Lemma worker_ends n :
  fair act CAP post Worker run -> fair act CAP post Client run ->
  (run n).(procs) = [] -> (on_the_way (run n) <= CAP)%nat -> exists m, (run m).(parent) = PDone.
Proof.
  intros Hw Hc. set (P := fun s : cgi_sys X => s.(procs) = [] /\ (on_the_way s <= CAP)%nat).
  assert (forall a s s', P s -> step a s s' -> P s' /\ (work s' < work s)%nat) as HP.
  { intros a s s' [H1 H2] Hs. destruct (work_step a s s' H1 Hs) as (H3 & H4 & _).
    pose proof (on_the_way_step _ _ _ Hs). split; [split; [done | lia] | done]. }
  intros H1 H2. assert (P (run n)) as Hn by done. clear H1 H2.
  remember (work (run n)) as k eqn:Hk. revert n Hk Hn.
  induction k as [k IH] using lt_wf_ind. intros n -> Hn.
  assert ((run n).(parent) = PDone \/ (run n).(parent) <> PDone) as [Hd|Hd]
    by (destruct (parent (run n)); auto); [by exists n|].
  destruct (work_progress (run n)) as (a & Ha & Hen); [apply Hn.. | done |].
  assert (exists m, (n <= m)%nat /\ (~ enabled act CAP post a (run m) \/ step a (run m) (run (S m)))) as (m & Hle & Hm)
    by (destruct Ha as [-> | ->]; [apply Hw | apply Hc]).
  destruct (run_stays P work n m HP Hn Hle) as [E|(k & _ & Hpk & Hlt)]; [|by eapply (IH _ Hlt k)].
  rewrite E in Hm. destruct Hm as [|Hs]; [done|]. destruct (HP _ _ _ Hn Hs) as [Hp Hlt].
  by eapply (IH _ Hlt (S m)).
Qed.
End Runs.
End PipesLemmas.

(** *** Workers that wait for ever *)

Section Waiting.
Context {X : Type} (act : X -> action X).
Context (CAP : nat) (post : bool).

(** The worker is in [write], and neither the body nor the interest of the
    processes changes that. *)
Definition blocked (Q : X -> Prop) (n : nat) (s : cgi_sys X) : Prop :=
  (exists rest, s.(parent) = PWrite rest /\ rest <> []) /\ on_the_way s = n
  /\ Forall (fun p => Q (p_at p)) s.(procs).

Lemma ignoring_step Q ip wp l p ip' wp' ps :
  ignores_input act Q -> Q (p_at p) -> proc_step act CAP post ip wp l p ip' wp' ps ->
  Forall (fun p => Q (p_at p)) ps /\ ip' = ip.
Proof.
  intros Hi Hq Hps. pose proof (Hi _ Hq) as Hn.
  destruct Hps; try match goal with H : act _ = _ |- _ => rewrite H in Hn end; try done;
    (split; [|done]); repeat constructor; cbn; naive_solver.
Qed.

Lemma blocked_step Q n a s s' :
  ignores_input act Q -> (CAP < n)%nat -> blocked Q n s -> cgi_step act CAP post a s s' -> blocked Q n s'.
Proof.
  intros Hi Hn [(rest & Hp & Hne) [Hw Hf]] Hst. unfold blocked.
  pose proof (procs_step act CAP post _ _ _ _
    (fun ip wp l p ip' wp' ps Hq Hs => proj1 (ignoring_step Q ip wp l p ip' wp' ps Hi Hq Hs)) Hf Hst) as Hf'.
  unfold on_the_way in *. destruct Hst; cbn [parent ipipe procs] in *; simplify_eq; try done.
  - split_and!; [|rewrite length_app, length_take, length_drop; lia | done].
    eexists. split; [done|]. intros E. apply (f_equal length) in E. rewrite length_drop in E. cbn [length] in E. lia.
  - rewrite Forall_app, Forall_cons in Hf. destruct Hf as (_ & Hq & _).
    destruct (ignoring_step _ _ _ _ _ _ _ _ Hi Hq H) as [_ ->]. by split_and!; [eexists|..].
  - by split_and!; [eexists|..].
Qed.

(** The worker is in its first [read], and a process without an alarm keeps the
    output open. *)
Definition orphaned (Q : X -> Prop) (s : cgi_sys X) : Prop :=
  s.(parent) = PRead true /\ s.(wpipe) = [] /\ Forall (fun p => Q (p_at p)) s.(procs)
  /\ exists p, p ∈ s.(procs) /\ p_out p = true /\ p_armed p = false.

Lemma lingering_step Q ip wp l p ip' wp' ps :
  lingers act Q -> Q (p_at p) -> proc_step act CAP post ip wp l p ip' wp' ps ->
  Forall (fun p => Q (p_at p)) ps /\ wp' = wp
  /\ exists p', p' ∈ ps /\ p_out p' = p_out p /\ (p_armed p = false -> p_armed p' = false).
Proof.
  intros Hl Hq Hps. pose proof (Hl _ Hq) as Hn.
  destruct Hps; try match goal with H : act _ = _ |- _ => rewrite H in Hn end; try done;
    (split_and!; [repeat constructor; cbn; naive_solver | done |]);
    eexists; (split; [by left|done]).
Qed.

Lemma orphaned_step Q a s s' :
  lingers act Q -> orphaned Q s -> cgi_step act CAP post a s s' -> orphaned Q s'.
Proof.
  intros Hl (Hp & Hw & Hf & q & Hq & Ho & Ha) Hst. unfold orphaned.
  assert (Forall (fun p => Q (p_at p)) s'.(procs)) as Hf'.
  { eapply procs_step; [|exact Hf | exact Hst]. intros ip wp l p ip' wp' ps Hqp Hps.
    by apply (lingering_step Q) in Hps as [? _]. }
  destruct Hst; cbn [parent wpipe procs] in *; simplify_eq; try (cbn [length] in *; lia).
  - by rewrite H in Ho.
  - rewrite Forall_app, Forall_cons in Hf. destruct Hf as (_ & Hqp & _).
    destruct (lingering_step _ _ _ _ _ _ _ _ Hl Hqp H) as (_ & -> & p' & Hp' & Eo & Ea).
    split_and!; [done..|]. rewrite !elem_of_app, elem_of_cons in Hq.
    destruct Hq as [Hq|[->|Hq]]; [exists q | exists p' | exists q]; rewrite !elem_of_app; (split; [tauto|]); [done| |done].
    by rewrite Eo, Ea.
  - split_and!; [done..|]. exists q. rewrite elem_of_app, elem_of_cons in Hq. rewrite elem_of_app.
    split; [|done]. destruct Hq as [?|[->|?]]; [tauto | congruence | tauto].
Qed.
End Waiting.

(** *** Runs given by a list *)

Section ListRun.
Context {X : Type} (act : X -> action X).
Context (CAP : nat) (post : bool).

(** The states [s :: l], the last of which is repeated. *)
Fixpoint list_run (s : cgi_sys X) (l : list (cgi_sys X)) (n : nat) : cgi_sys X :=
  match n, l with
  | S n, s' :: l => list_run s' l n
  | _, _ => s
  end.

Fixpoint steps_along (s : cgi_sys X) (l : list (cgi_sys X)) : Prop :=
  match l with
  | [] => True
  | s' :: l => any_step act CAP post s s' /\ steps_along s' l
  end.

Lemma list_run_is_run l : forall s, steps_along s l -> is_run act CAP post (list_run s l).
Proof.
  induction l as [|s' l IH]; intros s Hl n; [left; by destruct n|].
  destruct Hl as [Hs Hl]. destruct n as [|n]; [right | apply (IH s' Hl n)].
  by destruct l.
Qed.

Lemma list_run_end l : forall s m,
  (length l <= m)%nat -> list_run s l m = foldl (fun _ x => x) s l.
Proof.
  induction l as [|s' l IH]; intros s m Hm; [by destruct m|]. destruct m as [|m]; [cbn in Hm; lia|].
  cbn in *. apply IH. lia.
Qed.

(** A run that has come to its end is fair. *)
Lemma list_run_fair a s l :
  (forall s', ~ cgi_step act CAP post a (foldl (fun _ x => x) s l) s') -> fair act CAP post a (list_run s l).
Proof.
  intros He n. exists (max n (length l)). split; [lia|]. left. rewrite list_run_end by lia.
  intros [s' Hs]. by apply (He s').
Qed.
End ListRun.

(** ** Theorems *)

Section PipesTheorems.
Context {X : Type} (act : X -> action X).
Context (CAP : nat).

(** C16: the worker returns from a script whose body fits a pipe, whatever the
    script reads, writes or computes, for ever too, and whatever the processes do
    that hold its output because other workers started them meanwhile, as long
    as none of them forks or gives up its alarm: in every run in which the
    worker, its client and the alarms go on when they can, [cgi_waitfor_child]
    comes to its end.  It never does before the script is gone. *)
Theorem script_awaited Q mem body x others (run : nat -> cgi_sys X) :
  (if body is Some d then length d <= CAP else True)%nat ->
  tame act Q -> Q x -> Forall (tame_proc Q) others -> Forall (fun p => p_main p = false) others ->
  let post := if body is Some _ then true else false in
  run 0%nat = cgi_start mem body x others -> is_run act CAP post run ->
  fair act CAP post Worker run -> fair act CAP post Client run -> fair act CAP post Alarm run ->
  (exists n, (run n).(parent) = PDone)
  /\ forall n, (run n).(parent) = PDone -> forall p, p ∈ (run n).(procs) -> p_main p = false.
Proof.
  intros Hd Ht Hx Ho _ post H0 Hr Hw Hc Ha. split.
  - destruct (procs_end act CAP post run Hr Q 0 Ht Ha) as (n & _ & Hn).
    { rewrite H0. constructor; [by split | done]. }
    apply (worker_ends act CAP post run Hr n Hw Hc Hn).
    apply (run_keeps act CAP post run Hr (fun s => (on_the_way s <= CAP)%nat) 0 n); [| lia |].
    + intros a s s' Hs Hst. pose proof (on_the_way_step _ _ _ _ _ _ Hst). lia.
    + rewrite H0. destruct mem, body; cbn in *; lia.
  - intros n. apply (run_keeps act CAP post run Hr reaped 0 n); [apply reaped_step | lia |].
    rewrite H0. by destruct mem, body.
Qed.

(** A longer body, and scripts that do not read it: the worker never returns,
    though all processes may end or be killed by their alarms, because the worker
    itself holds the reading end of the pipe it writes to. *)
Theorem script_blocks_worker Q d x others s' :
  ignores_input act Q -> Q x -> Forall (fun p => Q (p_at p)) others -> (CAP < length d)%nat ->
  rtc (any_step act CAP true) (cgi_start true (Some d) x others) s' ->
  exists rest, s'.(parent) = PWrite rest /\ rest <> [].
Proof.
  intros Hi Hx Ho Hd Hr. enough (blocked Q (length d) s') as [Hb _] by done.
  revert Hr. apply (rtc_ind_r (blocked Q (length d))).
  - split_and!; [|done | by constructor]. exists d. split; [done|]. intros ->. cbn [length] in Hd. lia.
  - intros s s2 _ [a Hs] Hb. by eapply blocked_step.
Qed.

(** A script that ends and leaves a process behind which does nothing but keep
    the output open: no alarm ends that process, and the worker waits for the
    end of the output for ever. *)
Theorem orphan_blocks_worker Q x y z :
  act x = Fork y z -> act z = Exit -> lingers act Q -> Q y ->
  exists s, rtc (any_step act CAP false) (cgi_start true None x []) s
    /\ (forall p, p ∈ s.(procs) -> p_main p = false)
    /\ forall s', rtc (any_step act CAP false) s s' -> s'.(parent) = PRead true.
Proof.
  intros Hx Hz Hl Hy. set (orphan := mkproc false true true false y None).
  exists (mksys (PRead true) [orphan] [] [] true). split_and!.
  - eapply rtc_l; [exists Script; by eapply script_alone, proc_forks|].
    eapply rtc_l; [exists Script; by eapply (script_moves _ _ _ _ [] _ [orphan]), proc_exits|].
    apply rtc_refl.
  - intros p ->%list_elem_of_singleton. done.
  - intros s' Hr. enough (orphaned Q s') as [Hp _] by done. revert Hr. apply (rtc_ind_r (orphaned Q)).
    + split_and!; [done | done | by repeat constructor |]. exists orphan. split; [by left | done].
    + intros s s2 _ [a Hs] Ho. by eapply orphaned_step.
Qed.
End PipesTheorems.

(** ** Witnesses *)

(** A script that copies three bytes of its input. *)
Inductive sample_prog := SStart | SGot (d : bytes) | SEnd.

Definition sample_act (x : sample_prog) : action sample_prog :=
  match x with
  | SStart => Read 3 SGot
  | SGot d => Write (bs "A: b" ++ CRLF ++ CRLF ++ d) (fun _ => SEnd)
  | SEnd => Exit
  end.

Definition sample_reply : bytes := bs "A: b" ++ CRLF ++ CRLF ++ bs "x=1".

Definition sample_proc (x : sample_prog) (left : option bytes) : proc sample_prog :=
  mkproc true true true true x left.

(** The states of a run after its first. *)
Definition sample_states : list (cgi_sys sample_prog) :=
  let body := bs "x=1" in
  [mksys (PWrite []) [sample_proc SStart None] body [] true;
   mksys (PRead true) [sample_proc SStart None] body [] true;
   mksys (PRead true) [sample_proc (SGot body) None] [] [] true;
   mksys (PRead true) [sample_proc (SGot body) (Some [])] [] sample_reply true;
   mksys PSendHead [sample_proc (SGot body) (Some [])] [] [] true;
   mksys (PRead false) [sample_proc (SGot body) (Some [])] [] [] true;
   mksys (PRead false) [sample_proc SEnd None] [] [] true;
   mksys (PRead false) [] [] [] true;
   mksys PWait [] [] [] false;
   mksys PDone [] [] [] false].

Definition sample_run : nat -> cgi_sys sample_prog :=
  list_run (cgi_start true (Some (bs "x=1")) SStart []) sample_states.

(** Nothing happens after the last of them. *)
Lemma sample_final a s : ~ cgi_step sample_act 4096 true a (mksys PDone [] [] [] false) s.
Proof. intros H. inversion H; simplify_list_eq; by destruct l1. Qed.

Lemma sample_fair a : fair sample_act 4096 true a sample_run.
Proof. apply list_run_fair. intros s. apply sample_final. Qed.

Lemma sample_is_run : is_run sample_act 4096 true sample_run.
Proof.
  apply list_run_is_run. cbn [steps_along sample_states]. split_and!; [..|done].
  - exists Worker. apply (parent_writes _ _ _ (bs "x=1") _ [] [] true 3); split || idtac; by apply Nat.leb_le.
  - exists Worker. apply parent_closes.
  - exists Script. apply script_alone.
    refine (proc_reads sample_act 4096 true (bs "x=1") [] true (sample_proc SStart None) 3 SGot 3 eq_refl eq_refl _ _);
      [split|]; by apply Nat.leb_le.
  - exists Script. apply script_alone.
    refine (proc_writes sample_act 4096 true [] [] (sample_proc (SGot (bs "x=1")) None) sample_reply
              (fun _ => SEnd) 11 eq_refl eq_refl _ _); [split|]; by apply Nat.leb_le.
  - exists Worker. apply (parent_reads_head _ _ _ _ _ sample_reply true 11); split; by apply Nat.leb_le.
  - exists Client. apply client_takes_head.
  - exists Script. apply script_alone.
    exact (proc_wrote sample_act 4096 true [] [] true (sample_proc (SGot (bs "x=1")) (Some [])) _ _ eq_refl eq_refl).
  - exists Script. by eapply script_alone, proc_exits.
  - exists Worker. apply parent_end. by intros p ?%elem_of_nil.
  - exists Worker. apply parent_waits. by intros p ?%elem_of_nil.
Qed.

Lemma script_awaited_witness :
  (exists n, (sample_run n).(parent) = PDone)
  /\ forall n, (sample_run n).(parent) = PDone -> forall p, p ∈ (sample_run n).(procs) -> p_main p = false.
Proof.
  apply (script_awaited sample_act 4096 (fun _ => True) true (Some (bs "x=1")) SStart []).
  - by apply Nat.leb_le.
  - by intros [] _.
  - done.
  - done.
  - done.
  - reflexivity.
  - apply sample_is_run.
  - apply sample_fair.
  - apply sample_fair.
  - apply sample_fair.
Defined.

(** A script that writes without reading. *)
Definition sample_deaf (x : sample_prog) : action sample_prog :=
  if x is SEnd then Exit else Write (bs "hello") (fun _ => SEnd).

Lemma script_blocks_worker_witness :
  exists rest, (cgi_start true (Some (bs "x=1")) SStart []).(parent) = PWrite rest /\ rest <> [].
Proof.
  apply (script_blocks_worker sample_deaf 2 (fun _ => True) (bs "x=1") SStart []).
  - by intros [] _.
  - done.
  - done.
  - by apply Nat.leb_le.
  - apply rtc_refl.
Defined.

(** A script that leaves a process behind: the states are those of the script
    at its start and at its end, and that of the process. *)
Definition sample_fork (x : sample_prog) : action sample_prog :=
  match x with
  | SStart => Fork (SGot []) SEnd
  | SGot _ => Work (SGot [])
  | SEnd => Exit
  end.

Lemma orphan_blocks_worker_witness :
  exists s, rtc (any_step sample_fork 4096 false) (cgi_start true None SStart []) s
    /\ (forall p, p ∈ s.(procs) -> p_main p = false)
    /\ forall s', rtc (any_step sample_fork 4096 false) s s' -> s'.(parent) = PRead true.
Proof.
  apply (orphan_blocks_worker sample_fork 4096 (fun x => x = SGot []) SStart (SGot []) SEnd);
    [done | done | by intros x -> | done].
Defined.
