(* ===== verification/CgiHeader.v ===== *)
(** * The header of a request as variables of a script (cgi.c)

    [cgi_set_http_env_vars] cuts the header into lines in place, changes the
    names of the fields to those of variables and copies them into an array of
    200 bytes.  Here it is compared with a reader of the header's text, for
    every header. *)
From S2P Require Export Cgi.

(** ** Specification *)

(** The lines of a text: its parts between line ends, without the empty ones.
    [acc] is the part that was begun, backwards. *)
Definition flush (acc : bytes) : list bytes := match acc with [] => [] | _ => [reverse acc] end.

Fixpoint lines_from (acc : bytes) (s : bytes) : list bytes :=
  match s with
  | [] => flush acc
  | c :: s => if in_set CRLF c then flush acc ++ lines_from [] s else lines_from (c :: acc) s
  end.

Definition text_lines (s : bytes) : list bytes := lines_from [] s.

(** A field's name as that of a variable. *)
Definition dash (c : Z) : Z := if c =? chr "-" then chr "_" else c.

Definition var_name (n : bytes) : bytes := bs "HTTP_" ++ map dash (map toupper n).

(** The variables of the lines; a name of 195 bytes fills the array up to its
    end, and is read beyond it. *)
Fixpoint field_vars (ls : list bytes) (e : environ) : option environ :=
  match ls with
  | [] => Some e
  | l :: ls =>
      match find_sub (bs ": ") l with
      | None => field_vars ls e
      | Some i => if (i <? 195)%nat then field_vars ls (setenv (var_name (take i l)) (drop (i + 2) l) e) else None
      end
  end.

(** The first line is the protocol; [setenv] does not take a NULL. *)
Definition header_vars (ls : list bytes) (e : environ) : option environ :=
  match ls with
  | [] => None
  | protocol :: ls => field_vars ls (setenv (bs "SERVER_PROTOCOL") protocol e)
  end.

(** ** Lemmas: lines *)

Lemma lines_skip a s : Forall (fun c => in_set CRLF c = true) a -> text_lines (a ++ s) = text_lines s.
Proof. unfold text_lines. induction 1 as [|c a Hc _ IH]; [done|]. cbn [app lines_from]. by rewrite Hc. Qed.

Lemma lines_run tok s : Forall (fun c => in_set CRLF c = false) tok ->
  forall acc, lines_from acc (tok ++ s) = lines_from (reverse tok ++ acc) s.
Proof.
  induction 1 as [|c tok Hc _ IH]; intros acc; [done|]. cbn [app lines_from]. rewrite Hc, IH.
  by rewrite reverse_cons, <-app_assoc.
Qed.

Lemma lines_last tok : tok <> [] -> Forall (fun c => in_set CRLF c = false) tok -> text_lines tok = [tok].
Proof.
  intros Hne Ht. unfold text_lines. rewrite <-(app_nil_r tok) at 1. rewrite lines_run, app_nil_r by done. cbn [lines_from].
  unfold flush. destruct (reverse tok) as [|x r] eqn:E; [by apply (f_equal reverse) in E; rewrite reverse_involutive in E|].
  by rewrite <-E, reverse_involutive.
Qed.

Lemma lines_next tok c s :
  tok <> [] -> Forall (fun c => in_set CRLF c = false) tok -> in_set CRLF c = true ->
  text_lines (tok ++ c :: s) = tok :: text_lines s.
Proof.
  intros Hne Ht Hc. unfold text_lines. rewrite lines_run, app_nil_r by done. cbn [lines_from]. rewrite Hc.
  unfold flush. destruct (reverse tok) as [|x r] eqn:E; [by apply (f_equal reverse) in E; rewrite reverse_involutive in E|].
  by rewrite <-E, reverse_involutive.
Qed.

(** A text begins with line ends and a line, if there is one. *)
Lemma span_split (f : Z -> bool) s :
  exists a r, s = a ++ r /\ Forall (fun c => f c = true) a /\ match r with [] => True | c :: _ => f c = false end.
Proof.
  induction s as [|c s (a & r & -> & Ha & Hr)]; [by exists [], []|].
  destruct (f c) eqn:E; [by exists (c :: a), r; repeat constructor | by exists [], (c :: a ++ r)].
Qed.

Lemma line_cases s :
  exists a, Forall (fun c => in_set CRLF c = true) a /\
    (s = a \/ exists tok, tok <> [] /\ Forall (fun c => in_set CRLF c = false) tok /\
      (s = a ++ tok \/ exists c r, in_set CRLF c = true /\ s = a ++ tok ++ c :: r)).
Proof.
  destruct (span_split (in_set CRLF) s) as (a & s1 & -> & Ha & Hs1). exists a. split; [done|].
  destruct s1 as [|x s1]; [left; by rewrite app_nil_r|]. right.
  destruct (span_split (fun c => negb (in_set CRLF c)) (x :: s1)) as (tok & r & E & Ht & Hr).
  exists tok. split; [|split].
  - intros ->. cbn [app] in E. subst r. by rewrite Hs1 in Hr.
  - eapply Forall_impl; [exact Ht|]. cbv beta. intros c Hc. apply negb_true_iff. exact Hc.
  - destruct r as [|c r]; [left; by rewrite E, app_nil_r|]. right. exists c, r.
    split; [by apply negb_false_iff in Hr | by rewrite E].
Qed.

(** ** Lemmas: the tokens of the code *)

Lemma strtok_none pre a tail :
  Forall (fun c => in_set CRLF c = true) a -> 0 ∉ a ->
  exists l, strtok_r (pre ++ a ++ 0 :: tail) (length pre) CRLF = Some (pre ++ a ++ 0 :: tail, None, l).
Proof.
  intros Ha H0. unfold strtok_r. rewrite cstr_at_app by done. cbn [mbind option_bind].
  rewrite span_len_all by done. rewrite drop_all. by eexists.
Qed.

Lemma strtok_last pre a tok tail :
  Forall (fun c => in_set CRLF c = true) a -> tok <> [] -> Forall (fun c => in_set CRLF c = false) tok -> 0 ∉ a ++ tok ->
  strtok_r (pre ++ (a ++ tok) ++ 0 :: tail) (length pre) CRLF
  = Some (pre ++ (a ++ tok) ++ 0 :: tail, Some (length pre + length a)%nat, (length pre + length a + length tok)%nat).
Proof.
  intros Ha Hne Ht H0. unfold strtok_r. rewrite cstr_at_app by done. cbn [mbind option_bind].
  rewrite (span_len_app _ a tok) by (done || (intros c r' E; rewrite E in Ht; by inversion Ht)).
  rewrite drop_app_length. rewrite span_len_all by (eapply Forall_impl; [exact Ht|]; intros c Hc; cbv beta; by rewrite Hc).
  rewrite Nat.eqb_refl. by destruct tok.
Qed.

(** The colon and the space, looked for up to one byte before the end or up to the end. *)
Lemma find_colon_run fuel : forall pre a b post L,
  let tok := a ++ b in
  L = length tok \/ S L = length tok -> fuel = (L - length a)%nat ->
  0 ∉ tok ->
  find_colon fuel (pre ++ tok ++ 0 :: post) (length pre) (length a) L
  = Some (Nat.add (length a) <$> find_sub (bs ": ") b).
Proof.
  induction fuel as [|f IH]; intros pre a b post L tok HL Hf H0; cbn [find_colon].
  - assert (length b <= 1)%nat as Hb by (subst tok; rewrite length_app in HL; lia).
    destruct b as [|x [|y b]]; [done| |simpl in Hb; lia]. rewrite find_sub_unfold. cbn [starts_with]. by destruct (_ =? x).
  - destruct (Nat.ltb_spec (length a) L) as [Hlt|]; [|lia].
    destruct b as [|x b]; [subst tok; rewrite app_nil_r in HL; lia|].
    subst tok. replace (pre ++ (a ++ x :: b) ++ 0 :: post) with ((pre ++ a) ++ x :: b ++ 0 :: post) by (by rewrite <-!app_assoc).
    unfold load. rewrite (lookup_mid_eq (pre ++ a) x _ (length pre + length a)) by (by rewrite length_app). cbn [mbind option_bind].
    assert (((pre ++ a) ++ x :: b ++ 0 :: post) !! (length pre + length a + 1)%nat = Some (hd 0 b)) as Ey.
    { replace ((pre ++ a) ++ x :: b ++ 0 :: post) with ((pre ++ a ++ [x]) ++ b ++ 0 :: post) by (by rewrite <-!app_assoc).
      destruct b; cbn [app hd]; apply lookup_mid_eq; rewrite !length_app; cbn [length]; lia. }
    rewrite Ey. rewrite find_sub_unfold. cbn [starts_with].
    assert ((if x =? chr ":" then Some (hd 0 b) else Some 0) = Some (if x =? chr ":" then hd 0 b else 0)) as -> by (by case_match).
    cbn [mbind option_bind].
    assert ((x =? chr ":") && ((if x =? chr ":" then hd 0 b else 0) =? chr " ")
            = (chr ":" =? x) && match b with [] => false | h :: _ => (chr " " =? h) && true end) as ->.
    { rewrite (Z.eqb_sym (chr ":")). destruct (x =? _); [|done]. destruct b; cbn [hd]; [done|]. by rewrite andb_true_r, Z.eqb_sym. }
    destruct ((chr ":" =? x) && _); [by cbn [fmap option_fmap option_map]; rewrite Nat.add_0_r|].
    specialize (IH pre (a ++ [x]) b post L). rewrite length_app in IH. cbn [length] in IH.
    replace ((a ++ [x]) ++ b) with (a ++ x :: b) in IH by (by rewrite <-app_assoc).
    replace ((pre ++ a) ++ x :: b ++ 0 :: post) with (pre ++ (a ++ x :: b) ++ 0 :: post) by (by rewrite <-!app_assoc).
    replace (S (length a)) with (length a + 1)%nat by lia. rewrite IH by (done || lia).
    destruct (find_sub _ b); [|done]. cbn [fmap option_fmap option_map]. do 2 f_equal. lia.
Qed.

(** One character for another. *)
Definition swap (c d x : Z) : Z := if x =? c then d else x.

Lemma map_swap_other c d s : c ∉ s -> map (swap c d) s = s.
Proof.
  induction s as [|x s IH]; intros Hc; [done|]. apply not_elem_of_cons in Hc as [Hx Hc]. cbn [map]. rewrite IH by done.
  unfold swap. by destruct (Z.eqb_spec x c); [congruence|].
Qed.

Lemma strReplace_char fuel c d : is_byte d -> d <> 0 -> d <> c -> forall pre s post,
  0 ∉ s -> (length (filter (eq c) s) < fuel)%nat ->
  strReplace_loop fuel (pre ++ s ++ 0 :: post) (length pre) [c] d = Some (pre ++ map (swap c d) s ++ 0 :: post).
Proof.
  intros Hd Hd0 Hdc. induction fuel as [|f IH]; intros pre s post H0 Hf; [lia|]. cbn [strReplace_loop].
  rewrite strstr_app by done. cbn [mbind option_bind]. rewrite find_sub_single.
  destruct (find_byte c s) as [i|] eqn:Ei; cbn [fmap option_fmap option_map].
  2:{ apply find_byte_None in Ei. by rewrite map_swap_other. }
  pose proof Ei as [E Hn]%find_byte_Some. set (a := take i s) in *. set (r := drop (S i) s) in *. clearbody a r. subst s.
  rewrite find_byte_app in Ei by done. injection Ei as <-. rewrite filter_app, length_app, filter_cons_True in Hf by done. cbn [length] in Hf |- *.
  apply not_elem_of_app in H0 as [Ha [Hc0 Hr]%not_elem_of_cons]. replace (Z.of_nat 1 - 1) with 0 by lia.
  replace (pre ++ (a ++ c :: r) ++ 0 :: post) with ((pre ++ a) ++ (c :: r) ++ 0 :: post) by (by rewrite <-!app_assoc).
  assert (length pre + length a = length (pre ++ a))%nat as -> by (by rewrite length_app).
  rewrite delChar_zero by (done || (by rewrite not_elem_of_cons)). cbn [mbind option_bind app].
  rewrite store_mid. cbn [mbind option_bind]. rewrite to_u_small by (unfold is_byte in Hd; lia).
  replace ((pre ++ a) ++ d :: r ++ 0 :: post) with ((pre ++ a) ++ (d :: r) ++ 0 :: post) by done.
  rewrite IH; [| by rewrite not_elem_of_cons | rewrite filter_cons_False by congruence; lia].
  rewrite map_app. cbn [map]. rewrite (map_swap_other c d a) by done.
  assert (swap c d d = d /\ swap c d c = d) as [-> ->] by (unfold swap; rewrite Z.eqb_refl; by destruct (d =? c)).
  by rewrite <-!app_assoc.
Qed.

(** ** Lemmas: a line and all lines *)

(** The array for names: it begins with the prefix. *)
Definition name_array (hparam : bytes) : Prop := exists r, hparam = bs "HTTP_" ++ r /\ length r = 195%nat.

Lemma name_array_write hparam n :
  name_array hparam -> 0 ∉ n ->
  exists h', write_at hparam 5 (take 195 (n ++ [0])) = Some h' /\ name_array h'
    /\ cstr_at h' 0 = if (length n <? 195)%nat then Some (bs "HTTP_" ++ n) else None.
Proof.
  intros (r & -> & Lr) H0. set (x := take 195 (n ++ [0])).
  assert (length x <= 195)%nat as Lx by (subst x; rewrite length_take; lia).
  pose proof (write_at_mid (bs "HTTP_") (take (length x) r) (drop (length x) r) x ltac:(rewrite length_take; lia)) as E.
  rewrite take_drop in E. change (length (bs "HTTP_")) with 5%nat in E. rewrite E.
  eexists. split; [done|]. split.
  { eexists. split; [done|]. rewrite length_app, length_drop. lia. }
  destruct (Nat.ltb_spec (length n) 195) as [Hn|Hn].
  - subst x. rewrite take_ge by (rewrite length_app; cbn [length]; lia).
    replace (bs "HTTP_" ++ (n ++ [0]) ++ drop (length (n ++ [0])) r) with ((bs "HTTP_" ++ n) ++ 0 :: drop (length (n ++ [0])) r)
      by (by rewrite <-!app_assoc).
    apply cstr_at_0. apply not_elem_of_app. split; [by_decision | done].
  - subst x. rewrite take_app_le, drop_ge, app_nil_r by (rewrite ?length_take; lia).
    unfold cstr_at. rewrite drop_0.
    assert (find_byte 0 (bs "HTTP_" ++ take 195 n) = None) as ->; [|done].
    apply find_byte_None. apply not_elem_of_app. split; [by_decision|].
    intros Hx. apply H0. rewrite <-(take_drop 195 n). apply elem_of_app. by left.
Qed.

Lemma toupper_nonul n : 0 ∉ n -> 0 ∉ map toupper n.
Proof.
  intros H0 (x & E & Hx)%list_elem_of_In%in_map_iff. apply H0, list_elem_of_In.
  enough (x = 0) by (by subst). unfold toupper in E. destruct ((97 <=? x) && (x <=? 122)) eqn:Eb; [|lia].
  apply andb_true_iff in Eb as [?%Z.leb_le ?%Z.leb_le]. lia.
Qed.

Lemma dash_nonul n : 0 ∉ n -> 0 ∉ map dash n.
Proof.
  intros H0 (x & E & Hx)%list_elem_of_In%in_map_iff. apply H0, list_elem_of_In.
  enough (x = 0) by (by subst). unfold dash in E. by destruct (x =? 45).
Qed.

Lemma cgi_header_var_ref pre tok post hparam lasts e :
  0 ∉ tok -> Forall is_byte tok -> name_array hparam ->
  (lasts = length pre + length tok + 1 \/ lasts = length pre + length tok)%nat ->
  match find_sub (bs ": ") tok with
  | None => cgi_header_var (pre ++ tok ++ 0 :: post) hparam (length pre) lasts e = Some (pre ++ tok ++ 0 :: post, hparam, e)
  | Some i =>
      if (i <? 195)%nat then
        exists tok' h', cgi_header_var (pre ++ tok ++ 0 :: post) hparam (length pre) lasts e
          = Some (pre ++ tok' ++ 0 :: post, h', setenv (var_name (take i tok)) (drop (i + 2) tok) e)
          /\ length tok' = length tok /\ name_array h'
      else cgi_header_var (pre ++ tok ++ 0 :: post) hparam (length pre) lasts e = None
  end.
Proof.
  intros H0 Hb Hh Hl. unfold cgi_header_var. cbv zeta. destruct tok as [|t0 tok0] eqn:Et.
  { cbn [find_sub starts_with]. assert (lasts - length pre - 1 = 0)%nat as -> by (cbn [length] in Hl; lia). done. }
  rewrite <-Et in *. assert (0 < length tok)%nat as H1 by (rewrite Et; cbn [length]; lia). clear Et t0 tok0.
  set (L := (lasts - length pre - 1)%nat).
  pose proof (find_colon_run L pre [] tok post L ltac:(cbn [app]; lia) ltac:(cbn [length]; lia) H0) as Ef.
  cbn [app length] in Ef. rewrite Ef. cbn [mbind option_bind].
  destruct (find_sub (bs ": ") tok) as [i|] eqn:Ei; cbn [fmap option_fmap option_map]; [|done]. rewrite Nat.add_0_l.
  apply find_sub_Some in Ei as [E _]. pose proof (f_equal length E) as Le. rewrite !length_app in Le. cbn [length] in Le.
  set (n := take i tok) in *. set (v := drop (i + length (bs ": ")) tok) in *. change (drop (i + 2) tok) with v.
  assert (length n = i) as Ln by (subst n; rewrite length_take in *; lia). clearbody n v. clear Ef. subst tok.
  apply not_elem_of_app in H0 as [Hn0 Hr0]. apply not_elem_of_app in Hr0 as [_ Hv0].
  apply Forall_app in Hb as [Hbn _].
  replace (pre ++ (n ++ bs ": " ++ v) ++ 0 :: post) with ((pre ++ n) ++ chr ":" :: chr " " :: v ++ 0 :: post)
    by (by rewrite <-!app_assoc).
  rewrite store_mid_eq by (rewrite length_app; lia). change (to_char 0) with 0. cbn [mbind option_bind]. rewrite <-app_assoc.
  unfold strToUpper. rewrite strToUpper_run by (done || (rewrite !length_app; cbn [length]; lia)). cbn [mbind option_bind].
  unfold strReplace. rewrite strReplace_char;
    [|done | done | done | by apply toupper_nonul |
     pose proof (length_filter (eq (chr "-")) (map toupper n)); rewrite !length_app; cbn [length]; lia].
  cbn [mbind option_bind]. change (swap (chr "-") (chr "_")) with dash. set (n' := map dash (map toupper n)).
  assert (0 ∉ n') as Hn' by (apply dash_nonul, toupper_nonul; exact Hn0).
  assert (length n' = i) as Ln' by (subst n'; by rewrite !length_map).
  assert (cstr_at (pre ++ n' ++ 0 :: chr " " :: v ++ 0 :: post) (length pre) = Some n') as -> by (by apply cstr_at_app).
  cbn [mbind option_bind].
  destruct (name_array_write hparam n' Hh Hn') as (h' & Ew & Hh' & Ec). rewrite Ew. cbn [mbind option_bind].
  rewrite Ln' in Ec. rewrite Ec. destruct (i <? 195)%nat; cbn [mbind option_bind]; [|done].
  replace (pre ++ n' ++ 0 :: chr " " :: v ++ 0 :: post) with ((pre ++ n' ++ [0; chr " "]) ++ v ++ 0 :: post)
    by (by rewrite <-!app_assoc).
  rewrite cstr_at_app by (done || (rewrite !length_app; cbn [length]; lia)). cbn [mbind option_bind].
  exists (n' ++ 0 :: chr " " :: v), h'. rewrite !length_app. cbn [length]. split_and!; [|lia|done].
  by rewrite <-!app_assoc.
Qed.

(** The next line: none is left, or [tok] behind [pre1], ended in memory, with the
    text [r] from [lasts] on, whatever becomes of the line itself. *)
Record line_taken (pre s tail pre1 tok r post : bytes) (lasts : nat) : Prop := {
  lt_lines : text_lines s = tok :: text_lines r;
  lt_strtok : strtok_r (pre ++ s ++ 0 :: tail) (length pre) CRLF = Some (pre1 ++ tok ++ 0 :: post, Some (length pre1), lasts);
  lt_lasts : (lasts = length pre1 + length tok + 1 \/ lasts = length pre1 + length tok)%nat;
  lt_tok : 0 ∉ tok /\ Forall is_byte tok;
  lt_rest : 0 ∉ r /\ Forall is_byte r /\ (length r < length s)%nat;
  lt_length : length (pre1 ++ tok ++ 0 :: post) = length (pre ++ s ++ 0 :: tail);
  lt_go : forall tok', length tok' = length tok -> exists pre2, pre1 ++ tok' ++ 0 :: post = pre2 ++ r ++ 0 :: tail
         /\ length pre2 = lasts /\ take (length pre) pre2 = pre;
}.

Lemma next_header_line pre s tail :
  0 ∉ s -> Forall is_byte s ->
  (text_lines s = [] /\ exists l, strtok_r (pre ++ s ++ 0 :: tail) (length pre) CRLF = Some (pre ++ s ++ 0 :: tail, None, l))
  \/ exists pre1 tok r post lasts, line_taken pre s tail pre1 tok r post lasts.
Proof.
  intros H0 Hb. destruct (line_cases s) as (a & Ha & [->|(tok & Hne & Ht & Hs)]).
  { left. split; [|by apply strtok_none].
    replace (text_lines a) with (text_lines []) by (rewrite <-(app_nil_r a) at 1; by rewrite lines_skip). done. }
  right. assert (0 < length tok)%nat as Lt by (destruct tok; [done | simpl; lia]). exists (pre ++ a), tok.
  destruct Hs as [->|(c & r & Hc & ->)].
  - exists [], tail, (length pre + length a + length tok)%nat.
    pose proof H0 as [_ H0t]%not_elem_of_app. pose proof Hb as [_ Hbt]%Forall_app.
    split; rewrite ?lines_skip, ?lines_last, ?strtok_last, ?length_app by done; try done; cbn [length].
    + by rewrite <-!app_assoc.
    + lia.
    + split_and!; [apply not_elem_of_nil | done | lia].
    + lia.
    + intros tok' Lt'. exists (pre ++ a ++ tok'). rewrite !length_app, take_app_length, <-!app_assoc. split_and!; [done | lia | done].
  - exists r, (r ++ 0 :: tail), (length pre + length a + length tok + 1)%nat.
    pose proof H0 as [_ [H1 [_ H2]%not_elem_of_cons]%not_elem_of_app]%not_elem_of_app.
    pose proof Hb as [_ [Hb1 [_ Hb2]%Forall_cons]%Forall_app]%Forall_app.
    split; rewrite ?lines_skip, ?lines_next by done; try done.
    + replace (pre ++ (a ++ tok ++ c :: r) ++ 0 :: tail) with (pre ++ a ++ tok ++ c :: r ++ 0 :: tail) by (by rewrite <-!app_assoc).
      rewrite (strtok_run pre a tok c r tail _ CRLF) by done. by rewrite <-!app_assoc, length_app.
    + rewrite length_app. lia.
    + rewrite !length_app. cbn [length]. split_and!; [done | done | lia].
    + repeat (rewrite length_app || cbn [length]). lia.
    + intros tok' Lt'. exists (pre ++ a ++ tok' ++ [0]). rewrite !length_app, take_app_length, <-!app_assoc. cbn [length].
      split_and!; [done | lia | done].
Qed.

(** What a loop over the lines makes of [e], with the memory in front of them
    and the end of the text kept. *)
Definition lines_give (pre s tail : bytes) (o : option (bytes * environ)) (e : option environ) : Prop :=
  match e with
  | None => o = None
  | Some e' => exists m', o = Some (m', e') /\ take (length pre) m' = pre /\ length m' = length (pre ++ s ++ 0 :: tail)
                 /\ m' !! (length pre + length s)%nat = Some 0
  end.

(** From a line on. *)
Lemma lines_give_next pre s tail pre1 tok r post lasts tok' pre2 o e :
  line_taken pre s tail pre1 tok r post lasts -> length tok' = length tok ->
  pre1 ++ tok' ++ 0 :: post = pre2 ++ r ++ 0 :: tail -> take (length pre) pre2 = pre ->
  lines_give pre2 r tail o e -> lines_give pre s tail o e.
Proof.
  intros [_ _ _ _ _ Lm _] Lt Em Hp. destruct e as [e|]; [|done]. intros (m' & -> & Hk & Lk & Hn). exists m'. split; [done|].
  assert (length (pre1 ++ tok ++ 0 :: post) = length (pre2 ++ r ++ 0 :: tail)) as Le
    by (rewrite <-Em, !length_app; cbn [length]; lia).
  split_and!.
  - assert (length pre <= length pre2)%nat as Hle by (apply (f_equal length) in Hp; rewrite length_take in Hp; lia).
    rewrite <-Hp at 2. by rewrite <-Hk, take_take, Nat.min_l.
  - congruence.
  - rewrite <-Hn. f_equal. rewrite Lm, !length_app in Le. cbn [length] in Le. lia.
Qed.

Lemma cgi_header_vars_ref fuel : forall pre s tail hparam e,
  (length s < fuel)%nat -> 0 ∉ s -> Forall is_byte s -> name_array hparam ->
  lines_give pre s tail (cgi_header_vars fuel (pre ++ s ++ 0 :: tail) hparam (length pre) e) (field_vars (text_lines s) e).
Proof.
  induction fuel as [|f IH]; intros pre s tail hparam e Hf H0 Hb Hh; [lia|]. cbn [cgi_header_vars].
  destruct (next_header_line pre s tail H0 Hb) as [[El [l Es]]|(pre1 & tok & r & post & lasts & Hline)].
  { rewrite Es, El. cbn [mbind option_bind field_vars lines_give]. eexists. split; [done|]. split; [apply take_app_length|]. split; [done|].
    rewrite app_assoc. apply lookup_mid_eq. by rewrite length_app. }
  pose proof Hline as [El Es Hl [H0t Hbt] (H0r & Hbr & Lr) _ Hgo]. rewrite Es, El. cbn [mbind option_bind field_vars].
  pose proof (cgi_header_var_ref pre1 tok post hparam lasts e H0t Hbt Hh Hl) as Hv.
  assert (forall tok' h' e', length tok' = length tok -> name_array h' ->
    lines_give pre s tail (cgi_header_vars f (pre1 ++ tok' ++ 0 :: post) h' lasts e') (field_vars (text_lines r) e')) as Hnext.
  { intros tok' h' e' Lt' Hh'. destruct (Hgo tok' Lt') as (pre2 & Em & <- & Hp). rewrite Em.
    eapply lines_give_next; [exact Hline | exact Lt' | exact Em | exact Hp | apply IH; [lia | done..]]. }
  destruct (find_sub (bs ": ") tok) as [i|].
  - destruct (i <? 195)%nat; [|by rewrite Hv]. destruct Hv as (tok' & h' & -> & Lt' & Hh'). by apply Hnext.
  - rewrite Hv. by apply Hnext.
Qed.

Lemma cgi_set_http_env_vars_ref pre s tail hparam e :
  0 ∉ s -> Forall is_byte s -> length hparam = HPARAM ->
  lines_give pre s tail (cgi_set_http_env_vars (pre ++ s ++ 0 :: tail) (length pre) hparam e) (header_vars (text_lines s) e).
Proof.
  intros H0 Hb Hh. unfold cgi_set_http_env_vars.
  destruct (next_header_line pre s tail H0 Hb) as [[El [l Es]]|(pre1 & tok & r & post & lasts & Hline)]; [by rewrite Es, El|].
  pose proof Hline as [El Es Hl [H0t Hbt] (H0r & Hbr & Lr) Lm Hgo]. rewrite Es, El. cbn [mbind option_bind header_vars].
  rewrite cstr_at_app by done. cbn [mbind option_bind].
  assert (exists h', write_at hparam 0 (bs "HTTP_") = Some h' /\ name_array h') as (h' & -> & Hh').
  { rewrite <-(take_drop 5 hparam). pose proof (write_at_mid [] (take 5 hparam) (drop 5 hparam) (bs "HTTP_")) as Ew.
    eexists. split; [apply Ew; rewrite length_take, Hh; done|]. eexists. split; [done|]. by rewrite length_drop, Hh. }
  cbn [mbind option_bind]. destruct (Hgo tok eq_refl) as (pre2 & Em & <- & Hp). rewrite Em.
  eapply lines_give_next; [exact Hline | done | exact Em | exact Hp |].
  apply cgi_header_vars_ref; [rewrite !length_app; lia | done..].
Qed.

(** ** Theorems *)

(** C35: the variables of a script that come from the request are those of its
    header's text: the first line is the protocol, every later one that holds a colon and
    a space gives the variable HTTP_ with its name in capitals and underscores, with what
    follows as the value, a later field of the same name replacing the earlier.
    Nothing outside the header and the array for names is read or written, but
    for a name of 195 bytes, or a header without a line. *)
Theorem header_variables pre s tail hparam e :
  0 ∉ s -> Forall is_byte s -> length hparam = HPARAM ->
  snd <$> cgi_set_http_env_vars (pre ++ s ++ 0 :: tail) (length pre) hparam e = header_vars (text_lines s) e.
Proof.
  intros H0 Hb Hh. pose proof (cgi_set_http_env_vars_ref pre s tail hparam e H0 Hb Hh) as Hg.
  destruct (header_vars (text_lines s) e) as [e'|]; cbn [lines_give] in Hg; [|by rewrite Hg].
  by destruct Hg as (m' & -> & _).
Qed.

(** ** Witnesses *)

Definition sample_fields : bytes :=
  bs "HTTP/1.1" ++ CRLF ++ bs "Host: a" ++ CRLF ++ bs "no field" ++ CRLF ++ bs "X-Remote-Addr: me: you" ++ CRLF.

Lemma header_variables_witness :
  snd <$> cgi_set_http_env_vars (bs "GET" ++ sample_fields ++ 0 :: [0]) 3 (replicate HPARAM 0) []
  = Some [(bs "SERVER_PROTOCOL", bs "HTTP/1.1"); (bs "HTTP_HOST", bs "a"); (bs "HTTP_X_REMOTE_ADDR", bs "me: you")].
Proof.
  transitivity (header_vars (text_lines sample_fields) []); [|vm_compute; reflexivity].
  apply (header_variables (bs "GET") sample_fields [0] (replicate HPARAM 0) []).
  - by_decision.
  - repeat (constructor; [unfold is_byte; lia|]). constructor.
  - reflexivity.
Defined.

(** Two fields that differ in a dash and an underscore become the same variable. *)
Example dash_is_underscore :
  header_vars (text_lines (bs "HTTP/1.1" ++ CRLF ++ bs "X-A: 1" ++ CRLF ++ bs "X_A: 2" ++ CRLF)) []
  = Some [(bs "SERVER_PROTOCOL", bs "HTTP/1.1"); (bs "HTTP_X_A", bs "2")].
Proof. reflexivity. Qed.
