(* ===== verification/Configuration.v ===== *)
(** * Command line (configuration.c)

    The lists of the command line are cut into items in the memory of the
    arguments, by NULs in place of the commas, and kept as pointers into it;
    [configuration_load] goes through the options that [getopt_long] delivers
    and gives the certificate and key to [init_ssl].  [inl] is the code of a call
    of [exit], or the [ending] of the program. *)
From S2P Require Export Auth CacheDir Cgi.

(** ** Definitions *)

(** How the program ends before it serves: by a call of [exit] or of [abort]. *)
Inductive ending :=
  | Exited (code : Z)
  | Aborted.

#[export] Instance ending_eq_dec : EqDecision ending.
Proof. solve_decision. Defined.

(** What the binary was compiled with. *)
Record build := mkbuild {
  bd_ipv6 : bool;
  bd_webdav : bool;
  bd_mime : bool;
  bd_embedded_auth : bool;
  bd_ssl : bool;
}.

(** *** TLS *)

(** What OpenSSL answers: [SSL_CTX_new], the certificate and the key. *)
Record ssl_env := mksslenv {
  ssl_ctx_new : bool;
  ssl_use_certificate : option bytes -> bool;
  ssl_use_key : option bytes -> bool;
}.

Inductive ssl_result :=
  | SslReady
  | SslExit (code : Z)
  | SslAbort.

Definition init_ssl (env : ssl_env) (certificate key : option bytes) : ssl_result :=
  if negb env.(ssl_ctx_new) then SslAbort
  else if negb (env.(ssl_use_certificate) certificate) then SslExit 19
  else if negb (env.(ssl_use_key) key) then SslExit 19
  else SslReady.

(** An exit code or a result. *)
#[export] Instance exit_bind : MBind (sum Z) :=
  fun A B f r => match r with inl code => inl code | inr x => f x end.

(** The loop of [configuration_set_cgi]: [i] is the index before the
    increment, [data] the pointers to the items. *)
Fixpoint set_cgi_loop (fuel : nat) (m : bytes) (i : nat) (data : list nat)
    : option (Z + bytes * list nat) :=
  match fuel with
  | O => None
  | S f =>
      let i := S i in
      x ← load m i;
      if x =? 0 then Some (inr (m, data))
      else if x =? chr "," then
        m ← store m i 0;
        let data := data ++ [(i + 1)%nat] in
        if Z.of_nat (length data) =? MAXINDEXCOUNT then Some (inl 6)
        else set_cgi_loop f m i data
      else set_cgi_loop f m i data
  end.

(** The items with an even number are file extensions. *)
Fixpoint empty_extension (even : bool) (items : list bytes) : bool :=
  match items with
  | [] => false
  | x :: items => (even && (length x =? 0)%nat) || empty_extension (negb even) items
  end.

(** [optarg] is at the beginning of [m], unless it is NULL. *)
Definition configuration_set_cgi (optarg : option bytes) : option (Z + list bytes) :=
  match optarg with
  | None => Some (inr [])
  | Some m =>
      n ← strlen m 0;
      if (n =? 0)%nat then Some (inr [])
      else
        r ← set_cgi_loop (length m) m 0 [0%nat];
        match r with
        | inl code => Some (inl code)
        | inr (m, data) =>
            if Z.of_nat (length data) mod 2 =? 1 then Some (inl 6)
            else
              items ← mapM (cstr_at m) data;
              if empty_extension true items then Some (inl 6) else Some (inr items)
        end
  end.

(** The loop of [configuration_set_index_list] and, without a limit, of
    [configuration_set_virtualhost]. *)
Fixpoint cut_list_loop (fuel : nat) (limit : option Z) (m : bytes) (i : nat) (data : list nat)
    : option (Z + bytes * list nat) :=
  match fuel with
  | O => None
  | S f =>
      x ← load m i;
      let i := S i in
      if x =? 0 then Some (inr (m, data))
      else
        y ← load m i;
        if y =? chr "," then
          m ← store m i 0;
          let i := S i in
          let data := data ++ [i] in
          if bool_decide (limit = Some (Z.of_nat (length data))) then Some (inl 6)
          else cut_list_loop f limit m i data
        else cut_list_loop f limit m i data
  end.

Definition configuration_set_index_list (m : bytes) : option (Z + list bytes) :=
  r ← cut_list_loop (length m) (Some MAXINDEXCOUNT) m 0 [0%nat];
  match r with
  | inl code => Some (inl code)
  | inr (m, data) => items ← mapM (cstr_at m) data; Some (inr items)
  end.

(** [putenv] of a string; without an = it removes the variable. *)
Definition putenv (s : bytes) (e : environ) : environ :=
  match find_byte (chr "=") s with
  | Some n => env_put (take n s) (drop (n + 1) s) e
  | None => List.filter (fun nv => negb (bool_decide (nv.1 = s))) e
  end.

(** The strings are put when their comma is met, and stay in place. *)
Definition configuration_set_virtualhost (m : bytes) (e : environ) : option (Z + environ) :=
  r ← cut_list_loop (length m) None m 0 [0%nat];
  match r with
  | inl code => Some (inl code)
  | inr (m, data) =>
      items ← mapM (cstr_at m) data;
      Some (inr (foldl (fun e s => putenv s e) e items))
  end.

(** *** The options *)

Record load_state := mkload {
  ld_conf : weborf_configuration_t;
  ld_cachedir : option bytes;
  ld_environ : environ;
  ld_certificate : option bytes;
  ld_key : option bytes;
}.

Definition CGI_PHP : bytes := bs "/usr/lib/cgi-bin/php".
Definition CGI_PY : bytes := [].

(** The initial configuration with [configuration_set_default_CGI] and
    [configuration_set_default_index]. *)
Definition default_conf : weborf_configuration_t :=
  mkconf (bs "/srv/www") None 0 0 false false [bs ".php"; CGI_PHP; bs ".py"; CGI_PY]
    false false false false None (bs "8080") [bs "index.html"].

Definition with_conf (s : load_state) (c : weborf_configuration_t) : load_state :=
  mkload c s.(ld_cachedir) s.(ld_environ) s.(ld_certificate) s.(ld_key).

(** What [stat] leaves in [stat_buf] when it fails is not specified. *)
Definition configuration_set_basedir {F} `{Posix F} (fs : F) (bd : bytes)
    (c : weborf_configuration_t) : Z + weborf_configuration_t :=
  if negb (S_ISDIR (default px_garbage_stat (px_stat fs bd)).(st_mode)) then inl 1
  else inr (mkconf bd c.(c_authsock) c.(c_uid) c.(c_gid) c.(c_send_content_type) c.(c_is_inetd)
              c.(c_cgi_paths) c.(c_virtual_host) c.(c_exec_script) c.(c_tar_directory)
              c.(c_daemonize) c.(c_ip) c.(c_port) c.(c_indexes)).

Section Load.
Context {F : Type} `{Posix F}.
Context (fs : F).
Context (b : build).
Context (env : ssl_env).

(** The options that set one field of the configuration. *)
Definition set_field (opt : Z) (arg : bytes) (c : weborf_configuration_t) : weborf_configuration_t :=
  mkconf c.(c_basedir) c.(c_authsock)
    (if opt =? chr "u" then to_u32 (strtol arg 0) else c.(c_uid))
    (if opt =? chr "g" then to_u32 (strtol arg 0) else c.(c_gid))
    (if opt =? chr "m" then true else c.(c_send_content_type))
    (if opt =? chr "T" then true else c.(c_is_inetd))
    c.(c_cgi_paths) c.(c_virtual_host)
    (if opt =? chr "Y" then true else c.(c_exec_script))
    (if opt =? chr "t" then true else c.(c_tar_directory))
    (if opt =? chr "d" then true else c.(c_daemonize))
    (if opt =? chr "i" then Some arg else c.(c_ip))
    (if opt =? chr "p" then arg else c.(c_port))
    c.(c_indexes).

Definition set_lists (cgi indexes : list bytes) (virtual : bool) (c : weborf_configuration_t)
    : weborf_configuration_t :=
  mkconf c.(c_basedir) c.(c_authsock) c.(c_uid) c.(c_gid) c.(c_send_content_type) c.(c_is_inetd)
    cgi virtual c.(c_exec_script) c.(c_tar_directory) c.(c_daemonize) c.(c_ip) c.(c_port) indexes.

(** The options whose argument is a path or a plain string. *)
Definition load_string (opt : Z) (arg : bytes) (s : load_state) : Z + load_state :=
  let c := s.(ld_conf) in
  if opt =? chr "b" then c ← configuration_set_basedir fs arg c; inr (with_conf s c)
  else if opt =? chr "a" then
    if auth_set_socket (px_stat fs arg) arg c is Some c then inr (with_conf s c) else inl 5
  else if opt =? chr "C" then
    if cache_init arg fs is Some d
    then inr (mkload c (Some d) s.(ld_environ) s.(ld_certificate) s.(ld_key)) else inl 10
  else if opt =? chr "S" then inr (mkload c s.(ld_cachedir) s.(ld_environ) (Some arg) s.(ld_key))
  else if opt =? chr "K" then inr (mkload c s.(ld_cachedir) s.(ld_environ) s.(ld_certificate) (Some arg))
  else if in_set (bs "ugip") opt then inr (with_conf s (set_field opt arg c))
  else inl 19.

(** One option; its argument, if it has one, is the string at the beginning of
    [m]. *)
Definition load_option (opt : Z) (m : bytes) (s : load_state) : option (Z + load_state) :=
  let c := s.(ld_conf) in
  if opt =? chr "c" then
    r ← configuration_set_cgi (Some m);
    Some (items ← r; inr (with_conf s (set_lists items c.(c_indexes) c.(c_virtual_host) c)))
  else if opt =? chr "I" then
    r ← configuration_set_index_list m;
    Some (items ← r; inr (with_conf s (set_lists c.(c_cgi_paths) items c.(c_virtual_host) c)))
  else if opt =? chr "V" then
    r ← configuration_set_virtualhost m s.(ld_environ);
    Some (e ← r; inr (mkload (set_lists c.(c_cgi_paths) c.(c_indexes) true c)
                        s.(ld_cachedir) e s.(ld_certificate) s.(ld_key)))
  else if in_set (bs "kvhM") opt then Some (inl 0)
  else if (opt =? chr "m") && negb b.(bd_mime) then Some (inl 19)
  else if in_set (bs "mTYtd") opt then Some (inr (with_conf s (set_field opt [] c)))
  else arg ← cstr_at m 0; Some (load_string opt arg s).

Fixpoint load_options (opts : list (Z * bytes)) (s : load_state) : option (Z + load_state) :=
  match opts with
  | [] => Some (inr s)
  | (opt, m) :: opts =>
      r ← load_option opt m s;
      match r with
      | inl code => Some (inl code)
      | inr s => load_options opts s
      end
  end.

(** What the program is started with: its environment is [e]. *)
Definition load_start (e : environ) : load_state := mkload default_conf None e None None.

(** What follows the options. *)
Definition load_ssl (s : load_state) : ending + load_state :=
  if bool_decide (is_Some s.(ld_certificate)) || bool_decide (is_Some s.(ld_key)) then
    if s.(ld_conf).(c_tar_directory) then inl (Exited 19)
    else if b.(bd_ssl) then
      match init_ssl env s.(ld_certificate) s.(ld_key) with
      | SslReady => inr s
      | SslExit code => inl (Exited code)
      | SslAbort => inl Aborted
      end
    else inl (Exited 19)
  else inr s.

Definition configuration_load (opts : list (Z * bytes)) (e : environ) : option (ending + load_state) :=
  r ← load_options opts (load_start e);
  Some (match r with inl code => inl (Exited code) | inr s => load_ssl s end).
End Load.

(** ** Specification *)

(** The items of a list: with [first] the first byte is not looked at, with
    [skip] neither is the first byte of the items that follow. *)
Fixpoint split_list (skip first : bool) (s : bytes) : list bytes :=
  match s with
  | [] => [[]]
  | c :: s =>
      if negb first && (c =? chr ",") then [] :: split_list skip skip s
      else match split_list skip false s with
           | x :: items => (c :: x) :: items
           | [] => []
           end
  end.

(** The items as they lie in memory, and where. *)
Definition cells (items : list bytes) : bytes := flat_map (fun x => x ++ [0]) items.

Fixpoint offsets (base : nat) (items : list bytes) : list nat :=
  match items with
  | [] => []
  | x :: items => base :: offsets (base + length x + 1) items
  end.

(** What a loop returns that has found [items], when there may be fewer than
    [limit] of them. *)
Definition cut_result (limit : option Z) (items : list bytes) (tail : bytes) : Z + bytes * list nat :=
  if (if limit is Some n then n <=? Z.of_nat (length items) else false) then inl 6
  else inr (cells items ++ tail, offsets 0 items).

(** Prefixes the first item. *)
Definition glue (cur : bytes) (items : list bytes) : list bytes :=
  match items with
  | [] => [cur]
  | x :: items => (cur ++ x) :: items
  end.

(** ** Lemmas *)

Lemma split_list_nonempty skip first s : split_list skip first s <> [].
Proof.
  revert first. induction s as [|c s IH]; intros first; simpl; [done|].
  destruct (negb first && (c =? 44)); [done|]. specialize (IH false). by destruct (split_list skip false s).
Qed.

Lemma split_list_cons skip first c s :
  split_list skip first (c :: s)
  = if negb first && (c =? chr ",") then [] :: split_list skip skip s
    else glue [c] (split_list skip false s).
Proof.
  simpl. destruct (negb first && (c =? 44)); [done|].
  pose proof (split_list_nonempty skip false s). by destruct (split_list skip false s).
Qed.

Lemma glue_glue a b items : glue a (glue b items) = glue (a ++ b) items.
Proof. destruct items; simpl; by rewrite ?app_assoc. Qed.

Lemma glue_nil items : items <> [] -> glue [] items = items.
Proof. by destruct items. Qed.

Lemma glue_length cur items : items <> [] -> length (glue cur items) = length items.
Proof. by destruct items. Qed.

Lemma cells_app a b : cells (a ++ b) = cells a ++ cells b.
Proof. apply flat_map_app. Qed.

Lemma offsets_app base a b :
  offsets base (a ++ b) = offsets base a ++ offsets (base + length (cells a)) b.
Proof.
  revert base. induction a as [|x a IH]; intros base; simpl; [by rewrite Nat.add_0_r|].
  rewrite IH, !length_app. simpl. do 3 f_equal. lia.
Qed.

Lemma offsets_length base items : length (offsets base items) = length items.
Proof. revert base. induction items; intros base; simpl; [done|]. by rewrite IHitems. Qed.

Lemma mapM_cells items : forall pre tail,
  Forall (fun x => 0 ∉ x) items ->
  mapM (cstr_at (pre ++ cells items ++ tail)) (offsets (length pre) items) = Some items.
Proof.
  induction items as [|x items IH]; intros pre tail Hn; [done|]. inversion Hn as [|? ? Hx Hn']; subst.
  cbn [offsets mapM cells flat_map]. change (flat_map (fun x => x ++ [0]) items) with (cells items).
  assert (pre ++ ((x ++ [0]) ++ cells items) ++ tail = pre ++ x ++ 0 :: cells items ++ tail) as E
    by (by rewrite <-!app_assoc).
  rewrite E at 1. rewrite cstr_at_app by done. cbn [mbind option_bind].
  specialize (IH (pre ++ x ++ [0]) tail Hn').
  rewrite !length_app in IH. simpl in IH. rewrite Nat.add_assoc in IH.
  replace (pre ++ ((x ++ [0]) ++ cells items) ++ tail)
    with ((pre ++ x ++ [0]) ++ cells items ++ tail) by (by rewrite <-!app_assoc).
  by rewrite IH.
Qed.

Lemma mapM_cells0 items tail :
  Forall (fun x => 0 ∉ x) items -> mapM (cstr_at (cells items ++ tail)) (offsets 0 items) = Some items.
Proof. apply (mapM_cells items [] tail). Qed.

Lemma offsets_snoc items x :
  offsets 0 (items ++ [x]) = offsets 0 items ++ [length (cells items)].
Proof. by rewrite offsets_app. Qed.

Lemma cells_snoc items x rest : cells (items ++ [x]) ++ rest = cells items ++ x ++ 0 :: rest.
Proof. rewrite cells_app. simpl. by rewrite app_nil_r, <-!app_assoc. Qed.

Lemma lookup_cells (items : list bytes) (cur : bytes) c rest i :
  i = length (cells items ++ cur) -> (cells items ++ cur ++ c :: rest) !! i = Some c.
Proof. intros ->. rewrite app_assoc. by apply list_lookup_middle. Qed.

(** A comma at the end of [cur] is replaced by a NUL. *)
Lemma store_cells (items : list bytes) (cur rest : bytes) c i :
  i = length (cells items ++ cur) ->
  store (cells items ++ cur ++ c :: rest) i 0 = Some (cells (items ++ [cur]) ++ rest).
Proof.
  intros ->. rewrite app_assoc, store_mid_eq by done. by rewrite cells_snoc, <-!app_assoc.
Qed.

Lemma set_cgi_loop_run rest : forall items cur fuel tail i,
  0 ∉ rest -> (length rest < fuel)%nat -> S i = length (cells items ++ cur) ->
  Z.of_nat (S (length items)) < MAXINDEXCOUNT ->
  set_cgi_loop fuel (cells items ++ cur ++ rest ++ 0 :: tail) i
    (offsets 0 items ++ [length (cells items)])
  = Some (cut_result (Some MAXINDEXCOUNT) (items ++ glue cur (split_list false false rest)) tail).
Proof.
  unfold MAXINDEXCOUNT, cut_result. induction rest as [|c rest IH]; intros items cur fuel tail i H0 Hf Hi Hl;
    (destruct fuel as [|f]; [simpl in Hf; lia|]); cbn [set_cgi_loop app].
  - unfold load. rewrite lookup_cells by done. cbn. rewrite length_app, app_nil_r. cbn [length].
    destruct (Z.leb_spec 10 (Z.of_nat (length items + 1))); [lia|].
    by rewrite cells_snoc, offsets_snoc.
  - rewrite not_elem_of_cons in H0. destruct H0 as [Hc H0]. cbn [length] in Hf.
    unfold load. rewrite lookup_cells by done. cbn [mbind option_bind].
    destruct (Z.eqb_spec c 0) as [->|_]; [done|]. rewrite split_list_cons. cbn [negb andb].
    destruct (Z.eqb_spec c 44) as [->|Hne].
    + rewrite store_cells by done. cbn [mbind option_bind glue].
      pose proof (split_list_nonempty false false rest) as Hsp. rewrite app_nil_r.
      rewrite !length_app, offsets_length. cbn [length]. unfold MAXINDEXCOUNT.
      destruct (Z.eqb_spec (Z.of_nat (length items + 1 + 1)) 10) as [E|E].
      * destruct (Z.leb_spec 10 (Z.of_nat (length items + S (length (split_list false false rest)))));
          [done | destruct (split_list false false rest); simpl in *; [done | lia]].
      * assert ((S i + 1)%nat = length (cells (items ++ [cur]))) as Hi'
          by (rewrite Hi, cells_app, !length_app; simpl; rewrite app_nil_r, length_app; simpl; lia).
        rewrite Hi', <-(offsets_snoc items cur).
        pose proof (IH (items ++ [cur]) [] f tail (S i) H0 ltac:(lia)) as IH1.
        cbn [app] in IH1. rewrite app_nil_r, glue_nil, <-app_assoc in IH1 by done.
        rewrite IH1; [by rewrite length_app | lia | rewrite length_app; simpl; lia].
    + specialize (IH items (cur ++ [c]) f tail (S i) H0 ltac:(lia)).
      rewrite <-app_assoc in IH. cbn [app] in IH. rewrite IH.
      * by rewrite glue_glue.
      * rewrite !length_app in *. simpl. lia.
      * done.
Qed.

Lemma cut_list_loop_run n : forall rest items cur fuel limit tail i,
  (length rest < n)%nat -> (n <= fuel)%nat ->
  0 ∉ rest -> i = length (cells items ++ cur) ->
  (if limit is Some k then Z.of_nat (S (length items)) < k else True) ->
  cut_list_loop fuel limit (cells items ++ cur ++ rest ++ 0 :: tail) i
    (offsets 0 items ++ [length (cells items)])
  = Some (cut_result limit (items ++ glue cur (split_list true true rest)) tail).
Proof.
  induction n as [|n IH]; intros rest items cur fuel limit tail i Hn Hf H0 Hi Hl; [lia|].
  destruct fuel as [|f]; [lia|]. cbn [cut_list_loop]. unfold load.
  destruct rest as [|c rest]; cbn [app].
  - rewrite (lookup_cells items cur 0 tail i) by done. cbn [mbind option_bind Z.eqb split_list glue]. rewrite app_nil_r.
    unfold cut_result. rewrite length_app. cbn [length].
    assert ((if limit is Some k then k <=? Z.of_nat (length items + 1) else false) = false) as ->
      by (destruct limit; [apply Z.leb_gt; lia | done]).
    by rewrite cells_snoc, offsets_snoc.
  - rewrite not_elem_of_cons in H0. destruct H0 as [Hc H0]. cbn [length] in Hn.
    rewrite (lookup_cells items cur c _ i) by done. cbn [mbind option_bind].
    destruct (Z.eqb_spec c 0) as [->|_]; [done|]. rewrite split_list_cons. cbn [negb andb].
    assert (S i = length (cells items ++ (cur ++ [c]))) as Hi' by (rewrite Hi, !length_app; simpl; lia).
    assert (forall l, cells items ++ cur ++ c :: l = cells items ++ (cur ++ [c]) ++ l) as Ec
      by (intros l; by rewrite <-app_assoc). rewrite !Ec.
    destruct rest as [|d rest]; cbn [app].
    + rewrite (lookup_cells items (cur ++ [c]) 0 tail (S i)) by done. cbn [mbind option_bind Z.eqb].
      pose proof (IH [] items (cur ++ [c]) f limit tail (S i)) as IH1. cbn [app] in IH1.
      rewrite IH1; (done || lia || (cbn [length] in *; lia) || idtac). by rewrite glue_glue.
    + rewrite (lookup_cells items (cur ++ [c]) d _ (S i)) by done. cbn [mbind option_bind].
      rewrite not_elem_of_cons in H0. destruct H0 as [Hd H0]. cbn [length] in Hn.
      rewrite (split_list_cons true false d). cbn [negb andb].
      destruct (Z.eqb_spec d 44) as [->|Hne].
      * rewrite store_cells by done. cbn [mbind option_bind].
        assert (S (S i) = length (cells (items ++ [cur ++ [c]]))) as Hs
          by (rewrite Hi', cells_app, !length_app; simpl; rewrite app_nil_r, !length_app; simpl; lia).
        rewrite Hs, <-(offsets_snoc items (cur ++ [c])).
        cbn [glue]. rewrite app_nil_r.
        rewrite length_app, offsets_length, length_app. cbn [length].
        pose proof (split_list_nonempty true true rest) as Hsp.
        case_bool_decide as E.
        -- rewrite E. unfold cut_result. rewrite length_app. cbn [length].
           rewrite (proj2 (Z.leb_le _ _)); [done|].
           destruct (split_list true true rest); simpl in *; [done | lia].
        -- pose proof (IH rest (items ++ [cur ++ [c]]) [] f limit tail (S (S i))) as IH1.
           cbn [app] in IH1. rewrite app_nil_r, glue_nil, <-app_assoc in IH1 by done.
           rewrite <-Hs in IH1 |- *. apply IH1; (done || lia || idtac).
           destruct limit as [k|]; [|done]. rewrite length_app. simpl.
           assert (k <> Z.of_nat (length items + 1 + 1)) by congruence. lia.
      * pose proof (IH (d :: rest) items (cur ++ [c]) f limit tail (S i)) as IH1. cbn [app] in IH1.
        rewrite IH1; [|cbn [length]; lia | lia | by rewrite not_elem_of_cons | done | done].
        rewrite glue_glue, (split_list_cons true true d). done.
Qed.

(** *** Lists that are written the usual way *)

Fixpoint join_list (items : list bytes) : bytes :=
  match items with
  | [] => []
  | [x] => x
  | x :: items => x ++ chr "," :: join_list items
  end.

Definition plain_item (x : bytes) : Prop := x <> [] /\ chr "," ∉ x /\ 0 ∉ x.

Lemma split_list_app skip x : forall first rest,
  chr "," ∉ x -> x <> [] \/ first = false ->
  split_list skip first (x ++ rest) = glue x (split_list skip false rest).
Proof.
  induction x as [|c x IH]; intros first rest Hc Hx.
  - destruct Hx as [Hx|Hx]; [done|subst first]. by rewrite glue_nil by apply split_list_nonempty.
  - rewrite not_elem_of_cons in Hc. destruct Hc as [Hne Hc]. cbn [app]. rewrite split_list_cons.
    destruct (Z.eqb_spec c 44); [congruence|]. rewrite andb_false_r, IH by auto. by rewrite glue_glue.
Qed.

Lemma split_list_join skip first items :
  items <> [] -> Forall plain_item items -> split_list skip first (join_list items) = items.
Proof.
  revert first. induction items as [|x items IH]; intros first Hne Hp; [done|].
  inversion Hp as [|? ? (Hx & Hc & _) Hp']; subst. destruct items as [|y items].
  - cbn [join_list]. rewrite <-(app_nil_r x) at 1. rewrite split_list_app by auto. simpl. by rewrite app_nil_r.
  - change (join_list (x :: y :: items)) with (x ++ chr "," :: join_list (y :: items)).
    rewrite split_list_app by auto. rewrite split_list_cons. cbn [negb andb Z.eqb Pos.eqb glue].
    by rewrite app_nil_r, IH.
Qed.

Lemma join_list_nonul items : Forall plain_item items -> 0 ∉ join_list items.
Proof.
  induction items as [|x items IH]; intros Hp; [apply not_elem_of_nil|].
  inversion Hp as [|? ? (_ & _ & Hx) Hp']; subst. destruct items as [|y items]; [done|].
  change (join_list (x :: y :: items)) with (x ++ chr "," :: join_list (y :: items)).
  rewrite not_elem_of_app, not_elem_of_cons. auto.
Qed.

Lemma split_list_nonul skip s : forall first, 0 ∉ s -> Forall (fun x => 0 ∉ x) (split_list skip first s).
Proof.
  induction s as [|c s IH]; intros first H0; [repeat constructor; apply not_elem_of_nil|].
  rewrite not_elem_of_cons in H0. destruct H0 as [Hc H0]. rewrite split_list_cons.
  case_match.
  - constructor; [apply not_elem_of_nil | auto].
  - pose proof (IH false H0) as Hs. destruct (split_list skip false s) as [|x l]; simpl.
    + repeat constructor. rewrite not_elem_of_cons. split; [done | apply not_elem_of_nil].
    + inversion Hs; subst. constructor; [|done]. by rewrite not_elem_of_cons.
Qed.

(** *** The three lists *)

(** What becomes of a list of CGI endings and binaries. *)
Definition cgi_items (s : bytes) : Z + list bytes :=
  let items := split_list false true s in
  if (length s =? 0)%nat then inr []
  else if MAXINDEXCOUNT <=? Z.of_nat (length items) then inl 6
  else if Z.of_nat (length items) mod 2 =? 1 then inl 6
  else if empty_extension true items then inl 6 else inr items.

Lemma set_cgi_run s tail :
  0 ∉ s -> configuration_set_cgi (Some (s ++ 0 :: tail)) = Some (cgi_items s).
Proof.
  intros H0. unfold configuration_set_cgi, cgi_items, strlen. rewrite cstr_at_0 by done. cbn [fmap option_fmap option_map mbind option_bind].
  destruct s as [|c s]; [done|]. cbn [length Nat.eqb app].
  rewrite not_elem_of_cons in H0. destruct H0 as [Hc H0].
  pose proof (set_cgi_loop_run s [] [c] (length ((c :: s) ++ 0 :: tail)) tail 0 H0) as E.
  cbn [cells flat_map app offsets length] in E. rewrite E; [|rewrite length_app; simpl; lia | done | done].
  cbn [app]. rewrite split_list_cons. cbn [negb andb].
  set (items := glue [c] (split_list false false s)). unfold cut_result. cbn [mbind option_bind].
  destruct (Z.leb_spec MAXINDEXCOUNT (Z.of_nat (length items))); [done|].
  rewrite offsets_length. destruct (_ =? 1); [done|].
  rewrite mapM_cells0.
  - cbn [mbind option_bind]. by destruct (empty_extension true items).
  - pose proof (split_list_nonul false (c :: s) true) as Hn. rewrite split_list_cons in Hn. apply Hn.
    by rewrite not_elem_of_cons.
Qed.

(** The list of index files. *)
Definition index_items (s : bytes) : Z + list bytes :=
  let items := split_list true true s in
  if MAXINDEXCOUNT <=? Z.of_nat (length items) then inl 6 else inr items.

Lemma cut_list_run limit s tail :
  0 ∉ s -> (if limit is Some k then 1 < k else True) ->
  cut_list_loop (length (s ++ 0 :: tail)) limit (s ++ 0 :: tail) 0 [0%nat]
  = Some (cut_result limit (split_list true true s) tail).
Proof.
  intros H0 Hl.
  pose proof (cut_list_loop_run (S (length s)) s [] [] (length (s ++ 0 :: tail)) limit tail 0) as E.
  cbn [cells flat_map app offsets length] in E. rewrite E; try done; [|lia | rewrite length_app; simpl; lia].
  by rewrite glue_nil by apply split_list_nonempty.
Qed.

Lemma set_index_list_run s tail :
  0 ∉ s -> configuration_set_index_list (s ++ 0 :: tail) = Some (index_items s).
Proof.
  intros H0. unfold configuration_set_index_list, index_items. rewrite cut_list_run by done.
  unfold cut_result. cbn [mbind option_bind].
  destruct (MAXINDEXCOUNT <=? _); [done|]. cbn [mbind option_bind].
  rewrite mapM_cells0; [done|]. by apply split_list_nonul.
Qed.

Lemma set_virtualhost_run s tail e :
  0 ∉ s ->
  configuration_set_virtualhost (s ++ 0 :: tail) e
  = Some (inr (foldl (fun e s => putenv s e) e (split_list true true s))).
Proof.
  intros H0. unfold configuration_set_virtualhost. rewrite cut_list_run by done.
  unfold cut_result. cbn [mbind option_bind].
  rewrite mapM_cells0; [done|]. by apply split_list_nonul.
Qed.

(** *** Virtual hosts *)

(** host=directory *)
Definition vhost_text (hd : bytes * bytes) : bytes := hd.1 ++ chr "=" :: hd.2.

Definition vhost_ok (hd : bytes * bytes) : Prop :=
  chr "=" ∉ hd.1 /\ chr "," ∉ hd.1 /\ 0 ∉ hd.1 /\ chr "," ∉ hd.2 /\ 0 ∉ hd.2.

Lemma vhost_plain hd : vhost_ok hd -> plain_item (vhost_text hd).
Proof.
  intros (H1 & H2 & H3 & H4 & H5). unfold vhost_text. split; [by destruct (hd.1)|].
  rewrite !not_elem_of_app, !not_elem_of_cons. split_and!; done.
Qed.

Lemma putenv_vhost hd e : vhost_ok hd -> putenv (vhost_text hd) e = env_put hd.1 hd.2 e.
Proof.
  intros (H1 & _). unfold putenv, vhost_text. rewrite find_byte_app by done.
  rewrite take_app_length, drop_app_ge by lia.
  by replace (length hd.1 + 1 - length hd.1)%nat with 1%nat by lia.
Qed.

Lemma putenv_all_get hosts : forall e h,
  Forall vhost_ok hosts ->
  env_get h (foldl (fun e s => putenv s e) e (map vhost_text hosts))
  = foldl (fun o hd => if bool_decide (hd.1 = h) then Some hd.2 else o) (env_get h e) hosts.
Proof.
  induction hosts as [|hd hosts IH]; intros e h Hv; [done|]. inversion Hv; subst. cbn [map foldl].
  rewrite IH by done. f_equal. rewrite putenv_vhost by done.
  case_bool_decide as Hh; [rewrite <-Hh; apply env_get_put_eq | by apply env_get_put_ne].
Qed.

Lemma foldl_last_host (hosts : list (bytes * bytes)) h d : forall o,
  NoDup hosts.*1 -> (h, d) ∈ hosts ->
  foldl (fun o hd => if bool_decide (hd.1 = h) then Some hd.2 else o) o hosts = Some d.
Proof.
  assert (forall (l : list (bytes * bytes)) o, h ∉ l.*1 ->
    foldl (fun (o : option bytes) hd => if bool_decide (hd.1 = h) then Some hd.2 else o) o l = o) as Hno.
  { induction l as [|[x y] l IHl]; intros o Hx; [done|]. cbn [foldl fst snd].
    csimpl in Hx. rewrite not_elem_of_cons in Hx. destruct Hx as [Hx Hl].
    rewrite bool_decide_eq_false_2 by congruence. by apply IHl. }
  induction hosts as [|[x y] hosts IH]; intros o Hd Hin; [by apply elem_of_nil in Hin|].
  csimpl in Hd. apply NoDup_cons in Hd as [Hx Hd]. cbn [foldl fst snd].
  apply elem_of_cons in Hin as [Hin|Hin].
  - injection Hin as <- <-. rewrite bool_decide_eq_true_2 by done. by apply Hno.
  - by apply IH.
Qed.

(** *** The options *)

(** What holds of a configuration the server starts with.  When there is no
    [basedir], it is accepted if what [stat] did not write looks like a
    directory. *)
Record load_ok {F} `{Posix F} (fs : F) (b : build) (s : load_state) : Prop := {
  lo_indexes : (1 <= length s.(ld_conf).(c_indexes) < Z.to_nat MAXINDEXCOUNT)%nat;
  lo_cgi : (length s.(ld_conf).(c_cgi_paths) < Z.to_nat MAXINDEXCOUNT)%nat
           /\ Nat.even (length s.(ld_conf).(c_cgi_paths)) = true;
  lo_auth : forall p, s.(ld_conf).(c_authsock) = Some p ->
            exists st, px_stat fs p = Some st /\ Z.land st.(st_mode) S_IFMT = S_IFSOCK;
  lo_base : s.(ld_conf).(c_basedir) = default_conf.(c_basedir)
            \/ (exists st, px_stat fs s.(ld_conf).(c_basedir) = Some st /\ S_ISDIR st.(st_mode) = true)
            \/ px_stat fs s.(ld_conf).(c_basedir) = None /\ S_ISDIR px_garbage_stat.(st_mode) = true;
  lo_mime : s.(ld_conf).(c_send_content_type) = true -> b.(bd_mime) = true;
  lo_cache : forall d, s.(ld_cachedir) = Some d ->
             exists st, px_stat fs d = Some st /\ S_ISDIR st.(st_mode) = true /\ px_access_rw fs d = true;
}.

(** The codes [exit] is called with. *)
Definition exit_codes : list Z := [0; 1; 5; 6; 10; 19].

Definition load_result {F} `{Posix F} (fs : F) (b : build) (r : Z + load_state) : Prop :=
  match r with inl code => code ∈ exit_codes | inr s => load_ok fs b s end.

Section LoadLemmas.
Context {F : Type} `{Posix F}.
Context (fs : F).
Context (b : build).

Lemma cgi_items_ok s :
  match cgi_items s with
  | inl code => code = 6
  | inr l => (length l < Z.to_nat MAXINDEXCOUNT)%nat /\ Nat.even (length l) = true
  end.
Proof.
  unfold cgi_items, MAXINDEXCOUNT. destruct (length s =? 0)%nat; [simpl; split; [lia|done]|].
  set (l := split_list false true s).
  destruct (Z.leb_spec 10 (Z.of_nat (length l))); [done|].
  destruct (Z.eqb_spec (Z.of_nat (length l) mod 2) 1) as [|E]; [done|].
  destruct (empty_extension true l); [done|]. split; [lia|].
  apply Nat.even_spec. exists (length l / 2)%nat.
  pose proof (Nat.div_mod_eq (length l) 2). pose proof (Z.mod_pos_bound (Z.of_nat (length l)) 2).
  assert (Z.of_nat (length l) mod 2 = Z.of_nat (length l mod 2)) by (by rewrite Nat2Z.inj_mod).
  lia.
Qed.

Lemma index_items_ok s :
  match index_items s with
  | inl code => code = 6
  | inr l => (1 <= length l < Z.to_nat MAXINDEXCOUNT)%nat
  end.
Proof.
  unfold index_items, MAXINDEXCOUNT. pose proof (split_list_nonempty true true s).
  destruct (Z.leb_spec 10 (Z.of_nat (length (split_list true true s)))); [done|].
  destruct (split_list true true s); simpl in *; [done|lia].
Qed.

(** A literal exit code is one of the list. *)
Ltac exit_code := cbn; apply (bool_decide_unpack _); vm_compute; exact I.

Lemma load_string_ok opt arg s : load_ok fs b s -> load_result fs b (load_string fs opt arg s).
Proof.
  intros Hok. pose proof Hok as [Hi Hc Ha Hb Hmi Hd]. unfold load_string.
  repeat match goal with |- context [if ?b then _ else _] => lazymatch b with (_ =? _) => destruct b | in_set _ _ => destruct b eqn:Es end end;
    try (exit_code || (split; done)).
  - unfold configuration_set_basedir.
    destruct (S_ISDIR (default px_garbage_stat (px_stat fs arg)).(st_mode)) eqn:E; cbn [negb];
      [|exit_code]. split; cbn; try done. right. destruct (px_stat fs arg) as [st|]; eauto.
  - unfold auth_set_socket. destruct (px_stat fs arg) as [st|] eqn:E; [|exit_code].
    destruct (Z.eqb_spec (Z.land (st_mode st) S_IFMT) S_IFSOCK) as [Es|]; cbn [negb]; [|exit_code].
    split; cbn; try done. intros p [= <-]. eauto.
  - unfold cache_init. destruct (px_stat fs arg) as [st|] eqn:E; [|exit_code].
    destruct (S_ISDIR (st_mode st)) eqn:E1; cbn [negb]; [|exit_code].
    destruct (px_access_rw fs arg) eqn:E2; cbn [negb]; [|exit_code].
    split; cbn; try done. intros d [= <-]. eauto.
  - split; cbn; try done. by destruct (Z.eqb_spec opt 109) as [->|].
Qed.

(** An argument is a C string. *)
Definition c_string (m : bytes) : Prop := exists s tail, m = s ++ 0 :: tail /\ 0 ∉ s.

Lemma load_option_ok opt m s :
  c_string m -> load_ok fs b s ->
  exists r, load_option fs b opt m s = Some r /\ load_result fs b r.
Proof.
  intros (t & tail & -> & H0) Hok. pose proof Hok as [Hi Hc Ha Hb Hmi Hd]. unfold load_option.
  destruct (opt =? chr "c"); [|destruct (opt =? chr "I"); [|destruct (opt =? chr "V");
    [|destruct (in_set (bs "kvhM") opt); [|destruct ((opt =? chr "m") && negb (bd_mime b)) eqn:Em;
    [|destruct (in_set (bs "mTYtd") opt)]]]]].
  - rewrite set_cgi_run by done. eexists. split; [done|].
    pose proof (cgi_items_ok t) as Hg. destruct (cgi_items t); [subst; exit_code | by split].
  - rewrite set_index_list_run by done. eexists. split; [done|].
    pose proof (index_items_ok t) as Hg. destruct (index_items t); [subst; exit_code | by split].
  - rewrite set_virtualhost_run by done. eexists. split; [done|]. by split.
  - eexists. split; [done|]. exit_code.
  - eexists. split; [done|]. exit_code.
  - eexists. split; [done|]. split; cbn; try done. destruct (opt =? chr "m"); [|done].
    intros _. by destruct (bd_mime b).
  - rewrite cstr_at_0 by done. eexists. split; [done|]. by apply load_string_ok.
Qed.

Lemma load_options_ok opts : forall s,
  Forall (fun om => c_string om.2) opts -> load_ok fs b s ->
  exists r, load_options fs b opts s = Some r /\ load_result fs b r.
Proof.
  induction opts as [|[opt m] opts IH]; intros s Hs Hok; [by eexists|].
  inversion Hs; subst. cbn [load_options].
  destruct (load_option_ok opt m s ltac:(done) Hok) as (r & -> & Hr). cbn [mbind option_bind].
  destruct r as [code|s']; [by eexists|]. by apply IH.
Qed.
End LoadLemmas.

(** ** Theorems *)

(** A list of CGI endings and binaries is accepted exactly when it has an
    even number of items, fewer than [MAXINDEXCOUNT], and no empty ending; the
    items are what stands between the commas (one at the very beginning is not
    looked at), anything else ends the program with code 6. *)
Theorem configuration_set_cgi_items s tail :
  0 ∉ s -> configuration_set_cgi (Some (s ++ 0 :: tail)) = Some (cgi_items s).
Proof. apply set_cgi_run. Qed.

(** A list of index files comes out as it was written, for up to nine plain
    names; with more the program ends with code 6. *)
Theorem configuration_index_roundtrip items tail :
  items <> [] -> Forall plain_item items ->
  configuration_set_index_list (join_list items ++ 0 :: tail)
  = Some (if MAXINDEXCOUNT <=? Z.of_nat (length items) then inl 6 else inr items).
Proof.
  intros Hne Hp. rewrite set_index_list_run by (by apply join_list_nonul).
  unfold index_items. by rewrite split_list_join.
Qed.

(** After the option for virtual hosts, the environment gives each of the
    hosts its directory. *)
Theorem virtualhost_found hosts tail e :
  hosts <> [] -> Forall vhost_ok hosts -> NoDup hosts.*1 ->
  exists e', configuration_set_virtualhost (join_list (map vhost_text hosts) ++ 0 :: tail) e
             = Some (inr e')
    /\ forall h d, (h, d) ∈ hosts -> env_get h e' = Some d.
Proof.
  intros Hne Hv Hd.
  assert (Forall plain_item (map vhost_text hosts)) as Hp
    by (apply Forall_fmap; eapply Forall_impl; [exact Hv | exact vhost_plain]).
  rewrite set_virtualhost_run by (by apply join_list_nonul).
  rewrite split_list_join by (done || by destruct hosts). eexists. split; [done|].
  intros h d Hin. rewrite putenv_all_get by done. by apply foldl_last_host.
Qed.


(** A base directory that does not exist is accepted when the memory of
    [configuration_set_basedir] happens to look like a directory. *)
Theorem missing_basedir_accepted {F} `{Posix F} (fs : F) bd c :
  px_stat fs bd = None -> S_ISDIR px_garbage_stat.(st_mode) = true ->
  exists c', configuration_set_basedir fs bd c = inr c' /\ c'.(c_basedir) = bd.
Proof. intros E Hg. unfold configuration_set_basedir. rewrite E. cbn [default]. rewrite Hg. cbn. eexists. by split. Qed.

(** The byte behind a comma is not looked at. *)
Example index_list_double_comma :
  configuration_set_index_list (bs "a,,b" ++ [0]) = Some (inr [bs "a"; bs ",b"]).
Proof. reflexivity. Qed.

(** ** Witnesses *)

Lemma configuration_set_cgi_items_witness :
  configuration_set_cgi (Some (bs ".php,/bin/php,.py," ++ 0 :: []))
  = Some (inr [bs ".php"; bs "/bin/php"; bs ".py"; []]).
Proof. apply (configuration_set_cgi_items (bs ".php,/bin/php,.py,") []). by_decision. Defined.

Lemma configuration_index_roundtrip_witness :
  configuration_set_index_list (join_list [bs "index.html"; bs "a.php"] ++ 0 :: [])
  = Some (if MAXINDEXCOUNT <=? Z.of_nat (length [bs "index.html"; bs "a.php"]) then inl 6
          else inr [bs "index.html"; bs "a.php"]).
Proof.
  apply configuration_index_roundtrip; [done|].
  repeat constructor; try done; by_decision.
Defined.

Lemma virtualhost_found_witness :
  let hosts := [(bs "a.org", bs "/srv/a"); (bs "b.org:80", bs "/srv/b=c")] in
  exists e', configuration_set_virtualhost (join_list (map vhost_text hosts) ++ 0 :: []) []
             = Some (inr e')
    /\ forall h d, (h, d) ∈ hosts -> env_get h e' = Some d.
Proof.
  apply (virtualhost_found [(bs "a.org", bs "/srv/a"); (bs "b.org:80", bs "/srv/b=c")] [] []);
    [done | | by_decision].
  repeat constructor; by_decision.
Defined.

(** Everything is compiled in, and OpenSSL takes what it is given. *)
Definition sample_build : build := mkbuild true true true true true.

Definition is_given (p : option bytes) : bool := bool_decide (is_Some p).

Definition sample_ssl : ssl_env := mksslenv true is_given is_given.

