(* ===== verification/CommandLine.v ===== *)
(** * The command line (configuration.c, utils.c)

    The options that [configuration_load] declares to [getopt_long], what
    [getopt_long] makes of the arguments of [main], and the texts that -h, -v, -k
    and -M print.  [getopt_long] is the one of the GNU C library: arguments that
    are no options are skipped, [--] ends the options, long names may be
    abbreviated.  The texts are compared with the table: what the help tells the
    user is what the program accepts, with the exceptions that are proved. *)
From S2P Require Export Configuration.

(** ** Definitions *)

(** *** The options *)

Record long_option := mklong {
  lo_name : bytes;
  lo_takes : bool;
  lo_val : Z;
}.

#[export] Instance long_option_eq_dec : EqDecision long_option.
Proof. solve_decision. Defined.

Definition long_options : list long_option :=
  [mklong (bs "version") false (chr "v");
   mklong (bs "caps") false (chr "k");
   mklong (bs "help") false (chr "h");
   mklong (bs "port") true (chr "p");
   mklong (bs "ip") true (chr "i");
   mklong (bs "uid") true (chr "u");
   mklong (bs "gid") true (chr "g");
   mklong (bs "daemonize") false (chr "d");
   mklong (bs "basedir") true (chr "b");
   mklong (bs "index") true (chr "I");
   mklong (bs "auth") true (chr "a");
   mklong (bs "virtual") true (chr "V");
   mklong (bs "moo") false (chr "M");
   mklong (bs "yesexec") false (chr "Y");
   mklong (bs "cgi") true (chr "c");
   mklong (bs "cache") true (chr "C");
   mklong (bs "mime") false (chr "m");
   mklong (bs "inetd") false (chr "T");
   mklong (bs "tar") false (chr "t");
   mklong (bs "cert") true (chr "S");
   mklong (bs "key") true (chr "K")].

Definition short_options : bytes := bs "ktTMmvhp:i:I:u:g:dYb:a:V:c:C:S:".

(** *** [getopt_long] *)

(** Whether a letter is an option, and if so whether it takes an argument. *)
Definition short_takes (c : Z) : option bool :=
  if c =? chr ":" then None
  else i ← find_byte c short_options; Some (bool_decide (short_options !! S i = Some (chr ":"))).

(** What is returned for something that is not an option or lacks its argument. *)
Definition unknown : Z * bytes := (chr "?", []).

(** The letters of one argument; whether the next argument was used. *)
Fixpoint short_cluster (s : bytes) (next : option bytes) : list (Z * bytes) * bool :=
  match s with
  | [] => ([], false)
  | c :: s =>
      match short_takes c, s with
      | Some true, [] => if next is Some a then ([(c, a)], true) else ([unknown], false)
      | Some true, _ => ([(c, s)], false)
      | t, _ =>
          let '(l, used) := short_cluster s next in
          ((if t is Some _ then (c, []) else unknown) :: l, used)
      end
  end.

(** The whole name, or the beginning of a single one. *)
Definition long_lookup (name : bytes) : option long_option :=
  match List.find (fun o => bool_decide (o.(lo_name) = name)) long_options with
  | Some o => Some o
  | None =>
      if List.filter (fun o => starts_with name o.(lo_name)) long_options is [o] then Some o else None
  end.

Definition long_argument (a : bytes) (next : option bytes) : (Z * bytes) * bool :=
  let '(name, value) :=
    match find_byte (chr "=") a with
    | Some i => (take i a, Some (drop (S i) a))
    | None => (a, None)
    end in
  match long_lookup name with
  | None => (unknown, false)
  | Some o =>
      match o.(lo_takes), value, next with
      | false, None, _ => ((o.(lo_val), []), false)
      | true, Some x, _ => ((o.(lo_val), x), false)
      | true, None, Some x => ((o.(lo_val), x), true)
      | _, _, _ => (unknown, false)
      end
  end.

Fixpoint getopt_long (args : list bytes) : list (Z * bytes) :=
  match args with
  | [] => []
  | a :: rest =>
      if bool_decide (a = bs "--") then []
      else
        let '(l, used) :=
          if starts_with (bs "--") a then
            let '(o, used) := long_argument (drop 2 a) (head rest) in ([o], used)
          else if starts_with (bs "-") a then short_cluster (drop 1 a) (head rest)
          else ([], false) in
        l ++ (if (used : bool) then match rest with [] => [] | _ :: rest => getopt_long rest end
              else getopt_long rest)
  end.

(** The options as [configuration_load] sees them: an argument is a C string. *)
Definition options_of (argv : list bytes) : list (Z * bytes) :=
  (fun o => (o.1, o.2 ++ [0])) <$> getopt_long (tail argv).

(** *** The texts *)

Definition VERSION : bytes := bs "1.0".
Definition PACKAGE_BUGREPORT : bytes := bs "tiposchi@tiscali.it".
Definition PORT : bytes := bs "8080".
Definition BASEDIR : bytes := bs "/srv/www".

Definition lines (ls : list bytes) : bytes := flat_map (fun l => l ++ [LF]) ls.

Definition TAB : bytes := [9].

Definition version_text : bytes := lines
  [bs "Weborf " ++ VERSION;
   bs "Copyright (C) 2007-2020 Salvo 'LtWorf' Tomaselli.";
   bs "This is free software.  You may redistribute copies of it under the terms of";
   bs "the GNU General Public License <http://www.gnu.org/licenses/gpl.html>.";
   bs "There is NO WARRANTY, to the extent permitted by law.";
   [];
   bs "Written by Salvo 'LtWorf' Tomaselli and Salvo Rinaldi.";
   bs "Synchronized queue by Prof. Giuseppe Pappalardo.";
   [];
   bs "https://ltworf.github.io/weborf/"].

Definition yes_no (b : bool) : bytes := if b then bs "yes" else bs "no".

Definition capabilities_text (b : build) : bytes := lines
  [bs "version:" ++ VERSION;
   bs "ipv:" ++ (if b.(bd_ipv6) then bs "6" else bs "4");
   bs "webdav:" ++ yes_no b.(bd_webdav);
   bs "mime:" ++ yes_no b.(bd_mime);
   bs "embedded_auth:" ++ yes_no b.(bd_embedded_auth);
   bs "https:" ++ yes_no b.(bd_ssl)].

Definition help_options : bytes := lines
  [bs "  -a, --auth    followed by absolute path of the program to handle authentication";
   bs "  -b, --basedir followed by absolute path of basedir";
   bs "  -C, --cache   sets the directory to use for cache files";
   bs "  -c, --cgi     list of cgi files and binary to execute them comma-separated";
   bs "  -d            run as a daemon";
   bs "  -h, --help    display this help and exit";
   bs "  -I, --index   list of index files, comma-separated";
   bs "  -i, --ip  followed by IP address to listen (dotted format)";
   bs "  -k, --caps    lists the capabilities of the binary";
   bs "  -m, --mime    sends content type header to clients";
   bs "  -p, --port    followed by port number to listen";
   bs "  -T  --inetd   must be specified when using weborf with inetd or xinetd";
   bs "  -t  --tar     will send the directories as .tar.gz files";
   bs "  -u  --uid     followed by a valid uid";
   bs "                If started by root weborf will use this user to read files and execute scripts";
   bs "  -g  --gid     followed by a valid gid";
   bs "  -V, --virtual list of virtualhosts in the form host=basedir, comma-separated";
   bs "  -v, --version print program version";
   bs "  -S, --cert    the certificate to use";
   bs "  -K, --key     the private key to use with the certificate";
   bs "  -Y, --yesexec enables CGI";
   [];
   bs "Report bugs here https://bugs.launchpad.net/weborf";
   bs "or to " ++ PACKAGE_BUGREPORT].

Definition help_text (b : build) : bytes :=
  lines ([TAB ++ bs "Usage: weborf [OPTIONS]"; TAB ++ bs "Start the weborf webserver"; []]
         ++ [TAB ++ (if b.(bd_ipv6) then bs "Compiled for IPv6" else bs "Compiled for IPv4")]
         ++ (if b.(bd_webdav) then [TAB ++ bs "Has webdav support"] else [])
         ++ (if b.(bd_mime) then [TAB ++ bs "Has MIME support"] else [])
         ++ [bs "Default port is        " ++ PORT; bs "Default base directory " ++ BASEDIR;
             bs "Signature used         " ++ SIGNATURE; []])
  ++ help_options.

Definition moo_text : bytes := lines
  [bs " _____________________________________";
   bs "< Weborf ha i poteri della supermucca >";
   bs " -------------------------------------";
   bs "        \   ^__^";
   bs "         \  (oo)\_______";
   bs "            (__)\       )\/\";
   bs "                ||----w |";
   bs "                ||     ||"].

Definition print_start_disclaimer (argv0 : bytes) : bytes := lines
  [bs "Weborf";
   bs "This program comes with ABSOLUTELY NO WARRANTY.";
   bs "This is free software, and you are welcome to redistribute it";
   bs "under certain conditions.";
   bs "For details see the GPLv3 License.";
   bs "Run " ++ argv0 ++ bs " --help to see the options"].

(** What an option prints before it ends the program. *)
Definition option_text (b : build) (opt : Z) : option bytes :=
  if opt =? chr "k" then Some (capabilities_text b)
  else if opt =? chr "v" then Some version_text
  else if opt =? chr "h" then Some (help_text b)
  else if opt =? chr "M" then Some moo_text
  else None.

(** ** Specification *)

(** The ways to write an option with its argument. *)
Inductive option_form := FShort | FJoined | FLong | FEquals.

Definition rendered (f : option_form) (o : long_option) (arg : bytes) : list bytes :=
  match f with
  | FShort => (chr "-" :: [o.(lo_val)]) :: (if o.(lo_takes) then [arg] else [])
  | FJoined => [chr "-" :: o.(lo_val) :: (if o.(lo_takes) then arg else [])]
  | FLong => (bs "--" ++ o.(lo_name)) :: (if o.(lo_takes) then [arg] else [])
  | FEquals => [bs "--" ++ o.(lo_name) ++ (if o.(lo_takes) then bs "=" ++ arg else [])]
  end.

(** An option of the table in a form that it has: the key has no letter, and an
    argument that is joined to its letter is not empty. *)
Definition usable (f : option_form) (o : long_option) (arg : bytes) : Prop :=
  In o long_options /\ (o.(lo_takes) = false -> arg = [])
  /\ match f with
     | FShort => o.(lo_val) <> chr "K"
     | FJoined => o.(lo_val) <> chr "K" /\ (o.(lo_takes) = true -> arg <> [])
     | FLong | FEquals => True
     end.

(** The help has an entry for a letter, and for a name. *)
Definition help_letter (b : build) (c : Z) : bool :=
  if find_sub ([LF] ++ bs "  -" ++ [c]) (help_text b) is Some _ then true else false.

Definition help_name (b : build) (name : bytes) : bool :=
  if find_sub (bs "--" ++ name ++ bs " ") (help_text b) is Some _ then true else false.

(** A line with a colon, read as the graphical configuration reads it. *)
Definition split_at_colon (l : bytes) : option (bytes * bytes) :=
  i ← find_byte (chr ":") l; Some (take i l, drop (S i) l).

(** The lines of a text. *)
Fixpoint split_lines (cur s : bytes) : list bytes :=
  match s with
  | [] => if cur is [] then [] else [reverse cur]
  | c :: s => if c =? LF then reverse cur :: split_lines [] s else split_lines (c :: cur) s
  end.

(** ** Lemmas *)

(** What the proofs need of the table. *)
Definition entry_ok (o : long_option) : bool :=
  bool_decide (long_lookup o.(lo_name) = Some o)
  && bool_decide (find_byte (chr "=") o.(lo_name) = None)
  && negb (bool_decide (o.(lo_name) = []))
  && negb (o.(lo_val) =? chr "-")
  && ((o.(lo_val) =? chr "K") || bool_decide (short_takes o.(lo_val) = Some o.(lo_takes))).

Lemma table_ok o : In o long_options -> entry_ok o = true.
Proof. apply (proj1 (List.forallb_forall entry_ok long_options)). vm_compute. reflexivity. Qed.

Lemma entry_facts o :
  In o long_options ->
  long_lookup o.(lo_name) = Some o /\ find_byte (chr "=") o.(lo_name) = None /\ o.(lo_name) <> []
  /\ o.(lo_val) <> chr "-" /\ (o.(lo_val) <> chr "K" -> short_takes o.(lo_val) = Some o.(lo_takes)).
Proof.
  intros Hi%table_ok. unfold entry_ok in Hi. rewrite !andb_true_iff, !negb_true_iff, orb_true_iff, !bool_decide_eq_true,
    bool_decide_eq_false, Z.eqb_eq, Z.eqb_neq in Hi. naive_solver.
Qed.

Lemma find_byte_app_eq c l r : find_byte c l = None -> find_byte c (l ++ c :: r) = Some (length l).
Proof.
  induction l as [|x l IH]; cbn [find_byte app length]; [by rewrite Z.eqb_refl|].
  destruct (x =? c); [done|]. intros E. rewrite IH; [done|]. by destruct (find_byte c l).
Qed.

(** Whatever follows an option is looked at afterwards. *)
Lemma getopt_step f o arg rest :
  usable f o arg -> getopt_long (rendered f o arg ++ rest) = (o.(lo_val), arg) :: getopt_long rest.
Proof.
  intros (Hin & Harg & Hf). destruct (entry_facts o Hin) as (Hl & He & Hne & Hv & Hs).
  assert (forall s, bool_decide (chr "-" :: lo_val o :: s = bs "--") = false) as Hnot
    by (intros s; apply bool_decide_false; by intros [= ? _]).
  assert (forall s, starts_with (bs "--") (chr "-" :: lo_val o :: s) = false) as Hnol.
  { intros s. cbn [starts_with]. by destruct (Z.eqb_spec (chr "-") (lo_val o)); [congruence|]. }
  assert (forall s, s <> [] -> bool_decide (chr "-" :: chr "-" :: s = bs "--") = false) as Hlong
    by (intros s Hs0; apply bool_decide_false; by intros [= ?]).
  destruct f; cbn [rendered].
  - specialize (Hs Hf). cbn [app getopt_long]. rewrite Hnot, Hnol. cbn [starts_with Z.eqb Pos.eqb andb drop]. rewrite ?drop_0. cbn [short_cluster].
    rewrite Hs. destruct (lo_takes o); [done|]. by rewrite Harg.
  - destruct Hf as [Hk Hj]. specialize (Hs Hk). cbn [app getopt_long]. rewrite Hnot, Hnol.
    cbn [starts_with Z.eqb Pos.eqb andb drop]. rewrite ?drop_0. cbn [short_cluster]. rewrite Hs.
    destruct (lo_takes o); [|by rewrite Harg]. by destruct arg; [destruct Hj|].
  - cbn [app getopt_long]. rewrite (Hlong _ Hne). cbn [starts_with Z.eqb Pos.eqb andb drop]. rewrite ?drop_0.
    unfold long_argument. rewrite He, Hl. destruct (lo_takes o); [done|]. by rewrite Harg.
  - cbn [app getopt_long]. rewrite Hlong by (destruct (lo_name o); done). cbn [starts_with Z.eqb Pos.eqb andb drop]. rewrite ?drop_0.
    unfold long_argument. destruct (lo_takes o) eqn:Et.
    + change (bs "=" ++ arg) with (chr "=" :: arg). rewrite find_byte_app_eq by done.
      rewrite take_app_length, Hl, Et. replace (S (length (lo_name o))) with (length (lo_name o) + 1)%nat by lia.
      by rewrite <-drop_drop, drop_app_length.
    + rewrite app_nil_r, He, Hl, Et. by rewrite Harg.
Qed.

(** A letter that is no option. *)
Lemma getopt_letter c rest :
  c <> chr "-" -> short_takes c = None -> getopt_long ([chr "-"; c] :: rest) = unknown :: getopt_long rest.
Proof.
  intros Hc Ht. cbn [getopt_long]. rewrite bool_decide_false by congruence.
  assert (starts_with (bs "--") [chr "-"; c] = false) as ->
    by (cbn [starts_with]; by destruct (Z.eqb_spec (chr "-") c) as [<-|]).
  cbn [starts_with Z.eqb Pos.eqb andb].
  cbn [andb drop]. rewrite ?drop_0. cbn [short_cluster]. by rewrite Ht.
Qed.

Lemma load_options_app {F} `{Posix F} (fs : F) b l1 : forall l2 s,
  load_options fs b (l1 ++ l2) s
  = r ← load_options fs b l1 s;
    match r with inl code => Some (inl code) | inr s => load_options fs b l2 s end.
Proof.
  induction l1 as [|[opt m] l1 IH]; intros l2 s; [done|]. cbn [app load_options].
  destruct (load_option fs b opt m s) as [[code|s']|]; [done | apply IH | done].
Qed.

(** What is not an option ends the program. *)
Lemma load_unknown {F} `{Posix F} (fs : F) b l s :
  load_options fs b ((unknown.1, unknown.2 ++ [0]) :: l) s = Some (inl 19).
Proof. reflexivity. Qed.

Lemma split_lines_app l s : forall cur,
  LF ∉ l -> split_lines cur (l ++ LF :: s) = (reverse cur ++ l) :: split_lines [] s.
Proof.
  induction l as [|c l IH]; intros cur Hl; cbn [app split_lines].
  - by rewrite Z.eqb_refl, app_nil_r.
  - apply not_elem_of_cons in Hl as [Hc Hl]. destruct (Z.eqb_spec c LF); [congruence|].
    rewrite IH by done. by rewrite reverse_cons, <-app_assoc.
Qed.

Lemma split_lines_lines ls : Forall (fun l => LF ∉ l) ls -> split_lines [] (lines ls) = ls.
Proof.
  induction 1 as [|l ls Hl _ IH]; [done|]. unfold lines in *. cbn [flat_map]. rewrite <-app_assoc. cbn [app].
  by rewrite split_lines_app, IH.
Qed.

(** ** Theorems *)

(** C33: every option of the table can be given in each of its forms (but for
    the key of the certificate, which has no letter), in any order and number:
    [getopt_long] delivers exactly the options and the arguments that were
    written, whatever the arguments are, and goes on with what follows them.  A
    letter that is no option ends the program with code 19, unless an option
    before it has ended it already: the server does not start. *)
Theorem command_line_read {F} `{Posix F} (fs : F) b ssl prog (l : list (option_form * long_option * bytes)) rest e :
  Forall (fun x => usable x.1.1 x.1.2 x.2) l ->
  let argv := prog :: flat_map (fun x => rendered x.1.1 x.1.2 x.2) l ++ rest in
  getopt_long (tail argv) = map (fun x => (x.1.2.(lo_val), x.2)) l ++ getopt_long rest
  /\ forall c rest', rest = [chr "-"; c] :: rest' -> c <> chr "-" -> short_takes c = None ->
     configuration_load fs b ssl (options_of argv) e
     = r ← load_options fs b (map (fun x => (x.1.2.(lo_val), x.2 ++ [0])) l) (load_start e);
       Some (inl (Exited (if r is inl code then code else 19))).
Proof.
  intros Hl argv.
  assert (getopt_long (tail argv) = map (fun x => (x.1.2.(lo_val), x.2)) l ++ getopt_long rest) as E.
  { subst argv. cbn [tail]. induction Hl as [|[[f o] a] l Hu _ IH]; [done|].
    cbn [flat_map map fst snd] in *. by rewrite <-app_assoc, getopt_step, IH. }
  split; [done|]. intros c rest' -> Hc Ht. unfold configuration_load, options_of. rewrite E.
  rewrite getopt_letter by done. rewrite fmap_app, load_options_app. cbn [fmap list_fmap].
  replace (list_fmap _ _ _ (map _ l)) with (map (fun x : option_form * long_option * bytes => (x.1.2.(lo_val), x.2 ++ [0])) l)
    by (clear; induction l as [|x l IH]; [done|]; cbn; by rewrite IH).
  destruct (load_options fs b _ (load_start e)) as [[code|s]|]; [done| |done].
  cbn [mbind option_bind]. by rewrite load_unknown.
Qed.

(** The help and the table agree on the letters and on the names, but for the
    two exceptions of the theorem: --daemonize and --moo are not shown. *)
Theorem help_complete b o :
  In o long_options ->
  (o.(lo_val) <> chr "M" -> help_letter b o.(lo_val) = true)
  /\ (help_name b o.(lo_name) = false <-> In o.(lo_name) [bs "daemonize"; bs "moo"]).
Proof.
  intros Hin.
  assert (forall b, forallb (fun o => ((o.(lo_val) =? chr "M") || help_letter b o.(lo_val))
            && Bool.eqb (help_name b o.(lo_name)) (negb (bool_decide (o.(lo_name) ∈ [bs "daemonize"; bs "moo"])))) long_options = true) as Ht
    by (intros [[] [] [] [] []]; vm_compute; reflexivity).
  specialize (Ht b). rewrite List.forallb_forall in Ht. specialize (Ht o Hin).
  apply andb_true_iff in Ht as [H1 H2]. apply eqb_prop in H2. split.
  - intros Hm. apply orb_true_iff in H1 as [H1%Z.eqb_eq|]; done.
  - rewrite <-list_elem_of_In, H2, negb_false_iff. apply bool_decide_eq_true.
Qed.

(** The letter that the help gives for the key of the certificate is not an
    option: the server ends with code 19 before it starts. *)
Theorem key_letter_refused {F} `{Posix F} (fs : F) ssl prog key e b :
  help_letter b (chr "K") = true
  /\ configuration_load fs b ssl (options_of [prog; bs "-K"; key]) e = Some (inl (Exited 19))
  /\ getopt_long [bs "--key"; key] = [(chr "K", key)].
Proof.
  split_and!; [by destruct b as [[] [] [] [] []]; vm_compute | reflexivity | reflexivity].
Qed.

(** The capabilities are read back by a program that splits the lines at their
    colons. *)
Theorem capabilities_read b :
  map split_at_colon (split_lines [] (capabilities_text b))
  = [Some (bs "version", VERSION); Some (bs "ipv", if b.(bd_ipv6) then bs "6" else bs "4");
     Some (bs "webdav", yes_no b.(bd_webdav)); Some (bs "mime", yes_no b.(bd_mime));
     Some (bs "embedded_auth", yes_no b.(bd_embedded_auth)); Some (bs "https", yes_no b.(bd_ssl))].
Proof. by destruct b as [[] [] [] [] []]. Qed.

(** A certificate without a key is refused unless OpenSSL takes the missing key. *)
Theorem certificate_needs_key env cert :
  env.(ssl_use_key) None = false -> init_ssl env (Some cert) None <> SslReady.
Proof. intros Hk. unfold init_ssl. rewrite Hk. by destruct (ssl_ctx_new env), (ssl_use_certificate env (Some cert)). Qed.

(** ** Witnesses *)

Lemma command_line_read_witness :
  let args := [bs "-p"; bs "-1"; bs "-Isite.html,x"; bs "--mime"; bs "--basedir=/srv/d/"; bs "-K"] in
  getopt_long args
  = [(chr "p", bs "-1"); (chr "I", bs "site.html,x"); (chr "m", []); (chr "b", bs "/srv/d/"); unknown]
  /\ configuration_load sample_fs0 sample_build sample_ssl (options_of (bs "weborf" :: args)) []
     = Some (inl (Exited 19)).
Proof.
  pose proof (command_line_read sample_fs0 sample_build sample_ssl (bs "weborf")
    [(FShort, mklong (bs "port") true (chr "p"), bs "-1"); (FJoined, mklong (bs "index") true (chr "I"), bs "site.html,x");
     (FLong, mklong (bs "mime") false (chr "m"), []);
     (FEquals, mklong (bs "basedir") true (chr "b"), bs "/srv/d/")] [bs "-K"] []) as T.
  split.
  - refine (proj1 (T _)).
    repeat (apply Forall_cons; split; [split; [apply list_elem_of_In; by_decision | by split] |]); constructor.
  - refine (eq_trans (proj2 (T _) (chr "K") [] eq_refl _ _) _); [|done..].
    repeat (apply Forall_cons; split; [split; [apply list_elem_of_In; by_decision | by split] |]); constructor.
Defined.
