(* ===== verification/Webdav.v ===== *)
(** * WebDAV (webdav.c)

    PROPFIND with its parsing of the requested properties, the XML of one
    resource and the use of the cache; MKCOL; COPY and MOVE. *)
From S2P Require Export CacheDir Request.

(** ** Definitions: the properties that are asked for *)

(** The bit-field [t_dav_details]. *)
Record dav_details := mkdav {
  getetag : bool;
  getcontentlength : bool;
  resourcetype : bool;
  getlastmodified : bool;
  getcontenttype : bool;
  deep : bool;
  dav_type : Z;
}.

(** The same bits as [int_version] of the union, the first field lowest. *)
Definition int_version (p : dav_details) : Z :=
  Z.b2z p.(getetag) + 2 * Z.b2z p.(getcontentlength) + 4 * Z.b2z p.(resourcetype)
  + 8 * Z.b2z p.(getlastmodified) + 16 * Z.b2z p.(getcontenttype) + 32 * Z.b2z p.(deep)
  + 64 * p.(dav_type).

(** [strstr] on memory that may lack a NUL: fine if the needle comes first. *)
Definition strstr_scan (m : bytes) (p : nat) (needle : bytes) : option (option nat) :=
  match strstr m p needle with
  | Some r => Some r
  | None => i ← find_sub needle (drop p m); Some (Some (p + i)%nat)
  end.

(** The first of several needles. *)
Fixpoint strstr_first (m : bytes) (p : nat) (needles : list bytes) : option (option nat) :=
  match needles with
  | [] => Some None
  | n :: ns =>
      r ← strstr_scan m p n;
      match r with Some i => Some (Some i) | None => strstr_first m p ns end
  end.

(** The loop that cuts the list of properties into strings: the memory and the
    pointers, or nothing when a tag is not closed. *)
Fixpoint split_props (fuel : nat) (i : nat) (m : bytes) (data : nat) (sprops : list nat)
    : option (option (bytes * list nat)) :=
  match fuel with
  | O => None
  | S f =>
      p ← strstr m data (bs "<");
      match p with
      | None => Some (Some (m, sprops))
      | Some p =>
          if (i =? MAXPROPCOUNT - 1)%nat then Some (Some (m, sprops))
          else
            let p := S p in
            temp ← strstr m p (bs "/>");
            match temp with
            | None => Some None
            | Some temp =>
                m ← store m temp 0;
                p_temp ← strstr m p (bs " ");
                m ← match p_temp with Some q => store m q 0 | None => Some m end;
                split_props f (S i) m (S temp) (sprops ++ [p])
            end
      end
  end.

(** What one property name switches on. *)
Definition set_prop (m : bytes) (p : dav_details) (s : nat) : option dav_details :=
  e ← strstr m s (bs "getetag");
  if e is Some _ then
    Some (mkdav true p.(getcontentlength) p.(resourcetype) p.(getlastmodified) p.(getcontenttype) p.(deep) p.(dav_type))
  else
  e ← strstr m s (bs "getcontentlength");
  if e is Some _ then
    Some (mkdav p.(getetag) true p.(resourcetype) p.(getlastmodified) p.(getcontenttype) p.(deep) p.(dav_type))
  else
  e ← strstr m s (bs "resourcetype");
  if e is Some _ then
    Some (mkdav p.(getetag) p.(getcontentlength) true p.(getlastmodified) p.(getcontenttype) p.(deep) p.(dav_type))
  else
  e ← strstr m s (bs "getlastmodified");
  if e is Some _ then
    Some (mkdav p.(getetag) p.(getcontentlength) p.(resourcetype) true p.(getcontenttype) p.(deep) p.(dav_type))
  else
  e ← strstr m s (bs "getcontenttype");
  if e is Some _ then
    Some (mkdav p.(getetag) p.(getcontentlength) p.(resourcetype) p.(getlastmodified) true p.(deep) p.(dav_type))
  else Some p.

Fixpoint set_props (m : bytes) (p : dav_details) (ss : list nat) : option dav_details :=
  match ss with
  | [] => Some p
  | s :: ss => p ← set_prop m p s; set_props m p ss
  end.

(** The body of a PROPFIND: an error or the properties. *)
Definition parse_props (post_param : string_t) (p : dav_details) : option (Z * dav_details) :=
  if post_param.(sp_len) =? 0 then
    Some (0, mkdav true true true true p.(getcontenttype) p.(deep) p.(dav_type))
  else
    m ← post_param.(sp_data);
    data ← strstr_first m 0 [bs "<D:prop "; bs "<D:prop>"; bs "<prop "; bs "<prop>"];
    match data with
    | None => Some (ERR_NODATA, p)
    | Some data =>
        let data := (data + 6)%nat in
        e ← strstr_first m data [bs "</D:prop>"; bs "</prop>"];
        match e with
        | None => Some (ERR_NODATA, p)
        | Some e =>
            m ← store m e 0;
            r ← split_props (S MAXPROPCOUNT) 0 m data [];
            match r with
            | None => Some (ERR_NODATA, p)
            | Some (m, sprops) => p ← set_props m p sprops; Some (0, p)
            end
        end
    end.

(** ** Definitions: the XML of a resource *)

(** [escape_uri] from the string [s] to the memory [m] at [dest]; characters are
    signed and are printed as [unsigned int]. *)
Fixpoint escape_uri_loop (m : bytes) (dest : nat) (dest_size : Z) (s : bytes) : option bytes :=
  match s with
  | [] => Some m
  | c :: s =>
      if 4 <=? dest_size then
        let ch := schar c in
        let lower := Z.lor ch 32 in
        if ((97 <=? lower) && (lower <=? 122)) || ((45 <=? ch) && (ch <=? 57)) then
          m ← store m dest ch;
          m ← store m (dest + 1) 0;
          escape_uri_loop m (dest + 1) (dest_size - 1) s
        else
          m ← write_at m dest (chr "%" :: hex02 (to_u32 ch) ++ [0]);
          escape_uri_loop m (dest + 3) (dest_size - 3) s
      else Some m
  end.

Definition escape_uri (source : bytes) (dest : bytes) (dest_size : Z) : option bytes :=
  escape_uri_loop dest 0 dest_size source.

(** Prints when the property is asked for. *)
Definition print_if (b : bool) (text : bytes) (h : head_state) : option head_state :=
  if b then head_print text h else Some h.

Definition tagged (name value : bytes) : bytes :=
  bs "<D:" ++ name ++ bs ">" ++ value ++ bs "</D:" ++ name ++ bs ">".

(** The text of one resource; [mime] is what libmagic says. *)
Definition print_response (props : dav_details) (st : stat_t) (href date mime : bytes)
    (h : head_state) : option head_state :=
  h ← head_print (bs "<D:response>" ++ [LF]) h;
  h ← head_print (tagged (bs "href") href) h;
  h ← head_print (bs "<D:propstat><D:prop>") h;
  h ← print_if props.(getetag) (tagged (bs "getetag") (dec_s st.(st_mtime)) ++ [LF]) h;
  h ← print_if props.(getcontentlength) (tagged (bs "getcontentlength") (dec_s st.(st_size)) ++ [LF]) h;
  h ← print_if props.(resourcetype)
        (tagged (bs "resourcetype") (if S_ISDIR st.(st_mode) then bs "<D:collection/>" else bs " ") ++ [LF]) h;
  h ← print_if props.(getlastmodified) (tagged (bs "getlastmodified") date ++ [LF]) h;
  h ← print_if props.(getcontenttype) (tagged (bs "getcontenttype") mime ++ [LF]) h;
  head_print (bs "</D:prop><D:status>HTTP/1.1 200 OK</D:status></D:propstat></D:response>") h.

(** Where the XML goes: the client, or the file of the cache. *)
Inductive dav_dest :=
  | ToClient
  | ToCache (fd : Z).

Definition dav_start : bytes :=
  bs "<?xml version=" ++ QUOTE ++ bs "1.0" ++ QUOTE ++ bs " encoding=" ++ QUOTE ++ bs "utf-8"
  ++ QUOTE ++ bs " ?><D:multistatus xmlns:D=" ++ QUOTE ++ bs "DAV:" ++ QUOTE ++ bs ">".

Definition dav_end : bytes := bs "</D:multistatus>".

(** [snprintf] of a redirection into a buffer of [URI_LEN + 12] bytes. *)
Definition location_text (target : bytes) : bytes :=
  take (URI_LEN + 11) (bs "Location: " ++ target ++ CRLF).

Section Webdav.
Context {F : Type} `{Posix F}.
Context (conf : weborf_configuration_t).
Context (cachedir : option bytes).
(** The depth of directories the recursive operations are followed to. *)
Context (depth : nat).

Definition dav_write (dest : dav_dest) (data : bytes) : M F Z :=
  match dest with
  | ToClient => sock_send data
  | ToCache fd => on_fs (fun fs => px_write fs fd data)
  end.

Definition get_props (post_param : string_t) (p : dav_details) : M F (Z * dav_details) :=
  '(r, a) ← param (bs "Depth") (fresh 4) 4;
  a0 ← lift (load a 0);
  let p := if (r : bool)
           then mkdav p.(getetag) p.(getcontentlength) p.(resourcetype) p.(getlastmodified)
                  p.(getcontenttype) (a0 =? chr "1") p.(dav_type)
           else p in
  lift (parse_props post_param p).

(** The buffer of the XML, without its last byte, which is not used. *)
Definition XMLBUF : nat := Z.to_nat MAXSCRIPTOUT - 1.

Definition printprops (dest : dav_dest) (page : bytes) (props : dav_details)
    (file filename : bytes) (parent : bool) : M F unit :=
  fs ← get_fs;
  let file_fd := px_open_rd fs file in
  if file_fd =? -1 then mret tt
  else
    let st := px_fstat fs file_fd in
    ef ← lift (escape_uri filename (fresh URI_LEN) (Z.of_nat URI_LEN));
    ep ← lift (escape_uri page (fresh URI_LEN) (Z.of_nat URI_LEN));
    escaped_filename ← lift (cstr_at ef 0);
    escaped_page ← lift (if parent then Some [] else cstr_at ep 0);
    (* the result of [malloc] is not checked *)
    if negb (px_malloc MAXSCRIPTOUT) then lift None
    else
      let href := if parent then escaped_filename else escaped_page ++ escaped_filename in
      let mime := default (bs "(null)") (mime_get_fd px_magic true (px_contents fs file_fd) st) in
      h ← lift (print_response props st href (px_httpdate st.(st_mtime)) mime
                  (mkhead (fresh XMLBUF) 0 (Z.of_nat XMLBUF)));
      xml ← lift (load_n h.(hd_buf) 0 (Z.to_nat h.(hd_ptr)));
      _ ← dav_write dest xml;
      mret tt.

(** The entries of a directory, without the hidden ones. *)
Fixpoint print_entries (dest : dav_dest) (page : bytes) (props : dav_details) (strfile : bytes)
    (entries : list bytes) : M F unit :=
  match entries with
  | [] => mret tt
  | name :: es =>
      if (if head name is Some 46 then true else false) then print_entries dest page props strfile es
      else
        let file := take (URI_LEN - 1) (strfile ++ name) in
        _ ← printprops dest page props file name false;
        print_entries dest page props strfile es
  end.

(** From the header of the XML on.  When the directory cannot be read the
    descriptors are closed and nothing more is sent. *)
Definition send_multistatus (dest : dav_dest) (props : dav_details) : M F Z :=
  c ← conn;
  page ← cstring c.(page);
  path ← lift (cstr_at c.(strfile) 0);
  _ ← dav_write dest (take 69 dav_start);
  _ ← printprops dest page props path page true;
  fs ← get_fs;
  ok ← (if props.(deep) then
          match px_readdir fs path with
          | None => mret false
          | Some entries => _ ← print_entries dest page props path entries; mret true
          end
        else mret true);
  if negb ok then mret 0
  else
    _ ← dav_write dest (take 16 dav_end);
    match dest with
    | ToClient => mret 0
    | ToCache fd =>
        fs ← get_fs;
        _ ← fd_copy (px_contents fs fd) (px_read_error fs fd) (px_tell fs fd);
        mret 0
    end.

Definition propfind (post_param : string_t) : M F Z :=
  match conf.(c_authsock) with
  | None => mret ERR_FORBIDDEN
  | Some _ =>
      c ← conn;
      fs ← get_fs;
      path ← lift (cstr_at c.(strfile) 0);
      match px_stat fs path with
      | None => mret ERR_FILENOTFOUND
      | Some st =>
          _ ← upd (set_strfile_stat st);
          slash ← (if S_ISDIR st.(st_mode) then lift (endsWith c.(strfile) 0 (bs "/") c.(strfile_len) 1)
                   else mret true);
          if negb slash then
            page ← cstring c.(page);
            _ ← send_http_header 301 None (Some (location_text (page ++ bs "/"))) true (-1);
            mret 0
          else
            '(retval, props) ← get_props post_param (mkdav false false false false false false 1);
            if negb (retval =? 0) then mret retval
            else
              _ ← upd (set_keep_alive false);
              _ ← send_http_header 207 None
                    (Some (bs "Content-Type: text/xml; charset=" ++ QUOTE ++ bs "utf-8" ++ QUOTE ++ CRLF))
                    false (-1);
              if cache_is_enabled cachedir then
                cache_fd ← cache_get_item_fd cachedir (int_version props);
                if negb (cache_fd =? -1) then
                  fs ← get_fs;
                  _ ← fd_copy (px_contents fs cache_fd) (px_read_error fs cache_fd) (px_fstat fs cache_fd).(st_size);
                  mret 0
                else
                  cache_fd ← cache_get_item_fd_wr cachedir (int_version props);
                  send_multistatus (if cache_fd =? -1 then ToClient else ToCache cache_fd) props
              else send_multistatus ToClient props
      end
  end.

Definition mkcol : M F Z :=
  match conf.(c_authsock) with
  | None => mret ERR_FORBIDDEN
  | Some _ =>
      c ← conn;
      path ← lift (cstr_at c.(strfile) 0);
      res ← on_fs (fun fs => px_mkdir fs path);
      mret (match res with
            | None => OK_CREATED
            | Some (EACCES | EFAULT | ELOOP | ENAMETOOLONG) => ERR_FORBIDDEN
            | Some ENOMEM => ERR_SERVICE_UNAVAILABLE
            | Some ENOENT => ERR_CONFLICT
            | Some (EEXIST | ENOTDIR) => ERR_NOT_ALLOWED
            | Some (ENOSPC | EROFS | EPERM) => ERR_INSUFFICIENT_STORAGE
            | Some _ => ERR_SERVICE_UNAVAILABLE
            end)
  end.

(** The path part of a Destination field: the text itself, or what follows the
    host in it. *)
Definition dest_path (dest host : bytes) : M F (option bytes) :=
  d0 ← lift (load dest 0);
  if d0 =? chr "/" then d ← lift (cstr_at dest 0); mret (Some d)
  else
    h ← lift (cstr_at host 0);
    p ← lift (strstr dest 0 h);
    match p with
    | None => mret None
    | Some p => d ← lift (cstr_at dest (p + length h)); mret (Some d)
    end.

(** The three buffers are parts of one allocation. *)
Definition copy_move : M F Z :=
  if negb (px_malloc (3 * Z.of_nat PATH_LEN + 12)) then mret ERR_NOMEM
  else
    '(host_b, host) ← param (bs "Host") (fresh PATH_LEN) (Z.of_nat PATH_LEN);
    '(dest_b, dest) ← param (bs "Destination") (fresh PATH_LEN) (Z.of_nat PATH_LEN);
    '(overwrite_b, overwrite) ← param (bs "Overwrite") (fresh PATH_LEN) (Z.of_nat PATH_LEN);
    o0 ← lift (load overwrite 0);
    o1 ← lift (load overwrite 1);
    if host_b && negb dest_b then mret ERR_NOTHTTP
    else if overwrite_b
            && (negb ((o0 =? chr "T") || (o0 =? chr "F")) || negb (o1 =? 0)) then mret ERR_NOTHTTP
    else
      let check_exists := overwrite_b && negb (o0 =? chr "F") in
      d ← dest_path dest host;
      match d with
      | None => mret ERR_NOTHTTP
      | Some d =>
          c ← conn;
          let destination := take (PATH_LEN - 1) (c.(basedir) ++ d) in
          path ← lift (cstr_at c.(strfile) 0);
          if bool_decide (path = destination) then mret ERR_FORBIDDEN
          else
            exists_ ← file_exists destination;
            if check_exists && exists_ then mret ERR_PRECONDITION_FAILED
            else
              fs ← get_fs;
              let f_prop := default px_garbage_stat (px_stat fs path) in
              retval ← (if S_ISDIR f_prop.(st_mode) then
                          if c.(method_id) =? COPY then dir_copy depth path destination
                          else dir_move depth path destination
                        else
                          if c.(method_id) =? COPY then file_copy path destination
                          else file_move path destination);
              mret (if retval =? 0 then (if (exists_ : bool) then OK_NOCONTENT else OK_CREATED)
                    else retval)
      end.
End Webdav.

(** ** Specifications *)

(** How a character of 7 bits is escaped. *)
Definition dav_plain (c : Z) : bool :=
  ((97 <=? Z.lor c 32) && (Z.lor c 32 <=? 122)) || ((45 <=? c) && (c <=? 57)).

Definition dav_esc_char (c : Z) : bytes := if dav_plain c then [c] else chr "%" :: hex02 c.

Definition dav_esc (s : bytes) : bytes := flat_map dav_esc_char s.

(** ** Lemmas *)

Definition dav_esc_ok (c : Z) : bool :=
  match dav_esc_char c with
  | [x] => (x =? c) && negb (x =? 37)
  | [p; a; b] => (p =? 37) && negb (a =? 0) && negb (b =? 0) && (to_char (strtol [a; b] 16) =? c)
  | _ => false
  end.

(** One character: itself, or an escape that decodes to it. *)
Lemma dav_esc_char_spec c :
  1 <= c < 128 ->
  dav_esc_char c = [c] /\ c <> 37 /\ dav_plain c = true
  \/ exists a b, dav_esc_char c = [37; a; b] /\ a <> 0 /\ b <> 0
       /\ to_char (strtol [a; b] 16) = c /\ dav_plain c = false.
Proof.
  intros Hc. assert (dav_esc_ok c || (c =? 0) = true) as H.
  { apply (check_below 128 (fun c => dav_esc_ok c || (c =? 0))); [by vm_compute | lia]. }
  destruct (Z.eqb_spec c 0); [lia|]. rewrite orb_false_r in H. unfold dav_esc_ok in H.
  unfold dav_esc_char in *. destruct (dav_plain c).
  - left. destruct (Z.eqb_spec c 37) as [->|]; [by rewrite andb_false_r in H | done].
  - right. destruct (hex02 c) as [|a [|b [|]]]; try done; [by rewrite andb_false_r in H|]. exists a, b.
    rewrite !andb_true_iff, !negb_true_iff, !Z.eqb_neq, !Z.eqb_eq in H. naive_solver.
Qed.

Definition text7 (s : bytes) : Prop := Forall (fun c => 1 <= c < 128) s.

Lemma unescape_dav_esc s : text7 s -> unescape (dav_esc s) = s.
Proof.
  induction 1 as [|c s Hc Hs IH]; [done|]. cbn [dav_esc flat_map]. fold (dav_esc s).
  destruct (dav_esc_char_spec c Hc) as [(-> & Hne & _)|(a & b & -> & _ & _ & Hv & _)]; cbn [app unescape].
  - destruct (Z.eqb_spec c 37); [done|]. by rewrite IH.
  - cbn [Z.eqb Pos.eqb]. by rewrite Hv, IH.
Qed.

Lemma dav_esc_nonul s : text7 s -> 0 ∉ dav_esc s.
Proof.
  induction 1 as [|c s Hc Hs IH]; [apply not_elem_of_nil|]. cbn [dav_esc flat_map]. fold (dav_esc s).
  rewrite not_elem_of_app. split; [|done].
  destruct (dav_esc_char_spec c Hc) as [[E _] | (x & y & E & Hx & Hy & _)]; rewrite E;
    rewrite !not_elem_of_cons; split_and!; (lia || apply not_elem_of_nil).
Qed.

(** The loop writes the escapes and a NUL behind each. *)
Lemma escape_uri_loop_run s : forall w rest size,
  text7 s -> (3 * length s < length rest)%nat -> Z.of_nat (3 * length s) < size ->
  exists rest', escape_uri_loop (w ++ rest) (length w) size s = Some (w ++ dav_esc s ++ rest')
    /\ (s <> [] -> exists r, rest' = 0 :: r).
Proof.
  induction s as [|c s IH]; intros w rest size Hs Hr Hz; [by exists rest|].
  inversion Hs as [|? ? Hc Hs']; subst. cbn [escape_uri_loop length] in *.
  destruct (Z.leb_spec 4 size); [|lia].
  assert (schar c = c) as Ec by (apply to_s_small; lia). rewrite Ec.
  fold (dav_plain c). cbv zeta.
  destruct rest as [|r0 [|r1 [|r2 [|r3 rest]]]]; try (cbn [length] in Hr; lia). cbn [length] in Hr.
  cbn [dav_esc flat_map]. fold (dav_esc s).
  assert (forall (w' rest' : bytes) size',
            (3 * length s < S (length rest'))%nat -> Z.of_nat (3 * length s) < size' ->
            exists rest2, escape_uri_loop (w' ++ 0 :: rest') (length w') size' s = Some (w' ++ dav_esc s ++ rest2)
                          /\ exists r, rest2 = 0 :: r) as Hgo.
  { intros w' rest' size' H1 H2. destruct (IH w' (0 :: rest') size' Hs' H1 H2) as (rest2 & E & Hn).
    destruct s; [exists (0 :: rest'); split; [done|]; by eexists|].
    exists rest2. split; [done|]. by apply Hn. }
  destruct (dav_esc_char_spec c Hc) as [(Ee & _ & Ep)|(a & b & Ee & _ & _ & _ & Ep)]; rewrite Ep, Ee.
  - mem_step. rewrite to_u_small by lia. change (to_char 0) with 0.
    destruct (Hgo (w ++ [c]) (r2 :: r3 :: rest) (size - 1)) as (rest2 & E & Hn);
      [cbn [length]; lia | lia |].
    exists rest2. rewrite length_app in E. cbn [length] in E. rewrite <-!app_assoc in E. cbn [app] in *.
    by rewrite E.
  - unfold dav_esc_char in Ee. rewrite Ep in Ee. rewrite (to_u_small 32 c) by lia.
    rewrite app_comm_cons, Ee.
    change (r0 :: r1 :: r2 :: r3 :: rest) with ([r0; r1; r2; r3] ++ rest).
    rewrite write_at_mid by done. cbn [mbind option_bind].
    destruct (Hgo (w ++ [37; a; b]) rest (size - 3)) as (rest2 & E & Hn); [cbn [length]; lia | lia |].
    exists rest2. rewrite length_app in E. cbn [length] in E. rewrite <-!app_assoc in E. cbn [app] in *.
    by rewrite E.
Qed.

Lemma int_version_range p : p.(dav_type) = 1 -> 64 <= int_version p < 128.
Proof.
  intros Ht. unfold int_version. rewrite Ht.
  destruct (getetag p), (getcontentlength p), (resourcetype p), (getlastmodified p),
    (getcontenttype p), (deep p); simpl; lia.
Qed.

Lemma int_version_inj p q :
  p.(dav_type) = 1 -> q.(dav_type) = 1 -> int_version p = int_version q -> p = q.
Proof.
  destruct p as [a b c d e f t], q as [a' b' c' d' e' f' t']. simpl. intros -> -> E.
  unfold int_version in E. simpl in E.
  destruct a, b, c, d, e, f, a', b', c', d', e', f'; simpl in E; done || lia.
Qed.

Lemma escape_uri_loop_length s : forall m dest size m',
  escape_uri_loop m dest size s = Some m' -> length m' = length m.
Proof.
  induction s as [|c s IH]; intros m dest size m' E; [by injection E as <-|].
  cbn [escape_uri_loop] in E. destruct (4 <=? size); [|by injection E as <-]. cbv zeta in E.
  destruct (_ || _).
  - destruct (store m dest _) as [m1|] eqn:E1; [|done]. cbn [mbind option_bind] in E.
    destruct (store m1 _ 0) as [m2|] eqn:E2; [|done]. cbn [mbind option_bind] in E.
    apply IH in E. apply store_length in E1, E2. congruence.
  - destruct (write_at m dest _) as [m1|] eqn:E1; [|done]. cbn [mbind option_bind] in E.
    apply IH in E. apply write_at_length in E1. congruence.
Qed.

(** A character above 127 is negative; it is escaped in nine characters. *)
Lemma high_char c :
  128 <= c < 256 -> dav_plain (schar c) = false /\ length (hex02 (to_u32 (schar c))) = 8%nat.
Proof.
  intros Hc.
  assert ((c <? 128) || (negb (dav_plain (schar c)) && (length (hex02 (to_u32 (schar c))) =? 8)%nat) = true) as H.
  { apply (check_below 256 (fun c => (c <? 128)
      || (negb (dav_plain (schar c)) && (length (hex02 (to_u32 (schar c))) =? 8)%nat))); [by vm_compute | lia]. }
  destruct (Z.ltb_spec c 128); [lia|]. simpl in H.
  apply andb_true_iff in H as [H1 H2]. by apply negb_true_iff in H1; apply Nat.eqb_eq in H2.
Qed.

Lemma escape_uri_loop_high s : forall m k size,
  Forall (fun c => 128 <= c < 256) s -> length m = URI_LEN ->
  (k <= 83)%nat -> size = Z.of_nat (URI_LEN - 3 * k) -> (83 < k + length s)%nat ->
  escape_uri_loop m (3 * k) size s = None.
Proof.
  induction s as [|c s IH]; intros m k size Hs Hm Hk Hz Hl; [simpl in Hl; lia|].
  inversion Hs as [|? ? Hc Hs']; subst. cbn [escape_uri_loop].
  destruct (high_char c Hc) as [Hp Hh]. unfold dav_plain in Hp. cbv zeta. rewrite Hp.
  destruct (Z.leb_spec 4 (Z.of_nat (URI_LEN - 3 * k))); [|unfold URI_LEN in *; lia].
  set (x := chr "%" :: _). assert (length x = 10)%nat as Lx
    by (subst x; cbn [length]; rewrite length_app, Hh; done).
  destruct (decide (k = 83%nat)) as [->|].
  - rewrite write_at_None; [done|]. rewrite Lx, Hm. unfold URI_LEN. lia.
  - destruct (write_at m (3 * k) x) as [m'|] eqn:E; [|done]. cbn [mbind option_bind].
    replace (3 * k + 3)%nat with (3 * S k)%nat by lia.
    apply IH; [done | | lia | unfold URI_LEN; lia | cbn [length] in Hl; lia].
    apply write_at_length in E. congruence.
Qed.

(** ** Specification and lemmas: the answer to PROPFIND *)

(** The XML of one resource. *)
Definition response_text (props : dav_details) (st : stat_t) (href date mime : bytes) : bytes :=
  let opt (b : bool) (t : bytes) := if b then t ++ [LF] else [] in
  (bs "<D:response>" ++ [LF]) ++ tagged (bs "href") href ++ bs "<D:propstat><D:prop>"
  ++ opt props.(getetag) (tagged (bs "getetag") (dec_s st.(st_mtime)))
  ++ opt props.(getcontentlength) (tagged (bs "getcontentlength") (dec_s st.(st_size)))
  ++ opt props.(resourcetype)
       (tagged (bs "resourcetype") (if S_ISDIR st.(st_mode) then bs "<D:collection/>" else bs " "))
  ++ opt props.(getlastmodified) (tagged (bs "getlastmodified") date)
  ++ opt props.(getcontenttype) (tagged (bs "getcontenttype") mime)
  ++ bs "</D:prop><D:status>HTTP/1.1 200 OK</D:status></D:propstat></D:response>".

Lemma print_if_step N t (b : bool) (x : bytes) s :
  Z.of_nat N < 2 ^ 31 -> head_inv N t s -> head_step N (t ++ (if b then x else [])) (print_if b x s).
Proof. intros. destruct b; [by apply head_print_step | by apply head_skip_step]. Qed.

Lemma print_response_step N props st href date mime m :
  Z.of_nat N < 2 ^ 31 -> length m = N ->
  head_step N (response_text props st href date mime)
    (print_response props st href date mime (mkhead m 0 (Z.of_nat N))).
Proof.
  intros HN Hm. unfold print_response, response_text. cbv zeta.
  apply head_bind; [by apply (head_print_step _ []), head_inv_start|]. intros h1 S1. rewrite app_assoc.
  apply head_bind; [by apply head_print_step|]. intros h2 S2. rewrite app_assoc.
  apply head_bind; [by apply head_print_step|]. intros h3 S3. rewrite app_assoc.
  apply head_bind; [by apply print_if_step|]. intros h4 S4. rewrite app_assoc.
  apply head_bind; [by apply print_if_step|]. intros h5 S5. rewrite app_assoc.
  apply head_bind; [by apply print_if_step|]. intros h6 S6. rewrite app_assoc.
  apply head_bind; [by apply print_if_step|]. intros h7 S7. rewrite app_assoc.
  apply head_bind; [by apply print_if_step|]. intros h8 S8. by apply head_print_step.
Qed.

Lemma print_response_load N props st href date mime m :
  Z.of_nat N < 2 ^ 31 -> length m = N ->
  (length (response_text props st href date mime) < N)%nat ->
  exists h, print_response props st href date mime (mkhead m 0 (Z.of_nat N)) = Some h
    /\ load_n h.(hd_buf) 0 (Z.to_nat h.(hd_ptr)) = Some (response_text props st href date mime).
Proof.
  intros HN Hm Hl. pose proof (print_response_step N props st href date mime m HN Hm) as S.
  assert (0 < length (response_text props st href date mime))%nat as H0
    by (unfold response_text; rewrite length_app; simpl; lia).
  set (t := response_text _ _ _ _ _) in *. clearbody t.
  destruct (print_response _ _ _ _ _ _) as [h|]; [|simpl in S; lia]. exists h. split; [done|].
  cbn [head_step] in S. pose proof S as (_ & -> & _). rewrite Nat2Z.id, (head_inv_load _ _ _ S H0).
  by destruct (Nat.ltb_spec (length t) N); [|lia].
Qed.

(** A name that [escape_uri] has room for. *)
Definition dav_name (s : bytes) : Prop := text7 s /\ s <> [] /\ (3 * length s < URI_LEN)%nat.

Lemma escape_uri_run s m :
  dav_name s -> length m = URI_LEN ->
  exists m', escape_uri s m (Z.of_nat URI_LEN) = Some m' /\ length m' = URI_LEN
    /\ cstr_at m' 0 = Some (dav_esc s).
Proof.
  intros (Hs & Hne & Hl) Hd. unfold escape_uri.
  destruct (escape_uri_loop_run s [] m (Z.of_nat URI_LEN) Hs ltac:(lia) ltac:(lia))
    as (rest & E & Hr). destruct (Hr Hne) as [r ->].
  exists (dav_esc s ++ 0 :: r). split_and!; [done | | by apply cstr_at_0, dav_esc_nonul].
  apply escape_uri_loop_length in E. by rewrite <-Hd.
Qed.

Section PropfindLemmas.
Context {F : Type} `{Posix F}.

(** What a resource contributes to the answer; one that cannot be opened is
    left out. *)
Definition resource_xml (fs : F) (props : dav_details) (file href : bytes) : bytes :=
  let fd := px_open_rd fs file in
  let st := px_fstat fs fd in
  if fd =? -1 then []
  else response_text props st href (px_httpdate st.(st_mtime))
         (default (bs "(null)") (mime_get_fd px_magic true (px_contents fs fd) st)).

Definition fits_xml (t : bytes) : Prop := (length t < XMLBUF)%nat.

Lemma printprops_run page props file name (parent : bool) (w : world F) :
  mem_ok -> client_reads -> dav_name page -> dav_name name ->
  let href := if parent then dav_esc name else dav_esc page ++ dav_esc name in
  fits_xml (resource_xml w.(w_fs) props file href) ->
  printprops ToClient page props file name parent w
  = Some (tt, sent w (resource_xml w.(w_fs) props file href)).
Proof.
  intros Hm Hc Hpg Hnm href. unfold printprops, resource_xml. rewrite get_fs_bind. cbv zeta.
  destruct (Z.eqb_spec (px_open_rd (w_fs w) file) (-1)); intros Hf.
  { rewrite mret_run. f_equal. f_equal. unfold sent. rewrite app_nil_r. by destruct w. }
  destruct (escape_uri_run name (fresh URI_LEN) Hnm (fresh_length _)) as (m1 & E1 & _ & C1).
  destruct (escape_uri_run page (fresh URI_LEN) Hpg (fresh_length _)) as (m2 & E2 & _ & C2).
  rewrite (lift_bind_Some _ _ _ _ E1), (lift_bind_Some _ _ _ _ E2), (lift_bind_Some _ _ _ _ C1).
  rewrite (lift_bind_Some _ (if parent then [] else dav_esc page)) by (destruct parent; [done | exact C2]).
  rewrite Hm. cbn [negb].
  set (st := px_fstat _ _) in *. set (mime := default _ _) in *.
  assert ((if parent then dav_esc name else (if parent then [] else dav_esc page) ++ dav_esc name) = href) as Eh
    by (subst href; by destruct parent). rewrite Eh.
  destruct (print_response_load XMLBUF props st href (px_httpdate (st_mtime st)) mime (fresh XMLBUF))
    as (h & Eh2 & El); [unfold XMLBUF, MAXSCRIPTOUT; lia | apply fresh_length | exact Hf |].
  rewrite (lift_bind_Some _ _ _ _ Eh2), (lift_bind_Some _ _ _ _ El). unfold dav_write.
  by rewrite (bind_run _ _ _ _ _ (sock_send_all _ _ Hc)).
Qed.
(** The entries of a directory, without the hidden ones. *)
Definition entries_xml (fs : F) (page : bytes) (props : dav_details) (path : bytes) (names : list bytes)
    : bytes :=
  flat_map (fun name =>
    if (if head name is Some 46 then true else false) then []
    else resource_xml fs props (take (URI_LEN - 1) (path ++ name)) (dav_esc page ++ dav_esc name)) names.

(** Entries whose names [escape_uri] has room for, with XML that fits. *)
Definition entry_ok (fs : F) (page : bytes) (props : dav_details) (path name : bytes) : Prop :=
  head name = Some 46 \/
  dav_name name
  /\ fits_xml (resource_xml fs props (take (URI_LEN - 1) (path ++ name)) (dav_esc page ++ dav_esc name)).

Lemma print_entries_run page props path names : forall w : world F,
  mem_ok -> client_reads -> dav_name page ->
  Forall (entry_ok w.(w_fs) page props path) names ->
  print_entries ToClient page props path names w
  = Some (tt, sent w (entries_xml w.(w_fs) page props path names)).
Proof.
  induction names as [|name names IH]; intros w Hm Hc Hpg Hn; cbn [print_entries entries_xml flat_map].
  { rewrite mret_run. f_equal. f_equal. unfold sent. rewrite app_nil_r. by destruct w. }
  inversion Hn as [|? ? Hok Hn']; subst.
  destruct (decide (head name = Some 46)) as [Hh|Hh].
  - rewrite Hh. cbn [app]. by apply IH.
  - destruct Hok as [?|[Hname Hfit]]; [done|].
    assert ((if head name is Some 46 then true else false) = false) as ->
      by (destruct (head name) as [z|]; [|done]; destruct z as [|q|q]; try done;
          repeat (destruct q as [q|q|]; try done)).
    rewrite (bind_run _ _ _ _ _ (printprops_run page props _ name false w Hm Hc Hpg Hname Hfit)).
    by rewrite IH, sent_sent.
Qed.

(** A PROPFIND without a body: all properties but the content type. *)
Definition all_props (deep : bool) : dav_details := mkdav true true true true false deep 1.

(** What is known of the properties before the body is read: the value of Depth,
    if there is one of at most two bytes, begins with 1. *)
Definition depth_asked (h : bytes) : bool :=
  match field_value (bs "Depth") (h ++ CRLF) with
  | Some v => (length v <? 3)%nat && bool_decide (head v = Some (chr "1"))
  | None => false
  end.

Definition nothing_asked (deep : bool) : dav_details := mkdav false false false false false deep 1.

Lemma get_props_run (w : world F) h post r :
  has_header w.(w_conn) h -> parse_props post (nothing_asked (depth_asked h)) = Some r ->
  get_props post (nothing_asked false) w = Some (r, w).
Proof.
  intros Hh Hp. unfold get_props.
  rewrite (param_bind _ _ _ _ w h) by (done || (by split_and!; [|by_decision..]) || (rewrite fresh_length; lia)).
  unfold field_result. unfold depth_asked in Hp. pose proof (fresh_length 4) as Lf.
  destruct (lookup_lt_is_Some_2 (fresh 4) 0) as [x Hx]; [lia|].
  assert (lift (parse_props post (nothing_asked false)) w = Some (r, w) -> (a0 ← lift (load (fresh 4) 0);
    lift (parse_props post (nothing_asked false))) w = Some (r, w)) as Hno by (intros <-; by rewrite (lift_bind_Some _ x)).
  destruct (field_value _ _) as [v|]; [|apply Hno; by apply lift_run].
  destruct (Z.ltb_spec (Z.of_nat (length v) + 1) 4), (Nat.ltb_spec (length v) 3); try lia;
    [|cbn [andb] in Hp; apply Hno; by apply lift_run].
  cbn beta iota. cbn [andb] in Hp. apply (lift_run _ r) with (w := w) in Hp. destruct v as [|c v].
  - rewrite (lift_bind_Some _ 0) by done. exact Hp.
  - rewrite (lift_bind_Some _ c) by done. cbn [head] in Hp.
    assert (bool_decide (Some c = Some (chr "1")) = (c =? chr "1")) as E.
    { destruct (Z.eqb_spec c (chr "1")) as [->|Hc]; [done|]. apply bool_decide_eq_false_2. congruence. }
    rewrite E in Hp. exact Hp.
Qed.

(** The XML of the whole answer. *)
Definition multistatus_xml (fs : F) (page path : bytes) (props : dav_details) (names : list bytes) : bytes :=
  dav_start ++ resource_xml fs props path (dav_esc page)
  ++ (if props.(deep) then entries_xml fs page props path names else []) ++ dav_end.

(** The XML that is sent: the document is not ended when the directory cannot be
    read. *)
Definition answer_xml (fs : F) (page path : bytes) (props : dav_details) : bytes :=
  if props.(deep) then
    match px_readdir fs path with
    | Some names => multistatus_xml fs page path props names
    | None => dav_start ++ resource_xml fs props path (dav_esc page)
    end
  else multistatus_xml fs page path props [].

Lemma send_multistatus_run (w : world F) pg path props :
  mem_ok -> client_reads -> dav_name pg ->
  cstr_at w.(w_conn).(req) w.(w_conn).(page) = Some pg -> cstr_at w.(w_conn).(strfile) 0 = Some path ->
  fits_xml (resource_xml w.(w_fs) props path (dav_esc pg)) ->
  (forall names, props.(deep) = true -> px_readdir w.(w_fs) path = Some names ->
     Forall (entry_ok w.(w_fs) pg props path) names) ->
  send_multistatus ToClient props w = Some (0, sent w (answer_xml w.(w_fs) pg path props)).
Proof.
  intros Hm Hc Hpg Hp Hs Hf Hd. unfold send_multistatus, answer_xml, multistatus_xml.
  rewrite conn_bind, (bind_run _ _ _ _ _ (cstring_run w _ _ Hp)), (lift_bind_Some _ _ _ _ Hs).
  unfold dav_write. rewrite (bind_run _ _ _ _ _ (sock_send_all _ _ Hc)).
  change (take 69 dav_start) with dav_start. change (take 16 dav_end) with dav_end.
  rewrite (bind_run _ _ _ _ _ (printprops_run pg props path pg true (sent w dav_start) Hm Hc Hpg Hpg Hf)).
  rewrite get_fs_bind. cbn [sent w_fs].
  destruct (deep props).
  - destruct (px_readdir (w_fs w) path) as [names|]; [|by rewrite mret_bind; cbn [negb]; rewrite mret_run, sent_sent].
    specialize (Hd names eq_refl eq_refl).
    rewrite (bind_run _ _ _ true (sent (sent (sent w dav_start) (resource_xml (w_fs w) props path (dav_esc pg)))
               (entries_xml (w_fs w) pg props path names))).
    2:{ by rewrite (bind_run _ _ _ _ _ (print_entries_run pg props path names
          (sent (sent w dav_start) (resource_xml (w_fs w) props path (dav_esc pg))) Hm Hc Hpg Hd)). }
    cbn [negb]. rewrite (bind_run _ _ _ _ _ (sock_send_all _ _ Hc)).
    by rewrite mret_run, !sent_sent, <-?app_assoc.
  - rewrite mret_bind. cbn [negb]. rewrite (bind_run _ _ _ _ _ (sock_send_all _ _ Hc)).
    by rewrite mret_run, !sent_sent, <-?app_assoc.
Qed.
End PropfindLemmas.

(** ** Theorems *)

(** The cache keeps the answers to different PROPFIND requests apart, and
    apart from directory listings (whose prefix is 0): equal cache files mean
    the same selection of properties and depth, and the same version of the
    same directory. *)
Theorem propfind_cache_key dir p q (c c' : connection_t) :
  p.(dav_type) = 1 -> q.(dav_type) = 1 ->
  (length (cached_name dir (int_version p) c.(strfile_stat)) < PATH_LEN)%nat ->
  (length (cached_name dir (int_version q) c'.(strfile_stat)) < PATH_LEN)%nat ->
  (length (cached_name dir 0 c'.(strfile_stat)) < PATH_LEN)%nat ->
  (cached_filename dir (int_version p) c = cached_filename dir (int_version q) c' ->
     p = q /\ to_u64 c.(strfile_stat).(st_ino) = to_u64 c'.(strfile_stat).(st_ino)
     /\ c.(strfile_stat).(st_mtime) = c'.(strfile_stat).(st_mtime))
  /\ cached_filename dir (int_version p) c <> cached_filename dir 0 c'.
Proof.
  intros Hp Hq H1 H2 H3. pose proof (int_version_range p Hp). pose proof (int_version_range q Hq).
  unfold cached_filename. rewrite !take_ge by lia.
  split; [intros (E & Ei & _ & Em)%cached_name_inj | intros (E & _)%cached_name_inj];
    rewrite !to_u_small in E by lia; [|lia].
  split; [by apply int_version_inj | done].
Qed.

(** The href of a resource leads back to it: for a path of 7-bit characters
    that fits, [escape_uri] stays inside its buffer, and decoding the escapes
    of the text it wrote gives the path. *)
Theorem escape_uri_roundtrip s dest :
  text7 s -> s <> [] -> length dest = URI_LEN -> (3 * length s < URI_LEN)%nat ->
  exists m e, escape_uri s dest (Z.of_nat URI_LEN) = Some m /\ length m = URI_LEN
    /\ cstr_at m 0 = Some e /\ unescape e = s.
Proof.
  intros Hs Hne Hd Hl. unfold escape_uri.
  destruct (escape_uri_loop_run s [] dest (Z.of_nat URI_LEN) Hs ltac:(lia) ltac:(lia))
    as (rest & E & Hr). destruct (Hr Hne) as [r ->].
  exists (dav_esc s ++ 0 :: r), (dav_esc s). split_and!; [done | | | by apply unescape_dav_esc].
  - apply escape_uri_loop_length in E. by rewrite <-Hd.
  - by apply cstr_at_0, dav_esc_nonul.
Qed.

(** A name of 84 bytes above 127 (42 letters with an accent, for instance)
    makes [escape_uri] write behind the end of the buffer it is given: each
    of them is printed sign-extended, in nine characters, while the room test
    counts three. *)
Theorem escape_uri_overflows s dest :
  Forall (fun c => 128 <= c < 256) s -> (84 <= length s)%nat -> length dest = URI_LEN ->
  escape_uri s dest (Z.of_nat URI_LEN) = None.
Proof.
  intros Hs Hl Hd. unfold escape_uri. apply (escape_uri_loop_high s dest 0); (done || lia).
Qed.

Section WebdavTheorems.
Context {F : Type} `{Posix F}.
Context (depth : nat).

(** The header line of a multistatus answer. *)
Definition xml_type : bytes :=
  bs "Content-Type: text/xml; charset=" ++ QUOTE ++ bs "utf-8" ++ QUOTE ++ CRLF.

(** The world of a PROPFIND when the answer begins. *)
Definition answering (w : world F) (st : stat_t) : world F :=
  mkworld (set_keep_alive false (set_strfile_stat st w.(w_conn))) w.(w_out) w.(w_read) w.(w_net) w.(w_fs).


(** A request with a Destination path and one of the legal values of Overwrite,
    or none. *)
Record move_request (w : world F) (h d path : bytes) (ov : option bytes) : Prop := {
  mv_header : has_header w.(w_conn) h;
  mv_dest : field_value (bs "Destination") (h ++ CRLF) = Some (chr "/" :: d);
  mv_nonul : 0 ∉ d;
  mv_room : (length d + 2 < PATH_LEN)%nat;
  mv_over : field_value (bs "Overwrite") (h ++ CRLF) = ov;
  mv_legal : In ov [None; Some (bs "T"); Some (bs "F")];
  mv_path : cstr_at w.(w_conn).(strfile) 0 = Some path;
}.

Definition move_target (w : world F) (d : bytes) : bytes :=
  take (PATH_LEN - 1) (w.(w_conn).(basedir) ++ chr "/" :: d).

(** The Destination is understood; then the file is copied or moved, unless
    Overwrite says T and something is there. *)
Lemma copy_move_run (w : world F) h d path ov :
  mem_ok -> move_request w h d path ov -> path <> move_target w d ->
  let there := px_access w.(w_fs) (move_target w d) in
  let copy := w.(w_conn).(method_id) =? COPY in
  let st := default px_garbage_stat (px_stat w.(w_fs) path) in
  copy_move depth w
  = if bool_decide (ov = Some (bs "T")) && there then Some (ERR_PRECONDITION_FAILED, w)
    else (retval ← (if S_ISDIR st.(st_mode)
                    then if copy then dir_copy depth path (move_target w d) else dir_move depth path (move_target w d)
                    else if copy then file_copy path (move_target w d) else file_move path (move_target w d));
          mret (if retval =? 0 then (if (there : bool) then OK_NOCONTENT else OK_CREATED) else retval)) w.
Proof.
  intros Hm [Hh Hd Hd0 Hl Ho Hov Hp] Hne. cbv zeta. unfold copy_move. rewrite Hm. cbn [negb].
  assert (forall n, Z.of_nat n <= Z.of_nat (length (fresh n))) as Hfresh by (intros; rewrite fresh_length; lia).
  rewrite (param_bind _ _ _ _ w h) by (done || (by split_and!; [|by_decision..]) || apply Hfresh).
  destruct (field_result (bs "Host") h (fresh PATH_LEN) (Z.of_nat PATH_LEN)) as [host_b host]. cbn beta iota.
  rewrite (param_bind _ _ _ _ w h) by (done || (by split_and!; [|by_decision..]) || apply Hfresh).
  rewrite (field_result_Some _ _ _ _ _ Hd) by (cbn [length]; lia). cbn beta iota.
  rewrite (param_bind _ _ _ _ w h) by (done || (by split_and!; [|by_decision..]) || apply Hfresh).
  assert (exists over, field_result (bs "Overwrite") h (fresh PATH_LEN) (Z.of_nat PATH_LEN)
            = (if ov is Some _ then true else false, over)
          /\ exists o0 o1, load over 0 = Some o0 /\ load over 1 = Some o1
             /\ (if ov is Some v then v = [o0] /\ o1 = 0 else True)) as (over & -> & o0 & o1 & E0 & E1 & Eov).
  { destruct Hov as [<-|[<-|[<-|[]]]].
    - rewrite (field_result_None _ _ _ _ Ho). eexists. split; [done|].
      destruct (lookup_lt_is_Some_2 (fresh PATH_LEN) 0) as [x Hx]; [rewrite fresh_length; unfold PATH_LEN; lia|].
      destruct (lookup_lt_is_Some_2 (fresh PATH_LEN) 1) as [y Hy]; [rewrite fresh_length; unfold PATH_LEN; lia|].
      by exists x, y.
    - rewrite (field_result_Some _ _ _ _ _ Ho) by (unfold PATH_LEN; cbn [length]; lia).
      eexists. split; [done|]. by exists (chr "T"), 0.
    - rewrite (field_result_Some _ _ _ _ _ Ho) by (unfold PATH_LEN; cbn [length]; lia).
      eexists. split; [done|]. by exists (chr "F"), 0. }
  cbn beta iota. rewrite (lift_bind_Some _ _ _ _ E0), (lift_bind_Some _ _ _ _ E1).
  rewrite andb_false_r.
  assert ((if (if ov is Some _ then true else false)
              && (negb ((o0 =? chr "T") || (o0 =? chr "F")) || negb (o1 =? 0)) then true else false) = false) as Hlegal.
  { destruct Hov as [<-|[<-|[<-|[]]]]; [done|..]; destruct Eov as [[= <-] ->]; done. }
  destruct ((if ov is Some _ then true else false) && _); [done|]. clear Hlegal.
  rewrite (bind_run _ _ w (Some (chr "/" :: d)) w).
  2:{ unfold dest_path. rewrite (lift_bind_Some _ (chr "/")) by done. cbn [Z.eqb Pos.eqb].
      rewrite (lift_bind_Some _ (chr "/" :: d)); [done|].
      apply (cstr_at_0 (chr "/" :: d)). rewrite not_elem_of_cons. split; [done | done]. }
  rewrite conn_bind. rewrite (lift_bind_Some _ _ _ _ Hp). cbv zeta. fold (move_target w d).
  rewrite bool_decide_eq_false_2 by done.
  rewrite (bind_run _ _ w (px_access (w_fs w) (move_target w d)) w) by (unfold file_exists; by rewrite get_fs_bind).
  assert ((if ov is Some _ then true else false) && negb (o0 =? chr "F") = bool_decide (ov = Some (bs "T"))) as ->.
  { destruct Hov as [<-|[<-|[<-|[]]]]; [done|..]; destruct Eov as [[= <-] ->]; done. }
  destruct (bool_decide _ && _); [done|]. by rewrite get_fs_bind.
Qed.

(** MOVE and COPY read the Overwrite header the wrong way round: with
    "Overwrite: T", which asks to replace what is there, a destination that
    exists is refused with [ERR_PRECONDITION_FAILED] and nothing changes. *)
Theorem copy_move_overwrite_refused (w : world F) h d path :
  mem_ok -> move_request w h d path (Some (bs "T")) -> path <> move_target w d ->
  px_access w.(w_fs) (move_target w d) = true ->
  copy_move depth w = Some (ERR_PRECONDITION_FAILED, w).
Proof.
  intros Hm Hr Hne Ha. rewrite (copy_move_run w h d path _ Hm Hr Hne). by rewrite Ha.
Qed.

(** C40: MOVE and COPY of a file that may go to its destination, where reads of
    the file succeed: the answer is success, 201 or 204 according to whether
    something was there, exactly when the file was moved or its whole content
    copied.  A COPY that cannot open the destination or the file is refused, and
    one that is cut short is an error and has written a prefix.  A MOVE within a
    device is the rename; to another device it is a copy, after which the file is
    removed, exactly if the copy is whole; any other failure of the rename is an
    error. *)
Theorem copy_move_file (w : world F) h d path ov st :
  mem_ok -> move_request w h d path ov -> path <> move_target w d ->
  px_stat w.(w_fs) path = Some st -> S_ISDIR st.(st_mode) = false ->
  let target := move_target w d in
  let there := px_access w.(w_fs) target in
  let success := if (there : bool) then OK_NOCONTENT else OK_CREATED in
  ov <> Some (bs "T") \/ there = false ->
  (w.(w_conn).(method_id) = COPY ->
     copies_file path target w w.(w_fs) success (fun fs => fs) (copy_move depth w))
  /\ (w.(w_conn).(method_id) <> COPY ->
       match px_rename w.(w_fs) path target with
       | (None, fs) => copy_move depth w = Some (success, with_fs w fs)
       | (Some EXDEV, fs) =>
           copies_file path target w fs success (fun fs => snd (px_unlink fs path)) (copy_move depth w)
       | (Some _, fs) => copy_move depth w = Some (-1, with_fs w fs)
       end).
Proof.
  intros Hm Hr Hne Hst Hdir target there success Hgo.
  pose proof (copy_move_run w h d path _ Hm Hr Hne) as E. cbv zeta in E. fold target in E. fold there in E.
  rewrite Hst in E. cbn [default] in E. unfold id in E. rewrite Hdir in E.
  assert (bool_decide (ov = Some (bs "T")) && there = false) as Hb.
  { destruct Hgo as [Hgo | ->]; [by rewrite bool_decide_eq_false_2 | by rewrite andb_false_r]. }
  rewrite Hb in E. rewrite E. clear E Hb. split.
  - intros ->. rewrite Z.eqb_refl.
    apply (file_copy_then path target w w success (fun fs => fs)); [done | |done].
    intros r w' Hr0. by destruct (Z.eqb_spec r 0).
  - intros Hcopy%Z.eqb_neq. rewrite Hcopy.
    set (f := fun retval : Z => mret (if retval =? 0 then success else retval) : M F Z).
    assert (forall r w', r <> 0 -> f r w' = Some (r, w')) as Herr by (intros r w' Hr0; subst f; cbv beta; by destruct (Z.eqb_spec r 0)).
    pose proof (file_move_outcome path target w success f Herr ltac:(done)) as Hmv. cbv zeta in Hmv.
    destruct (px_rename (w_fs w) path target) as [[[]|] fs]; exact Hmv.
Qed.

(** When a read of the file fails the answer is success nevertheless, with only
    the beginning at the destination. *)
Theorem copy_reports_truncated (w : world F) h d path ov st fs1 fd inv written read :
  mem_ok -> move_request w h d path ov -> path <> move_target w d ->
  px_stat w.(w_fs) path = Some st -> S_ISDIR st.(st_mode) = false ->
  px_access w.(w_fs) (move_target w d) = false -> w.(w_conn).(method_id) = COPY ->
  copy_ready path (move_target w d) w.(w_fs) fs1 fd inv written read true -> writes_all fd inv ->
  exists fs, written fs = read /\ copy_move depth w = Some (OK_CREATED, with_fs w fs).
Proof.
  intros Hm Hr Hne Hst Hdir Hthere Hcopy Hc Hall.
  destruct (file_copy_whole path (move_target w d) w fs1 fd inv written read true Hc Hall) as (fs & Hrun & Hw).
  exists fs. split; [done|]. rewrite (copy_move_run w h d path ov Hm Hr Hne), Hthere, andb_false_r, Hst. cbn [default].
  unfold id. by rewrite Hdir, Hcopy, Z.eqb_refl, (bind_run _ _ _ _ _ Hrun).
Qed.
End WebdavTheorems.

(** ** Witnesses *)

(** A MOVE of /a to /b, and back over an existing file. *)
Definition sample_move (header : bytes) (m : Z) : world sample_fs :=
  let w := sample_world (bs "/a") header [] in
  mkworld (set_strfile (bs "/srv/a" ++ [0]) (set_method_id m w.(w_conn)))
    w.(w_out) w.(w_read) w.(w_net) w.(w_fs).

Definition sample_dest_header : bytes :=
  bs "HTTP/1.1" ++ CRLF ++ bs "Destination: /d/" ++ CRLF ++ bs "Overwrite: T".

(** No configuration is looked at: MOVE works without authentication. *)
Example move_without_authentication :
  sf_path <$> (head (w_fs (snd (default (0, sample_move [] MOVE)
    (copy_move 5 (sample_move (bs "HTTP/1.1" ++ CRLF ++ bs "Destination: /b" ++ CRLF) MOVE))))))
  = Some (bs "/srv/b").
Proof. vm_compute. reflexivity. Qed.

(** The Destination is not cleaned as the page is: a client may write outside of
    the base directory. *)
Example move_leaves_basedir :
  sf_path <$> (head (w_fs (snd (default (0, sample_move [] MOVE)
    (copy_move 5 (sample_move (bs "HTTP/1.1" ++ CRLF ++ bs "Destination: /../etc/cron.d/b" ++ CRLF) MOVE))))))
  = Some (bs "/srv/../etc/cron.d/b").
Proof. vm_compute. reflexivity. Qed.

Lemma propfind_cache_key_witness :
  let p := mkdav true false false false false false 1 in
  let c := sample_conn [] [] in
  (cached_filename (bs "/c") (int_version p) c = cached_filename (bs "/c") (int_version p) c ->
     p = p /\ to_u64 c.(strfile_stat).(st_ino) = to_u64 c.(strfile_stat).(st_ino)
     /\ c.(strfile_stat).(st_mtime) = c.(strfile_stat).(st_mtime))
  /\ cached_filename (bs "/c") (int_version p) c <> cached_filename (bs "/c") 0 c.
Proof.
  apply (propfind_cache_key (bs "/c") (mkdav true false false false false false 1)
           (mkdav true false false false false false 1) (sample_conn [] []) (sample_conn [] []));
    [reflexivity | reflexivity | apply Nat.ltb_lt; reflexivity..].
Defined.

Lemma escape_uri_roundtrip_witness :
  exists m e, escape_uri (bs "/a b%c/") (replicate URI_LEN 7) (Z.of_nat URI_LEN) = Some m
    /\ length m = URI_LEN /\ cstr_at m 0 = Some e /\ unescape e = bs "/a b%c/".
Proof.
  apply (escape_uri_roundtrip (bs "/a b%c/") (replicate URI_LEN 7));
    [by repeat constructor | discriminate | reflexivity | apply Nat.ltb_lt; reflexivity].
Defined.

Lemma escape_uri_overflows_witness :
  escape_uri (replicate 84 195) (replicate URI_LEN 0) (Z.of_nat URI_LEN) = None.
Proof.
  apply (escape_uri_overflows (replicate 84 195) (replicate URI_LEN 0));
    [apply Forall_replicate; lia | rewrite length_replicate; lia | reflexivity].
Defined.

Lemma sample_move_header h m : 0 ∉ h -> has_header (sample_move (h ++ CRLF) m).(w_conn) h.
Proof.
  intros H0. exists (bs "GET" ++ [0] ++ bs "/a" ++ [0]), []. split_and!; [|reflexivity | done].
  cbn. by rewrite <-!app_assoc.
Qed.

Lemma copy_move_overwrite_refused_witness :
  copy_move 5 (sample_move (sample_dest_header ++ CRLF) MOVE)
  = Some (ERR_PRECONDITION_FAILED, sample_move (sample_dest_header ++ CRLF) MOVE).
Proof.
  apply (copy_move_overwrite_refused 5 (sample_move (sample_dest_header ++ CRLF) MOVE)
           sample_dest_header (bs "d/") (bs "/srv/a")); [done | | discriminate | reflexivity].
  split; [apply sample_move_header; by_decision | reflexivity | by_decision
         | apply Nat.ltb_lt; reflexivity | reflexivity | right; left; reflexivity | reflexivity].
Defined.

Definition sample_copy_header : bytes := bs "HTTP/1.1" ++ CRLF ++ bs "Destination: /b".

Lemma copy_move_file_witness :
  let w := sample_move (sample_copy_header ++ CRLF) COPY in
  let target := move_target w (bs "b") in
  let there := px_access w.(w_fs) target in
  let success := if (there : bool) then OK_NOCONTENT else OK_CREATED in
  target = bs "/srv/b"
  /\ exists fs p q, bs "hello world" = p ++ q /\ sf_written fs 2 = p
        /\ copy_move 5 w = Some (if q is [] then (success, with_fs w fs) else (ERR_BRKPIPE, with_fs w fs)).
Proof.
  split; [reflexivity|].
  destruct (copy_move_file 5 (sample_move (sample_copy_header ++ CRLF) COPY) sample_copy_header (bs "b")
           (bs "/srv/a") None (mkstat (S_IFREG + 420) 11 1000 1 1)) as [Hc _].
  - done.
  - split; [apply sample_move_header; by_decision | reflexivity | by_decision
           | apply Nat.ltb_lt; reflexivity | reflexivity | left; reflexivity | reflexivity].
  - discriminate.
  - reflexivity.
  - reflexivity.
  - by left.
  - destruct (Hc eq_refl) as (_ & _ & Hcopy).
    apply (Hcopy (sf_open_fd 2) (fun fs => sf_written fs 2) (bs "hello world")).
    split; try reflexivity; try (vm_compute; discriminate).
    + eexists. split; [reflexivity | simpl; lia].
    + apply sf_write_law.
Defined.

(** The directory /srv/d/ with the file x in it. *)
Definition sample_propfind : world sample_fs :=
  let w := sample_world (bs "/d/") (bs "HTTP/1.1" ++ CRLF ++ bs "Depth: 1" ++ CRLF) [] in
  mkworld (set_strfile_len 7 (set_strfile (bs "/srv/d/" ++ [0]) w.(w_conn)))
    w.(w_out) w.(w_read) w.(w_net)
    (w.(w_fs) ++ [mkfile (bs "/srv/d//x") (bs "data") 0 (S_IFREG + 420)]).

(** A body that asks for two properties. *)
Definition sample_prop_body : string_t :=
  mkstring 49 (Some (bs "<prop ><getcontentlength /><getetag /> </prop> xx" ++ [0])).

Definition sample_props : dav_details := mkdav true true false false false true 1.

