(* ===== verification/Props.v ===== *)
(** * The body of a PROPFIND (webdav.c)

    [parse_props] of Webdav.v works as [get_props] of the code does: it cuts the
    body into strings in place, keeps pointers to them, and looks the names of
    the properties up in each.  Here it is compared with a reader of the text,
    for every body: the two agree, errors and overreads included. *)
From S2P Require Export Webdav.

(** ** Specification *)

(** The first of several tags in the text [t].  A search that fails runs over
    the whole text, and on behind it when no NUL ends it ([ended]). *)
Fixpoint first_tag (ended : bool) (t : bytes) (tags : list bytes) : option (option nat) :=
  match tags with
  | [] => Some None
  | n :: ns =>
      match find_sub n t with
      | Some i => Some (Some i)
      | None => if ended then first_tag ended t ns else None
      end
  end.

Definition before_space (s : bytes) : bytes :=
  match find_sub (bs " ") s with Some i => take i s | None => s end.

(** The names of the first [n] elements of [s], without their attributes;
    nothing when one of them is not closed by a slash. *)
Fixpoint prop_names (n : nat) (s : bytes) : option (list bytes) :=
  match n with
  | O => Some []
  | S n =>
      match find_sub (bs "<") s with
      | None => Some []
      | Some i =>
          let r := drop (S i) s in
          match find_sub (bs "/>") r with
          | None => None
          | Some j => cons (before_space (take j r)) <$> prop_names n (drop (S j) r)
          end
      end
  end.

(** What is looked for in a name, in this order, and what it switches on. *)
Definition known_props : list (bytes * (dav_details -> dav_details)) :=
  [(bs "getetag", fun p => mkdav true p.(getcontentlength) p.(resourcetype) p.(getlastmodified) p.(getcontenttype) p.(deep) p.(dav_type));
   (bs "getcontentlength", fun p => mkdav p.(getetag) true p.(resourcetype) p.(getlastmodified) p.(getcontenttype) p.(deep) p.(dav_type));
   (bs "resourcetype", fun p => mkdav p.(getetag) p.(getcontentlength) true p.(getlastmodified) p.(getcontenttype) p.(deep) p.(dav_type));
   (bs "getlastmodified", fun p => mkdav p.(getetag) p.(getcontentlength) p.(resourcetype) true p.(getcontenttype) p.(deep) p.(dav_type));
   (bs "getcontenttype", fun p => mkdav p.(getetag) p.(getcontentlength) p.(resourcetype) p.(getlastmodified) true p.(deep) p.(dav_type))].

Fixpoint switch_on (known : list (bytes * (dav_details -> dav_details))) (p : dav_details) (name : bytes) : dav_details :=
  match known with
  | [] => p
  | (k, f) :: known => if find_sub k name is Some _ then f p else switch_on known p name
  end.

(** A body of [n] bytes whose text is [t]. *)
Definition read_props (n : Z) (t : bytes) (ended : bool) (p : dav_details) : option (Z * dav_details) :=
  if n =? 0 then Some (0, mkdav true true true true p.(getcontenttype) p.(deep) p.(dav_type))
  else
    match first_tag ended t [bs "<D:prop "; bs "<D:prop>"; bs "<prop "; bs "<prop>"] with
    | None => None
    | Some None => Some (ERR_NODATA, p)
    | Some (Some i) =>
        let s := drop (i + 6) t in
        match first_tag ended s [bs "</D:prop>"; bs "</prop>"] with
        | None => None
        | Some None => Some (ERR_NODATA, p)
        | Some (Some j) =>
            match prop_names (MAXPROPCOUNT - 1) (take j s) with
            | None => Some (ERR_NODATA, p)
            | Some names => Some (0, fold_left (switch_on known_props) names p)
            end
        end
    end.

(** ** Lemmas *)

Lemma strstr_at m p s needle : cstr_at m p = Some s -> strstr m p needle = Some (Nat.add p <$> find_sub needle s).
Proof. intros E. unfold strstr. by rewrite E. Qed.

(** Strings in the part of the memory that does not change. *)
Lemma cstr_at_kept m m' d p s :
  cstr_at m p = Some s -> (p + length s < d)%nat -> take d m' = take d m -> cstr_at m' p = Some s.
Proof.
  intros E Hl Ht. destruct (cstr_at_Some _ _ _ E) as (H0 & post & Em & Lp).
  set (pre := take p m) in *. clearbody pre. subst m.
  assert (take d (pre ++ s ++ 0 :: post) = (pre ++ s ++ [0]) ++ take (d - p - length s - 1) post) as Et.
  { replace (pre ++ s ++ 0 :: post) with ((pre ++ s ++ [0]) ++ post) by (by rewrite <-!app_assoc).
    rewrite take_app_ge by (rewrite !length_app; cbn [length]; lia). do 2 f_equal.
    rewrite !length_app. cbn [length]. lia. }
  rewrite <-(take_drop d m'), Ht, Et, <-!app_assoc. cbn [app]. by apply cstr_at_app.
Qed.

(** Where the first occurrence is, as text. *)
Lemma find_sub_parts n s i : find_sub n s = Some i -> exists a b, s = a ++ n ++ b /\ length a = i.
Proof.
  intros E. pose proof (find_sub_bound _ _ _ E). apply find_sub_Some in E as [E _].
  eexists _, _. split; [exact E|]. rewrite length_take. lia.
Qed.

Lemma before_space_length q : (length (before_space q) <= length q)%nat.
Proof. unfold before_space. case_match; [rewrite length_take; lia | done]. Qed.

(** One element is cut: the memory behind its name and what is left of the text. *)
Lemma cut_name pre q rest :
  0 ∉ q ->
  exists q', (q_m ← strstr (pre ++ q ++ 0 :: rest) (length pre) (bs " ");
              match q_m with Some k => store (pre ++ q ++ 0 :: rest) k 0 | None => Some (pre ++ q ++ 0 :: rest) end)
             = Some (pre ++ q' ++ 0 :: rest)
    /\ length q' = length q /\ cstr_at (pre ++ q' ++ 0 :: rest) (length pre) = Some (before_space q).
Proof.
  intros H0. rewrite strstr_app by done. cbn [mbind option_bind]. unfold before_space.
  destruct (find_sub (bs " ") q) as [i|] eqn:Ei; cbn [fmap option_fmap option_map].
  - apply find_sub_parts in Ei as (a & b & -> & <-). rewrite take_app_length. exists (a ++ 0 :: b).
    cbn [app]. rewrite <-!app_assoc. cbn [app]. rewrite (app_assoc pre a).
    rewrite store_mid_eq by (by rewrite length_app). change (to_char 0) with 0.
    rewrite <-!app_assoc. split; [done|]. rewrite !length_app. split; [done|].
    apply cstr_at_app; [done | set_solver].
  - exists q. split; [done|]. split; [done|]. by apply cstr_at_app.
Qed.

(** The loop over the elements, from the text [s] behind [pre] on. *)
Lemma split_props_ref n : forall fuel i pre s rest sprops,
  (n < fuel)%nat -> (i + n = MAXPROPCOUNT - 1)%nat -> 0 ∉ s ->
  match prop_names n s with
  | None => split_props fuel i (pre ++ s ++ 0 :: rest) (length pre) sprops = Some None
  | Some names => exists m' ps,
      split_props fuel i (pre ++ s ++ 0 :: rest) (length pre) sprops = Some (Some (m', sprops ++ ps))
      /\ take (length pre) m' = pre /\ Forall2 (fun p name => cstr_at m' p = Some name) ps names
  end.
Proof.
  induction n as [|n IH]; intros [|fuel] i pre s rest sprops Hf Hi H0; try lia; cbn [split_props prop_names];
    rewrite strstr_app by done; cbn [mbind option_bind];
    (destruct (find_sub (bs "<") s) as [k|] eqn:Ek; cbn [fmap option_fmap option_map];
      [|exists (pre ++ s ++ 0 :: rest), []; rewrite app_nil_r, take_app_length; by split_and!]).
  { rewrite (proj2 (Nat.eqb_eq _ _)) by lia. exists (pre ++ s ++ 0 :: rest), [].
    rewrite app_nil_r, take_app_length. by split_and!. }
  rewrite (proj2 (Nat.eqb_neq _ _)) by lia. cbv zeta.
  apply find_sub_parts in Ek as (a & r & -> & <-).
  replace (drop (S (length a)) (a ++ bs "<" ++ r)) with r
    by (rewrite drop_app_ge by lia; replace (S (length a) - length a)%nat with 1%nat by lia; done).
  set (pre1 := pre ++ a ++ bs "<"). assert (S (length pre + length a) = length pre1) as ->
    by (subst pre1; rewrite !length_app; cbn [length]; lia).
  replace (pre ++ (a ++ bs "<" ++ r) ++ 0 :: rest) with (pre1 ++ r ++ 0 :: rest)
    by (subst pre1; by rewrite <-!app_assoc).
  assert (0 ∉ r) as H0r by set_solver. rewrite strstr_app by done. cbn [mbind option_bind].
  destruct (find_sub (bs "/>") r) as [j|] eqn:Ej; cbn [fmap option_fmap option_map]; [|done].
  apply find_sub_parts in Ej as (q & r' & -> & <-). rewrite take_app_length.
  replace (drop (S (length q)) (q ++ bs "/>" ++ r')) with (bs ">" ++ r')
    by (rewrite drop_app_ge by lia; replace (S (length q) - length q)%nat with 1%nat by lia; done).
  replace (pre1 ++ (q ++ bs "/>" ++ r') ++ 0 :: rest) with ((pre1 ++ q) ++ chr "/" :: bs ">" ++ r' ++ 0 :: rest)
    by (by rewrite <-!app_assoc).
  rewrite store_mid_eq by (by rewrite length_app). change (to_char 0) with 0. cbn [mbind option_bind].
  rewrite <-app_assoc.
  destruct (cut_name pre1 q (bs ">" ++ r' ++ 0 :: rest) ltac:(set_solver)) as (q' & Ec & Lq & Es).
  destruct (strstr _ _ (bs " ")) as [c|]; [|done]. cbn [mbind option_bind] in Ec |- *. rewrite Ec. cbn [mbind option_bind].
  assert (S (length pre1 + length q) = length (pre1 ++ q' ++ [0])) as Lp by (rewrite !length_app; cbn [length]; lia).
  replace (pre1 ++ q' ++ 0 :: bs ">" ++ r' ++ 0 :: rest) with ((pre1 ++ q' ++ [0]) ++ (bs ">" ++ r') ++ 0 :: rest) in *
    by (by rewrite <-!app_assoc).
  rewrite Lp. specialize (IH fuel (S i) (pre1 ++ q' ++ [0]) (bs ">" ++ r') rest (sprops ++ [length pre1])
    ltac:(lia) ltac:(lia) ltac:(set_solver)).
  destruct (prop_names n (bs ">" ++ r')) as [names|]; cbn [fmap option_fmap option_map]; [|exact IH].
  destruct IH as (m' & ps & E & Ht & Hp). exists m', (length pre1 :: ps).
  rewrite E, <-app_assoc. split; [done|]. split.
  - apply (f_equal (take (length pre))) in Ht. rewrite take_take in Ht.
    rewrite Nat.min_l in Ht by (subst pre1; rewrite !length_app; lia). rewrite Ht. subst pre1.
    by rewrite <-!app_assoc, take_app_length.
  - constructor; [|done]. eapply cstr_at_kept; [exact Es | | rewrite Ht; symmetry; apply take_app_length].
    cbn beta. pose proof (before_space_length q). rewrite !length_app. cbn [length]. lia.
Qed.

Lemma set_prop_ref m p s name : cstr_at m s = Some name -> set_prop m p s = Some (switch_on known_props p name).
Proof.
  intros E. unfold set_prop. rewrite !(strstr_at _ _ _ _ E). cbn [mbind option_bind switch_on known_props].
  by repeat (destruct (find_sub _ name); cbn [fmap option_fmap option_map]).
Qed.

Lemma set_props_ref m ps names : Forall2 (fun s name => cstr_at m s = Some name) ps names ->
  forall p, set_props m p ps = Some (fold_left (switch_on known_props) names p).
Proof.
  induction 1 as [|s name ps names E _ IH]; intros p; [done|]. cbn [set_props fold_left].
  rewrite (set_prop_ref _ _ _ _ E). cbn [mbind option_bind]. apply IH.
Qed.

Lemma cstr_prefix_take m : exists r, m = cstr_prefix m ++ r /\ (0 ∈ m <-> r <> []) /\ (0 ∈ m -> exists r', r = 0 :: r').
Proof.
  destruct (cstr_prefix_split m) as [E|[r E]].
  - exists []. rewrite app_nil_r. pose proof (cstr_prefix_clean m) as Hc. rewrite E in Hc. split_and!; [done| |done]. tauto.
  - exists (0 :: r). split; [done|]. split; [|by eexists]. split; [done|]. intros _. rewrite E. set_solver.
Qed.

Lemma strstr_scan_ref m p needle :
  strstr_scan m p needle
  = match find_sub needle (cstr_prefix (drop p m)) with
    | Some i => Some (Some (p + i)%nat)
    | None => if bool_decide (0 ∈ drop p m) then Some None else None
    end.
Proof.
  unfold strstr_scan, strstr, cstr_at.
  destruct (cstr_prefix_take (drop p m)) as (r & Em & _ & Hr). set (t := cstr_prefix (drop p m)) in *.
  assert (0 ∉ t) as Ht by apply cstr_prefix_clean.
  case_bool_decide as H0.
  - destruct (Hr H0) as [r' ->]. rewrite Em, find_byte_app by done. cbn [mbind option_bind]. rewrite take_app_length.
    by destruct (find_sub needle t).
  - apply find_byte_None in H0 as E. rewrite E. cbn [mbind option_bind].
    assert (cstr_prefix (drop p m) = drop p m) as Ep by (by apply cstr_prefix_nonul). fold t in Ep. rewrite <-Ep.
    by destruct (find_sub needle t).
Qed.

Lemma strstr_first_ref m p needles :
  strstr_first m p needles
  = option_map (option_map (Nat.add p)) (first_tag (bool_decide (0 ∈ drop p m)) (cstr_prefix (drop p m)) needles).
Proof.
  induction needles as [|n ns IH]; [done|]. cbn [strstr_first first_tag]. rewrite strstr_scan_ref.
  destruct (find_sub n _); [done|]. case_bool_decide as H0; [|done]. cbn [mbind option_bind]. rewrite IH. done.
Qed.

(** A tag that was found lies in the text. *)
Lemma first_tag_bound k ended t tags i :
  Forall (fun n : bytes => (k <= length n)%nat) tags -> first_tag ended t tags = Some (Some i) -> (i + k <= length t)%nat.
Proof.
  induction 1 as [|n ns Hn _ IH]; [done|]. cbn [first_tag]. destruct (find_sub n t) as [i'|] eqn:E.
  - intros [= ->]. apply find_sub_bound in E. lia.
  - by destruct ended.
Qed.

(** The text from a place in it on. *)
Lemma cstr_prefix_drop m i : (i <= length (cstr_prefix m))%nat ->
  cstr_prefix (drop i m) = drop i (cstr_prefix m) /\ (0 ∈ drop i m <-> 0 ∈ m).
Proof.
  intros Hi. destruct (cstr_prefix_take m) as (r & Em & _ & Hr). pose proof (cstr_prefix_clean m) as Hc.
  set (t := cstr_prefix m) in *. rewrite Em. rewrite drop_app_le by done.
  assert (0 ∉ drop i t) as Hd by (intros Hx; apply Hc; rewrite <-(take_drop i t); set_solver).
  split; [|set_solver]. destruct (decide (0 ∈ m)) as [H0|H0].
  - destruct (Hr H0) as [r' ->]. by apply cstr_prefix_app.
  - destruct r as [|x r]; [rewrite app_nil_r; by apply cstr_prefix_nonul|].
    assert (cstr_prefix m = m) as E by (by apply cstr_prefix_nonul). fold t in E.
    rewrite E in Em. apply (f_equal length) in Em. rewrite length_app in Em. cbn [length] in Em. lia.
Qed.

Lemma props_parsed_ref n m p :
  parse_props (mkstring n (Some m)) p = read_props n (cstr_prefix m) (bool_decide (0 ∈ m)) p.
Proof.
  unfold parse_props, read_props. cbn [sp_len sp_data]. destruct (n =? 0); [done|]. cbn [mbind option_bind].
  rewrite strstr_first_ref, drop_0. set (t := cstr_prefix m).
  destruct (first_tag _ t _) as [[i|]|] eqn:Ei; cbn [option_map mbind option_bind]; [|done..].
  apply (first_tag_bound 6) in Ei; [|by repeat constructor].
  destruct (cstr_prefix_drop m (i + 6) Ei) as [Et E0].
  rewrite Nat.add_0_l, strstr_first_ref, Et, (bool_decide_ext _ _ E0). fold t. set (s := drop (i + 6) t).
  destruct (first_tag _ s _) as [[j|]|] eqn:Ej; cbn [option_map mbind option_bind]; [|done..].
  apply (first_tag_bound 7) in Ej; [|by repeat constructor].
  change (cstr_prefix (drop (i + 6) m) = s) in Et. assert (0 ∉ s) as Hs by (rewrite <-Et; apply cstr_prefix_clean).
  assert (0 ∉ take j s) as Htk by (intros Hx; apply Hs; rewrite <-(take_drop j s); apply elem_of_app; by left).
  destruct (cstr_prefix_take (drop (i + 6) m)) as (r & Em & _). rewrite Et in Em.
  assert (m = take (i + 6) m ++ take j s ++ drop j s ++ r) as Ed
    by (by rewrite (app_assoc (take j s)), take_drop, <-Em, take_drop).
  assert (length (take (i + 6) m) = (i + 6)%nat) as Li.
  { rewrite length_take. assert (length t <= length m)%nat by apply length_cstr_prefix. lia. }
  destruct (drop j s) as [|x u] eqn:Eu; [apply (f_equal length) in Eu; rewrite length_drop in Eu; cbn [length] in Eu; lia|].
  assert (store m (i + 6 + j) 0 = Some (take (i + 6) m ++ take j s ++ 0 :: u ++ r)) as ->.
  { rewrite Ed at 1. cbn [app]. rewrite app_assoc, store_mid_eq; [by rewrite <-app_assoc|].
    rewrite length_app, Li, length_take. lia. }
  cbn [mbind option_bind].
  pose proof (split_props_ref (MAXPROPCOUNT - 1) (S MAXPROPCOUNT) 0 (take (i + 6) m) (take j s) (u ++ r) []) as Hp.
  rewrite Li in Hp. specialize (Hp ltac:(unfold MAXPROPCOUNT; lia) eq_refl).
  destruct (prop_names _ (take j s)) as [names|].
  - destruct Hp as (m' & ps & -> & _ & Hn); [exact Htk|].
    cbn [mbind option_bind app]. by rewrite (set_props_ref _ _ _ Hn).
  - by rewrite Hp.
Qed.

(** What the search for the two tags needs: a NUL, or the forms that are looked
    for first. *)
Definition props_readable (m : bytes) : Prop :=
  0 ∈ m \/ exists i, find_sub (bs "<D:prop ") m = Some i /\ contains (bs "</D:prop>") (drop (i + 6) m).

Lemma parse_props_total n m p : n = 0 \/ props_readable m -> is_Some (parse_props (mkstring n (Some m)) p).
Proof.
  intros Hr. rewrite props_parsed_ref. unfold read_props. destruct (Z.eqb_spec n 0); [by eexists|].
  destruct Hr as [?|[H0|(i & Ei & Hc)]]; [done|..].
  - rewrite bool_decide_eq_true_2 by done. cbn [first_tag].
    repeat case_match; simplify_eq; by eexists.
  - destruct (decide (0 ∈ m)) as [H0|H0].
    { rewrite bool_decide_eq_true_2 by done. cbn [first_tag]. repeat case_match; simplify_eq; by eexists. }
    rewrite bool_decide_eq_false_2, cstr_prefix_nonul by done. cbn [first_tag]. rewrite Ei.
    apply find_sub_is_Some in Hc as [j Ej]. rewrite Ej. case_match; by eexists.
Qed.

(** ** Theorems *)

(** C38: whatever the body of a PROPFIND holds, the properties that are asked for
    are found exactly as a reader of its text finds them: the elements of the
    first [prop] element, up to 39 of them, each cut at its first space; an error
    when the element is missing or one of its own is not closed.  The loop ends,
    the strings it cuts stay within the body, and memory beyond the body is read
    exactly when a tag is searched for in vain in a body that no NUL ends. *)
Theorem props_parsed n m p :
  parse_props (mkstring n (Some m)) p = read_props n (cstr_prefix m) (bool_decide (0 ∈ m)) p.
Proof. apply props_parsed_ref. Qed.

(** The body of a request ends where its memory ends.  One that names its
    properties in an element without attributes, as clients do, makes the search for
    the other form, which is tried first, run over the end. *)
Theorem propfind_body_overreads n m p :
  n <> 0 -> 0 ∉ m -> ~ contains (bs "<D:prop ") m -> parse_props (mkstring n (Some m)) p = None.
Proof.
  intros Hn H0 Hc. rewrite props_parsed_ref. unfold read_props. destruct (Z.eqb_spec n 0); [done|].
  rewrite bool_decide_eq_false_2, cstr_prefix_nonul by done. cbn [first_tag].
  by apply find_sub_None in Hc as ->.
Qed.

(** A client that asks for the length and the date of a file. *)
Definition sample_props (attributes : bytes) : bytes :=
  bs "<D:propfind xmlns:D='DAV:'><D:prop" ++ attributes ++ bs "><D:getcontentlength/><D:getlastmodified xmlns:D='DAV:'/></D:prop></D:propfind>".

Example props_with_attributes :
  parse_props (mkstring 116 (Some (sample_props (bs " xmlns:R='r'")))) (mkdav false false false false false false 1)
  = Some (0, mkdav false true false true false false 1).
Proof. vm_compute. reflexivity. Qed.

Lemma propfind_body_overreads_witness :
  parse_props (mkstring 104 (Some (sample_props []))) (mkdav false false false false false false 1) = None.
Proof.
  apply (propfind_body_overreads 104 (sample_props [])); [done | | ].
  - apply (bool_decide_unpack _). vm_compute. exact I.
  - apply find_sub_None. vm_compute. reflexivity.
Defined.
