(* ===== verification/Server.v ===== *)
(** * Serving requests (instance.c)

    [send_page] dispatches a request to its handler: PUT, DELETE, OPTIONS and
    WebDAV, or [get_or_post] for files, directories and scripts;
    [handle_requests] serves the requests of a connection one after the other.
    The loop of an upload and the recursion over directories are followed for
    [turns] and [depth] steps. *)
From S2P Require Export Auth Cgi Webdav.

(** ** Definitions *)

Section Server.
Context {F : Type} `{Posix F}.
Context (conf : weborf_configuration_t).
Context (cachedir : option bytes).
Context (turns depth : nat).

(** The loop of [read_file]. *)
Fixpoint read_file_loop (fuel : nat) (fd content_l tot_read retval : Z) : M F Z :=
  match fuel with
  | O => lift None
  | S f =>
      let to_read := if FILEBUF <? content_l - tot_read then FILEBUF else content_l - tot_read in
      if 0 <? to_read then
        '(read_, buf) ← sock_read to_read;
        write_ ← on_fs (fun fs => px_write fs fd buf);
        if negb (write_ =? read_) then mret ERR_BRKPIPE
        else read_file_loop f fd content_l (tot_read + read_) retval
      else mret retval
  end.

Definition read_file : M F Z :=
  match conf.(c_authsock) with
  | None => mret ERR_FORBIDDEN
  | Some _ =>
      '(r, a) ← param (bs "Content-Length") (fresh NBUFFER) (Z.of_nat NBUFFER);
      if negb r then mret ERR_NODATA
      else
        s ← lift (cstr_at a 0);
        let content_l := strtol s 0 in
        c ← conn;
        path ← lift (cstr_at c.(strfile) 0);
        e ← file_exists path;
        let retval := if (e : bool) then OK_NOCONTENT else OK_CREATED in
        fd ← on_fs (fun fs => px_open_wr fs path);
        if fd =? -1 then mret ERR_FILENOTFOUND
        else
          ok ← on_fs (fun fs => px_ftruncate fs fd content_l);
          if negb ok then mret ERR_NOMEM
          else if negb (px_malloc FILEBUF) then mret ERR_NOMEM
          else read_file_loop turns fd content_l 0 retval
  end.

Definition delete_file : M F Z :=
  match conf.(c_authsock) with
  | None => mret ERR_FORBIDDEN
  | Some _ =>
      c ← conn;
      path ← lift (cstr_at c.(strfile) 0);
      fs ← get_fs;
      match px_stat fs path with
      | None => mret ERR_FILENOTFOUND
      | Some stat_d =>
          retval ← (if S_ISDIR stat_d.(st_mode) then dir_remove depth path
                    else e ← on_fs (fun fs => px_unlink fs path);
                         mret (if e is None then 0 else -1));
          mret (if negb (retval =? 0) then ERR_FORBIDDEN else OK_NOCONTENT)
      end
  end.

(** [pagelen] is unsigned, so that the test for an error is never true. *)
Definition write_dir (real_basedir : bytes) : M F Z :=
  '(r, a) ← check_etag (fresh ABUFFER);
  if r =? 0 then mret 0
  else
    hit ← cache_send_item conf cachedir 0;
    if (hit : bool) then mret 0
    else
      c ← conn;
      let basedir_len := Z.of_nat (length real_basedir) in
      let parent := negb ((to_u64 (c.(strfile_len) - 1) =? basedir_len)
                          || (to_u64 c.(strfile_len) =? basedir_len)) in
      if negb (px_malloc MAXSCRIPTOUT) then mret ERR_NOMEM
      else
        fs ← get_fs;
        path ← lift (cstr_at c.(strfile) 0);
        let scratch := px_malloc (Z.of_nat ESCAPED_FNAME_LEN) in
        '(n, html) ← lift (list_dir px_strftime (px_stat fs) scratch scratch path (px_scandir fs path)
                             (fresh (Z.to_nat MAXSCRIPTOUT)) MAXSCRIPTOUT parent px_garbage_stat);
        let pagelen := to_u64 n in
        _ ← send_http_header 200 (Some pagelen) (Some (bs "Content-Type: text/html" ++ CRLF)) true
              c.(strfile_stat).(st_mtime);
        text ← lift (load_n html 0 (Z.to_nat pagelen));
        _ ← sock_send text;
        _ ← cache_store_item cachedir 0 text;
        mret 0.

Definition tar_send_dir : M F Z :=
  _ ← upd (set_keep_alive false);
  if negb (px_malloc (Z.of_nat HEADBUF)) then mret ERR_NOMEM
  else
    c ← conn;
    let len := c.(strfile_len) - 1 in
    m ← lift (if len <? 0 then None else store c.(strfile) (Z.to_nat len) 0);
    _ ← upd (fun c => set_strfile_len len (set_strfile m c));
    path ← lift (cstr_at m 0);
    i ← lift (find_byte (chr "/") (reverse path));
    let name := drop (length path - i) path in
    let headers := take (HEADBUF - 1)
      (bs "Content-Type: application/x-gzip" ++ CRLF ++ bs "Content-Disposition: attachment; filename="
       ++ QUOTE ++ name ++ bs ".tar.gz" ++ QUOTE ++ CRLF) in
    _ ← send_http_header 200 None (Some headers) true (-1);
    fs ← get_fs;
    match px_tar fs path with
    | None => mret ERR_NOMEM
    | Some (out, status) => _ ← sock_send out; mret (if negb (status =? 0) then ERR_BRKPIPE else 0)
    end.

(** The loop over the index files: whether one was found and answered. *)
Fixpoint try_indexes (indexes : list bytes) : M F bool :=
  match indexes with
  | [] => mret false
  | idx :: rest =>
      c ← conn;
      r ← lift (snprintf c.(strfile) (Z.to_nat c.(strfile_len)) INDEXMAXLEN idx);
      _ ← upd (set_strfile r.1);
      path ← lift (cstr_at r.1 0);
      e ← file_exists path;
      if (e : bool) then
        p ← cstring c.(page);
        _ ← send_http_header 303 (Some 0) (Some (location_text (p ++ idx))) true (-1);
        mret true
      else try_indexes rest
  end.

(** The binary for the page: [cgi_paths] lists endings and binaries in turn. *)
Fixpoint find_cgi (c : connection_t) (paths : list bytes) : option (option bytes) :=
  match paths with
  | [] => Some None
  | ext :: rest =>
      let p := Z.of_nat c.(page) + c.(page_len) - Z.of_nat (length ext) in
      e ← (if p <? 0 then None
           else endsWith c.(req) (Z.to_nat p) ext (Z.of_nat (length ext)) (Z.of_nat (length ext)));
      match rest with
      | [] => if (e : bool) then None else Some None
      | bin :: rest => if (e : bool) then Some (Some bin) else find_cgi c rest
      end
  end.

Definition get_or_post (post_param : string_t) : M F Z :=
  c ← conn;
  if S_ISDIR c.(strfile_stat).(st_mode) then
    if conf.(c_tar_directory) then tar_send_dir
    else
      slash ← lift (endsWith c.(strfile) 0 (bs "/") c.(strfile_len) 1);
      if negb slash then
        p ← cstring c.(page);
        _ ← send_http_header 301 (Some 0) (Some (location_text (p ++ bs "/"))) true (-1);
        mret 0
      else
        found ← try_indexes conf.(c_indexes);
        if (found : bool) then mret 0
        else
          c ← conn;
          m ← lift (store c.(strfile) (Z.to_nat c.(strfile_len)) 0);
          _ ← upd (set_strfile m);
          write_dir c.(basedir)
  else
    cgi ← (if conf.(c_exec_script) then lift (find_cgi c conf.(c_cgi_paths)) else mret None);
    match cgi with
    | Some bin => exec_page conf bin post_param c.(basedir)
    | None => write_file conf
    end.

(** The methods from PUT on. *)
Definition other_methods (id : Z) : M F Z :=
  if id =? PUT then read_file
  else if id =? DELETE then delete_file
  else if id =? OPTIONS then options
  else if id =? PROPFIND then
    post_param ← read_post_data; propfind conf cachedir post_param
  else if id =? MKCOL then mkcol conf
  else if (id =? COPY) || (id =? MOVE) then copy_move depth
  else mret 0.

(** [send_page] up to the label [escape]. *)
Definition serve : M F Z :=
  a ← auth_check_request conf;
  if negb (a =? 0) then _ ← read_post_data; mret ERR_NOAUTH
  else
    c ← conn;
    p ← cstring c.(page);
    '(m, n) ← lift (snprintf c.(strfile) 0 URI_LEN (c.(basedir) ++ p));
    _ ← upd (fun c => set_strfile_len n (set_strfile m c));
    if PUT <=? c.(method_id) then other_methods c.(method_id)
    else
      post_param ← (if c.(method_id) =? POST then read_post_data else mret (mkstring 0 None));
      path ← lift (cstr_at m 0);
      fs ← get_fs;
      let fd := px_open_rd fs path in
      _ ← upd (set_strfile_fd fd);
      if fd <? 0 then mret ERR_FILENOTFOUND
      else _ ← upd (set_strfile_stat (px_fstat fs fd)); get_or_post post_param.

Definition send_page : M F Z := retval ← serve; send_error_header retval.

(** [goto bad_request]: the argument is a status code, not an error value. *)
Definition bad_request : M F unit := _ ← send_error_header 400; mret tt.

(** [memset] of the part of [buf] in use. *)
Definition clear_buf (bufFull : nat) : M F unit :=
  upd_req (fun m => write_at m 0 (replicate bufFull 0)).

(** [n] requests at most are served; the part of [buf] in use is returned. *)
Fixpoint handle_requests (n : nat) (bufFull : nat) : M F nat :=
  match n with
  | O => lift None
  | S n =>
      _ ← (if (bufFull =? 0)%nat then mret tt else clear_buf bufFull);
      '(o, from, bufFull) ← read_header INBUFFER 0 0;
      match o with
      | HdrClosed => mret bufFull
      | HdrBad => _ ← bad_request; mret bufFull
      | HdrEnd e =>
          bufFull ← end_header e from bufFull;
          ok ← parse_request conf;
          if negb ok then _ ← bad_request; mret bufFull
          else
            r ← send_page;
            if r <? 0 then mret bufFull
            else
              c ← conn;
              if negb c.(keep_alive) then mret bufFull else handle_requests n bufFull
      end
  end.
End Server.

(** ** Lemmas: what the answers keep *)

Section ServerKeeps.
Context {F : Type} `{Posix F}.

Lemma sock_send_conn d : keeps (@w_conn F) (sock_send d).
Proof. intros w y w' [= _ <-]. done. Qed.

Lemma sock_read_conn n : keeps (@w_conn F) (sock_read n).
Proof.
  intros w y w'. unfold sock_read. destruct (buffer_read _ _ _) as [[[[r d] b] es]|]; [|done].
  by intros [= _ <-].
Qed.

(** Reading the body of a request changes neither the connection nor what was
    sent. *)
Lemma sock_read_out n : keeps (@w_out F) (sock_read n).
Proof.
  intros w y w'. unfold sock_read. destruct (buffer_read _ _ _) as [[[[r d] b] es]|]; [|done].
  by intros [= _ <-].
Qed.

Lemma upd_out f : keeps (@w_out F) (upd f).
Proof. by intros w y w' [= _ <-]. Qed.

Lemma read_post_data_out : keeps (@w_out F) read_post_data.
Proof. pose proof sock_read_out. unfold read_post_data. keeps. Qed.

Lemma read_post_data_keeps_conn : keeps (@w_conn F) read_post_data.
Proof. pose proof sock_read_conn. unfold read_post_data. keeps. Qed.

Lemma send_two_fs a b : keeps (@w_fs F) (send_two a b).
Proof. unfold send_two. keeps. Qed.

Lemma send_two_conn a b : keeps (@w_conn F) (send_two a b).
Proof. pose proof sock_send_conn. unfold send_two. keeps. Qed.

Lemma send_http_header_fs code size h b t : keeps (@w_fs F) (send_http_header code size h b t).
Proof. unfold send_http_header. keeps. Qed.

Lemma send_error_header_fs r : keeps (@w_fs F) (send_error_header r).
Proof.
  pose proof send_two_fs. pose proof send_http_header_fs.
  unfold send_error_header, send_err, request_auth. keeps.
Qed.

Lemma read_post_data_fs : keeps (@w_fs F) read_post_data.
Proof. unfold read_post_data. keeps. Qed.
End ServerKeeps.

#[export] Hint Resolve sock_send_conn sock_read_conn send_two_fs send_two_conn send_http_header_fs
  send_error_header_fs read_post_data_fs : keeps.

(** ** Lemmas: uploads *)

(** An open file on which every write is complete. *)
Definition upload_fs {F} `{Posix F} (fd : Z) (inv : F -> Prop) (written : F -> bytes) : Prop :=
  write_law fd inv written /\ forall fs b, inv fs -> fst (px_write fs fd b) = Z.of_nat (length b).

Section Upload.
Context {F : Type} `{Posix F}.

Lemma read_file_loop_run fd inv written rest retval fuel : forall data n tot (w : world F),
  upload_fs fd inv written -> inv w.(w_fs) -> buf_wf w.(w_read) -> pending w = data ++ rest ->
  Z.of_nat (length data) = n - tot -> (length data < fuel)%nat ->
  exists fs b es,
    read_file_loop fuel fd n tot retval w
    = Some (retval, mkworld w.(w_conn) w.(w_out) b es fs)
    /\ written fs = written w.(w_fs) ++ data /\ buf_wf b /\ buffered b ++ stream es = rest.
Proof.
  induction fuel as [|f IH]; intros data n tot w Hu Hi Hwf Hp Hl Hf; [lia|]. cbn [read_file_loop].
  set (k := if FILEBUF <? n - tot then FILEBUF else n - tot).
  assert (k <= n - tot /\ (0 < n - tot -> 0 < k)) as [Hk1 Hk2] by (subst k; unfold FILEBUF; btest; lia).
  destruct (Z.ltb_spec 0 k) as [Hk|Hk].
  - destruct (sock_read_run k w Hwf ltac:(lia)) as (d & b & es & Es & Ed & Hb & Hrest).
    rewrite Hp in Ed, Hrest.
    assert (d = take (Z.to_nat k) data) as Ed' by (rewrite Ed; apply take_app_le; lia).
    assert (length d = Z.to_nat k) as Ld by (rewrite Ed', length_take; lia).
    specialize (Hrest ltac:(rewrite length_app; lia)). rewrite drop_app_le in Hrest by lia.
    rewrite (bind_run _ _ _ _ _ Es). cbn beta iota.
    rewrite (bind_run _ _ _ _ _ (on_fs_run _ _)). cbn [w_fs].
    destruct Hu as [Hw Hfull]. pose proof (Hw (w_fs w) d Hi) as Hd. pose proof (Hfull (w_fs w) d Hi) as Hn.
    destruct (px_write (w_fs w) fd d) as [m fs1]. cbn [fst snd] in *. destruct Hd as (_ & Hi1 & Hd).
    subst m. rewrite Z.eqb_refl. cbn [negb]. rewrite Nat2Z.id, take_ge in Hd by lia.
    destruct (IH (drop (Z.to_nat k) data) n (tot + Z.of_nat (length d))
                (with_fs (mkworld w.(w_conn) w.(w_out) b es w.(w_fs)) fs1))
      as (fs & b' & es' & E & Hw' & R); [done | done | done | done | rewrite length_drop; lia | rewrite length_drop; lia |].
    exists fs, b', es'. rewrite E. split; [done|]. split; [|done].
    rewrite Hw'. cbn [with_fs w_fs]. rewrite Hd, <-app_assoc, Ed', take_drop. done.
  - destruct data; [|simpl in *; lia]. exists w.(w_fs), w.(w_read), w.(w_net).
    rewrite mret_run, app_nil_r. split_and!; [by destruct w | done..].
Qed.

(** A stream that has ended before the announced length: nothing ends the loop. *)
Lemma read_file_loop_stalls fd retval fuel : forall n tot (w : world F),
  buf_wf w.(w_read) -> buffered w.(w_read) = [] -> w.(w_net) = [NetClosed] ->
  px_write w.(w_fs) fd [] = (0, w.(w_fs)) -> tot < n ->
  read_file_loop fuel fd n tot retval w = None.
Proof.
  induction fuel as [|f IH]; intros n tot w Hwf Hb Hn Hw Ht; [done|]. cbn [read_file_loop].
  set (k := if FILEBUF <? n - tot then FILEBUF else n - tot).
  assert (0 < k) as Hk by (subst k; unfold FILEBUF; btest; lia).
  destruct (Z.ltb_spec 0 k); [|lia].
  destruct (buffer_read_closed k (w_read w) (w_net w) Hwf Hk Hb Hn) as (b & E & Hwf' & Hb').
  assert (sock_read k w = Some ((0, []), mkworld w.(w_conn) w.(w_out) b w.(w_net) w.(w_fs))) as Es
    by (unfold sock_read; by rewrite E).
  rewrite (bind_run _ _ _ _ _ Es). cbn beta iota.
  rewrite (bind_run _ _ _ _ _ (on_fs_run _ _)). cbn [w_fs]. rewrite Hw. cbn [fst snd Z.eqb negb].
  rewrite Z.add_0_r. by apply IH.
Qed.
End Upload.

(** ** Lemmas: index files *)

Section Indexes.
Context {F : Type} `{Posix F}.

Definition with_strfile (w : world F) (m : bytes) : world F :=
  mkworld (set_strfile m w.(w_conn)) w.(w_out) w.(w_read) w.(w_net) w.(w_fs).

(** The redirection to an index file or to the name with a slash. *)
Definition redirect_head (c : connection_t) (code : Z) (target : bytes) : bytes :=
  http_head c code (Some 0) (Some (location_text target)) true (-1).

Lemma redirect_fits c code target :
  0 <= code < 1000 -> (length (redirect_head c code target) < HEADBUF)%nat.
Proof.
  intros Hc. unfold redirect_head, http_head. cbn [Z.eqb Pos.eqb default]. rewrite !length_app.
  assert (length (connection_header (protocol_version c) (keep_alive c)) <= 30)%nat
    by (unfold connection_header; destruct (protocol_version c =? HTTP_1_1), (keep_alive c);
        apply Nat.leb_le; reflexivity).
  assert (length (status_text code (reason_phrase code)) <= 50)%nat.
  { unfold status_text, reason_phrase. rewrite !length_app.
    pose proof (dec_s_length code 3 ltac:(simpl; lia) ltac:(lia)).
    repeat case_match; cbn [length CRLF]; lia. }
  assert (length (location_text target) <= 267)%nat
    by (unfold location_text, URI_LEN; rewrite length_take; lia).
  assert (length (if keep_alive c then length_text true 0 else []) <= 30)%nat
    by (destruct (keep_alive c); apply Nat.leb_le; reflexivity).
  change (length server_text) with 32%nat. change (length CRLF) with 2%nat. cbn [length id].
  unfold HEADBUF. lia.
Qed.

Lemma send_redirect_run code target (w : world F) :
  mem_ok -> client_reads -> 0 <= code < 1000 ->
  send_http_header code (Some 0) (Some (location_text target)) true (-1) w
  = Some (0, sent (set_status code w) (redirect_head w.(w_conn) code target)).
Proof.
  intros Hm Hc Hcode. apply send_http_header_all; [done..|]. by apply redirect_fits.
Qed.

(** The name [dir] is in the buffer and there is room for an index name. *)
Definition dir_in (m dir : bytes) : Prop :=
  length m = URI_LEN /\ take (length dir) m = dir /\ (length dir + INDEXMAXLEN <= URI_LEN)%nat /\ 0 ∉ dir.

Definition index_name (idx : bytes) : Prop := 0 ∉ idx /\ (length idx < INDEXMAXLEN)%nat.

Lemma index_print m dir idx :
  dir_in m dir -> index_name idx ->
  exists m', snprintf m (length dir) INDEXMAXLEN idx = Some (m', Z.of_nat (length idx))
    /\ dir_in m' dir /\ cstr_at m' 0 = Some (dir ++ idx).
Proof.
  intros (Hl & Ht & Hr & H0) (Hi0 & Hi). rewrite snprintf_fits by lia. rewrite Ht.
  eexists. split; [reflexivity|]. split; [repeat split; [|by rewrite take_app_length|done|done]|].
  - rewrite !length_app, length_cons, length_drop. lia.
  - rewrite app_assoc. apply cstr_at_0. rewrite not_elem_of_app. done.
Qed.

Lemma try_indexes_run dir p idx post pre : forall (w : world F) m,
  mem_ok -> client_reads -> w.(w_conn).(strfile) = m -> dir_in m dir ->
  w.(w_conn).(strfile_len) = Z.of_nat (length dir) ->
  cstr_at w.(w_conn).(req) w.(w_conn).(page) = Some p ->
  Forall index_name (pre ++ [idx]) ->
  Forall (fun i => px_access w.(w_fs) (dir ++ i) = false) pre -> px_access w.(w_fs) (dir ++ idx) = true ->
  exists m', try_indexes (pre ++ idx :: post) w
             = Some (true, sent (set_status 303 (with_strfile w m')) (redirect_head w.(w_conn) 303 (p ++ idx))).
Proof.
  induction pre as [|i pre IH]; intros w m Hm Hc Hs Hd Hl Hp Hn Hpre Hi; cbn [app try_indexes].
  - rewrite conn_bind, Hs, Hl, Nat2Z.id.
    destruct (index_print m dir idx Hd ltac:(by inversion Hn)) as (m' & E & _ & Ec). exists m'.
    rewrite (lift_bind_Some _ _ _ _ E).
    rewrite (bind_run _ _ w tt (with_strfile w m')) by done. cbn [fst].
    rewrite (lift_bind_Some _ _ _ _ Ec).
    rewrite (bind_run _ _ _ true (with_strfile w m')) by (unfold file_exists; rewrite get_fs_bind; cbn [with_strfile w_fs]; by rewrite Hi).
    rewrite (bind_run _ _ _ _ _ (cstring_run (with_strfile w m') _ p Hp)).
    by rewrite (bind_run _ _ _ _ _ (send_redirect_run 303 (p ++ idx) _ Hm Hc ltac:(lia))).
  - rewrite conn_bind, Hs, Hl, Nat2Z.id.
    inversion Hn as [|? ? Hin Hn']; subst. inversion Hpre as [|? ? Hacc Hpre']; subst.
    destruct (index_print _ dir i Hd Hin) as (m' & E & Hd' & Ec).
    rewrite (lift_bind_Some _ _ _ _ E).
    rewrite (bind_run _ _ w tt (with_strfile w m')) by done. cbn [fst].
    rewrite (lift_bind_Some _ _ _ _ Ec).
    rewrite (bind_run _ _ _ false (with_strfile w m')) by (unfold file_exists; rewrite get_fs_bind; cbn [with_strfile w_fs]; by rewrite Hacc).
    destruct (IH (with_strfile w m') m' Hm Hc) as (m2 & E2); [done..|]. by exists m2.
Qed.
End Indexes.

(** ** Theorems *)

Section ServerTheorems.
Context {F : Type} `{Posix F}.
Context (conf : weborf_configuration_t).
Context (cachedir : option bytes).
Context (turns depth : nat).

(** What the answer to something forbidden leaves behind. *)
Lemma forbidden_after (w w' : world F) r :
  send_err 403 (bs "Forbidden") w = Some (r, w') ->
  w_fs w' = w_fs w /\ status_code (w_conn w') = 403 /\ answered forbidden w w'.
Proof.
  unfold send_err. intros E. apply bind_inv in E as (x & w1 & E1 & E). injection E1 as _ <-.
  split_and!.
  - exact (send_two_fs _ _ _ _ _ E).
  - pose proof (send_two_conn _ _ _ _ _ E) as Hc. rewrite Hc. done.
  - apply send_two_answered in E; [exact E|]. split; [|apply Nat.leb_le]; reflexivity.
Qed.

(** C1: a request that authentication refuses has no effect on the file system,
    whatever its method, and what the client gets is a beginning of the
    [challenge] for the page it asked for, "HTTP/1.1 401 Authorization Required"
    with the demand for Basic credentials, followed by the page that says so:
    all of it when there is memory and the client reads.  (A challenge of
    [HEADBUF] bytes or more, for a page with a long name, is cut there,
    [two_sent].) *)
Theorem send_page_unauthorized (w w' : world F) a r page :
  auth_check_request conf w = Some (a, w) -> a <> 0 ->
  cstr_at w.(w_conn).(req) w.(w_conn).(Types.page) = Some page -> (length page <= INBUFFER)%nat ->
  send_page conf cachedir turns depth w = Some (r, w') ->
  w_fs w' = w_fs w /\ status_code (w_conn w') = 401
  /\ answered (two_sent (challenge page) (auth_page page) ++ auth_page page) w w'.
Proof.
  intros Ha Hne Hp Hl. unfold send_page, serve. intros E. apply bind_inv in E as (rv & w1 & E1 & E).
  rewrite (bind_run _ _ _ _ _ Ha) in E1. destruct (Z.eqb_spec a 0); [done|]. cbn [negb] in E1.
  apply bind_inv in E1 as (sp & w2 & Ep & E1). injection E1 as <- <-.
  rewrite <-(read_post_data_fs _ _ _ Ep). change (request_auth w2 = Some (r, w')) in E.
  assert (cstring w2.(w_conn).(Types.page) w2 = Some (page, w2)) as Hd
    by (unfold cstring; rewrite conn_bind, (read_post_data_keeps_conn _ _ _ Ep); by apply lift_run).
  unfold answered. rewrite <-(read_post_data_out _ _ _ Ep).
  unfold request_auth in E. rewrite conn_bind, (bind_run _ _ _ _ _ Hd) in E.
  apply bind_inv in E as (x & w4 & E4 & E). injection E4 as _ <-.
  split_and!; [by rewrite (send_two_fs _ _ _ _ _ E) | by rewrite (send_two_conn _ _ _ _ _ E) |].
  apply send_two_answered in E; [|by apply auth_fit]. by rewrite auth_head_challenge in E.
Qed.

(** The methods that only work with authentication. *)
Definition guarded_method (id : Z) : Prop := In id [PUT; DELETE; PROPFIND; MKCOL].

(** C2: without an authentication program, PUT, DELETE, PROPFIND and MKCOL change
    nothing: what the client gets is a beginning of the answer [forbidden],
    "HTTP/1.1 403 Forbidden" and the page that says so, all of it when there is
    memory and the client reads. *)
Theorem send_page_guarded (w w' : world F) r :
  conf.(c_authsock) = None -> guarded_method w.(w_conn).(method_id) ->
  send_page conf cachedir turns depth w = Some (r, w') ->
  w_fs w' = w_fs w /\ status_code (w_conn w') = 403 /\ answered forbidden w w'.
Proof.
  intros Hs Hg. unfold send_page, serve, auth_check_request. rewrite Hs. intros E.
  apply bind_inv in E as (rv & w1 & E1 & E). rewrite mret_bind in E1. cbn [Z.eqb negb] in E1. rewrite conn_bind in E1.
  apply bind_inv in E1 as (p & w2 & E2 & E1).
  pose proof (cstring_keeps w_fs _ _ _ _ E2) as Hf2. pose proof (cstring_keeps w_out _ _ _ _ E2) as Ho2.
  apply bind_inv in E1 as ([m n] & w3 & E3 & E1). apply bind_inv in E1 as (u & w4 & E4 & E1).
  assert (w_fs w4 = w_fs w) as Hf by
    (rewrite (upd_fs _ _ _ _ E4), (keeps_lift w_fs _ _ _ _ E3); exact Hf2).
  assert (w_out w4 = w_out w) as Ho by
    (rewrite (upd_out _ _ _ _ E4), (keeps_lift w_out _ _ _ _ E3); exact Ho2).
  assert (rv = ERR_FORBIDDEN /\ w_fs w1 = w_fs w4 /\ w_out w1 = w_out w4) as (-> & Hf1 & Ho1).
  { unfold guarded_method in Hg. simpl in Hg. unfold other_methods, read_file, delete_file, propfind, mkcol in E1.
    rewrite Hs in E1. destruct Hg as [Hg | [Hg | [Hg | [Hg | []]]]]; rewrite <-Hg in E1; cbn in E1;
      try (by injection E1 as <- <-).
    apply bind_inv in E1 as (sp & w5 & E5 & E1). injection E1 as <- <-.
    by rewrite (read_post_data_fs _ _ _ E5), (read_post_data_out _ _ _ E5). }
  change (send_err 403 (bs "Forbidden") w1 = Some (r, w')) in E.
  apply forbidden_after in E as (E & E' & E2'). unfold answered in *. rewrite Ho1, Ho in E2'.
  split_and!; [congruence | done..].
Qed.

(** What an upload finds: the request announces [n] bytes for [path], the file
    can be opened and cut to that length. *)
Record upload_request (w : world F) (h : bytes) (n : Z) (path : bytes) (fd : Z) (fs1 fs2 : F)
    (inv : F -> Prop) (written : F -> bytes) : Prop := {
  ur_auth : is_Some conf.(c_authsock);
  ur_header : has_header w.(w_conn) h;
  ur_length : field_value (bs "Content-Length") (h ++ CRLF) = Some (dec_u n);
  ur_n : 0 <= n <= LONG_MAX;
  ur_fits : Z.of_nat (length (dec_u n)) + 1 < Z.of_nat NBUFFER;
  ur_path : cstr_at w.(w_conn).(strfile) 0 = Some path;
  ur_open : px_open_wr w.(w_fs) path = (fd, fs1);
  ur_fd : fd <> -1;
  ur_cut : px_ftruncate fs1 fd n = (true, fs2);
  ur_inv : inv fs2;
  ur_empty : written fs2 = [];
  ur_law : upload_fs fd inv written;
}.

(** Both results of an upload come down to its loop. *)
Lemma read_file_to_loop (w : world F) h n path fd fs1 fs2 inv written :
  mem_ok -> upload_request w h n path fd fs1 fs2 inv written ->
  read_file conf turns w
  = read_file_loop turns fd n 0 (if px_access w.(w_fs) path then OK_NOCONTENT else OK_CREATED)
      (with_fs w fs2).
Proof.
  intros Hm [Ha Hh Hc Hn Hf Hp Ho Hfd Ht _ _ _]. unfold read_file. destruct Ha as [s ->].
  rewrite (param_bind _ _ _ _ w h) by (done || (by split_and!; [|by_decision..]) || (rewrite fresh_length; lia)).
  rewrite (field_result_Some _ _ _ _ _ Hc Hf). cbn beta iota. cbn [negb].
  rewrite (lift_bind_Some _ _ _ _ (cstr_at_0 (dec_u n) _
             (digits_not_in n 0 ltac:(lia) ltac:(unfold is_digit; lia)))).
  rewrite strtol_dec_whole by (by auto). rewrite conn_bind, (lift_bind_Some _ _ _ _ Hp).
  unfold file_exists. rewrite (bind_run _ _ w (px_access w.(w_fs) path) w) by done. cbv zeta.
  rewrite (bind_run _ _ _ _ _ (on_fs_run _ _)), Ho. cbn [fst snd].
  destruct (Z.eqb_spec fd (-1)); [done|].
  rewrite (bind_run _ _ _ _ _ (on_fs_run _ _)). cbn [with_fs w_fs]. rewrite Ht. cbn [fst snd negb].
  rewrite Hm. done.
Qed.

(** C26: a PUT whose body arrives stores exactly the announced bytes, whatever the
    pieces they arrive in: the file holds the body, the answer is 204 or 201
    according to whether the file existed, and the next request starts right
    behind the body. *)
Theorem read_file_exact (w : world F) h n path fd fs1 fs2 inv written data rest :
  mem_ok -> upload_request w h n path fd fs1 fs2 inv written ->
  buf_wf w.(w_read) -> pending w = data ++ rest -> Z.of_nat (length data) = n ->
  (length data < turns)%nat ->
  exists fs b es,
    read_file conf turns w
    = Some (if px_access w.(w_fs) path then OK_NOCONTENT else OK_CREATED,
            mkworld w.(w_conn) w.(w_out) b es fs)
    /\ written fs = data /\ buf_wf b /\ buffered b ++ stream es = rest.
Proof.
  intros Hm Hu Hwf Hp Hl Ht. rewrite (read_file_to_loop w h n path fd fs1 fs2 inv written) by done.
  destruct Hu as [_ _ _ _ _ _ _ _ _ Hi He Hlaw].
  destruct (read_file_loop_run fd inv written rest
              (if px_access w.(w_fs) path then OK_NOCONTENT else OK_CREATED) turns data n 0
              (with_fs w fs2) Hlaw Hi Hwf Hp ltac:(lia) Ht) as (fs & b & es & E & Hw & R).
  exists fs, b, es. rewrite E. split; [done|]. split; [|done].
  rewrite Hw. cbn [with_fs w_fs]. by rewrite He.
Qed.

(** A PUT whose client closes the connection before the announced length was
    sent is never finished: reading returns 0, writing nothing succeeds, and
    the loop goes on for any number of turns. *)
Theorem read_file_never_ends (w : world F) h n path fd fs1 fs2 inv written :
  mem_ok -> upload_request w h n path fd fs1 fs2 inv written ->
  buf_wf w.(w_read) -> buffered w.(w_read) = [] -> w.(w_net) = [NetClosed] -> 0 < n ->
  px_write fs2 fd [] = (0, fs2) ->
  read_file conf turns w = None.
Proof.
  intros Hm Hu Hwf Hb Hn Hp Hw. rewrite (read_file_to_loop w h n path fd fs1 fs2 inv written) by done.
  by apply read_file_loop_stalls.
Qed.

(** The world of a GET when the file is open. *)
Definition opened (w : world F) (path : bytes) : world F :=
  let fd := px_open_rd w.(w_fs) path in
  let m := path ++ 0 :: drop (length path + 1) w.(w_conn).(strfile) in
  mkworld (set_strfile_stat (px_fstat w.(w_fs) fd) (set_strfile_fd fd
             (set_strfile_len (Z.of_nat (length path)) (set_strfile m w.(w_conn)))))
    w.(w_out) w.(w_read) w.(w_net) w.(w_fs).

(** With the name of the file in [strfile]. *)
Definition named (w : world F) (path : bytes) : world F :=
  mkworld (set_strfile_len (Z.of_nat (length path))
             (set_strfile (path ++ 0 :: drop (length path + 1) w.(w_conn).(strfile)) w.(w_conn)))
    w.(w_out) w.(w_read) w.(w_net) w.(w_fs).

(** A GET comes to the opening of its file. *)
Lemma serve_get_opens (w : world F) p :
  conf.(c_authsock) = None ->
  w.(w_conn).(method_id) = GET -> cstr_at w.(w_conn).(req) w.(w_conn).(page) = Some p ->
  let path := w.(w_conn).(basedir) ++ p in
  let fd := px_open_rd w.(w_fs) path in
  0 ∉ path -> (length path < URI_LEN)%nat -> length w.(w_conn).(strfile) = URI_LEN ->
  serve conf cachedir turns depth w
  = (_ ← upd (set_strfile_fd fd);
     if fd <? 0 then mret ERR_FILENOTFOUND
     else _ ← upd (set_strfile_stat (px_fstat w.(w_fs) fd)); get_or_post conf cachedir (mkstring 0 None)) (named w path).
Proof.
  intros Ha Hg Hp path fd H0 Hl Hs. unfold serve, auth_check_request. rewrite Ha, mret_bind. cbn [Z.eqb negb].
  rewrite conn_bind, (bind_run _ _ _ _ _ (cstring_run w _ _ Hp)). fold path.
  pose proof (snprintf_fits (strfile (w_conn w)) 0 URI_LEN path Hl ltac:(lia)) as Es.
  rewrite take_0, Nat.add_0_l in Es. cbn [app] in Es. set (m := path ++ _) in Es.
  rewrite (lift_bind_Some _ _ _ _ Es). cbn beta iota.
  rewrite (bind_run _ _ w tt (named w path)) by done. rewrite Hg. cbn [GET PUT POST Z.leb Z.eqb Z.compare Pos.compare].
  rewrite mret_bind, (lift_bind_Some _ path) by (by apply cstr_at_0). by rewrite get_fs_bind.
Qed.

(** A file that cannot be opened. *)
Lemma serve_get_missing (w : world F) p :
  conf.(c_authsock) = None ->
  w.(w_conn).(method_id) = GET -> cstr_at w.(w_conn).(req) w.(w_conn).(page) = Some p ->
  let path := w.(w_conn).(basedir) ++ p in
  0 ∉ path -> (length path < URI_LEN)%nat -> length w.(w_conn).(strfile) = URI_LEN ->
  px_open_rd w.(w_fs) path < 0 ->
  serve conf cachedir turns depth w
  = Some (ERR_FILENOTFOUND,
      mkworld (set_strfile_fd (px_open_rd w.(w_fs) path) (named w path).(w_conn)) w.(w_out) w.(w_read) w.(w_net) w.(w_fs)).
Proof.
  intros Ha Hg Hp path H0 Hl Hs Hfd. rewrite (serve_get_opens w p) by done. fold path.
  unfold mbind at 1, M_bind at 1, upd at 1. by destruct (Z.ltb_spec (px_open_rd (w_fs w) path) 0); [|lia].
Qed.

(** A GET that finds a file comes to [write_file]. *)
Lemma serve_get_run (w : world F) p :
  conf.(c_authsock) = None -> conf.(c_exec_script) = false ->
  w.(w_conn).(method_id) = GET -> cstr_at w.(w_conn).(req) w.(w_conn).(page) = Some p ->
  let path := w.(w_conn).(basedir) ++ p in
  0 ∉ path -> (length path < URI_LEN)%nat -> length w.(w_conn).(strfile) = URI_LEN ->
  0 <= px_open_rd w.(w_fs) path ->
  S_ISDIR (opened w path).(w_conn).(strfile_stat).(st_mode) = false ->
  serve conf cachedir turns depth w = write_file conf (opened w path).
Proof.
  intros Ha Hx Hg Hp path H0 Hl Hs Hfd Hdir. rewrite (serve_get_opens w p) by done. fold path.
  unfold mbind at 1, M_bind at 1, upd at 1.
  destruct (Z.ltb_spec (px_open_rd (w_fs w) path) 0); [lia|].
  unfold mbind at 1, M_bind at 1, upd at 1. cbn [named w_conn w_out w_read w_net w_fs].
  unfold get_or_post. rewrite conn_bind. cbn [w_conn set_strfile_stat strfile_stat].
  change (S_ISDIR (st_mode (px_fstat (w_fs w) (px_open_rd (w_fs w) path))) = false) in Hdir.
  by rewrite Hdir, Hx, mret_bind.
Qed.

(** A GET of a page that names a regular file under the base directory, with
    scripts off and no condition in the header, sends status 200, the size and
    type of the file and the whole file, from the path that is the base
    directory followed by the decoded page. *)
Theorem send_page_get (w : world F) h p :
  mem_ok -> client_reads -> conf.(c_authsock) = None -> conf.(c_exec_script) = false ->
  w.(w_conn).(method_id) = GET -> cstr_at w.(w_conn).(req) w.(w_conn).(page) = Some p ->
  has_header w.(w_conn) h ->
  field_value (bs "If-None-Match") (h ++ CRLF) = None ->
  field_value (bs "Range") (h ++ CRLF) = None ->
  let path := w.(w_conn).(basedir) ++ p in
  0 ∉ path -> (length path < URI_LEN)%nat -> length w.(w_conn).(strfile) = URI_LEN ->
  0 <= px_open_rd w.(w_fs) path ->
  let w1 := opened w path in
  let size := w1.(w_conn).(strfile_stat).(st_size) in
  S_ISDIR w1.(w_conn).(strfile_stat).(st_mode) = false ->
  size = Z.of_nat (length (file_content w1)) -> size <= LONG_MAX ->
  header_fits w1 200 size (mime_part conf w1) ->
  send_page conf cachedir turns depth w
  = Some (0, sent (set_status 200 w1) (file_response w1 200 size (mime_part conf w1) ++ file_content w1)).
Proof.
  intros Hm Hc Ha Hx Hg Hp Hh He Hr path H0 Hl Hs Hfd w1 size Hdir Hsz Hmax Hfit.
  unfold send_page. erewrite bind_run;
    [|rewrite (serve_get_run w p) by done; apply (write_file_whole_run conf w1 h); done || lia || by apply etag_test_absent].
  fold size. rewrite take_ge by lia. done.
Qed.

(** A request whose method is not known gets no answer at all, not the 400
    the code means to send: [send_error_header] is called with the status code
    where it expects an error value, matches no case and sends nothing; the
    connection is then closed. *)
Theorem unknown_method_unanswered (w : world F) h rest k :
  complete_header h -> buf_wf w.(w_read) -> w.(w_conn).(req) = replicate (INBUFFER + 1) 0 ->
  pending w = h ++ CRLF ++ CRLF ++ rest -> find_method methods (h ++ CRLF) = None ->
  exists b es,
    handle_requests conf cachedir turns depth (S k) 0 w
    = Some ((length h + 4)%nat, reading w (header_buf h) b es)
    /\ w_out (reading w (header_buf h) b es) = w_out w.
Proof.
  intros Hh Hwf Hr Hp Hm. cbn [handle_requests Nat.eqb]. rewrite mret_bind.
  destruct (read_header_finds h rest INBUFFER 0 0 w) as (from & n & b & es & E & Hb & Hrest & Hn & Hf);
    [done | done | by rewrite Hr | by rewrite Hp, drop_0, <-!app_assoc | lia | lia | lia |].
  rewrite (bind_run _ _ _ _ _ E). cbn beta iota.
  destruct (end_header_run h rest n from (reading w (buf_with (take n (h ++ CRLF ++ CRLF))) b es))
    as (b' & es' & E2 & _); [done | done | done | done | lia | lia |].
  rewrite (bind_run _ _ _ _ _ E2). exists b', es'. split; [|done].
  set (w2 := reading _ (header_buf h) b' es').
  rewrite (bind_run _ _ w2 false w2); [done|].
  unfold parse_request. rewrite (bind_run _ _ w2 (h ++ CRLF) w2); [by rewrite Hm|].
  apply cstring_run. apply cstr_at_0. destruct Hh as (H0 & _).
  rewrite not_elem_of_app. split; [done | by_decision].
Qed.

(** A directory that cannot be listed makes the server read far beyond its
    buffer: the error -1 becomes a page length of 2^64 - 1, which is announced
    and then read (the model is stuck). *)
Theorem write_dir_error_overreads (w : world F) h base path :
  mem_ok -> cachedir = None -> has_header w.(w_conn) h ->
  field_value (bs "If-None-Match") (h ++ CRLF) = None ->
  cstr_at w.(w_conn).(strfile) 0 = Some path -> px_scandir w.(w_fs) path = None ->
  write_dir conf cachedir base w = None.
Proof.
  intros Hm -> Hh He Hp Hs. unfold write_dir.
  rewrite (bind_run _ _ _ _ _ (check_etag_absent (fresh ABUFFER) w h Hh He
             ltac:(rewrite fresh_length; unfold ABUFFER; lia))). cbn beta iota. cbn [Z.eqb].
  rewrite (bind_run _ _ w false w) by done. rewrite conn_bind. cbv zeta. rewrite Hm. cbn [negb].
  rewrite get_fs_bind, (lift_bind_Some _ _ _ _ Hp), Hs. cbv zeta. unfold list_dir.
  rewrite (lift_bind_Some _ _ _ _ eq_refl). cbn beta iota. unfold mbind at 1, M_bind at 1.
  destruct (send_http_header _ _ _ _ _ w) as [[r w1]|]; [|done].
  assert (load_n (fresh (Z.to_nat MAXSCRIPTOUT)) 0 (Z.to_nat (to_u64 (-1))) = None) as E; [|by rewrite E].
  unfold load_n. rewrite fresh_length.
  destruct (Nat.leb_spec (0 + Z.to_nat (to_u64 (-1))) (Z.to_nat MAXSCRIPTOUT)) as [Hle|]; [|done].
  exfalso. revert Hle. change (to_u64 (-1)) with (2 ^ 64 - 1). unfold MAXSCRIPTOUT. lia.
Qed.

(** A directory (asked for with its slash) is answered with a redirection
    to the first of the configured index files that exists in it, with status
    303, and to no other. *)
Theorem get_or_post_index (w : world F) sp dir p pre idx post :
  mem_ok -> client_reads -> conf.(c_tar_directory) = false -> conf.(c_indexes) = pre ++ idx :: post ->
  S_ISDIR w.(w_conn).(strfile_stat).(st_mode) = true ->
  dir_in w.(w_conn).(strfile) (dir ++ bs "/") ->
  cstr_at w.(w_conn).(strfile) 0 = Some (dir ++ bs "/") ->
  w.(w_conn).(strfile_len) = Z.of_nat (length (dir ++ bs "/")) ->
  cstr_at w.(w_conn).(req) w.(w_conn).(page) = Some p ->
  Forall index_name (pre ++ [idx]) ->
  Forall (fun i => px_access w.(w_fs) ((dir ++ bs "/") ++ i) = false) pre ->
  px_access w.(w_fs) ((dir ++ bs "/") ++ idx) = true ->
  exists m, get_or_post conf cachedir sp w
            = Some (0, sent (set_status 303 (with_strfile w m)) (redirect_head w.(w_conn) 303 (p ++ idx))).
Proof.
  intros Hm Hc Ht Hidx Hdir Hd Hs Hl Hp Hn Hpre Hi. unfold get_or_post.
  rewrite conn_bind, Hdir, Ht.
  destruct (cstr_at_Some _ _ _ Hs) as (_ & rest & Es & _). rewrite take_0 in Es. cbn [app] in Es.
  assert (endsWith (strfile (w_conn w)) 0 (bs "/") (strfile_len (w_conn w)) 1 = Some true) as Ee.
  { rewrite Es, Hl. apply (endsWith_app [] dir (bs "/") rest); (done || by_decision). }
  rewrite (lift_bind_Some _ _ _ _ Ee). cbn [negb]. rewrite Hidx.
  destruct (try_indexes_run (dir ++ bs "/") p idx post pre w _ Hm Hc eq_refl Hd Hl Hp Hn Hpre Hi) as (m & E).
  exists m. by rewrite (bind_run _ _ _ _ _ E).
Qed.
End ServerTheorems.

(** ** Witnesses *)

Lemma send_page_unauthorized_witness :
  let w := sample_get (bs "HTTP/1.1" ++ CRLF) in
  exists r w',
    @send_page _ (sample_with false) sample_conf_auth None 1 1 w = Some (r, w')
    /\ w_fs w' = w_fs w /\ status_code (w_conn w') = 401
    /\ @answered _ (sample_with false)
         (two_sent (challenge (bs "/a")) (auth_page (bs "/a")) ++ auth_page (bs "/a")) w w'.
Proof.
  eexists _, _. split; [vm_compute; reflexivity|].
  eapply (@send_page_unauthorized _ (sample_with false) sample_conf_auth None 1 1
            (sample_get (bs "HTTP/1.1" ++ CRLF)) _ (-1) _ (bs "/a"));
    [vm_compute; reflexivity | done | vm_compute; reflexivity | by_decision | vm_compute; reflexivity].
Defined.

Definition sample_method (id : Z) : world sample_fs :=
  let w := sample_get (bs "HTTP/1.1" ++ CRLF) in
  mkworld (set_method_id id w.(w_conn)) w.(w_out) w.(w_read) w.(w_net) w.(w_fs).

Lemma send_page_guarded_witness :
  exists r w',
    send_page sample_conf None 1 1 (sample_method DELETE) = Some (r, w')
    /\ w_fs w' = w_fs (sample_method DELETE) /\ status_code (w_conn w') = 403
    /\ answered forbidden (sample_method DELETE) w'.
Proof.
  eexists _, _. split; [vm_compute; reflexivity|].
  eapply (send_page_guarded sample_conf None 1 1 (sample_method DELETE));
    [reflexivity | right; left; reflexivity | vm_compute; reflexivity].
Defined.

Definition sample_upload_header : bytes := bs "HTTP/1.1" ++ CRLF ++ bs "Content-Length: 4".

(** A PUT of four bytes to /srv/new, the pieces of its body still to come. *)
Definition sample_upload (net : list net_event) : world sample_fs :=
  let w := sample_get (sample_upload_header ++ CRLF) in
  mkworld (set_strfile (bs "/srv/new" ++ replicate (URI_LEN - 8) 0) w.(w_conn))
    w.(w_out) w.(w_read) net w.(w_fs).

Definition sample_fs_new (d : bytes) : sample_fs :=
  sample_fs0 ++ [mkfile (bs "/srv/new") d 0 (S_IFREG + 384)].

Lemma sample_upload_fs : upload_fs 2 (sf_open_fd 2) (fun fs => sf_written fs 2).
Proof. split; [apply sf_write_law | done]. Qed.

Lemma sample_upload_request net :
  upload_request sample_conf_auth (sample_upload net) sample_upload_header 4 (bs "/srv/new") 2
    (sample_fs_new []) (sample_fs_new [0; 0; 0; 0]) (sf_open_fd 2) (fun fs => sf_written fs 2).
Proof.
  split; try done; try by_decision; try apply sample_upload_fs.
  - exact (sample_has_header sample_upload_header ltac:(by_decision)).
  - eexists. split; [reflexivity | simpl; lia].
Qed.

Lemma read_file_exact_witness :
  let w := sample_upload [NetData (bs "bo"); NetData (bs "dyGET"); NetTimeout] in
  exists fs b es,
    read_file sample_conf_auth 9 w
    = Some (if px_access w.(w_fs) (bs "/srv/new") then OK_NOCONTENT else OK_CREATED,
            mkworld w.(w_conn) w.(w_out) b es fs)
    /\ sf_written fs 2 = bs "body" /\ buf_wf b /\ buffered b ++ stream es = bs "GET".
Proof.
  apply (read_file_exact sample_conf_auth 9
           (sample_upload [NetData (bs "bo"); NetData (bs "dyGET"); NetTimeout])
           sample_upload_header 4 (bs "/srv/new") 2 (sample_fs_new []) (sample_fs_new [0; 0; 0; 0])
           (sf_open_fd 2) (fun fs => sf_written fs 2) (bs "body") (bs "GET"));
    [done | apply sample_upload_request | unfold buf_wf; simpl; lia | reflexivity | reflexivity
    | simpl; lia].
Defined.

Lemma read_file_never_ends_witness :
  read_file sample_conf_auth 1000 (sample_upload [NetClosed]) = None.
Proof.
  apply (read_file_never_ends sample_conf_auth 1000 (sample_upload [NetClosed])
           sample_upload_header 4 (bs "/srv/new") 2 (sample_fs_new []) (sample_fs_new [0; 0; 0; 0])
           (sf_open_fd 2) (fun fs => sf_written fs 2));
    [done | apply sample_upload_request | unfold buf_wf; simpl; lia | reflexivity | reflexivity
    | lia | reflexivity].
Defined.

Lemma send_page_get_witness :
  let w := sample_get (bs "HTTP/1.1" ++ CRLF) in
  let w1 := opened w (bs "/srv" ++ bs "/a") in
  let size := w1.(w_conn).(strfile_stat).(st_size) in
  file_content w1 = bs "hello world"
  /\ send_page sample_conf None 1 1 w
     = Some (0, sent (set_status 200 w1)
                  (file_response w1 200 size (mime_part sample_conf w1) ++ file_content w1)).
Proof.
  split; [done|].
  apply (send_page_get sample_conf None 1 1 (sample_get (bs "HTTP/1.1" ++ CRLF)) (bs "HTTP/1.1") (bs "/a"));
    [done | done | reflexivity | reflexivity | reflexivity | reflexivity
    | apply sample_has_header; by_decision | reflexivity | reflexivity | by_decision
    | apply Nat.ltb_lt; reflexivity | reflexivity | by_decision | reflexivity | reflexivity
    | by_decision |].
  split_and!; [apply Nat.ltb_lt; reflexivity | by_decision | apply Nat.ltb_lt; reflexivity].
Defined.

Lemma unknown_method_unanswered_witness :
  let h := bs "BREW /a HTTP/1.1" in
  let w := sample_input (h ++ CRLF ++ CRLF ++ bs "GET") in
  exists b es,
    handle_requests sample_conf None 1 1 1 0 w
    = Some ((length h + 4)%nat, reading w (header_buf h) b es)
    /\ w_out (reading w (header_buf h) b es) = w_out w.
Proof.
  apply (unknown_method_unanswered sample_conf None 1 1
           (sample_input (bs "BREW /a HTTP/1.1" ++ CRLF ++ CRLF ++ bs "GET"))
           (bs "BREW /a HTTP/1.1") (bs "GET") 0);
    [|apply sample_buf_wf | reflexivity | reflexivity | reflexivity].
  split_and!; [by_decision | reflexivity | apply Nat.ltb_lt; reflexivity].
Defined.

(** A directory below an empty file system. *)
Definition sample_empty_dir : world sample_fs :=
  let w := sample_get (bs "HTTP/1.1" ++ CRLF) in
  mkworld (set_strfile (bs "/srv/d/" ++ replicate (URI_LEN - 7) 0) w.(w_conn))
    w.(w_out) w.(w_read) w.(w_net) [].

Lemma write_dir_error_overreads_witness :
  write_dir sample_conf None (bs "/srv") sample_empty_dir = None.
Proof.
  apply (write_dir_error_overreads sample_conf None sample_empty_dir (bs "HTTP/1.1") (bs "/srv") (bs "/srv/d/"));
    [done | done | exact (sample_has_header (bs "HTTP/1.1") ltac:(by_decision)) | reflexivity
    | reflexivity | reflexivity].
Defined.

(** The directory /srv/d/ with an index file. *)
Definition sample_dir_get : world sample_fs :=
  let w := sample_get (bs "HTTP/1.1" ++ CRLF) in
  mkworld (set_strfile_len 7 (set_strfile (bs "/srv/d/" ++ replicate (URI_LEN - 7) 0)
             (set_strfile_stat (mkstat (S_IFDIR + 493) 0 1000 1 1) w.(w_conn))))
    w.(w_out) w.(w_read) w.(w_net)
    (w.(w_fs) ++ [mkfile (bs "/srv/d/index.html") [] 0 (S_IFREG + 420)]).

Lemma get_or_post_index_witness :
  let w := sample_dir_get in
  exists m,
    get_or_post sample_conf None (mkstring 0 None) w
    = Some (0, sent (set_status 303 (with_strfile w m))
                 (redirect_head w.(w_conn) 303 (bs "/a" ++ bs "index.html"))).
Proof.
  apply (get_or_post_index sample_conf None sample_dir_get (mkstring 0 None) (bs "/srv/d") (bs "/a")
           [] (bs "index.html") []);
    [done | done | reflexivity | reflexivity | reflexivity | | reflexivity | reflexivity | reflexivity
    | | constructor | reflexivity].
  - split_and!; [reflexivity | reflexivity | apply Nat.leb_le; reflexivity | by_decision].
  - constructor; [|constructor]. split; [by_decision | apply Nat.ltb_lt; reflexivity].
Defined.
