(* ===== verification/Listing.v ===== *)
(** * Directory pages and their cache (instance.c, cachedir.c)

    [write_dir] from the request to the bytes on the wire, with the cache of
    pages in between: the first request for a directory prints its entries and
    stores the page, a later one is answered from the cache. *)
From S2P Require Export Server.

(** ** Specification *)

Definition html_type : bytes := bs "Content-Type: text/html" ++ CRLF.

Section ListingSpec.
Context {F : Type} `{Posix F}.
Context (conf : weborf_configuration_t).

(** A request for the directory with entries [es], whose page is [text]; the
    entries carry no condition. *)
Record listing_request (w : world F) (h base : bytes) (es : list dirent_t) (text : bytes) : Prop := {
  lr_header : has_header w.(w_conn) h;
  lr_etag : field_value (bs "If-None-Match") (h ++ CRLF) = None;
  lr_range : field_value (bs "Range") (h ++ CRLF) = None;
  lr_scan : exists path names, cstr_at w.(w_conn).(strfile) 0 = Some path
            /\ px_scandir w.(w_fs) path = Some names /\ es = entries_of (px_stat w.(w_fs)) path names;
  lr_entries : Forall good_entry es;
  lr_page : let len := w.(w_conn).(strfile_len) in
            text = list_page px_strftime
                     (negb ((to_u64 (len - 1) =? Z.of_nat (length base)) || (to_u64 len =? Z.of_nat (length base)))) es;
  lr_fits : Z.of_nat (length text) < MAXSCRIPTOUT - 1;
}.

(** The header of a page that is made anew. *)
Definition listing_head (c : connection_t) (text : bytes) : bytes :=
  http_head c 200 (Some (Z.of_nat (length text))) (Some html_type) true c.(strfile_stat).(st_mtime).

(** The connection while a page is sent from the cache file [fd]. *)
Definition cached_conn (fs : F) (fd : Z) (c : connection_t) : connection_t :=
  set_strfile_stat (px_fstat fs fd) (set_strfile_fd fd c).

Definition cached_world (w : world F) (fd : Z) : world F :=
  mkworld (cached_conn w.(w_fs) fd w.(w_conn)) w.(w_out) w.(w_read) w.(w_net) w.(w_fs).

(** What is asked of the file system: the cache file [name] is not there in
    [fs], can be written, and is then, in [fs2], the file that was written. *)
Record cache_file (fs fs2 : F) (name text : bytes) (fd fd2 : Z) : Prop := {
  cf_miss : px_open_rd fs name = -1;
  cf_write : exists fs1, px_open_wr fs name = (fd, fs1) /\ fd <> -1 /\ px_flock fs1 fd true = true
                         /\ px_write fs1 fd text = (Z.of_nat (length text), fs2);
  cf_open : px_open_rd fs2 name = fd2 /\ fd2 <> -1 /\ px_flock fs2 fd2 false = true;
  cf_read : px_contents fs2 fd2 = text;
  cf_size : (px_fstat fs2 fd2).(st_size) = Z.of_nat (length text);
}.
End ListingSpec.

(** ** Lemmas *)

Section Listing.
Context {F : Type} `{Posix F}.
Context (conf : weborf_configuration_t).

Lemma cache_send_item_miss dir p (w : world F) :
  px_open_rd w.(w_fs) (cached_filename dir p w.(w_conn)) = -1 ->
  cache_send_item conf (Some dir) p w = Some (false, w).
Proof.
  intros Ho. unfold cache_send_item, cache_get_item_fd.
  rewrite (bind_run _ _ w (-1) w) by (by rewrite conn_bind, get_fs_bind, Ho). done.
Qed.

Lemma cache_send_item_hit dir p (w : world F) h fd :
  mem_ok -> client_reads -> has_header w.(w_conn) h ->
  field_value (bs "If-None-Match") (h ++ CRLF) = None -> field_value (bs "Range") (h ++ CRLF) = None ->
  px_open_rd w.(w_fs) (cached_filename dir p w.(w_conn)) = fd -> fd <> -1 -> px_flock w.(w_fs) fd false = true ->
  let w' := cached_world w fd in
  let size := (px_fstat w.(w_fs) fd).(st_size) in
  size = Z.of_nat (length (px_contents w.(w_fs) fd)) -> size <= LONG_MAX ->
  header_fits w' 200 size (mime_part conf w') ->
  exists w2, cache_send_item conf (Some dir) p w = Some (true, w2) /\ w2.(w_fs) = w.(w_fs)
    /\ w2.(w_out) = w.(w_out) ++ file_response w' 200 size (mime_part conf w') ++ px_contents w.(w_fs) fd.
Proof.
  intros Hm Hc Hh He Hr Ho Hfd Hl w' size Hsz Hmax Hfit. unfold cache_send_item, cache_get_item_fd.
  rewrite (bind_run _ _ w fd w).
  2:{ rewrite conn_bind, get_fs_bind. cbv zeta. rewrite Ho, Hl. by destruct (Z.eqb_spec fd (-1)). }
  destruct (Z.eqb_spec fd (-1)); [done|]. rewrite conn_bind, get_fs_bind. cbv zeta.
  rewrite (bind_run _ _ w tt w') by done.
  pose proof (write_file_whole_run conf w' h Hm Hc Hh (etag_test_absent _ _ He) Hr ltac:(change (0 <= size <= LONG_MAX); lia) Hfit) as E.
  cbv zeta in E. change (st_size (strfile_stat (w_conn w'))) with size in E.
  change (file_content w') with (px_contents w.(w_fs) fd) in E. rewrite take_ge in E by lia.
  rewrite (bind_run _ _ _ _ _ E). eexists. split; [reflexivity|]. done.
Qed.

(** A page that is not in the cache. *)
Lemma write_dir_miss cachedir (w : world F) h base es text fs2 :
  mem_ok -> client_reads -> listing_request w h base es text ->
  (length (listing_head w.(w_conn) text) < HEADBUF)%nat ->
  cache_send_item conf cachedir 0 w = Some (false, w) ->
  (forall w', w'.(w_fs) = w.(w_fs) -> w'.(w_conn).(strfile_stat) = w.(w_conn).(strfile_stat) ->
     cache_store_item cachedir 0 text w' = Some (tt, with_fs w' fs2)) ->
  write_dir conf cachedir base w
  = Some (0, with_fs (sent (set_status 200 w) (listing_head w.(w_conn) text ++ text)) fs2).
Proof.
  intros Hm Hc [Hh He _ (path & names & Hp & Hsc & Hn) Hes Ht Hl] Hfit Hmiss Hst. unfold write_dir.
  rewrite (bind_run _ _ _ _ _ (check_etag_absent (fresh ABUFFER) w h Hh He
             ltac:(rewrite fresh_length; unfold ABUFFER; lia))). cbn beta iota. cbn [Z.eqb].
  rewrite (bind_run _ _ _ _ _ Hmiss), conn_bind. cbv zeta. cbv zeta in Ht. set (parent := negb _) in *.
  rewrite !Hm. cbn [negb]. rewrite get_fs_bind, (lift_bind_Some _ _ _ _ Hp), Hsc.
  destruct (list_dir_run px_strftime (px_stat (w_fs w)) path names es (fresh (Z.to_nat MAXSCRIPTOUT)) MAXSCRIPTOUT parent px_garbage_stat)
    as (rest & El); [exact Hn | done | rewrite fresh_length; unfold MAXSCRIPTOUT; lia | done | by rewrite <-Ht |].
  rewrite <-Ht in El. rewrite (lift_bind_Some _ _ _ _ El). cbn beta iota.
  rewrite to_u_small by (unfold MAXSCRIPTOUT in *; lia).
  rewrite (bind_run _ _ _ _ _ (send_http_header_all 200 (Some (Z.of_nat (length text))) (Some html_type) true
             (st_mtime (strfile_stat (w_conn w))) w Hm Hc Hfit)).
  rewrite (lift_bind_Some _ text).
  2:{ unfold load_n. rewrite Nat2Z.id, length_app, Nat.add_0_l.
      destruct (Nat.leb_spec (length text) (length text + length rest)); [|lia]. by rewrite drop_0, take_app_length. }
  rewrite (bind_run _ _ _ _ _ (sock_send_all text _ Hc)).
  rewrite (bind_run _ _ _ _ _ (Hst (sent (sent (set_status 200 w) _) _) eq_refl eq_refl)), mret_run, sent_sent. done.
Qed.
End Listing.

(** ** Theorems *)

Section ListingTheorems.
Context {F : Type} `{Posix F}.
Context (conf : weborf_configuration_t).

(** C29: the cache returns what was put into it: the first request for a
    directory is answered with its page, made from the entries, and the page is
    stored; while the directory is not modified, the next request is answered
    with the same page, byte by byte, announced with its right length, without
    the directory being read. *)
Theorem listing_cached dir (w : world F) h base es text fs2 fd fd2 :
  mem_ok -> client_reads -> listing_request w h base es text ->
  cache_file w.(w_fs) fs2 (cached_filename dir 0 w.(w_conn)) text fd fd2 ->
  (length (listing_head w.(w_conn) text) < HEADBUF)%nat ->
  let wc := cached_world (with_fs w fs2) fd2 in
  header_fits wc 200 (Z.of_nat (length text)) (mime_part conf wc) ->
  exists w1 w2,
    write_dir conf (Some dir) base w = Some (0, w1) /\ w1.(w_fs) = fs2
    /\ w1.(w_out) = w.(w_out) ++ listing_head w.(w_conn) text ++ text
    /\ write_dir conf (Some dir) base w1 = Some (0, w2) /\ w2.(w_fs) = fs2
    /\ w2.(w_out) = w1.(w_out) ++ file_response wc 200 (Z.of_nat (length text)) (mime_part conf wc) ++ text.
Proof.
  intros Hm Hc Hr [Hmiss (fs1 & Ho & Hfd & Hl & Hw) (Ho2 & Hfd2 & Hl2) Hcont Hsz] Hfit wc Hfit2.
  set (w1 := with_fs (sent (set_status 200 w) (listing_head w.(w_conn) text ++ text)) fs2).
  assert (write_dir conf (Some dir) base w = Some (0, w1)) as E1.
  { apply (write_dir_miss conf (Some dir) w h base es text fs2 Hm Hc Hr Hfit).
    - by apply cache_send_item_miss.
    - intros w' Ef Est. apply (cache_store_item_run dir 0 text w' fd fs1 fs2); [|done..].
      rewrite Ef. unfold cached_filename in *. by rewrite Est. }
  pose proof Hr as [Hh He Hrg _ _ _ Hlen].
  destruct (cache_send_item_hit conf dir 0 w1 h fd2) as (w2 & E2 & Hf2 & Hout2); try done.
  - change (st_size (px_fstat fs2 fd2) = Z.of_nat (length (px_contents fs2 fd2))). congruence.
  - change (st_size (px_fstat fs2 fd2) <= LONG_MAX). rewrite Hsz. unfold MAXSCRIPTOUT, LONG_MAX in *. lia.
  - change (st_size (px_fstat (w_fs w1) fd2)) with (st_size (px_fstat fs2 fd2)). rewrite Hsz. exact Hfit2.
  - change (st_size (px_fstat (w_fs w1) fd2)) with (st_size (px_fstat fs2 fd2)) in Hout2.
    change (px_contents (w_fs w1) fd2) with (px_contents fs2 fd2) in Hout2. rewrite Hsz, Hcont in Hout2.
    exists w1, w2. split_and!; [done | done | done | | done | exact Hout2].
    unfold write_dir. rewrite (bind_run _ _ _ _ _ (check_etag_absent (fresh ABUFFER) w1 h Hh He
             ltac:(rewrite fresh_length; unfold ABUFFER; lia))). cbn beta iota. cbn [Z.eqb].
    by rewrite (bind_run _ _ _ _ _ E2).
Qed.
End ListingTheorems.

(** ** Witnesses *)

(** A request for /srv/. *)
Definition sample_listing : world sample_fs :=
  let w := sample_get (bs "HTTP/1.1" ++ CRLF) in
  mkworld (set_strfile_len 5 (set_strfile (bs "/srv/" ++ replicate (URI_LEN - 5) 0) w.(w_conn)))
    w.(w_out) w.(w_read) w.(w_net) w.(w_fs).

Definition sample_page : bytes :=
  list_page px_strftime false [mkdirent (bs "a") (Some (mkstat (S_IFREG + 420) 11 1000 1 1))].

Definition sample_cache_name : bytes := cached_filename (bs "/c") 0 (w_conn sample_listing).

Definition sample_cached_fs : sample_fs := sample_fs0 ++ [mkfile sample_cache_name sample_page (length sample_page) (S_IFREG + 384)].

Lemma listing_cached_witness :
  let w := sample_listing in
  let wc := cached_world (with_fs w sample_cached_fs) 2 in
  exists w1 w2,
    write_dir sample_conf (Some (bs "/c")) (bs "/srv") w = Some (0, w1) /\ w1.(w_fs) = sample_cached_fs
    /\ w1.(w_out) = w.(w_out) ++ listing_head w.(w_conn) sample_page ++ sample_page
    /\ write_dir sample_conf (Some (bs "/c")) (bs "/srv") w1 = Some (0, w2) /\ w2.(w_fs) = sample_cached_fs
    /\ w2.(w_out) = w1.(w_out)
         ++ file_response wc 200 (Z.of_nat (length sample_page)) (mime_part sample_conf wc) ++ sample_page.
Proof.
  apply (listing_cached sample_conf (bs "/c") sample_listing (bs "HTTP/1.1") (bs "/srv")
           [mkdirent (bs "a") (Some (mkstat (S_IFREG + 420) 11 1000 1 1))] sample_page sample_cached_fs 2 2).
  - done.
  - done.
  - split; [exact (sample_has_header (bs "HTTP/1.1") ltac:(by_decision)) | reflexivity | reflexivity | | | | ].
    + exists (bs "/srv/"), [bs "a"]. split_and!; reflexivity.
    + repeat constructor; (by_decision || eauto).
    + reflexivity.
    + apply Z.ltb_lt. vm_compute. reflexivity.
  - split; [vm_compute; reflexivity | | | | ].
    + eexists. split; [vm_compute; reflexivity|]. split_and!; [discriminate | reflexivity | vm_compute; reflexivity].
    + split_and!; [vm_compute; reflexivity | discriminate | reflexivity].
    + reflexivity.
    + vm_compute. reflexivity.
  - apply Nat.ltb_lt. vm_compute. reflexivity.
  - split_and!; [apply Nat.ltb_lt; vm_compute; reflexivity | by_decision | apply Nat.ltb_lt; vm_compute; reflexivity].
Defined.
