(* ===== verification/Tree.v ===== *)
(** * Directory trees (myio.c, instance.c)

    What [dir_remove] and [dir_move_copy] do to a tree of files, stated and
    proved against an interface of file systems that are trees, [TreeFS]; a
    concrete one, on which they run, discharges it. *)
From stdpp Require Export gmap.
From S2P Require Export Server.

Open Scope Z_scope.

(** ** Specification: file systems that are trees *)

(** A file with its content, or a directory. *)
Inductive node :=
  | NFile (content : bytes)
  | NDir.

#[export] Instance node_eq_dec : EqDecision node.
Proof. solve_decision. Defined.

(** A node is named by the components of its path. *)
Abbreviation key := (list bytes).

(** The components of a path, the empty ones left out. *)
Definition parts (p : bytes) : key := filter (fun x => x <> []) (components p).

(** A name that a directory may hold. *)
Definition entry_name (n : bytes) : Prop :=
  n <> [] /\ chr "/" ∉ n /\ is_dot_entry n = false.

(** What the system calls promise of a tree; they may fail, and then change
    nothing.  [tree_fd] is the file a descriptor appends to. *)
Class TreeFS (F : Type) `{Posix F} := {
  tree : F -> gmap key node;
  tree_fd : F -> Z -> option key;
  tree_ok : F -> Prop;
  tree_parent fs k n : tree_ok fs -> is_Some (tree fs !! (k ++ [n])) ->
    tree fs !! k = Some NDir /\ entry_name n;
  tree_unlink fs p : tree_ok fs ->
    match px_unlink fs p with
    | (None, fs') => (exists c, tree fs !! parts p = Some (NFile c))
                     /\ tree fs' = delete (parts p) (tree fs) /\ tree_ok fs'
    | (Some _, fs') => tree fs' = tree fs /\ tree_ok fs'
    end;
  tree_rmdir fs p : tree_ok fs ->
    match px_rmdir fs p with
    | (None, fs') => tree fs !! parts p = Some NDir
                     /\ (forall n, tree fs !! (parts p ++ [n]) = None)
                     /\ tree fs' = delete (parts p) (tree fs) /\ tree_ok fs'
    | (Some _, fs') => tree fs' = tree fs /\ tree_ok fs'
    end;
  tree_readdir fs p names : tree_ok fs -> px_readdir fs p = Some names ->
    tree fs !! parts p = Some NDir /\ NoDup names
    /\ forall n, is_dot_entry n = false -> n ∈ names <-> is_Some (tree fs !! (parts p ++ [n]));
  tree_mkdir fs p : tree_ok fs ->
    match px_mkdir fs p with
    | (None, fs') => tree fs !! parts p = None
                     /\ tree fs' = <[parts p := NDir]> (tree fs) /\ tree_ok fs'
    | (Some _, fs') => tree fs' = tree fs /\ tree_ok fs'
    end;
  tree_stat fs p : tree_ok fs ->
    match tree fs !! parts p with
    | Some nd => exists st, px_stat fs p = Some st /\ S_ISDIR st.(st_mode) = bool_decide (nd = NDir)
    | None => px_stat fs p = None
    end;
  tree_open_wr fs p : tree_ok fs -> tree fs !! parts p = None ->
    match px_open_wr fs p with
    | (fd, fs') =>
        if fd <? 0 then tree fs' = tree fs /\ tree_ok fs'
        else tree fs' = <[parts p := NFile []]> (tree fs)
             /\ tree_fd fs' fd = Some (parts p) /\ tree_ok fs'
    end;
  tree_open_rd fs p c : tree_ok fs -> tree fs !! parts p = Some (NFile c) ->
    0 <= px_open_rd fs p ->
    px_contents fs (px_open_rd fs p) `prefix_of` c
    /\ (px_read_error fs (px_open_rd fs p) = false -> px_contents fs (px_open_rd fs p) = c);
  tree_write fs fd b k c : tree_ok fs -> tree_fd fs fd = Some k -> tree fs !! k = Some (NFile c) ->
    match px_write fs fd b with
    | (n, fs') => n <= Z.of_nat (length b)
                  /\ tree fs' = <[k := NFile (c ++ take (Z.to_nat n) b)]> (tree fs)
                  /\ tree_fd fs' fd = Some k /\ tree_ok fs'
    end;
}.

(** The calls that are not refused: no permission is missing. *)
Definition removal_permitted (F : Type) `{TreeFS F} : Prop :=
  forall fs p, tree_ok fs ->
    (forall c, tree fs !! parts p = Some (NFile c) -> exists fs', px_unlink fs p = (None, fs'))
    /\ (tree fs !! parts p = Some NDir ->
          is_Some (px_readdir fs p)
          /\ ((forall n, tree fs !! (parts p ++ [n]) = None) -> exists fs', px_rmdir fs p = (None, fs'))).

(** No read of a file fails before its end. *)
Definition reads_succeed (F : Type) `{TreeFS F} : Prop :=
  forall fs fd, tree_ok fs -> px_read_error fs fd = false.

(** What a copy that reports success makes of a node: a directory or nothing of
    the same, and of a file the bytes that could be read, all of them unless a
    read failed. *)
Definition node_copied (F : Type) `{TreeFS F} (nd nd' : option node) : Prop :=
  match nd, nd' with
  | Some (NFile c), Some (NFile c') => c' `prefix_of` c /\ (reads_succeed F -> c' = c)
  | _, _ => nd' = nd
  end.

(** Length of a path below a directory, its slash included. *)
Definition below_length (k : key) : nat := sum_list_with (fun x => S (length x)) k.

(** Every path below [d] fits the buffers of the recursion. *)
Definition paths_fit {F} `{TreeFS F} (fs : F) (d : bytes) : Prop :=
  forall k, is_Some (tree fs !! (parts d ++ k)) -> (length d + below_length k < PATH_LEN)%nat.

(** ** Lemmas: paths *)

Lemma components_noslash a : chr "/" ∉ a -> components a = [a].
Proof.
  induction a as [|c a IH]; [done|]. rewrite not_elem_of_cons. intros [Hc Ha]. cbn [components].
  destruct (Z.eqb_spec c 47); [congruence|]. by rewrite IH.
Qed.

Lemma components_app a b : components (a ++ chr "/" :: b) = components a ++ components b.
Proof.
  induction a as [|c a IH]; [done|]. cbn [app components]. rewrite IH.
  destruct (c =? 47); [done|]. pose proof (components_nonempty a). by destruct (components a).
Qed.

Lemma parts_join d n : n <> [] -> chr "/" ∉ n -> parts (d ++ bs "/" ++ n) = parts d ++ [n].
Proof.
  intros Hn Hs. unfold parts. change (d ++ bs "/" ++ n) with (d ++ chr "/" :: n).
  rewrite components_app, (components_noslash n) by done. rewrite filter_app. f_equal.
  rewrite filter_cons_True by done. done.
Qed.

(** The path of an entry, when it fits. *)
Lemma join_path_fits d n : (length d + S (length n) < PATH_LEN)%nat -> join_path d n = d ++ bs "/" ++ n.
Proof. intros. unfold join_path. apply take_ge. rewrite !length_app. cbn [length]. lia. Qed.

(** ** Lemmas: removing a tree *)

Section Remove.
Context {F : Type} `{TreeFS F}.

Lemma entry_name_slash n : entry_name n -> n <> [] /\ chr "/" ∉ n.
Proof. by intros (? & ? & _). Qed.

(** The path of an entry of a directory whose paths fit. *)
Lemma entry_path (fs : F) d n :
  tree_ok fs -> paths_fit fs d -> is_Some (tree fs !! (parts d ++ [n])) ->
  parts (join_path d n) = parts d ++ [n] /\ length (join_path d n) = (length d + S (length n))%nat
  /\ paths_fit fs (join_path d n).
Proof.
  intros Hok Hfit Hn. destruct (tree_parent fs _ _ Hok Hn) as [_ He].
  apply entry_name_slash in He as [Hne Hs]. pose proof (Hfit [n] Hn) as Hl. simpl in Hl.
  rewrite join_path_fits by lia. rewrite parts_join by done. split; [done|].
  assert (length (d ++ bs "/" ++ n) = length d + S (length n))%nat as L by (rewrite !length_app; simpl; lia).
  split; [done|]. intros k Hk. rewrite parts_join, <-app_assoc in Hk by done. apply Hfit in Hk.
  simpl in Hk. lia.
Qed.

(** A smaller tree fits as well. *)
Lemma paths_fit_sub (fs fs' : F) d : tree fs' ⊆ tree fs -> paths_fit fs d -> paths_fit fs' d.
Proof.
  intros Hsub Hfit k [nd Hk]. apply Hfit. exists nd. eapply lookup_weaken; [exact Hk | exact Hsub].
Qed.

(** What lies below a missing node is missing, what lies below another node is
    below a directory. *)
Lemma tree_closed (fs : F) k k' :
  tree_ok fs -> is_Some (tree fs !! (k ++ k')) -> k' <> [] -> tree fs !! k = Some NDir.
Proof.
  intros Hok. induction k' as [|n k' IH] using rev_ind; [done|]. intros Hs _.
  rewrite app_assoc in Hs. destruct (tree_parent fs _ _ Hok Hs) as [Hd _].
  destruct k' as [|m k']; [by rewrite app_nil_r in Hd|]. apply IH; [by rewrite Hd | done].
Qed.

Lemma tree_absent (fs : F) k k' : tree_ok fs -> tree fs !! k = None -> tree fs !! (k ++ k') = None.
Proof.
  intros Hok Hk. destruct (decide (k' = [])) as [->|Hne]; [by rewrite app_nil_r|].
  destruct (tree fs !! (k ++ k')) as [nd|] eqn:E; [|done].
  by rewrite (tree_closed fs k k' Hok (mk_is_Some _ _ E) Hne) in Hk.
Qed.

Lemma tree_leaf (fs : F) k n k' c :
  tree_ok fs -> tree fs !! k = Some (NFile c) -> tree fs !! (k ++ n :: k') = None.
Proof.
  intros Hok Hk. destruct (tree fs !! (k ++ n :: k')) as [nd|] eqn:E; [|done].
  by rewrite (tree_closed fs k (n :: k') Hok (mk_is_Some _ _ E) ltac:(done)) in Hk.
Qed.

(** What the removal of [d] has done to the tree. *)
Record removed (d : bytes) (fs fs' : F) : Prop := {
  rm_ok : tree_ok fs';
  rm_sub : tree fs' ⊆ tree fs;
  rm_out : forall k, ~ parts d `prefix_of` k -> tree fs' !! k = tree fs !! k;
}.

Lemma removed_refl d fs : tree_ok fs -> removed d fs fs.
Proof. intros Hok. by split. Qed.

(** A call that changes nothing, or takes the node of [d] away. *)
Lemma removed_delete d fs fs' :
  tree_ok fs' -> tree fs' = delete (parts d) (tree fs) -> removed d fs fs'.
Proof.
  intros Hok E. split; [done | rewrite E; apply delete_subseteq |].
  intros k Hk. rewrite E, lookup_delete_ne; [done|]. intros Ek. apply Hk. by rewrite Ek.
Qed.

Lemma removed_same d fs fs' : tree_ok fs' -> tree fs' = tree fs -> removed d fs fs'.
Proof. intros Hok E. split; [done | by rewrite E | by intros; rewrite E]. Qed.

Lemma removed_trans d fs1 fs2 fs3 : removed d fs1 fs2 -> removed d fs2 fs3 -> removed d fs1 fs3.
Proof.
  intros [_ S1 O1] [Hok S2 O2]. split; [done | by etransitivity |]. intros k Hk. by rewrite O2, O1.
Qed.

(** Removing an entry of [d] is part of removing [d]. *)
Lemma removed_entry d n p fs fs' : parts p = parts d ++ [n] -> removed p fs fs' -> removed d fs fs'.
Proof.
  intros Ep [Hok S O]. split; [done..|]. intros k Hk. apply O. rewrite Ep. intros [k' ->].
  apply Hk. rewrite <-app_assoc. by eexists.
Qed.

Lemma removed_gone d fs fs' k : removed d fs fs' -> tree fs !! k = None -> tree fs' !! k = None.
Proof. intros [_ S _] Hk. by eapply lookup_weaken_None. Qed.

(** A complete removal of [p] by [m]: what the theorems say of [dir_remove]. *)
Definition removes (p : bytes) (m : M F Z) (w : world F) : Prop :=
  exists r fs', m w = Some (r, with_fs w fs') /\ removed p w.(w_fs) fs'
    /\ (r = 0 -> tree fs' !! parts p = None)
    /\ (removal_permitted F -> is_Some (tree w.(w_fs) !! parts p) -> r = 0).

Definition remove_entry (f : nat) (d : bytes) (_ : unit) (name : bytes) : M F (Z * unit) :=
  _ ← dir_remove f (join_path d name); mret (0, tt).

(** The loop over the entries [es], which were there in [fs0]. *)
Lemma remove_entries f d fs0 es : forall w : world F,
  (forall p w, tree_ok w.(w_fs) -> paths_fit w.(w_fs) p -> (length p < PATH_LEN)%nat ->
     (PATH_LEN <= f + length p)%nat -> removes p (dir_remove f p) w) ->
  tree_ok fs0 -> paths_fit fs0 d -> (PATH_LEN <= S f + length d)%nat ->
  Forall (fun n => is_dot_entry n = false -> is_Some (tree fs0 !! (parts d ++ [n]))) es ->
  tree_ok w.(w_fs) -> tree w.(w_fs) ⊆ tree fs0 ->
  exists fs', for_entries es tt (remove_entry f d) w = Some (0, with_fs w fs')
    /\ removed d w.(w_fs) fs' /\ tree fs' !! parts d = tree w.(w_fs) !! parts d
    /\ (removal_permitted F -> forall n, n ∈ es -> is_dot_entry n = false -> tree fs' !! (parts d ++ [n]) = None).
Proof.
  induction es as [|n es IHes]; intros w IH Hok0 Hfit Hf Hes Hok Hsub; cbn [for_entries].
  - exists w.(w_fs). rewrite mret_run, with_fs_id. split_and!; [done | by apply removed_refl | done |].
    intros _ n []%elem_of_nil.
  - inversion Hes as [|? ? Hn Hes']; subst. destruct (is_dot_entry n) eqn:Ed.
    { destruct (IHes w IH Hok0 Hfit Hf Hes' Hok Hsub) as (fs' & E & R & Hk & Hp).
      exists fs'. split_and!; [done..|]. intros Hperm m [->|Hm]%elem_of_cons Hd; [congruence | by apply Hp]. }
    destruct (entry_path fs0 d n Hok0 Hfit (Hn eq_refl)) as (Ep & El & Hfn).
    pose proof (Hfit [n] (Hn eq_refl)) as Hl. simpl in Hl.
    destruct (IH (join_path d n) w Hok) as (r & fs1 & E & R & Hr0 & Hr);
      [by eapply paths_fit_sub | lia | lia |].
    assert (remove_entry f d tt n w = Some ((0, tt), with_fs w fs1)) as E1
      by (unfold remove_entry; by rewrite (bind_run _ _ _ _ _ E)).
    rewrite (bind_run _ _ _ _ _ E1). cbn [Z.eqb].
    destruct (IHes (with_fs w fs1)) as (fs' & E' & R' & Hk & Hp); try done; [apply R | |].
    { etransitivity; [apply R | done]. }
    exists fs'. cbn [with_fs w_fs] in R', Hk. rewrite E', with_fs_with_fs. split_and!; [done | | |].
    + eapply removed_trans; [|exact R']. by eapply removed_entry.
    + rewrite Hk. apply R. rewrite Ep. intros [k' Ek]. apply (f_equal length) in Ek.
      rewrite !length_app in Ek. simpl in Ek. lia.
    + intros Hperm m [->|Hm]%elem_of_cons Hd; [|by apply Hp]. eapply removed_gone; [exact R'|].
      rewrite <-Ep. destruct (tree w.(w_fs) !! parts (join_path d n)) as [nd|] eqn:En.
      * apply Hr0. apply Hr; [done | by eexists].
      * by eapply removed_gone.
Qed.

Lemma dir_remove_run f : forall p (w : world F),
  tree_ok w.(w_fs) -> paths_fit w.(w_fs) p -> mem_ok -> (length p < PATH_LEN)%nat ->
  (PATH_LEN <= f + length p)%nat -> removes p (dir_remove f p) w.
Proof.
  induction f as [|f IH]; intros p w Hok Hfit Hm Hl Hf; [lia|]. unfold removes. cbn [dir_remove].
  rewrite (bind_run _ _ _ _ _ (on_fs_run _ _)).
  pose proof (tree_unlink w.(w_fs) p Hok) as Hu.
  destruct (px_unlink w.(w_fs) p) as [[e|] fs1] eqn:Eu; cbn [fst snd].
  2:{ destruct Hu as ([c Hc] & Et & Hok1). exists 0, fs1. rewrite mret_run.
      split_and!; [done | by apply removed_delete | by rewrite Et, lookup_delete_eq | done]. }
  destruct Hu as [Et Hok1]. rewrite get_fs_bind. cbn [with_fs w_fs].
  destruct (px_readdir fs1 p) as [names|] eqn:Er.
  2:{ exists 1, fs1. rewrite mret_run. split_and!; [done | by apply removed_same | done |].
      intros Hperm [nd Hnd]. destruct (Hperm _ p Hok) as [Hfile _]. destruct (Hperm _ p Hok1) as [_ Hdir].
      destruct nd as [c|]; [destruct (Hfile c Hnd) as [fs' E']; congruence|].
      rewrite Et in Hdir. destruct (Hdir Hnd) as [[? ?] _]. congruence. }
  destruct (tree_readdir fs1 p names Hok1 Er) as (Hd & _ & Hn).
  rewrite Hm. cbn [negb].
  destruct (remove_entries f p fs1 names (with_fs w fs1)) as (fs2 & E & R & Hk & Hp).
  - intros q w' Hok' Hfit' Hl' Hf'. by apply IH.
  - done.
  - eapply paths_fit_sub; [|exact Hfit]. by rewrite Et.
  - lia.
  - apply Forall_forall. intros n Hin Hdot. by apply Hn.
  - done.
  - done.
  - rewrite (bind_run _ _ _ _ _ E), (bind_run _ _ _ _ _ (on_fs_run _ _)). cbn [with_fs w_fs].
    pose proof (rm_ok _ _ _ R) as Hok2. cbn [with_fs w_fs] in R.
    assert (removed p w.(w_fs) fs2) as R2 by (apply (removed_trans p _ fs1); [by apply removed_same | exact R]).
    pose proof (tree_rmdir fs2 p Hok2) as Hrm.
    destruct (px_rmdir fs2 p) as [[e'|] fs3] eqn:Em; cbn [fst snd].
    + cbn [with_fs w_fs] in Hk. rewrite Hd in Hk.
      destruct Hrm as [Et3 Hok3]. exists (-1), fs3. rewrite mret_run. split_and!; [done | | done |].
      { eapply removed_trans; [exact R2 | by apply removed_same]. }
      intros Hperm _. destruct (Hperm _ p Hok2) as [_ Hdir]. destruct (Hdir Hk) as [_ Hrm].
      destruct Hrm as [fs' E']; [|congruence]. intros n.
      destruct (tree fs2 !! (parts p ++ [n])) as [nd|] eqn:En; [|done].
      destruct (tree_parent fs2 _ _ Hok2 (mk_is_Some _ _ En)) as (_ & _ & _ & Hdot).
      rewrite <-En. apply Hp; [done | | done]. apply Hn; [done|].
      exists nd. eapply lookup_weaken; [exact En | apply R].
    + destruct Hrm as (_ & _ & Et3 & Hok3). exists 0, fs3. rewrite mret_run. split_and!; [done | | |done].
      { eapply removed_trans; [exact R2 | by apply removed_delete]. }
      intros _. by rewrite Et3, lookup_delete_eq.
Qed.
End Remove.

(** ** Lemmas: copying a tree *)

Section Copy.
Context {F : Type} `{TreeFS F}.

(** The paths of the copy fit as well. *)
Definition copy_fits (fs : F) (src dst : bytes) : Prop :=
  paths_fit fs src
  /\ forall k, is_Some (tree fs !! (parts src ++ k)) -> (length dst + below_length k < PATH_LEN)%nat.

Definition disjoint_paths (src dst : bytes) : Prop :=
  ~ parts src `prefix_of` parts dst /\ ~ parts dst `prefix_of` parts src.

(** Nothing outside [dst] has changed. *)
Record kept_outside (dst : bytes) (fs fs' : F) : Prop := {
  ko_ok : tree_ok fs';
  ko_out : forall k, ~ parts dst `prefix_of` k -> tree fs' !! k = tree fs !! k;
}.

Lemma kept_outside_trans d fs1 fs2 fs3 :
  kept_outside d fs1 fs2 -> kept_outside d fs2 fs3 -> kept_outside d fs1 fs3.
Proof. intros [_ O1] [Hok O2]. split; [done|]. intros k Hk. by rewrite O2, O1. Qed.

Lemma kept_outside_insert d nd fs fs' :
  tree_ok fs' -> tree fs' = <[parts d := nd]> (tree fs) -> kept_outside d fs fs'.
Proof.
  intros Hok E. split; [done|]. intros k Hk. rewrite E, lookup_insert_ne; [done|].
  intros Ek. apply Hk. by rewrite Ek.
Qed.

Lemma kept_outside_same d fs fs' : tree_ok fs' -> tree fs' = tree fs -> kept_outside d fs fs'.
Proof. intros Hok E. split; [done | by intros; rewrite E]. Qed.

Lemma kept_outside_entry d n p fs fs' :
  parts p = parts d ++ [n] -> kept_outside p fs fs' -> kept_outside d fs fs'.
Proof.
  intros Ep [Hok O]. split; [done|]. intros k Hk. apply O. rewrite Ep. intros [k' ->].
  apply Hk. rewrite <-app_assoc. by eexists.
Qed.

Lemma node_copied_refl nd : node_copied F nd nd.
Proof. by destruct nd as [[c|]|]. Qed.

(** The node at [k] below [src] and what the copy has at [k] below [dst]. *)
Definition copied_at (src dst : bytes) (fs fs' : F) (k : key) : Prop :=
  node_copied F (tree fs !! (parts src ++ k)) (tree fs' !! (parts dst ++ k)).

(** [m] leaves everything outside [dst] alone and, when it returns 0, a copy of
    the tree [src] at [dst]. *)
Definition copies (src dst : bytes) (m : M F Z) (w : world F) : Prop :=
  exists r fs', m w = Some (r, with_fs w fs') /\ kept_outside dst w.(w_fs) fs'
    /\ (r = 0 -> forall k, copied_at src dst w.(w_fs) fs' k).

(** A file is copied to a name that is free. *)
Lemma file_copy_tree src dst c (w : world F) :
  mem_ok -> tree_ok w.(w_fs) -> tree w.(w_fs) !! parts src = Some (NFile c) ->
  tree w.(w_fs) !! parts dst = None -> parts src <> parts dst ->
  copies src dst (file_copy src dst) w.
Proof.
  intros Hm Hok Hs Hd Hne. pose proof (tree_open_wr w.(w_fs) dst Hok Hd) as Ho. unfold copies.
  destruct (px_open_wr w.(w_fs) dst) as [fd fs1] eqn:Eo.
  destruct (Z.ltb_spec fd 0) as [Hfd|Hfd].
  { destruct Ho as [Et Hok1]. exists ERR_FORBIDDEN, fs1. unfold file_copy. rewrite (bind_run _ _ _ _ _ (on_fs_run _ _)), Eo. cbn [fst snd].
    destruct (Z.ltb_spec fd 0); [|lia]. split_and!; [done | by apply kept_outside_same | done]. }
  destruct Ho as (Et & Hk & Hok1). set (K := parts dst) in *.
  assert (kept_outside dst w.(w_fs) fs1) as Ko by (by eapply kept_outside_insert).
  destruct (Z.ltb_spec (px_open_rd fs1 src) 0) as [Hr|Hr].
  { exists ERR_FILENOTFOUND, fs1. unfold file_copy. rewrite (bind_run _ _ _ _ _ (on_fs_run _ _)), Eo. cbn [fst snd].
    destruct (Z.ltb_spec fd 0); [lia|]. rewrite get_fs_bind. cbn [with_fs w_fs].
    destruct (Z.ltb_spec (px_open_rd fs1 src) 0); [|lia]. split_and!; done. }
  set (inv := fun fs : F => tree_ok fs /\ tree_fd fs fd = Some K
                            /\ exists c', tree fs = <[K := NFile c']> (tree w.(w_fs))).
  set (written := fun fs : F => if tree fs !! K is Some (NFile c') then c' else []).
  set (content := px_contents fs1 (px_open_rd fs1 src)). set (err := px_read_error fs1 (px_open_rd fs1 src)).
  assert (content `prefix_of` c /\ (err = false -> content = c)) as [Hpre Hall]
    by (apply tree_open_rd; [done | by rewrite Et, lookup_insert_ne | done]).
  destruct (file_copy_run src dst w fs1 fd inv written content err)
    as (r & fs & p & q & E & (Hok2 & _ & c' & E2) & Hw & Hpq & Hres).
  { split; try done.
    - split_and!; [done..|]. by eexists.
    - unfold written. by rewrite Et, lookup_insert_eq.
    - intros fs b (Hok' & Hk' & c' & E'). 
      assert (tree fs !! K = Some (NFile c')) as HK by (by rewrite E', lookup_insert_eq).
      pose proof (tree_write fs fd b K c' Hok' Hk' HK) as Hw.
      destruct (px_write fs fd b) as [n fs']. destruct Hw as (Hn & Et' & Hfd' & Hok'').
      split_and!; [done | |].
      + split_and!; [done..|]. eexists. by rewrite Et', E', insert_insert_eq.
      + unfold written. by rewrite HK, Et', lookup_insert_eq. }
  exists r, fs. split_and!; [done | by eapply kept_outside_insert |].
  intros -> k. destruct Hres as [[_ ->] | [Hr0 _]]; [|done]. rewrite app_nil_r in Hpq.
  rewrite <-Hw in Hpq. unfold written in Hpq. rewrite E2, lookup_insert_eq in Hpq.
  unfold copied_at. fold K.
  destruct k as [|n k].
  { rewrite !app_nil_r, E2, lookup_insert_eq, Hs. cbn [node_copied]. rewrite <-Hpq. split; [done|].
    intros Hreads. apply Hall. by apply Hreads. }
  rewrite E2, lookup_insert_ne.
  - rewrite (tree_leaf w.(w_fs) (parts src) n k c) by done. by apply tree_absent.
  - intros Ek. apply (f_equal length) in Ek. rewrite length_app in Ek. simpl in Ek. lia.
Qed.

Lemma disjoint_below s d k : disjoint_paths s d -> ~ parts d `prefix_of` (parts s ++ k).
Proof.
  intros [H1 H2] Hp. pose proof (prefix_app_r (parts s) (parts s) k ltac:(done)) as Hs.
  destruct (prefix_weak_total _ _ _ Hp Hs); done.
Qed.

Lemma disjoint_entries s d s' d' n :
  disjoint_paths s d -> parts s' = parts s ++ [n] -> parts d' = parts d ++ [n] -> disjoint_paths s' d'.
Proof.
  intros Hd Es Ed. split; rewrite Es, Ed; intros Hp.
  - apply (disjoint_below d s [n]); [by destruct Hd; split|].
    etransitivity; [|exact Hp]. by apply prefix_app_r.
  - apply (disjoint_below s d [n]); [done|]. etransitivity; [|exact Hp]. by apply prefix_app_r.
Qed.

Lemma copy_fits_kept s d (fs fs' : F) :
  disjoint_paths s d -> kept_outside d fs fs' -> copy_fits fs s d -> copy_fits fs' s d.
Proof.
  intros Hd [_ O] [H1 H2]. split; intros k Hk; [apply H1 | apply H2];
    by rewrite <-O by (by apply disjoint_below).
Qed.

(** The entry [n] of [src], and its name in the copy. *)
Lemma copy_entry_paths (fs : F) src dst n :
  tree_ok fs -> copy_fits fs src dst -> disjoint_paths src dst ->
  is_Some (tree fs !! (parts src ++ [n])) ->
  let s := join_path src n in let d := join_path dst n in
  parts s = parts src ++ [n] /\ parts d = parts dst ++ [n] /\ disjoint_paths s d
  /\ copy_fits fs s d /\ (length src < length s < PATH_LEN)%nat.
Proof.
  intros Hok [Hf Hf2] Hdis Hn s d.
  destruct (entry_path fs src n Hok Hf Hn) as (Es & Ls & Hfs). fold s in Es, Ls, Hfs.
  destruct (tree_parent fs _ _ Hok Hn) as [_ He]. apply entry_name_slash in He as [Hne Hsl].
  pose proof (Hf [n] Hn) as Hl. pose proof (Hf2 [n] Hn) as Hl2. simpl in Hl, Hl2.
  assert (d = dst ++ bs "/" ++ n) as Edd by (apply join_path_fits; lia).
  assert (parts d = parts dst ++ [n]) as Ed by (rewrite Edd; by apply parts_join).
  assert (length d = length dst + S (length n))%nat as Ld by (rewrite Edd, !length_app; simpl; lia).
  split_and!; try done; try lia; [by eapply disjoint_entries|]. split; [done|].
  intros k Hk. rewrite Es, <-app_assoc in Hk. apply Hf2 in Hk. simpl in Hk. lia.
Qed.

(** The copy of [src] of which the entries [ns] are complete. *)
Record copying (src dst : bytes) (fs0 fs : F) (ns : list bytes) : Prop := {
  cp_kept : kept_outside dst fs0 fs;
  cp_dir : tree fs !! parts dst = Some NDir;
  cp_done : forall n k, n ∈ ns -> copied_at src dst fs0 fs (n :: k);
  cp_todo : forall n k, n ∉ ns -> tree fs !! (parts dst ++ n :: k) = None;
}.

(** One more entry. *)
Lemma copying_step src dst fs0 fs fs' ns n s d :
  disjoint_paths src dst -> copying src dst fs0 fs ns ->
  parts s = parts src ++ [n] -> parts d = parts dst ++ [n] -> n ∉ ns ->
  kept_outside d fs fs' -> (forall k, copied_at s d fs fs' k) ->
  copying src dst fs0 fs' (ns ++ [n]).
Proof.
  intros Hdis [Hk Hd Hdone Htodo] Es Ed Hn [Hok O] Hc.
  assert (forall m k, m <> n -> tree fs' !! (parts dst ++ m :: k) = tree fs !! (parts dst ++ m :: k)) as Hother.
  { intros m k Hm. apply O. rewrite Ed. intros [k' Ek]. rewrite <-app_assoc in Ek.
    apply app_inv_head in Ek. by injection Ek. }
  split.
  - eapply kept_outside_trans; [exact Hk|]. by apply (kept_outside_entry dst n d).
  - rewrite O; [done|]. rewrite Ed. intros [k' Ek]. apply (f_equal length) in Ek.
    rewrite !length_app in Ek. simpl in Ek. lia.
  - intros m k Hm. destruct (decide (m = n)) as [->|Hmn].
    + specialize (Hc k). unfold copied_at in Hc. rewrite Es, Ed, <-!app_assoc in Hc. cbn [app] in Hc.
      rewrite (ko_out _ _ _ Hk) in Hc by (by apply disjoint_below). exact Hc.
    + unfold copied_at. rewrite Hother by done. apply Hdone. apply elem_of_app in Hm as [Hm|Hm%list_elem_of_singleton]; done.
  - intros m k Hm. rewrite elem_of_app, list_elem_of_singleton in Hm. rewrite Hother by tauto. apply Htodo. tauto.
Qed.

(** The body of the loop of [dir_move_copy]. *)
Definition copy_entry (f : nat) (source dest : bytes) (f_prop : stat_t) (name : bytes)
    : M F (Z * stat_t) :=
  let src_file := join_path source name in
  let dest_file := join_path dest name in
  fs ← get_fs;
  let f_prop := default f_prop (px_stat fs src_file) in
  retval ← (if S_ISDIR f_prop.(st_mode) then dir_move_copy f src_file dest_file COPY
            else if COPY =? MOVE then file_move src_file dest_file
            else file_copy src_file dest_file);
  mret (retval, f_prop).

Definition copies_all (f : nat) : Prop :=
  forall s d (w : world F), tree_ok w.(w_fs) -> copy_fits w.(w_fs) s d -> disjoint_paths s d ->
    (length s < PATH_LEN)%nat -> (PATH_LEN <= f + length s)%nat ->
    copies s d (dir_move_copy f s d COPY) w.

Lemma copy_entry_run f src dst fs0 ns n st (w : world F) :
  mem_ok -> copies_all f -> tree_ok fs0 -> copy_fits fs0 src dst -> disjoint_paths src dst ->
  (PATH_LEN <= S f + length src)%nat -> n ∉ ns -> is_Some (tree fs0 !! (parts src ++ [n])) ->
  copying src dst fs0 w.(w_fs) ns ->
  exists r st' fs', copy_entry f src dst st n w = Some ((r, st'), with_fs w fs')
    /\ kept_outside dst fs0 fs' /\ (r = 0 -> copying src dst fs0 fs' (ns ++ [n])).
Proof.
  intros Hm IH Hok0 Hfit Hdis Hf Hns [nd Hn] Hc. pose proof (cp_kept _ _ _ _ _ Hc) as Ko.
  pose proof (ko_ok _ _ _ Ko) as Hok. pose proof (copy_fits_kept _ _ _ _ Hdis Ko Hfit) as Hfit'.
  assert (tree w.(w_fs) !! (parts src ++ [n]) = Some nd) as Hn'
    by (rewrite <-Hn; apply (ko_out _ _ _ Ko); by apply disjoint_below).
  destruct (copy_entry_paths w.(w_fs) src dst n Hok Hfit' Hdis (mk_is_Some _ _ Hn'))
    as (Es & Ed & Hdis' & Hfit2 & Hl). set (s := join_path src n) in *. set (d := join_path dst n) in *.
  assert (tree w.(w_fs) !! parts d = None) as Hd by (rewrite Ed; by apply (cp_todo _ _ _ _ _ Hc)).
  pose proof (tree_stat w.(w_fs) s Hok) as Hst. rewrite Es, Hn' in Hst. destruct Hst as (st' & Est & Hdir).
  assert (copies s d (if S_ISDIR st'.(st_mode) then dir_move_copy f s d COPY else file_copy s d) w)
    as (r & fs' & E & Ko' & Hr).
  { rewrite Hdir. destruct nd as [c|].
    - rewrite bool_decide_eq_false_2 by done. apply (file_copy_tree s d c); try done; [by rewrite Es|].
      rewrite Es, Ed. intros Ek. apply app_inv_tail in Ek. destruct Hdis as [Hdis _]. by rewrite Ek in Hdis.
    - rewrite bool_decide_eq_true_2 by done. apply IH; try done; lia. }
  exists r, st', fs'. split_and!.
  - unfold copy_entry. fold s d. rewrite get_fs_bind, Est. cbn [default id]. cbn [COPY MOVE Z.eqb Pos.eqb].
    by rewrite (bind_run _ _ _ _ _ E).
  - eapply kept_outside_trans; [exact Ko|]. by apply (kept_outside_entry dst n d).
  - intros ->. by apply (copying_step src dst fs0 w.(w_fs) fs' ns n s d); auto.
Qed.

Lemma copy_entries f src dst fs0 es : forall ns st (w : world F),
  mem_ok -> copies_all f -> tree_ok fs0 -> copy_fits fs0 src dst -> disjoint_paths src dst ->
  (PATH_LEN <= S f + length src)%nat -> NoDup es -> (forall n, n ∈ es -> n ∉ ns) ->
  Forall (fun n => is_dot_entry n = false -> is_Some (tree fs0 !! (parts src ++ [n]))) es ->
  copying src dst fs0 w.(w_fs) ns ->
  exists r fs' ns', for_entries es st (copy_entry f src dst) w = Some (r, with_fs w fs')
    /\ kept_outside dst fs0 fs'
    /\ (r = 0 -> copying src dst fs0 fs' ns'
                 /\ forall n, n ∈ ns' <-> n ∈ ns \/ n ∈ es /\ is_dot_entry n = false).
Proof.
  induction es as [|n es IHes]; intros ns st w Hm IH Hok0 Hfit Hdis Hf Hnd Hns Hes Hc; cbn [for_entries].
  - exists 0, w.(w_fs), ns. rewrite mret_run, with_fs_id. split_and!; [done | apply Hc |].
    intros _. split; [done|]. intros n. rewrite elem_of_nil. tauto.
  - apply NoDup_cons in Hnd as [Hn Hnd]. inversion Hes as [|? ? Hin Hes']; subst.
    destruct (is_dot_entry n) eqn:Ed.
    + destruct (IHes ns st w) as (r & fs' & ns' & E & Ko & Hr); try done.
      { intros m Hm'. apply Hns. by apply elem_of_cons; right. }
      exists r, fs', ns'. split_and!; [done..|]. intros Hr0. destruct (Hr Hr0) as [Hc' Hin']. split; [done|].
      intros m. rewrite Hin', elem_of_cons. split; [tauto|]. intros [Hx|[[->|Hx] Hy]]; [tauto | congruence | tauto].
    + destruct (copy_entry_run f src dst fs0 ns n st w) as (r & st' & fs' & E & Ko & Hr); try done.
      { apply Hns, elem_of_cons. by left. }
      { by apply Hin. }
      rewrite (bind_run _ _ _ _ _ E). destruct (Z.eqb_spec r 0) as [->|Hr0].
      * specialize (Hr eq_refl). destruct (IHes (ns ++ [n]) st' (with_fs w fs')) as (r & fs2 & ns' & E2 & Ko2 & Hr2); try done.
        { intros m Hm'. rewrite elem_of_app, list_elem_of_singleton. intros [Hm2 | ->]; [|done].
          by eapply Hns; [apply elem_of_cons; right|]. }
        exists r, fs2, ns'. rewrite E2, with_fs_with_fs. split_and!; [done..|]. intros H0'.
        destruct (Hr2 H0') as [Hc' Hin']. split; [done|]. intros m.
        rewrite Hin', elem_of_app, list_elem_of_singleton, elem_of_cons. split; [|naive_solver].
        intros [[Hx|Hx]|[Hx Hy]]; subst; tauto.
      * exists r, fs', ns. by rewrite mret_run.
Qed.

Lemma disjoint_root (d : bytes) s : disjoint_paths s d -> ~ parts d `prefix_of` parts s.
Proof. by intros [_ ?]. Qed.

Lemma dir_copy_run f : mem_ok -> copies_all f.
Proof.
  intros Hm. induction f as [|f IH]; intros s d w Hok Hfit Hdis Hl Hf; [lia|].
  unfold copies. cbn [dir_move_copy]. rewrite (bind_run _ _ _ _ _ (on_fs_run _ _)).
  pose proof (tree_mkdir w.(w_fs) d Hok) as Hmk.
  destruct (px_mkdir w.(w_fs) d) as [[e|] fs1]; cbn [fst snd].
  { destruct Hmk as [Et Hok1]. exists ERR_FORBIDDEN, fs1. rewrite mret_run.
    split_and!; [done | by apply kept_outside_same | done]. }
  destruct Hmk as (Hnone & Et & Hok1).
  assert (kept_outside d w.(w_fs) fs1) as Ko by (by eapply kept_outside_insert).
  pose proof (copy_fits_kept _ _ _ _ Hdis Ko Hfit) as Hfit1.
  rewrite get_fs_bind. cbn [with_fs w_fs].
  destruct (px_readdir fs1 s) as [names|] eqn:Er.
  2:{ exists ERR_FILENOTFOUND, fs1. rewrite mret_run. by split_and!. }
  destruct (tree_readdir fs1 s names Hok1 Er) as (Hd & Hnd & Hn). rewrite Hm. cbn [negb].
  destruct (copy_entries f s d fs1 names [] px_garbage_stat (with_fs w fs1))
    as (r & fs2 & ns & E & Ko2 & Hr); try done.
  { intros n _. apply not_elem_of_nil. }
  { apply Forall_forall. intros n Hin Hdot. by apply Hn. }
  { change (copying s d fs1 fs1 []).
    split; [by apply kept_outside_same | by rewrite Et, lookup_insert_eq | by intros n k Hin%elem_of_nil |].
    intros n k _. rewrite Et, lookup_insert_ne; [by apply tree_absent|].
    intros Ek. apply (f_equal length) in Ek. rewrite length_app in Ek. simpl in Ek. lia. }
  exists r, fs2. rewrite (bind_run _ _ _ r (with_fs w fs2)) by exact E.
  change (COPY =? MOVE) with false. rewrite andb_false_r, mret_run.
  split_and!; [done | by eapply kept_outside_trans |].
  intros H0' k. destruct (Hr H0') as [Hc Hin].
  assert (forall k, tree fs1 !! (parts s ++ k) = tree w.(w_fs) !! (parts s ++ k)) as Hsame
    by (intros k'; apply (ko_out _ _ _ Ko); by apply disjoint_below).
  unfold copied_at. rewrite <-Hsame.
  destruct k as [|n k]; [rewrite !app_nil_r, Hd, (cp_dir _ _ _ _ _ Hc); apply node_copied_refl|].
  destruct (decide (n ∈ ns)) as [Hi|Hi]; [by apply (cp_done _ _ _ _ _ Hc)|].
  rewrite (cp_todo _ _ _ _ _ Hc) by done.
  destruct (tree fs1 !! (parts s ++ n :: k)) as [nd|] eqn:En; [|done]. exfalso. apply Hi, Hin. right.
  assert (is_Some (tree fs1 !! (parts s ++ [n]))) as Hsome.
  { destruct k as [|m k]; [by exists nd|].
    exists NDir. apply (tree_closed fs1 _ (m :: k)); [done | | done]. rewrite <-app_assoc. by exists nd. }
  destruct (tree_parent fs1 _ _ Hok1 Hsome) as (_ & _ & _ & Hdot). split; [by apply Hn | done].
Qed.
End Copy.

(** ** Theorems *)

Section TreeTheorems.
Context {F : Type} `{TreeFS F}.
Context (conf : weborf_configuration_t).
Context (depth : nat).

(** C12: DELETE of a file or directory whose paths fit [PATH_LEN] ends within
    [PATH_LEN] levels of recursion and never touches anything outside of it: it
    answers [OK_NOCONTENT] only if nothing is left at or below the path, and
    does so when no permission is missing; otherwise it answers
    [ERR_FORBIDDEN], or [ERR_FILENOTFOUND] if nothing was there. *)
Theorem delete_file_tree (w : world F) path :
  is_Some conf.(c_authsock) -> mem_ok -> cstr_at w.(w_conn).(strfile) 0 = Some path ->
  tree_ok w.(w_fs) -> paths_fit w.(w_fs) path -> (length path < PATH_LEN <= depth)%nat ->
  match tree w.(w_fs) !! parts path with
  | None => delete_file conf depth w = Some (ERR_FILENOTFOUND, w)
  | Some _ =>
      exists (ok : bool) fs',
        delete_file conf depth w = Some (if ok then OK_NOCONTENT else ERR_FORBIDDEN, with_fs w fs')
        /\ removed path w.(w_fs) fs'
        /\ (ok = true -> forall k, tree fs' !! (parts path ++ k) = None)
        /\ (removal_permitted F -> ok = true)
  end.
Proof.
  intros [sock Hs] Hm Hp Hok Hfit Hl. unfold delete_file. rewrite Hs, conn_bind.
  rewrite (lift_bind_Some _ _ _ _ Hp), get_fs_bind.
  pose proof (tree_stat w.(w_fs) path Hok) as Hst.
  destruct (tree w.(w_fs) !! parts path) as [nd|] eqn:En; [|by rewrite Hst].
  destruct Hst as (st & -> & ->).
  assert (removes path (if bool_decide (nd = NDir) then dir_remove depth path
                        else e ← on_fs (fun fs => px_unlink fs path); mret (if e is None then 0 else -1)) w)
    as (r & fs' & E & R & Hr & Hperm).
  { case_bool_decide; [apply dir_remove_run; (done || lia)|].
    unfold removes. rewrite (bind_run _ _ _ _ _ (on_fs_run _ _)), mret_run.
    pose proof (tree_unlink w.(w_fs) path Hok) as Hu.
    destruct (px_unlink w.(w_fs) path) as [[e|] fs'] eqn:Eu; cbn [fst snd].
    - exists (-1), fs'. destruct Hu. split_and!; [done | by apply removed_same | done |].
      intros Hperm _. destruct (Hperm _ path Hok) as [Hfile _]. destruct nd as [c|]; [|done].
      destruct (Hfile c En) as [? ?]. congruence.
    - exists 0, fs'. destruct Hu as (_ & Et & Hok'). split_and!; [done | by apply removed_delete | | done].
      intros _. by rewrite Et, lookup_delete_eq. }
  exists (r =? 0), fs'. rewrite (bind_run _ _ _ _ _ E), mret_run. split_and!.
  - by destruct (r =? 0).
  - done.
  - intros H0' k. apply Z.eqb_eq in H0'. apply tree_absent; [apply R | by apply Hr].
  - intros Hpm. apply Z.eqb_eq, Hperm; [done|]. by rewrite En.
Qed.

(** C13: COPY of a directory to a destination that is neither above nor below it
    leaves everything outside the destination as it was and ends within
    [PATH_LEN] levels of recursion, if the paths of both trees fit [PATH_LEN]; it
    reports success, 201 or 204 according to whether something was there, only
    if the destination then has the same directories and files as the whole
    tree, every file with the bytes that could be read of it: its whole content
    when no read fails, and a beginning of it, all the same reported as success,
    when one does. *)
Theorem copy_move_tree (w : world F) h d path ov :
  mem_ok -> move_request w h d path ov -> w.(w_conn).(method_id) = COPY ->
  let target := move_target w d in
  tree_ok w.(w_fs) -> tree w.(w_fs) !! parts path = Some NDir ->
  disjoint_paths path target -> copy_fits w.(w_fs) path target ->
  (length path < PATH_LEN <= depth)%nat ->
  ov <> Some (bs "T") \/ px_access w.(w_fs) target = false ->
  exists r fs',
    copy_move depth w
    = Some (if r =? 0 then (if px_access w.(w_fs) target then OK_NOCONTENT else OK_CREATED) else r,
            with_fs w fs')
    /\ kept_outside target w.(w_fs) fs'
    /\ (r = 0 -> forall k, copied_at path target w.(w_fs) fs' k).
Proof.
  intros Hm Hr Hid target Hok Hdir Hdis Hfit Hl Hov.
  assert (path <> target) as Hne by (intros Ep; destruct Hdis as [Hd _]; by rewrite Ep in Hd).
  pose proof (copy_move_run depth w h d path ov Hm Hr Hne) as E. cbv zeta in E. fold target in E.
  rewrite Hid in E. change (COPY =? COPY) with true in E.
  pose proof (tree_stat w.(w_fs) path Hok) as Hst. rewrite Hdir in Hst. destruct Hst as (st & Est & Hst).
  rewrite Est in E. cbn [default] in E. unfold id in E. change (bool_decide (NDir = NDir)) with true in Hst. rewrite Hst in E.
  assert (bool_decide (ov = Some (bs "T")) && px_access w.(w_fs) target = false) as Hb.
  { destruct Hov as [Hgo | ->]; [by rewrite bool_decide_eq_false_2 | by rewrite andb_false_r]. }
  rewrite Hb in E.
  destruct (dir_copy_run depth Hm path target w Hok Hfit Hdis) as (r & fs' & E' & Ko & Hc); [lia..|].
  exists r, fs'. rewrite E. unfold dir_copy. rewrite (bind_run _ _ _ _ _ E'), mret_run. done.
Qed.
End TreeTheorems.

(** A directory whose path has [PATH_LEN - 1] bytes: the paths of its entries
    are cut back to its own, and the recursion does not end. *)
Theorem dir_remove_endless {F} `{Posix F} f d e pre n post (w : world F) :
  mem_ok -> length d = (PATH_LEN - 1)%nat -> px_unlink w.(w_fs) d = (Some e, w.(w_fs)) ->
  px_readdir w.(w_fs) d = Some (pre ++ n :: post) ->
  Forall (fun m => is_dot_entry m = true) pre -> is_dot_entry n = false ->
  dir_remove f d w = None.
Proof.
  intros Hm Hl Hu Hr Hpre Hn. induction f as [|f IH]; [done|]. cbn [dir_remove].
  rewrite (bind_run _ _ _ _ _ (on_fs_run _ _)), Hu. cbn [fst snd]. rewrite with_fs_id.
  rewrite get_fs_bind, Hr, Hm. cbn [negb].
  assert (join_path d n = d) as Ej by (unfold join_path; by rewrite take_app_length').
  unfold mbind at 1, M_bind at 1.
  assert (for_entries (pre ++ n :: post) tt
            (fun _ name => _ ← dir_remove f (join_path d name); mret (0, tt)) w = None) as ->; [|done].
  clear Hr. induction Hpre as [|m pre Hm' Hpre IHpre]; cbn [app for_entries].
  - rewrite Hn, Ej. unfold mbind, M_bind. by rewrite IH.
  - by rewrite Hm'.
Qed.

(** ** A concrete tree *)

(** The nodes, and the positions of the files that are open for writing; a
    descriptor is the number of a key. *)
Record tree_fs := mktree {
  tf_nodes : gmap key node;
  tf_pos : gmap key nat;
}.

#[export] Instance entry_name_dec n : Decision (entry_name n).
Proof. unfold entry_name. apply _. Defined.

(** The name of [k'] in the directory [k]. *)
Definition entry_of (k k' : key) : option bytes :=
  match last k' with
  | Some n => if decide (k' = k ++ [n]) then Some n else None
  | None => None
  end.

Definition children (fs : tree_fs) (k : key) : list bytes :=
  elements (set_omap (entry_of k) (dom fs.(tf_nodes)) : gset bytes).

(** May a node be added at [k]: its parent is a directory, its name a good one. *)
Definition addable (fs : tree_fs) (k : key) : bool :=
  match last k with
  | Some n => bool_decide (entry_name n) && bool_decide (fs.(tf_nodes) !! removelast k = Some NDir)
              && bool_decide (fs.(tf_nodes) !! k = None)
  | None => false
  end.

Definition tf_fd (k : key) : Z := Z.pos (encode k).
Definition tf_key (fd : Z) : option key := decode (Z.to_pos fd).

Definition tf_unlink (fs : tree_fs) (p : bytes) : option errno_t * tree_fs :=
  match fs.(tf_nodes) !! parts p with
  | Some (NFile _) => (None, mktree (delete (parts p) fs.(tf_nodes)) fs.(tf_pos))
  | Some NDir => (Some EPERM, fs)
  | None => (Some ENOENT, fs)
  end.

Definition tf_rmdir (fs : tree_fs) (p : bytes) : option errno_t * tree_fs :=
  match fs.(tf_nodes) !! parts p, children fs (parts p) with
  | Some NDir, [] => (None, mktree (delete (parts p) fs.(tf_nodes)) fs.(tf_pos))
  | _, _ => (Some EOTHER, fs)
  end.

Definition tf_mkdir (fs : tree_fs) (p : bytes) : option errno_t * tree_fs :=
  if addable fs (parts p) then (None, mktree (<[parts p := NDir]> fs.(tf_nodes)) fs.(tf_pos))
  else (Some EEXIST, fs).

Definition tf_open_wr (fs : tree_fs) (p : bytes) : Z * tree_fs :=
  let k := parts p in
  match fs.(tf_nodes) !! k with
  | Some (NFile _) => (tf_fd k, mktree fs.(tf_nodes) (<[k := 0%nat]> fs.(tf_pos)))
  | _ => if addable fs k
         then (tf_fd k, mktree (<[k := NFile []]> fs.(tf_nodes)) (<[k := 0%nat]> fs.(tf_pos)))
         else (-1, fs)
  end.

Definition tf_write (fs : tree_fs) (fd : Z) (b : bytes) : Z * tree_fs :=
  match (k ← tf_key fd; pos ← fs.(tf_pos) !! k; nd ← fs.(tf_nodes) !! k; Some (k, pos, nd)) with
  | Some (k, pos, NFile c) =>
      (Z.of_nat (length b),
       mktree (<[k := NFile (take pos c ++ b ++ drop (pos + length b) c)]> fs.(tf_nodes))
         (<[k := (pos + length b)%nat]> fs.(tf_pos)))
  | _ => (-1, fs)
  end.

Definition tf_stat_of (nd : node) : stat_t :=
  match nd with
  | NFile c => mkstat (S_IFREG + 420) (Z.of_nat (length c)) 1000 1 1
  | NDir => mkstat (S_IFDIR + 493) 0 1000 1 1
  end.

Definition tf_stat (fs : tree_fs) (p : bytes) : option stat_t := tf_stat_of <$> fs.(tf_nodes) !! parts p.

Definition tf_contents (fs : tree_fs) (fd : Z) : bytes :=
  match (k ← tf_key fd; fs.(tf_nodes) !! k) with Some (NFile c) => c | _ => [] end.

(** Renaming fails as it does between devices; what is not about files is as in
    Sample.v. *)
#[export] Instance tree_posix : Posix tree_fs := {|
  px_malloc := fun _ => true;
  px_sock_write := fun _ b => Z.of_nat (length b);
  px_getenv := fun _ => None;
  px_auth_connect := true;
  px_auth_write := fun b => Z.of_nat (length b);
  px_auth_read := fun _ => 0;
  px_access := fun fs p => bool_decide (is_Some (fs.(tf_nodes) !! parts p));
  px_access_rw := fun fs p => bool_decide (is_Some (fs.(tf_nodes) !! parts p));
  px_stat := tf_stat;
  px_open_rd := fun fs p => if fs.(tf_nodes) !! parts p is Some _ then tf_fd (parts p) else -1;
  px_fstat := fun fs fd =>
    if (k ← tf_key fd; fs.(tf_nodes) !! k) is Some nd then tf_stat_of nd else mkstat 0 0 0 0 0;
  px_contents := tf_contents;
  px_read_error := fun _ _ => false;
  px_readdir := fun fs p =>
    if fs.(tf_nodes) !! parts p is Some NDir then Some (bs "." :: bs ".." :: children fs (parts p)) else None;
  px_scandir := fun fs p =>
    if fs.(tf_nodes) !! parts p is Some NDir
    then Some (children fs (parts p))
    else None;
  px_unlink := tf_unlink;
  px_rmdir := tf_rmdir;
  px_mkdir := tf_mkdir;
  px_rename := fun fs _ _ => (Some EXDEV, fs);
  px_open_wr := tf_open_wr;
  px_open_rdwr := tf_open_wr;
  px_ftruncate := fun fs fd n =>
    match (k ← tf_key fd; nd ← fs.(tf_nodes) !! k; Some (k, nd)) with
    | Some (k, NFile c) =>
        (true, mktree (<[k := NFile (take (Z.to_nat n) (c ++ replicate (Z.to_nat n) 0))]> fs.(tf_nodes)) fs.(tf_pos))
    | _ => (false, fs)
    end;
  px_write := tf_write;
  px_flock := fun _ _ _ => true;
  px_strftime := fun _ => [];
  px_httpdate := fun _ => bs "Thu, 01 Jan 1970 00:00:00 GMT";
  px_tell := fun fs fd => if (k ← tf_key fd; fs.(tf_pos) !! k) is Some n then Z.of_nat n else 0;
  px_magic := fun _ => Some (bs "text/plain");
  px_tar := fun _ _ => Some ([], 0);
  px_script := fun _ _ => None;
  px_sock_addr := bs "::1";
  px_garbage := fun _ => [];
  px_garbage_stat := mkstat 0 0 0 0 0;
|}.

(** The file a descriptor appends to: its position is the end. *)
Definition tf_appends (fs : tree_fs) (fd : Z) : option key :=
  k ← tf_key fd;
  pos ← fs.(tf_pos) !! k;
  nd ← fs.(tf_nodes) !! k;
  if nd is NFile c then if (pos =? length c)%nat then Some k else None else None.

Definition tf_ok (fs : tree_fs) : Prop :=
  forall k n, is_Some (fs.(tf_nodes) !! (k ++ [n])) -> fs.(tf_nodes) !! k = Some NDir /\ entry_name n.

(** *** It is a tree *)

Lemma entry_of_Some k k' n : entry_of k k' = Some n <-> k' = k ++ [n].
Proof.
  unfold entry_of. split.
  - destruct (last k') as [m|]; [|done]. destruct (decide _) as [E|]; [by intros [= <-] | done].
  - intros ->. rewrite last_snoc. by rewrite decide_True.
Qed.

Lemma elem_of_children fs k n : n ∈ children fs k <-> is_Some (fs.(tf_nodes) !! (k ++ [n])).
Proof.
  unfold children. rewrite elem_of_elements, elem_of_set_omap. split.
  - intros (k' & Hk & ->%entry_of_Some). by apply elem_of_dom.
  - intros Hk. exists (k ++ [n]). split; [by apply elem_of_dom | by apply entry_of_Some].
Qed.

Lemma addable_spec fs k :
  addable fs k = true ->
  exists k' n, k = k' ++ [n] /\ entry_name n /\ fs.(tf_nodes) !! k' = Some NDir /\ fs.(tf_nodes) !! k = None.
Proof.
  unfold addable. destruct (last k) as [n|] eqn:El; [|done]. apply last_Some in El as [k' ->].
  rewrite removelast_last, !andb_true_iff, !bool_decide_eq_true. intros [[? ?] ?]. by exists k', n.
Qed.

(** Adding a node where one may be added. *)
Lemma tf_ok_add fs k nd pos : tf_ok fs -> addable fs k = true -> tf_ok (mktree (<[k := nd]> fs.(tf_nodes)) pos).
Proof.
  intros Hok Ha k' n Hk. apply addable_spec in Ha as (k0 & n0 & -> & Hn0 & Hd & Hnone). simpl in *.
  assert (is_Some (fs.(tf_nodes) !! (k' ++ [n])) \/ k' ++ [n] = k0 ++ [n0]) as [Hk'|Ek].
  { destruct (decide (k0 ++ [n0] = k' ++ [n])); [by right|]. left. by rewrite lookup_insert_ne in Hk. }
  - destruct (Hok _ _ Hk') as [Hdir He]. split; [|done]. rewrite lookup_insert_ne; [done|].
    intros <-. congruence.
  - apply app_inj_tail in Ek as [-> ->]. split; [|done]. rewrite lookup_insert_ne; [done|].
    intros Ek. apply (f_equal length) in Ek. rewrite length_app in Ek. simpl in Ek. lia.
Qed.

(** New content of a file. *)
Lemma tf_ok_update fs k c c' pos :
  tf_ok fs -> fs.(tf_nodes) !! k = Some (NFile c) -> tf_ok (mktree (<[k := NFile c']> fs.(tf_nodes)) pos).
Proof.
  intros Hok Hc k' n Hk. simpl in *.
  assert (is_Some (fs.(tf_nodes) !! (k' ++ [n]))) as Hk'.
  { destruct (decide (k = k' ++ [n])) as [->|]; [by rewrite Hc | by rewrite lookup_insert_ne in Hk]. }
  destruct (Hok _ _ Hk') as [Hd He]. split; [|done]. rewrite lookup_insert_ne; [done | congruence].
Qed.

(** A node without descendants is taken away. *)
Lemma tf_ok_delete fs k pos :
  tf_ok fs -> (forall n, fs.(tf_nodes) !! (k ++ [n]) = None) -> tf_ok (mktree (delete k fs.(tf_nodes)) pos).
Proof.
  intros Hok Hno k' n Hk. simpl in *. apply lookup_delete_is_Some in Hk as [Hne Hk].
  destruct (Hok _ _ Hk) as [Hd He]. split; [|done]. rewrite lookup_delete_ne; [done|].
  intros ->. rewrite Hno in Hk. by destruct Hk.
Qed.

Lemma tf_key_fd k : tf_key (tf_fd k) = Some k.
Proof. unfold tf_key, tf_fd. simpl. apply decode_encode. Qed.

Lemma dot_not_entry n : is_dot_entry n = false -> n <> bs "." /\ n <> bs "..".
Proof. intros H. by split; intros ->. Qed.

#[export, refine] Instance tree_tree : TreeFS tree_fs := {|
  tree := tf_nodes;
  tree_fd := tf_appends;
  tree_ok := tf_ok;
|}.
Proof.
  - intros fs k n Hok Hs. by apply Hok.
  - intros fs p Hok. cbn [px_unlink tree_posix]. unfold tf_unlink.
    destruct (tf_nodes fs !! parts p) as [[c|]|] eqn:E; [|done..].
    split_and!; [by eexists | done |]. apply tf_ok_delete; [done|]. intros n.
    destruct (tf_nodes fs !! (parts p ++ [n])) as [nd|] eqn:En; [|done].
    destruct (Hok _ _ (mk_is_Some _ _ En)) as [Hd _]. congruence.
  - intros fs p Hok. cbn [px_rmdir tree_posix]. unfold tf_rmdir.
    destruct (tf_nodes fs !! parts p) as [[c|]|] eqn:E; [done | | done].
    destruct (children fs (parts p)) as [|x l] eqn:Ec; [|done].
    assert (forall n, tf_nodes fs !! (parts p ++ [n]) = None) as Hno.
    { intros n. apply eq_None_not_Some. rewrite <-elem_of_children, Ec. apply not_elem_of_nil. }
    split_and!; [done | done | done |]. by apply tf_ok_delete.
  - intros fs p names Hok. cbn [px_readdir tree_posix].
    destruct (tf_nodes fs !! parts p) as [[c|]|] eqn:E; [done | | done]. intros [= <-].
    assert (forall n, is_dot_entry n = true -> n ∉ children fs (parts p)) as Hdot.
    { intros n Hn Hin%elem_of_children. destruct (Hok _ _ Hin) as (_ & _ & _ & He). congruence. }
    split_and!; [done | |].
    + apply NoDup_cons. split.
      * rewrite elem_of_cons. intros [?|Hin]; [done|]. by eapply Hdot; [|exact Hin].
      * apply NoDup_cons. split; [by apply Hdot | apply NoDup_elements].
    + intros n Hn. destruct (dot_not_entry n Hn). rewrite !elem_of_cons, elem_of_children. tauto.
  - intros fs p Hok. cbn [px_mkdir tree_posix]. unfold tf_mkdir.
    destruct (addable fs (parts p)) eqn:Ea; [|done].
    destruct (addable_spec _ _ Ea) as (k & n & _ & _ & _ & Hnone). split_and!; [done | done |].
    by apply tf_ok_add.
  - intros fs p Hok. cbn [px_stat tree_posix]. unfold tf_stat.
    destruct (tf_nodes fs !! parts p) as [[c|]|]; [by eexists..|done].
  - intros fs p Hok Hnone. cbn [px_open_wr tree_posix]. unfold tf_open_wr. rewrite Hnone.
    destruct (addable fs (parts p)) eqn:Ea; [|done]. cbn [tf_fd Z.ltb Z.compare]. split_and!; [done | |].
    + unfold tf_appends. cbn [tf_nodes tf_pos]. rewrite tf_key_fd. cbn [mbind option_bind].
      by rewrite !lookup_insert_eq.
    + by apply tf_ok_add.
  - intros fs p c Hok Hc _. cbn [px_open_rd px_contents tree_posix]. rewrite Hc. unfold tf_contents.
    rewrite tf_key_fd. cbn [mbind option_bind]. by rewrite Hc.
  - intros fs fd b k c Hok Hfd Hc. cbn [px_write tree_posix]. unfold tf_write, tf_appends in *.
    destruct (tf_key fd) as [k'|] eqn:Ek; [|done]. cbn [mbind option_bind] in *.
    destruct (tf_pos fs !! k') as [pos|]; [|done]. cbn [mbind option_bind] in *.
    destruct (tf_nodes fs !! k') as [[c'|]|] eqn:En; [|done..]. cbn [mbind option_bind] in *.
    destruct (Nat.eqb_spec pos (length c')) as [->|]; [|done]. injection Hfd as ->.
    rewrite En in Hc. injection Hc as ->.
    rewrite take_ge, drop_ge, app_nil_r, Nat2Z.id, take_ge by lia. split_and!; [lia | done | |].
    + cbn [tf_nodes tf_pos]. rewrite !lookup_insert_eq. cbn [mbind option_bind].
      by rewrite length_app, Nat.eqb_refl.
    + by eapply tf_ok_update.
Defined.

(** No read fails in it. *)
Lemma tree_reads_succeed : reads_succeed tree_fs.
Proof. done. Qed.

(** No call is refused in it. *)
Lemma tree_removal_permitted : removal_permitted tree_fs.
Proof.
  intros fs p Hok. cbn [tree px_unlink px_readdir px_rmdir tree_tree tree_posix]. split.
  - intros c Hc. unfold tf_unlink. rewrite Hc. by eexists.
  - intros Hd. rewrite Hd. split; [by eexists|]. intros Hno. unfold tf_rmdir. rewrite Hd.
    destruct (children fs (parts p)) as [|x l] eqn:E; [by eexists|].
    assert (x ∈ children fs (parts p)) as [nd Hx]%elem_of_children by (rewrite E; apply elem_of_cons; by left).
    by rewrite Hno in Hx.
Qed.

(** The bounds on paths, checked on the finitely many nodes. *)
Definition all_paths_fit (fs : tree_fs) (top d : bytes) : Prop :=
  map_Forall (fun k _ => parts top `prefix_of` k ->
                (length d + below_length (drop (length (parts top)) k) < PATH_LEN)%nat) fs.(tf_nodes).

#[export] Instance all_paths_fit_dec fs top d : Decision (all_paths_fit fs top d).
Proof. unfold all_paths_fit. apply _. Defined.

Lemma all_paths_fit_below fs top d k :
  all_paths_fit fs top d -> is_Some (fs.(tf_nodes) !! (parts top ++ k)) ->
  (length d + below_length k < PATH_LEN)%nat.
Proof.
  intros Ha [nd Hk]. specialize (Ha _ _ Hk (prefix_app_r _ _ _ ltac:(done))).
  by rewrite drop_app_length in Ha.
Qed.

(** ** Witnesses *)

Definition sample_nodes : gmap key node :=
  <[[bs "srv"; bs "d"; bs "s"; bs "y"] := NFile (bs "deep")]>
  (<[[bs "srv"; bs "d"; bs "s"] := NDir]>
  (<[[bs "srv"; bs "d"; bs "x"] := NFile (bs "text")]>
  (<[[bs "srv"; bs "e"] := NFile (bs "else")]>
  (<[[bs "srv"; bs "d"] := NDir]>
  (<[[bs "srv"] := NDir]> {[ [] := NDir ]}))))).

Definition sample_tree : tree_fs := mktree sample_nodes ∅.

Lemma sample_tree_ok : tf_ok sample_tree.
Proof.
  assert (tf_ok (mktree {[ [] := NDir ]} ∅)) as H0.
  { intros k n [nd Hk]. simpl in Hk. apply lookup_singleton_Some in Hk as [Hk _]. by destruct k. }
  unfold sample_tree, sample_nodes.
  repeat (refine (tf_ok_add (mktree _ ∅) _ _ _ _ _); [|vm_compute; reflexivity]). exact H0.
Qed.

(** A request for [page], whose path is in [strfile]. *)
Definition tree_world (path : bytes) (c : connection_t) : world tree_fs :=
  mkworld (set_strfile (path ++ replicate (URI_LEN - length path) 0) c) [] (mkbuf (replicate 16 0) 0 0 16) []
    sample_tree.

Definition sample_delete_tree : world tree_fs :=
  tree_world (bs "/srv/d/") (sample_conn (bs "/d/") (bs "HTTP/1.1" ++ CRLF)).

Lemma sample_paths_fit : paths_fit sample_tree (bs "/srv/d/").
Proof.
  intros k Hk. apply (all_paths_fit_below sample_tree (bs "/srv/d/")); [by_decision | exact Hk].
Qed.

Lemma delete_file_tree_witness :
  exists (ok : bool) fs',
    delete_file sample_conf_auth PATH_LEN sample_delete_tree
    = Some (if ok then OK_NOCONTENT else ERR_FORBIDDEN, with_fs sample_delete_tree fs')
    /\ removed (bs "/srv/d/") sample_tree fs'
    /\ (ok = true -> forall k, tree fs' !! (parts (bs "/srv/d/") ++ k) = None)
    /\ (removal_permitted tree_fs -> ok = true).
Proof.
  assert (tree (w_fs sample_delete_tree) !! parts (bs "/srv/d/") = Some NDir) as Hd by (vm_compute; reflexivity).
  pose proof (delete_file_tree sample_conf_auth PATH_LEN sample_delete_tree (bs "/srv/d/")) as T.
  rewrite Hd in T. apply T.
  - by eexists.
  - done.
  - vm_compute. reflexivity.
  - apply sample_tree_ok.
  - apply sample_paths_fit.
  - split; [apply Nat.ltb_lt; reflexivity | done].
Defined.

(** COPY /d/ to /f. *)
Definition sample_copy_tree : world tree_fs :=
  let w := tree_world (bs "/srv/d")
             (sample_conn (bs "/d") (bs "HTTP/1.1" ++ CRLF ++ bs "Destination: /f" ++ CRLF)) in
  mkworld (set_method_id COPY w.(w_conn)) w.(w_out) w.(w_read) w.(w_net) w.(w_fs).

Lemma copy_move_tree_witness :
  let target := move_target sample_copy_tree (bs "f") in
  exists r fs',
    copy_move PATH_LEN sample_copy_tree
    = Some (if r =? 0 then (if px_access (w_fs sample_copy_tree) target then OK_NOCONTENT else OK_CREATED) else r,
            with_fs sample_copy_tree fs')
    /\ kept_outside target sample_tree fs'
    /\ (r = 0 -> forall k, copied_at (bs "/srv/d") target sample_tree fs' k).
Proof.
  apply (copy_move_tree PATH_LEN sample_copy_tree (bs "HTTP/1.1" ++ CRLF ++ bs "Destination: /f")
           (bs "f") (bs "/srv/d") None).
  - done.
  - split; [| reflexivity | by_decision | apply Nat.ltb_lt; reflexivity | reflexivity | by left | vm_compute; reflexivity].
    exists (bs "GET" ++ [0] ++ bs "/d" ++ [0]), []. split_and!; [reflexivity | reflexivity | by_decision].
  - reflexivity.
  - apply sample_tree_ok.
  - vm_compute. reflexivity.
  - split; by_decision.
  - split; intros k Hk; eapply (all_paths_fit_below sample_tree (bs "/srv/d")); try exact Hk; by_decision.
  - split; [apply Nat.ltb_lt; reflexivity | done].
  - by left.
Defined.

(** In this file system the copy succeeds, and then holds the deepest file. *)
Example sample_copy_succeeds :
  match copy_move 8 sample_copy_tree with
  | Some (r, w') => r = OK_CREATED
                    /\ tree w'.(w_fs) !! [bs "srv"; bs "f"; bs "s"; bs "y"] = Some (NFile (bs "deep"))
  | None => False
  end.
Proof. vm_compute. done. Qed.

(** Four directories with long names, one below the other, and a last one that
    holds a file: its path has 1023 bytes. *)
Definition long_name : bytes := replicate 254 (chr "a").

Definition long_dir : bytes :=
  concat (replicate 4 (bs "/" ++ long_name)) ++ bs "/bc".

Definition long_key : key := replicate 4 long_name ++ [bs "bc"].

Definition long_tree : tree_fs :=
  mktree (<[long_key ++ [bs "z"] := NFile []]> (<[long_key := NDir]> ∅)) ∅.

Definition long_world : world tree_fs :=
  let w := sample_delete_tree in mkworld w.(w_conn) w.(w_out) w.(w_read) w.(w_net) long_tree.

Lemma parts_long_dir : parts long_dir = long_key.
Proof. vm_compute. reflexivity. Qed.

Lemma long_tree_dir : long_tree.(tf_nodes) !! long_key = Some NDir.
Proof.
  cbn [tf_nodes long_tree]. rewrite lookup_insert_ne, lookup_insert_eq; [done|].
  intros E. apply (f_equal length) in E. rewrite length_app in E. simpl in E. lia.
Qed.

Lemma children_one fs k z :
  (forall x, is_Some (fs.(tf_nodes) !! (k ++ [x])) <-> x = z) -> exists l, children fs k = z :: l.
Proof.
  intros Hz. pose proof (proj2 (elem_of_children fs k z) (proj2 (Hz z) eq_refl)) as Hin.
  destruct (children fs k) as [|x l] eqn:E; [by apply elem_of_nil in Hin|]. exists l. f_equal.
  apply Hz, elem_of_children. rewrite E. apply elem_of_cons. by left.
Qed.

Lemma long_tree_children : exists l, children long_tree long_key = bs "z" :: l.
Proof.
  apply children_one. intros x. cbn [tf_nodes long_tree]. split.
  - destruct (decide (x = bs "z")) as [|Hx]; [done|]. intros [nd Hk].
    rewrite lookup_insert_ne, lookup_insert_ne, lookup_empty in Hk; [done | |].
    + intros E. apply (f_equal length) in E. rewrite length_app in E. simpl in E. lia.
    + intros E. apply app_inv_head in E. by injection E.
  - intros ->. by rewrite lookup_insert_eq.
Qed.

Lemma long_unlink : tf_unlink long_tree long_dir = (Some EPERM, long_tree).
Proof. unfold tf_unlink. rewrite parts_long_dir, long_tree_dir. reflexivity. Qed.

Lemma long_readdir l :
  children long_tree long_key = bs "z" :: l ->
  px_readdir long_tree long_dir = Some ([bs "."; bs ".."] ++ bs "z" :: l).
Proof.
  intros E. unfold px_readdir, tree_posix. rewrite parts_long_dir, long_tree_dir, E. reflexivity.
Qed.

Lemma dir_remove_endless_witness : dir_remove 2000 long_dir long_world = None.
Proof.
  destruct long_tree_children as [l El].
  apply (dir_remove_endless 2000 long_dir EPERM [bs "."; bs ".."] (bs "z") l long_world).
  - intros n. reflexivity.
  - vm_compute. reflexivity.
  - exact long_unlink.
  - exact (long_readdir l El).
  - repeat constructor.
  - reflexivity.
Defined.

(** A directory that is copied into itself: each call copies the directory
    that the call before it has made, until the path is cut to one that is
    there.  The client is refused, and the nested directories stay. *)
Definition inner_name : bytes := replicate 29 (chr "x").

Definition empty_directory : world tree_fs :=
  let w := sample_delete_tree in
  mkworld w.(w_conn) w.(w_out) w.(w_read) w.(w_net) (mktree {[ [bs "srv"] := NDir; [bs "srv"; bs "d"] := NDir ]} ∅).

Example copy_into_itself :
  match dir_move_copy PATH_LEN (bs "/srv/d") (bs "/srv/d/" ++ inner_name) COPY empty_directory with
  | Some (r, w) => r = ERR_FORBIDDEN /\ size (tf_nodes w.(w_fs)) = 36%nat
      /\ tf_nodes w.(w_fs) !! ([bs "srv"; bs "d"] ++ replicate 33 inner_name) = Some NDir
  | None => False
  end.
Proof. vm_compute. done. Qed.
