(* ===== verification/Instance.v ===== *)
(** * A worker's connections, one after the other (instance.c)

    [instance] serves one connection at a time with one request buffer and one
    read buffer; here the part between two turns at the queue, on which
    Listener.v builds.  The theorem is about what stays in the memory of the
    request: nothing that the next connection could see. *)
From S2P Require Export Server MyNet.

(** ** Definitions *)

Definition set_ip_addr (v : bytes) (c : connection_t) : connection_t :=
  mkconn c.(req) v c.(keep_alive) c.(protocol_version) c.(method_id) c.(method) c.(http_param)
    c.(page) c.(page_len) c.(get_params) c.(strfile) c.(strfile_len) c.(strfile_stat)
    c.(strfile_fd) c.(basedir) c.(status_code).

Section Instance.
Context {F : Type} `{Posix F}.
Context (conf : weborf_configuration_t).
Context (cachedir : option bytes).
Context (turns depth : nat).

(** A client has connected: its address is stored, its bytes are to come. *)
Definition connect (peer : peer_addr) (es : list net_event) (w : world F) : option (world F) :=
  buffer ← net_getpeername peer (fresh INET6_ADDRSTRLEN);
  ip ← cstr_at buffer 0;
  Some (mkworld (set_ip_addr ip w.(w_conn)) [] w.(w_read) es w.(w_fs)).

(** At most [n] requests are served; the socket is closed and the read buffer
    reset.  [bufFull] goes on to the next connection. *)
Definition serve_connection (peer : peer_addr) (es : list net_event) (n bufFull : nat)
    (w : world F) : option (nat * world F) :=
  w ← connect peer es w;
  '(bufFull, w) ← handle_requests conf cachedir turns depth n bufFull w;
  Some (bufFull, mkworld w.(w_conn) w.(w_out) (buffer_reset w.(w_read)) w.(w_net) w.(w_fs)).
End Instance.

(** ** Specification *)

(** The part of the request's memory that is not in use holds zeros. *)
Definition zero_behind (n : nat) (m : bytes) : Prop :=
  length m = (INBUFFER + 1)%nat /\ (n <= INBUFFER + 1)%nat
  /\ drop n m = replicate (INBUFFER + 1 - n) 0.

(** [m'] differs from [m] only in front of [e], where both have a NUL. *)
Definition stays (e : nat) (m m' : bytes) : Prop :=
  length m' = length m /\ drop e m' = drop e m /\ m !! e = Some 0.

Definition preserves {F A} (I : world F -> Prop) (m : M F A) : Prop :=
  forall w y w', I w -> m w = Some (y, w') -> I w'.

(** The request's memory is [m] and the read buffer is well-formed. *)
Definition request_kept {F} (m : bytes) (w : world F) : Prop :=
  w.(w_conn).(req) = m /\ buf_wf w.(w_read).

(** ** Lemmas: memory in front of a NUL *)

Lemma stays_refl e m : m !! e = Some 0 -> stays e m m.
Proof. done. Qed.

Lemma stays_nul e m m' : stays e m m' -> m' !! e = Some 0.
Proof.
  intros (Hl & Hd & Hn). rewrite <-Hn, <-(Nat.add_0_r e), <-!lookup_drop. by rewrite Hd.
Qed.

Lemma stays_trans e m1 m2 m3 : stays e m1 m2 -> stays e m2 m3 -> stays e m1 m3.
Proof. intros (? & ? & ?) (? & ? & ?). unfold stays. split_and!; congruence. Qed.

Lemma store_stays e m p v m' : m !! e = Some 0 -> (p < e)%nat -> store m p v = Some m' -> stays e m m'.
Proof.
  intros Hn Hp. unfold store. destruct (p <? length m)%nat; [|done]. intros [= <-].
  unfold stays. split_and!; [apply length_insert | by rewrite drop_insert_lt by lia | done].
Qed.

Lemma memmove_stays e m dst src n m' :
  m !! e = Some 0 -> (dst + n <= e)%nat -> memmove m dst src n = Some m' -> stays e m m'.
Proof.
  intros Hn Hp. unfold memmove.
  destruct (Nat.leb_spec (dst + n) (length m)), (Nat.leb_spec (src + n) (length m)); try done.
  cbn [andb]. intros [= <-]. unfold stays.
  assert (length (take dst m ++ take n (drop src m)) = (dst + n)%nat) as L
    by (rewrite length_app, !length_take, length_drop; lia).
  rewrite app_assoc. split_and!; [|  | done].
  - rewrite length_app, L, length_drop. lia.
  - rewrite drop_app_ge by lia. rewrite L, drop_drop. f_equal. lia.
Qed.

Lemma strstr_before e m p needle q :
  m !! e = Some 0 -> (p <= e)%nat -> strstr m p needle = Some (Some q) ->
  (q + length needle <= e)%nat.
Proof.
  intros Hn Hp. unfold strstr. destruct (cstr_at m p) as [s|] eqn:Es; [|done]. cbn [mbind option_bind].
  destruct (find_sub needle s) as [i|] eqn:Ei; [|done]. intros [= <-].
  pose proof (cstr_before _ _ _ _ Hn Hp Es). pose proof (find_sub_bound _ _ _ Ei). lia.
Qed.

(** Peels the first computation off a sequence of partial operations. *)
Ltac peel E :=
  match type of E with
  | (?o ≫= _) = Some _ =>
      let x := fresh "x" in let Ex := fresh "Ex" in
      destruct o as [x|] eqn:Ex; cbn [mbind option_bind] in E; [|discriminate E]
  end.

Lemma delChar_stays e m p n m' :
  m !! e = Some 0 -> (p <= e)%nat -> 0 < n < 2 ^ 64 -> delChar m p 0 n = Some m' -> stays e m m'.
Proof.
  intros Hn Hp Hk E. unfold delChar, strlen in E. rewrite Nat.add_0_r, to_u_small in E by lia.
  destruct (cstr_at m p) as [s|] eqn:Es; [|done]. cbn [fmap option_fmap option_map mbind option_bind] in E.
  pose proof (cstr_before _ _ _ _ Hn Hp Es) as Hs.
  destruct (Z.ltb_spec (Z.of_nat (length s)) n); [injection E as <-; by apply stays_refl|].
  peel E. pose proof (memmove_stays e m p _ (length s - Z.to_nat n) x Hn ltac:(lia) Ex) as Hm.
  eapply stays_trans; [exact Hm|]. eapply store_stays; [by eapply stays_nul | | exact E]. lia.
Qed.

Lemma strReplace_loop_stays e substr v fuel : forall m p m',
  m !! e = Some 0 -> (p <= e)%nat -> (1 < length substr)%nat -> Z.of_nat (length substr) < 2 ^ 64 ->
  strReplace_loop fuel m p substr v = Some m' -> stays e m m'.
Proof.
  induction fuel as [|f IH]; intros m p m' Hn Hp Hl Hb E; [done|]. cbn [strReplace_loop] in E.
  peel E. destruct x as [q|]; [|injection E as <-; by apply stays_refl].
  pose proof (strstr_before _ _ _ _ _ Hn Hp Ex) as Hq.
  peel E. pose proof (delChar_stays e m q (Z.of_nat (length substr) - 1) x Hn ltac:(lia) ltac:(lia) Ex0) as H1.
  peel E. pose proof (store_stays e x q _ x0 (stays_nul _ _ _ H1) ltac:(lia) Ex1) as H2.
  apply (stays_trans e m x m' H1), (stays_trans e x x0 m' H2).
  eapply IH; [by eapply stays_nul | | | | exact E]; lia.
Qed.

Lemma replaceEscape_loop_stays e fuel : forall m p m',
  m !! e = Some 0 -> (p <= e)%nat -> replaceEscape_loop fuel m p = Some m' -> stays e m m'.
Proof.
  induction fuel as [|f IH]; intros m p m' Hn Hp E; [done|]. cbn [replaceEscape_loop] in E.
  peel E. destruct x as [q|]; [|injection E as <-; by apply stays_refl].
  pose proof (strstr_before _ _ _ _ _ Hn Hp Ex) as Hq. cbn [length] in Hq.
  peel E. unfold replaceEscape_one in Ex0. do 3 peel Ex0.
  pose proof (delChar_stays e m q 2 x2 Hn ltac:(lia) ltac:(lia) Ex3) as H1.
  pose proof (store_stays e x2 q _ x (stays_nul _ _ _ H1) ltac:(lia) Ex0) as H2.
  apply (stays_trans e m x2 m' H1), (stays_trans e x2 x m' H2).
  eapply IH; [by eapply stays_nul | | exact E]; lia.
Qed.

Lemma modURL_stays e m url params m' :
  m !! e = Some 0 -> (forall p, url = Some p -> (p <= e)%nat) -> modURL m url params = Some m' -> stays e m m'.
Proof.
  intros Hn Hp E. unfold modURL in E. peel E.
  assert (stays e m x) as H1.
  { destruct url as [p|]; [|injection Ex as <-; by apply stays_refl].
    eapply replaceEscape_loop_stays; [exact Hn | by apply Hp | exact Ex]. }
  destruct params; [by injection E as <-|]. destruct url as [p|]; [|done].
  eapply stays_trans; [exact H1|].
  eapply strReplace_loop_stays; [by eapply stays_nul | by apply Hp | | | exact E]; simpl; lia.
Qed.

Lemma strtok_stays e m p d m' t l :
  m !! e = Some 0 -> (p <= e)%nat -> strtok_r m p d = Some (m', t, l) ->
  stays e m m' /\ (l <= e)%nat /\ (forall q, t = Some q -> (q <= e)%nat).
Proof.
  intros Hn Hp E. unfold strtok_r in E. peel E. rename x into s.
  pose proof (cstr_before _ _ _ _ Hn Hp Ex) as Hs. pose proof (span_len_le (in_set d) s) as Hk.
  set (k := span_len (in_set d) s) in *. pose proof (length_drop s k) as Ld.
  destruct (drop k s) as [|c tok]; [injection E as <- <- <-; split_and!; [by apply stays_refl | lia | done]|].
  set (tk := c :: tok) in *. pose proof (span_len_le (fun c => negb (in_set d c)) tk) as Hj.
  set (j := span_len _ tk) in *. destruct (Nat.eqb_spec j (length tk)).
  - injection E as <- <- <-. split_and!; [by apply stays_refl | lia |]. intros q [= <-]. lia.
  - peel E. injection E as <- <- <-. split_and!; [| lia |].
    + eapply store_stays; [exact Hn | | exact Ex0]. lia.
    + intros q [= <-]. lia.
Qed.

Lemma split_get_params_stays e c c' :
  c.(req) !! e = Some 0 -> (c.(page) <= e)%nat -> split_get_params c = Some c' ->
  stays e c.(req) c'.(req) /\ c'.(page) = c.(page)
  /\ (forall p, c'.(get_params) = Some p -> (p <= e)%nat).
Proof.
  intros Hn Hp E. unfold split_get_params in E. peel E. destruct x as [q|].
  - pose proof (strstr_before _ _ _ _ _ Hn Hp Ex) as Hq. cbn [length] in Hq.
    peel E. injection E as <-. cbn. split_and!; [|done|].
    + eapply store_stays; [exact Hn | | exact Ex0]. lia.
    + intros p [= <-]. lia.
  - peel E. injection E as <-. cbn. split_and!; [by apply stays_refl | done | done].
Qed.

(** ** Lemmas: what computations preserve *)

Section Preserves.
Context {F : Type} `{Posix F}.

Lemma preserves_keeps {A B} (view : world F -> B) (P : B -> Prop) (m : M F A) :
  keeps view m -> preserves (fun w => P (view w)) m.
Proof. intros Hk w y w' HP E. by rewrite (Hk w y w' E). Qed.

Lemma preserves_bind {A C} I (m : M F A) (f : A -> M F C) :
  preserves I m -> (forall x, preserves I (f x)) -> preserves I (x ← m; f x).
Proof.
  intros Hm Hf w y w' HI E. apply bind_inv in E as (x & w1 & E1 & E).
  eapply Hf; [eapply Hm; [exact HI | exact E1] | exact E].
Qed.

Lemma preserves_keeps_all {A} I (m : M F A) : keeps (fun w => w) m -> preserves I m.
Proof. intros Hk w y w' HI E. by rewrite (Hk w y w' E). Qed.

Lemma preserves_upd r f : (forall c, req (f c) = req c) -> preserves (@request_kept F r) (upd f).
Proof. intros Hf w y w' [Hr Hb] [= _ <-]. by split; cbn; rewrite ?Hf. Qed.

Lemma preserves_send r d : preserves (@request_kept F r) (sock_send d).
Proof. intros w y w' [Hr Hb] [= _ <-]. by split. Qed.

Lemma preserves_put_fs r fs : preserves (@request_kept F r) (put_fs fs).
Proof. intros w y w' [Hr Hb] [= _ <-]. by split. Qed.

Lemma preserves_on_fs {A} r (f : F -> A * F) : preserves (@request_kept F r) (on_fs f).
Proof.
  intros w y w' [Hr Hb] E. rewrite on_fs_run in E. injection E as _ <-. by split.
Qed.

Lemma preserves_read r n : preserves (@request_kept F r) (sock_read n).
Proof.
  intros w y w' [Hr Hb] E. destruct (Z.le_gt_cases 0 n) as [Hn|Hn].
  - destruct (sock_read_run n w Hb Hn) as (d & b & es & Es & _ & Hb' & _).
    rewrite Es in E. injection E as _ <-. by split.
  - unfold sock_read, buffer_read in E. rewrite Nat.add_comm in E. cbn [Nat.add buffer_read_loop] in E.
    destruct (Z.ltb_spec 0 n); [lia|]. injection E as _ <-. by split.
Qed.

Lemma preserves_ret {A} r (x : A) : preserves (@request_kept F r) (mret x).
Proof. apply preserves_keeps_all, keeps_ret. Qed.

Lemma preserves_lift {A} r (o : option A) : preserves (@request_kept F r) (lift o).
Proof. apply preserves_keeps_all, keeps_lift. Qed.

Lemma preserves_conn r : preserves (@request_kept F r) conn.
Proof. apply preserves_keeps_all, keeps_conn. Qed.

Lemma preserves_get_fs r : preserves (@request_kept F r) get_fs.
Proof. apply preserves_keeps_all, keeps_get_fs. Qed.

Lemma preserves_cstring r p : preserves (@request_kept F r) (cstring p).
Proof. apply preserves_keeps_all, cstring_keeps. Qed.

Lemma preserves_param r n b s : preserves (@request_kept F r) (param n b s).
Proof. apply preserves_keeps_all, param_keeps. Qed.

Lemma preserves_auth conf r : preserves (@request_kept F r) (auth_check_request conf).
Proof. apply preserves_keeps_all, auth_check_request_keeps. Qed.
End Preserves.

Create HintDb preserves discriminated.
#[export] Hint Constants Opaque : preserves.
#[export] Hint Variables Opaque : preserves.
#[export] Hint Resolve preserves_upd preserves_send preserves_put_fs preserves_on_fs preserves_read
  preserves_ret preserves_lift preserves_conn preserves_get_fs preserves_cstring preserves_param
  preserves_auth : preserves.

(** Walks through a computation; the leaves are hints. *)
Ltac pres :=
  repeat (intros; cbv zeta;
    match goal with
    | |- preserves _ (mbind _ _) => apply preserves_bind
    | |- preserves _ (match ?x with _ => _ end) => destruct x
    | |- preserves _ _ => solve [auto with preserves]
    end).

(** *** The handlers leave the request and the read buffer alone *)

Section Handlers.
Context {F : Type} `{Posix F}.
Context (conf : weborf_configuration_t).
Context (cachedir : option bytes).
Context (turns depth : nat).
Context (r : bytes).

Abbreviation kept m := (preserves (@request_kept F r) m).

Lemma send_two_kept a b : kept (send_two a b).
Proof. unfold send_two. pres. Qed.

Lemma send_http_header_kept code size h b t : kept (send_http_header code size h b t).
Proof. unfold send_http_header. pres. Qed.

#[local] Hint Resolve send_two_kept send_http_header_kept : preserves.

Lemma send_err_kept e d : kept (send_err e d).
Proof. unfold send_err. pres. Qed.

#[local] Hint Resolve send_err_kept : preserves.

Lemma send_error_header_kept v : kept (send_error_header v).
Proof. unfold send_error_header, request_auth. pres. Qed.

Lemma read_post_data_kept : kept read_post_data.
Proof. unfold read_post_data. pres. Qed.

Lemma fd_copy_kept src err n : kept (fd_copy src err n).
Proof.
  assert (forall fuel s e k, kept (fd_copy_loop fuel s e k)) as Hl.
  { induction fuel as [|f IH]; intros; cbn [fd_copy_loop]; pres. }
  unfold fd_copy. pres.
Qed.

Lemma file_exists_kept p : kept (file_exists p).
Proof. unfold file_exists. pres. Qed.

Lemma file_copy_kept a b : kept (file_copy a b).
Proof.
  assert (forall fuel s e fd, kept (file_copy_loop fuel s e fd)) as Hl.
  { induction fuel as [|f IH]; intros; cbn [file_copy_loop]; pres. }
  unfold file_copy. pres.
Qed.

#[local] Hint Resolve send_error_header_kept read_post_data_kept fd_copy_kept file_exists_kept file_copy_kept
  : preserves.

Lemma file_move_kept a b : kept (file_move a b).
Proof. unfold file_move. pres. Qed.

Lemma for_entries_kept {A} (f : A -> bytes -> M F (Z * A)) es :
  (forall a n, kept (f a n)) -> forall a, kept (for_entries es a f).
Proof. intros Hf. induction es as [|e es IH]; intros; cbn [for_entries]; pres. Qed.

#[local] Hint Resolve file_move_kept for_entries_kept : preserves.

Lemma dir_remove_kept fuel : forall d, kept (dir_remove fuel d).
Proof.
  induction fuel as [|f IH]; intros; cbn [dir_remove]; pres.
  apply for_entries_kept. pres.
Qed.

Lemma dir_move_copy_kept fuel : forall a b k, kept (dir_move_copy fuel a b k).
Proof.
  induction fuel as [|f IH]; intros; cbn [dir_move_copy]; pres.
  apply for_entries_kept. pres.
Qed.

Lemma dir_move_kept fuel a b : kept (dir_move fuel a b).
Proof. pose proof dir_move_copy_kept. unfold dir_move. pres. Qed.

Lemma check_etag_kept a : kept (check_etag a).
Proof. unfold check_etag. pres. Qed.

#[local] Hint Resolve dir_remove_kept dir_move_copy_kept dir_move_kept check_etag_kept : preserves.

Lemma write_file_kept : kept (write_file conf).
Proof. unfold write_file, bytes_to_send, send_file_header. pres. Qed.

Lemma cache_get_item_fd_kept u : kept (cache_get_item_fd cachedir u).
Proof. unfold cache_get_item_fd. pres. Qed.

Lemma cache_get_item_fd_wr_kept u : kept (cache_get_item_fd_wr cachedir u).
Proof. unfold cache_get_item_fd_wr. pres. Qed.

#[local] Hint Resolve write_file_kept cache_get_item_fd_kept cache_get_item_fd_wr_kept : preserves.

Lemma cache_store_item_kept u d : kept (cache_store_item cachedir u d).
Proof. unfold cache_store_item. pres. Qed.

Lemma cache_send_item_kept u : kept (cache_send_item conf cachedir u).
Proof. unfold cache_send_item. pres. Qed.

Lemma exec_page_kept e p d : kept (exec_page conf e p d).
Proof.
  assert (forall fuel ps, kept (cgi_copy_loop fuel ps)) as Hl.
  { induction fuel as [|f IH]; intros; cbn [cgi_copy_loop]; pres. }
  unfold exec_page, cgi_waitfor_child. pres.
Qed.

Lemma printprops_kept dest p props f n b : kept (printprops dest p props f n b).
Proof. unfold printprops, dav_write. pres. Qed.

#[local] Hint Resolve cache_store_item_kept cache_send_item_kept exec_page_kept printprops_kept : preserves.

Lemma propfind_kept p : kept (propfind conf cachedir p).
Proof.
  assert (forall es dest pg props sf, kept (print_entries dest pg props sf es)) as Hl.
  { induction es as [|e es IH]; intros; cbn [print_entries]; pres. }
  unfold propfind, get_props, send_multistatus, dav_write. pres.
Qed.

Lemma copy_move_kept : kept (copy_move depth).
Proof. unfold copy_move, dest_path, dir_copy. pres. Qed.

Lemma read_file_kept : kept (read_file conf turns).
Proof.
  assert (forall fuel fd n t v, kept (read_file_loop fuel fd n t v)) as Hl.
  { induction fuel as [|f IH]; intros; cbn [read_file_loop]; pres. }
  unfold read_file. pres.
Qed.

Lemma delete_file_kept : kept (delete_file conf depth).
Proof. unfold delete_file. pres. Qed.

Lemma write_dir_kept d : kept (write_dir conf cachedir d).
Proof. unfold write_dir. pres. Qed.

Lemma tar_send_dir_kept : kept tar_send_dir.
Proof. unfold tar_send_dir. pres. Qed.

Lemma try_indexes_kept l : kept (try_indexes l).
Proof. induction l as [|i l IH]; cbn [try_indexes]; pres. Qed.

#[local] Hint Resolve propfind_kept copy_move_kept read_file_kept delete_file_kept write_dir_kept
  tar_send_dir_kept try_indexes_kept : preserves.

Lemma get_or_post_kept p : kept (get_or_post conf cachedir p).
Proof. unfold get_or_post. pres. Qed.

#[local] Hint Resolve get_or_post_kept : preserves.

Lemma send_page_kept : kept (send_page conf cachedir turns depth).
Proof. unfold send_page, serve, other_methods, mkcol, options. pres. Qed.
End Handlers.

(** ** Lemmas: the request in its buffer *)

Section RequestMemory.
Context {F : Type} `{Posix F}.
Context (conf : weborf_configuration_t).

(** The memory differs from [m0] in front of [e] only, the page begins there. *)
Record in_front (e : nat) (m0 : bytes) (w : world F) : Prop := {
  if_mem : stays e m0 w.(w_conn).(req);
  if_page : (w.(w_conn).(page) <= e)%nat;
  if_read : buf_wf w.(w_read);
}.

Lemma upd_in_front e m0 f :
  (forall c, req (f c) = req c /\ page (f c) = page c) -> preserves (in_front e m0) (upd f).
Proof.
  intros Hf w y w' [Hm Hp Hr] [= _ <-]. destruct (Hf (w_conn w)) as [E1 E2].
  split; cbn; rewrite ?E1, ?E2; done.
Qed.

Lemma upd_req_in_front e m0 f (w w' : world F) y :
  (forall m, f w.(w_conn).(req) = Some m -> stays e w.(w_conn).(req) m) ->
  in_front e m0 w -> upd_req f w = Some (y, w') ->
  in_front e m0 w' /\ exists m, w_conn w' = set_req m w.(w_conn).
Proof.
  intros Hf [Hm Hp Hr] E. unfold upd_req in E. rewrite conn_bind in E.
  apply bind_inv in E as (m & w1 & E1 & E). unfold lift in E1.
  destruct (f (req (w_conn w))) as [m'|] eqn:Ef; [|done]. injection E1 as -> <-. injection E as _ <-.
  split; [|by exists m]. split; cbn; [eapply stays_trans; [exact Hm | by apply Hf] | done | done].
Qed.

Lemma set_connection_props_in_front e m0 :
  preserves (in_front e m0) (set_connection_props conf).
Proof.
  intros w y w' I E. unfold set_connection_props in E.
  apply bind_inv in E as ([r a] & w1 & E1 & E). apply param_keeps with (view := fun w => w) in E1; subst w1.
  rewrite conn_bind in E.
  apply bind_inv in E as (p7 & w1 & E1 & E). apply keeps_lift with (view := fun w => w) in E1; subst w1.
  apply bind_inv in E as (p5 & w1 & E1 & E). apply keeps_lift with (view := fun w => w) in E1; subst w1.
  apply bind_inv in E as (u & w1 & E1 & E).
  assert (in_front e m0 w1) as I1.
  { revert I E1. pose proof (upd_in_front e m0). destruct (_ && _); intros I E1.
    - revert I E1. apply preserves_bind; [|intros _]; by apply upd_in_front.
    - revert I E1. apply preserves_bind; [|intros _]; by apply upd_in_front. }
  clear I E1. rewrite conn_bind in E.
  apply bind_inv in E as (c & w2 & E2 & E). unfold lift in E2.
  destruct (split_get_params (w_conn w1)) as [c1|] eqn:Es; [|done]. injection E2 as -> <-.
  destruct I1 as [Hm Hp Hr].
  destruct (split_get_params_stays e _ _ (stays_nul _ _ _ Hm) Hp Es) as (Hs & Epg & Hg).
  apply bind_inv in E as (u1 & w2 & E2 & E). injection E2 as _ <-.
  assert (in_front e m0 (mkworld c (w_out w1) (w_read w1) (w_net w1) (w_fs w1))) as I2
    by (split; cbn; [by eapply stays_trans | by rewrite Epg | done]).
  apply bind_inv in E as (u2 & w3 & E3 & E). apply upd_req_in_front with (e := e) (m0 := m0) in E3 as [I3 _]; [| |exact I2].
  2:{ intros m Em. cbn [w_conn] in *. eapply modURL_stays; [| |exact Em].
      - apply (stays_nul e m0). apply I2.
      - intros p [= <-]. rewrite Epg. exact Hp. }
  apply bind_inv in E as (u3 & w4 & E4 & E). apply upd_req_in_front with (e := e) (m0 := m0) in E4 as [I4 _]; [| |exact I3].
  2:{ intros m Em. eapply modURL_stays; [| |exact Em]; [apply (stays_nul e m0); apply I3 | exact Hg]. }
  apply bind_inv in E as (b & w5 & E5 & E).
  assert (w5 = w4) as ->.
  { revert E5. assert (keeps (fun w : world F => w) (get_basedir conf (http_param c))) as Hk by (unfold get_basedir; keeps).
    apply Hk. }
  revert E. apply upd_in_front; [done | exact I4].
Qed.

Lemma parse_request_stays e (w w' : world F) ok :
  w.(w_conn).(req) !! e = Some 0 -> buf_wf w.(w_read) -> parse_request conf w = Some (ok, w') ->
  stays e w.(w_conn).(req) w'.(w_conn).(req) /\ buf_wf w'.(w_read).
Proof.
  intros Hn Hb E. unfold parse_request in E.
  apply bind_inv in E as (s & w1 & E1 & E). apply cstring_keeps with (view := fun w => w) in E1; subst w1.
  destruct (find_method methods s) as [id|]; [|injection E as _ <-; split; [by apply stays_refl | done]].
  apply bind_inv in E as (u & w1 & E1 & E). injection E1 as _ <-. rewrite conn_bind in E.
  cbn [w_conn set_method_id req] in E.
  apply bind_inv in E as ([[m1 t1] l1] & w1 & E1 & E). unfold lift in E1.
  destruct (strtok_r (req (w_conn w)) 0 (bs " ")) as [[[m1' t1'] l1']|] eqn:S1; [|done].
  injection E1 as -> -> -> <-.
  destruct (strtok_stays e _ _ _ _ _ _ Hn (Nat.le_0_l e) S1) as (Hs1 & Hl1 & _).
  apply bind_inv in E as ([[m2 t2] l2] & w1 & E1 & E). unfold lift in E1.
  destruct (strtok_r m1 l1 (bs " ")) as [[[m2' t2'] l2']|] eqn:S2; [|done].
  injection E1 as -> -> -> <-.
  destruct (strtok_stays e _ _ _ _ _ _ (stays_nul _ _ _ Hs1) Hl1 S2) as (Hs2 & Hl2 & Hp2).
  apply bind_inv in E as (u1 & w1 & E1 & E). injection E1 as _ <-.
  assert (stays e (req (w_conn w)) m2) as Hs by (by eapply stays_trans).
  destruct t2 as [p|], t1 as [q|]; try (injection E as _ <-; done).
  apply bind_inv in E as (u2 & w1 & E1 & E). injection E1 as _ <-.
  apply bind_inv in E as (u3 & w1 & E1 & E). injection E1 as _ <-.
  apply bind_inv in E as (u4 & w1 & E1 & E). injection E as _ <-.
  apply (set_connection_props_in_front e (req (w_conn w))) in E1 as [? _ ?]; [done|].
  split; cbn; [done | by apply Hp2 | done].
Qed.
End RequestMemory.

(** ** Lemmas: the memory behind a request *)

Lemma zero_behind_buf d : (length d <= INBUFFER + 1)%nat -> zero_behind (length d) (buf_with d).
Proof.
  intros Hd. unfold zero_behind. rewrite buf_with_length by done. split_and!; [done | done |].
  unfold buf_with. by rewrite drop_app_length.
Qed.

Lemma zero_behind_stays e n m m' : (e <= n)%nat -> stays e m m' -> zero_behind n m -> zero_behind n m'.
Proof.
  intros He (Hl & Hd & _) (Hm & Hn & Hz). unfold zero_behind. rewrite Hl. split_and!; [done | done |].
  rewrite <-Hz. replace n with (e + (n - e))%nat by lia. by rewrite <-!drop_drop, Hd.
Qed.

Lemma zero_behind_clear n m : zero_behind n m -> write_at m 0 (replicate n 0) = Some (buf_with []).
Proof.
  intros (Hm & Hn & Hz). rewrite write_at_Some by (rewrite length_replicate; lia).
  rewrite take_0, length_replicate. cbn [app Nat.add]. rewrite Hz, <-replicate_add.
  unfold buf_with. cbn [app length]. do 2 f_equal. lia.
Qed.

Lemma starts_with_length p l : starts_with p l = true -> (length p <= length l)%nat.
Proof. intros [t ->]%starts_with_spec. rewrite length_app. lia. Qed.

Section Isolation.
Context {F : Type} `{Posix F}.
Context (conf : weborf_configuration_t).
Context (cachedir : option bytes).
Context (turns depth : nat).

(** Between two requests: [n] bytes of the memory are in use. *)
Definition request_ok (n : nat) (w : world F) : Prop :=
  zero_behind n w.(w_conn).(req) /\ buf_wf w.(w_read).

Lemma end_header_kept d e from (w w' : world F) n :
  w.(w_conn).(req) = buf_with d -> header_result (HdrEnd e) d -> (from <= length d)%nat ->
  buf_wf w.(w_read) -> end_header e from (length d) w = Some (n, w') ->
  request_ok n w' /\ (e + 2 < n)%nat /\ w'.(w_conn).(req) !! (e + 2)%nat = Some 0.
Proof.
  intros Hr [Hd He] Hf Hb E. apply starts_with_length in He. rewrite length_drop in He. cbn [empty_line length app CRLF] in He.
  unfold end_header in E. rewrite conn_bind in E.
  apply bind_inv in E as (o & w1 & E1 & E). apply keeps_lift with (view := fun w => w) in E1; subst w1.
  apply bind_inv in E as (k & w1 & E1 & E). apply bind_inv in E as (u & w2 & E2 & E). injection E as <- <-.
  assert (exists d', w_conn w1 = set_req (buf_with d') (w_conn w) /\ k = length d'
            /\ (length d <= length d' <= INBUFFER)%nat /\ buf_wf (w_read w1)) as (d' & Hc & -> & Hd' & Hb1).
  { destruct o as [i|].
    - injection E1 as <- <-. exists d. split_and!; [rewrite <-Hr; by destruct (w_conn w) | done | lia | lia | done].
    - apply bind_inv in E1 as ([r x] & w3 & E3 & E1).
      destruct (sock_read_run 1 w Hb ltac:(lia)) as (y & b & es & Es & Ey & Hb' & _).
      rewrite Es in E3. injection E3 as <- <- <-.
      assert (length y <= 1)%nat by (rewrite Ey, length_take; lia).
      apply bind_inv in E1 as (u3 & w4 & E4 & E1). unfold upd_req in E4. rewrite conn_bind in E4.
      cbn [w_conn] in E4. rewrite Hr, buf_with_write in E4 by lia. injection E4 as _ <-.
      injection E1 as <- <-. exists (d ++ y). rewrite length_app, Nat2Z.id. split_and!; [done | done | lia | lia | done]. }
  unfold upd_req in E2. rewrite conn_bind in E2. rewrite Hc in E2. cbn [set_req req] in E2.
  rewrite store_Some in E2 by (rewrite buf_with_length; lia). injection E2 as _ <-. cbn [reading w_conn set_req req w_read upd].
  split; [split; [|done] | split; [lia |]]; cbn [w_conn set_req req].
  - destruct (zero_behind_buf d' ltac:(lia)) as (Hl & Hn & Hz). unfold zero_behind.
    rewrite length_insert. split_and!; [done | done |]. by rewrite drop_insert_lt by lia.
  - rewrite list_lookup_insert_eq; [done|]. rewrite buf_with_length; lia.
Qed.

(** What a request leaves: nothing of it lies outside the part in use. *)
Lemma handle_requests_kept k : forall n (w w' : world F) n',
  request_ok n w -> handle_requests conf cachedir turns depth k n w = Some (n', w') ->
  request_ok n' w'.
Proof.
  induction k as [|k IH]; intros n w w' n' [Hz Hb] E; [done|]. cbn [handle_requests] in E.
  apply bind_inv in E as (u & w1 & E1 & E).
  assert (w_conn w1 = set_req (buf_with []) (w_conn w) /\ buf_wf (w_read w1)) as [Hc1 Hb1].
  { destruct (Nat.eqb_spec n 0) as [->|Hn].
    - injection E1 as _ <-. split; [|done]. destruct Hz as (_ & _ & Hz).
      rewrite drop_0, Nat.sub_0_r in Hz. change (req (w_conn w) = buf_with []) in Hz.
      rewrite <-Hz. by destruct (w_conn w).
    - unfold clear_buf in E1. rewrite (upd_req_run _ _ _ (zero_behind_clear n _ Hz)) in E1. by injection E1 as _ <-. }
  destruct (read_header_total INBUFFER [] 0 w1) as (o & from & d & b & es & Er & Hb2 & Hf & Ho);
    [done | by rewrite Hc1 | done | cbn [length]; unfold INBUFFER; lia.. |].
  cbn [length] in Er. rewrite (bind_run _ _ _ _ _ Er) in E. cbn beta iota in E.
  assert (forall v w2, request_ok v w2 -> forall p, (_ ← bad_request; mret p) w2 = Some (n', w') ->
          p = v -> request_ok n' w') as Hbad.
  { intros v w2 [Hz2 Hb3] p Eb ->. apply bind_inv in Eb as (x & w3 & E3 & Eb). injection Eb as <- <-.
    unfold bad_request in E3. apply bind_inv in E3 as (y & w4 & E4 & E3). injection E3 as _ <-.
    destruct (send_error_header_kept (req (w_conn w2)) 400 w2 y w4 ltac:(done) E4) as [Er4 ?].
    split; [by rewrite Er4 | done]. }
  destruct o as [| |e]; cbn [header_result] in Ho;
    [injection E as <- <-; split; [apply zero_behind_buf; lia | done]
    | eapply (Hbad (length d)); [|exact E | done]; split; [apply zero_behind_buf; lia | done] |].
  apply bind_inv in E as (m & w3 & E3 & E).
  destruct (end_header_kept d e from (reading w1 (buf_with d) b es) w3 m eq_refl Ho Hf Hb2 E3) as ([Hz3 Hb3] & He & Hnul).
  apply bind_inv in E as (ok & w4 & E4 & E).
  destruct (parse_request_stays conf (e + 2) w3 w4 ok Hnul Hb3 E4) as [Hs4 Hb4].
  assert (request_ok m w4) as Ho4 by (split; [eapply zero_behind_stays; [|exact Hs4 | done]; lia | done]).
  destruct ok; cbn [negb] in E; [|by eapply Hbad].
  apply bind_inv in E as (v & w5 & E5 & E).
  destruct (send_page_kept conf cachedir turns depth (req (w_conn w4)) w4 v w5 ltac:(by split; [|apply Ho4]) E5) as [Hr5 Hb5].
  assert (request_ok m w5) as Ho5 by (split; [rewrite Hr5; apply Ho4 | done]).
  destruct (v <? 0); [by injection E as <- <-|]. rewrite conn_bind in E.
  destruct (keep_alive (w_conn w5)); cbn [negb] in E; [by eapply IH | by injection E as <- <-].
Qed.
(** The memory as [calloc] gives it. *)
Definition fresh_request (w : world F) : world F := reading w (buf_with []) w.(w_read) w.(w_net).

Lemma handle_requests_fresh k n (w : world F) :
  zero_behind n w.(w_conn).(req) ->
  handle_requests conf cachedir turns depth k n w
  = handle_requests conf cachedir turns depth k 0 (fresh_request w).
Proof.
  intros Hz. destruct k as [|k]; [done|]. cbn [handle_requests Nat.eqb]. rewrite mret_bind.
  rewrite (bind_run _ _ w tt (fresh_request w)); [done|].
  destruct (Nat.eqb_spec n 0) as [->|Hn].
  - destruct Hz as (_ & _ & Hz). rewrite drop_0, Nat.sub_0_r in Hz.
    change (req (w_conn w) = buf_with []) in Hz. unfold fresh_request, reading. rewrite <-Hz.
    rewrite mret_run. destruct w as [c ? ? ? ?]. by destruct c.
  - unfold clear_buf. by rewrite (upd_req_run _ _ _ (zero_behind_clear n _ Hz)).
Qed.

Lemma connect_kept peer es n (w w' : world F) :
  connect peer es w = Some w' -> request_ok n w -> request_ok n w'.
Proof.
  unfold connect. intros E [Hz Hb]. destruct (net_getpeername _ _) as [b|]; [|done]. cbn [mbind option_bind] in E.
  destruct (cstr_at b 0) as [ip|]; [|done]. by injection E as <-.
Qed.

Lemma connect_fresh peer es (w : world F) :
  connect peer es (fresh_request w) = fresh_request <$> connect peer es w.
Proof.
  unfold connect. destruct (net_getpeername _ _) as [b|]; [|done]. cbn [mbind option_bind].
  destruct (cstr_at b 0); done.
Qed.

Lemma serve_connection_kept peer es k n (w w' : world F) n' :
  request_ok n w ->
  serve_connection conf cachedir turns depth peer es k n w = Some (n', w') -> request_ok n' w'.
Proof.
  intros Hok E. unfold serve_connection in E. destruct (connect peer es w) as [w1|] eqn:Ec; [|done].
  cbn [mbind option_bind] in E.
  destruct (handle_requests conf cachedir turns depth k n w1) as [[n1 w2]|] eqn:Eh; [|done].
  cbn [mbind option_bind] in E. injection E as <- <-.
  pose proof (handle_requests_kept k n w1 w2 n1 (connect_kept _ _ _ _ _ Ec Hok) Eh) as [Hz Hb].
  split; [done|]. unfold buf_wf in *. simpl. split; [lia|]. destruct Hb. lia.
Qed.

Lemma serve_connection_fresh peer es k n (w : world F) :
  request_ok n w ->
  serve_connection conf cachedir turns depth peer es k n w
  = serve_connection conf cachedir turns depth peer es k 0 (fresh_request w).
Proof.
  intros Hok. unfold serve_connection. rewrite connect_fresh.
  destruct (connect peer es w) as [w3|] eqn:Ec; [|done]. cbn [fmap option_fmap option_map mbind option_bind].
  by rewrite (handle_requests_fresh k n w3) by apply (connect_kept _ _ _ _ _ Ec Hok).
Qed.

(** C19: no byte of a request is ever in the memory in which a later one is read:
    whatever a connection sent and however its requests ended, the worker
    serves the next connection exactly as it would with memory fresh from
    [calloc]. *)
Theorem connections_isolated peer es k n (w w' : world F) n' :
  request_ok n w ->
  serve_connection conf cachedir turns depth peer es k n w = Some (n', w') ->
  request_ok n' w'
  /\ forall peer2 es2 k2,
       serve_connection conf cachedir turns depth peer2 es2 k2 n' w'
       = serve_connection conf cachedir turns depth peer2 es2 k2 0 (fresh_request w').
Proof.
  intros Hok E. pose proof (serve_connection_kept _ _ _ _ _ _ _ Hok E) as Hok2. split; [done|].
  intros peer2 es2 k2. by apply serve_connection_fresh.
Qed.
End Isolation.

(** ** Witnesses *)

(** A request that is served and not kept alive. *)
Lemma connections_isolated_witness :
  let w := sample_input [] in
  let es := [NetData (bs "GET /a HTTP/1.0" ++ CRLF ++ bs "Cookie: s" ++ CRLF ++ CRLF); NetClosed] in
  exists n' w',
    serve_connection sample_conf None 1 1 (PeerV4 (bs "10.0.0.1")) es 1 0 w = Some (n', w')
    /\ request_ok n' w'
    /\ forall peer2 es2 k2,
         serve_connection sample_conf None 1 1 peer2 es2 k2 n' w'
         = serve_connection sample_conf None 1 1 peer2 es2 k2 0 (fresh_request w').
Proof.
  eexists _, _. split; [vm_compute; reflexivity|].
  apply (connections_isolated sample_conf None 1 1 (PeerV4 (bs "10.0.0.1"))
           [NetData (bs "GET /a HTTP/1.0" ++ CRLF ++ bs "Cookie: s" ++ CRLF ++ CRLF); NetClosed] 1 0 (sample_input [])).
  - split; [|apply sample_buf_wf]. split_and!; reflexivity || (apply Nat.leb_le; reflexivity).
  - vm_compute. reflexivity.
Defined.
