(* ===== verification/Parse.v ===== *)
(** * Every request that can be read (instance.c, auth.c)

    What [parse_request] and the check of the authentication make of a header,
    whatever bytes a client has sent: not only of well-formed requests, as in
    Pipeline.v.  The reference is [request_line], which looks at the text
    alone, while the code cuts the memory up in place. *)
From S2P Require Export Instance.

(** ** Specification *)

Definition is_space (c : Z) : bool := in_set (bs " ") c.

(** Method, URL and the rest of a header: two words, and what follows the space
    behind the second. *)
Definition request_line (h : bytes) : option (bytes * bytes * bytes) :=
  let me := take (span_len (fun c => negb (is_space c)) h) h in
  let r := drop (S (length me)) h in
  let r := drop (span_len is_space r) r in
  match r with
  | [] => None
  | _ => let u := take (span_len (fun c => negb (is_space c)) r) r in
         Some (me, u, drop (S (length u)) r)
  end.

(** The URL without the parameters, and the parameters. *)
Definition url_path (u : bytes) : bytes :=
  match find_sub (bs "?") u with None => u | Some i => take i u end.

Definition url_params (u : bytes) : option bytes :=
  i ← find_sub (bs "?") u; Some (cstr_prefix (unescape (drop (S i) u))).

(** The memory holds a string that ends at [e] at the latest, the bytes that
    are looked up behind its end, and a NUL. *)
Record room (e : nat) (m : bytes) : Prop := {
  rm_nul : m !! e = Some 0;
  rm_room : (e + 8 <= length m)%nat;
  rm_last : m !! (length m - 1)%nat = Some 0;
}.

(** The page and what follows its question mark lie in front of the header, and
    [page_len] is the length that the page had before it was decoded. *)
Definition params_at (p u : nat) (len : Z) (g : option nat) : Prop :=
  match g with
  | Some q => (p < q <= p + u)%nat /\ len = Z.of_nat q - 1 - Z.of_nat p
  | None => len = Z.of_nat u
  end.

Definition placed (u : bytes) (c : connection_t) : Prop :=
  (c.(method) <= c.(page))%nat /\ (c.(page) + length u <= c.(http_param))%nat
  /\ params_at c.(page) (length u) c.(page_len) c.(get_params).

Definition with_conn {F} (w : world F) (c : connection_t) : world F :=
  mkworld c w.(w_out) w.(w_read) w.(w_net) w.(w_fs).

(** ** Lemmas: memory *)

Lemma room_stays e m m' : room e m -> stays e m m' -> room e m'.
Proof.
  intros [Hn Hr Hl] Hs. pose proof (stays_nul _ _ _ Hs) as Hn'. destruct Hs as (El & Ed & _).
  split; [done | by rewrite El|]. rewrite El, <-Hl.
  replace (length m - 1)%nat with (e + (length m - 1 - e))%nat by lia. by rewrite <-!lookup_drop, Ed.
Qed.

Lemma cstr_at_nul m p k : (p <= k)%nat -> m !! k = Some 0 -> is_Some (cstr_at m p).
Proof.
  intros Hp Hk. pose proof (lookup_lt_Some _ _ _ Hk). exists (cstr_prefix (drop p m)).
  replace m with (take p m ++ drop p m ++ []) at 1 by (by rewrite app_nil_r, take_drop).
  apply cstr_at_is_Some; [rewrite length_take; lia|].
  apply (list_elem_of_lookup_2 _ (k - p)). rewrite lookup_drop. by replace (p + (k - p))%nat with k by lia.
Qed.

Lemma strstr_nul m p k needle : (p <= k)%nat -> m !! k = Some 0 -> is_Some (strstr m p needle).
Proof. intros Hp Hk. unfold strstr. destruct (cstr_at_nul m p k Hp Hk) as [s ->]. by eexists. Qed.

(** A header field can be looked up in any text; the buffer gets a string that
    fits, and what is behind it stays. *)
Lemma get_param_value_room e m p name buf size :
  room e m -> (p <= e)%nat -> size <= Z.of_nat (length buf) ->
  exists b buf',
    get_param_value m p name buf size (Z.of_nat (length name)) = Some (b, buf')
    /\ length buf' = length buf
    /\ if b then exists l, (Z.of_nat l + 1 < size) /\ buf' !! l = Some 0 /\ drop (S l) buf' = drop (S l) buf
       else buf' = buf.
Proof.
  intros [Hn Hr Hl] Hp Hb. unfold get_param_value.
  destruct (strstr m p name) as [[v|]|] eqn:Ev; cbn [mbind option_bind]; [| by exists false, buf |].
  2:{ destruct (strstr_nul m p e name Hp Hn) as [? ?]. congruence. }
  pose proof (strstr_before e m p name v Hn Hp Ev) as Hv.
  replace (v + Z.to_nat (Z.of_nat (length name) + 2))%nat with (v + length name + 2)%nat by lia.
  destruct (strstr_nul m (v + length name + 2) (length m - 1) CRLF ltac:(lia) Hl) as [[f|] Ef];
    rewrite Ef; cbn [mbind option_bind]; [|by exists false, buf].
  cbv zeta. set (l := (f - (v + length name + 2))%nat).
  destruct (Z.ltb_spec (Z.of_nat l + 1) size); [|by exists false, buf].
  pose proof (strstr_before _ _ (v + length name + 2) CRLF f Hl ltac:(lia) Ef) as Hf. cbn [length CRLF] in Hf.
  set (t := take l (drop (v + length name + 2) m)).
  assert (length t = l) as Lt by (subst t l; rewrite length_take, length_drop; lia).
  rewrite write_at_Some by lia. cbn [mbind option_bind]. rewrite take_0, Nat.add_0_l, Lt. cbn [app].
  assert (length (t ++ drop l buf) = length buf) as Lb by (rewrite length_app, length_drop; lia).
  rewrite store_Some by (rewrite Lb; lia).
  eexists true, _. split; [done|]. split; [by rewrite length_insert|].
  exists l. split; [done|]. split; [by rewrite list_lookup_insert_eq by lia|].
  rewrite drop_insert_lt by lia. rewrite drop_app_ge, Lt, drop_drop by lia. f_equal. lia.
Qed.

(** [strtok_r] on a string, in terms of its words. *)
Lemma strtok_words pre s tail p :
  p = length pre -> 0 ∉ s ->
  let k := span_len is_space s in
  let r := drop k s in
  let t := span_len (fun c => negb (is_space c)) r in
  strtok_r (pre ++ s ++ 0 :: tail) p (bs " ")
  = Some (if (length r =? 0)%nat then (pre ++ s ++ 0 :: tail, None, (p + k)%nat)
          else if (t =? length r)%nat then (pre ++ s ++ 0 :: tail, Some (p + k)%nat, (p + k + t)%nat)
          else (pre ++ take k s ++ take t r ++ 0 :: drop (S t) r ++ 0 :: tail,
                Some (p + k)%nat, (p + k + t + 1)%nat)).
Proof.
  intros -> H0 k r t. unfold strtok_r. rewrite cstr_at_app by done. cbn [mbind option_bind].
  fold (is_space). change (span_len (in_set (bs " ")) s) with k. fold r.
  change (span_len (λ c : Z, negb (in_set (bs " ") c)) r) with t.
  pose proof (span_len_le is_space s) as Hk. fold k in Hk.
  pose proof (span_len_le (fun c => negb (is_space c)) r) as Ht. fold t in Ht.
  destruct r as [|x r0] eqn:Er; [done|]. cbn [length Nat.eqb].
  destruct (Nat.eqb_spec t (S (length r0))); [done|].
  destruct (lookup_lt_is_Some_2 (x :: r0) t ltac:(cbn [length] in *; lia)) as [y Hy].
  assert (pre ++ s ++ 0 :: tail = (pre ++ take k s ++ take t (x :: r0)) ++ y :: drop (S t) (x :: r0) ++ 0 :: tail) as Em.
  { rewrite <-(take_drop k s) at 1. fold r. rewrite Er. rewrite <-(take_drop_middle _ _ _ Hy) at 1.
    rewrite <-!app_assoc. done. }
  rewrite Em, store_mid_eq.
  - cbn [mbind option_bind]. by rewrite <-!app_assoc.
  - rewrite !length_app, !length_take. cbn [length] in *. lia.
Qed.

(** The same request line, whatever its options are found to be. *)
Record same_line (c c' : connection_t) : Prop := {
  sl_req : c'.(req) = c.(req);
  sl_page : c'.(page) = c.(page);
  sl_method : c'.(method) = c.(method);
  sl_param : c'.(http_param) = c.(http_param);
  sl_id : c'.(method_id) = c.(method_id);
  sl_ip : c'.(ip_addr) = c.(ip_addr);
  sl_strfile : c'.(strfile) = c.(strfile);
}.

(** ** Lemmas: the URL *)

(** Splitting the URL [s] and decoding both of its parts in place. *)
Lemma url_split_run pre s post (c : connection_t) :
  c.(req) = pre ++ s ++ 0 :: post -> c.(page) = length pre -> 0 ∉ s -> post <> [] ->
  exists c1 m1 m2 rest,
    split_get_params c = Some c1
    /\ c1.(page) = c.(page) /\ c1.(method) = c.(method) /\ c1.(http_param) = c.(http_param)
    /\ c1.(method_id) = c.(method_id) /\ c1.(ip_addr) = c.(ip_addr) /\ c1.(strfile) = c.(strfile)
    /\ modURL c1.(req) (Some c1.(page)) false = Some m1
    /\ modURL m1 c1.(get_params) true = Some m2
    /\ m2 = pre ++ clean_page (url_path s) ++ 0 :: rest ++ post
    /\ (length (clean_page (url_path s)) + length rest = length s)%nat
    /\ match url_params s, c1.(get_params) with
       | Some g, Some q => cstr_at m2 q = Some g
       | None, None => True
       | _, _ => False
       end
    /\ params_at (length pre) (length s) c1.(page_len) c1.(get_params).
Proof.
  intros Hr Hp H0 Hne. unfold split_get_params, url_path, url_params, strlen.
  rewrite Hr, strstr_app, cstr_at_app by done.
  cbn [mbind option_bind fmap option_fmap option_map].
  destruct (find_sub (bs "?") s) as [i|] eqn:Ei; cbn [mbind option_bind fmap option_fmap option_map].
  - pose proof (find_sub_bound _ _ _ Ei) as Hi. cbn [length] in Hi.
    destruct (lookup_lt_is_Some_2 s i ltac:(lia)) as [y Hy].
    assert (pre ++ s ++ 0 :: post = (pre ++ take i s) ++ y :: drop (S i) s ++ 0 :: post) as Em
      by (rewrite <-(take_drop_middle _ _ _ Hy) at 1; by rewrite <-!app_assoc).
    rewrite Em, store_mid_eq by (rewrite length_app, length_take; lia). cbn [mbind option_bind].
    assert (0 ∉ take i s /\ 0 ∉ drop (S i) s) as [Ht0 Hd0]
      by (rewrite <-(take_drop_middle _ _ _ Hy), not_elem_of_app, not_elem_of_cons in H0; tauto).
    destruct (modURL_run pre (take i s) (drop (S i) s ++ 0 :: post) Ht0) as (st & E1 & L1); [by destruct (drop (S i) s)|].
    destruct (replaceEscape_run (S (length ((pre ++ clean_page (take i s) ++ 0 :: st) ++ drop (S i) s ++ 0 :: post)))
                (pre ++ clean_page (take i s) ++ 0 :: st) (drop (S i) s) post (S (length pre + i))) as (st2 & E2 & L2);
      [rewrite !length_app; cbn [length]; rewrite length_take in L1; lia | rewrite !length_app; cbn [length]; lia | done | done |].
    exists (set_page_len (Z.of_nat (length pre + i) - Z.of_nat (page c)) (set_get_params (Some (S (length pre + i)))
              (set_req ((pre ++ take i s) ++ to_char 0 :: drop (S i) s ++ 0 :: post) c))).
    exists ((pre ++ clean_page (take i s) ++ 0 :: st) ++ drop (S i) s ++ 0 :: post).
    exists ((pre ++ clean_page (take i s) ++ 0 :: st) ++ unescape (drop (S i) s) ++ 0 :: st2 ++ post).
    exists (st ++ unescape (drop (S i) s) ++ 0 :: st2).
    cbn [set_page_len set_get_params set_req page method http_param method_id ip_addr req get_params strfile].
    split_and!; try done; [by rewrite Hp|..].
    + change (to_char 0) with 0. rewrite Hp, <-app_assoc.
      rewrite E1. by rewrite <-!app_assoc.
    + unfold modURL, replaceEscape. by rewrite E2.
    + rewrite <-!app_assoc. done.
    + rewrite !length_app. cbn [length]. rewrite length_take in L1. rewrite length_drop in L2. lia.
    + replace (unescape (drop (S i) s) ++ 0 :: st2 ++ post) with ((unescape (drop (S i) s) ++ [0]) ++ st2 ++ post)
        by (by rewrite <-app_assoc).
      rewrite cstr_at_is_Some; [ | rewrite !length_app; cbn [length]; rewrite length_take in L1; lia | set_solver ].
      by rewrite cstr_prefix_app_nul.
    + cbn [params_at page_len set_page_len get_params set_get_params]. rewrite Hp. lia.
  - destruct (modURL_run pre s post H0 Hne) as (st & E1 & L1).
    exists (set_page_len (Z.of_nat (length s)) (set_get_params None c)).
    exists (pre ++ clean_page s ++ 0 :: st ++ post), (pre ++ clean_page s ++ 0 :: st ++ post), st.
    cbn [set_page_len set_get_params page method http_param method_id ip_addr req get_params strfile].
    rewrite Hr, Hp, E1. split_and!; done.
Qed.

(** ** Lemmas: the steps of the parser *)

Section Steps.
Context {F : Type} `{Posix F}.
Context (conf : weborf_configuration_t).

Lemma with_conn_id (w : world F) : with_conn w w.(w_conn) = w.
Proof. by destruct w. Qed.

Lemma get_basedir_total e (w : world F) q :
  room e w.(w_conn).(req) -> (q <= e)%nat -> exists b, get_basedir conf q w = Some (b, w).
Proof.
  intros Hr Hq. pose proof (rm_nul _ _ Hr) as Hn. unfold get_basedir.
  destruct (negb _); [by eexists|]. rewrite conn_bind.
  destruct (strstr_nul _ q e (CRLF ++ bs "Host: ") Hq Hn) as [[h|] Eh];
    rewrite (lift_bind_Some _ _ _ _ Eh); [|by eexists].
  pose proof (strstr_before _ _ _ _ _ Hn Hq Eh) as Hh. change (length (CRLF ++ bs "Host: ")) with 8%nat in Hh.
  destruct (strstr_nul _ (h + 8) e [CR] Hh Hn) as [[f|] Ef]; rewrite (lift_bind_Some _ _ _ _ Ef); [|by eexists].
  pose proof (strstr_before _ _ _ _ _ Hn Hh Ef) as Hf. cbn [length] in Hf.
  pose proof (rm_room _ _ Hr).
  destruct (store (req (w_conn w)) f 0) as [m|] eqn:Em; [|by rewrite store_Some in Em by lia].
  rewrite (lift_bind_Some _ _ _ _ eq_refl).
  destruct (cstr_at_nul m (h + 8) e Hh) as [s Es].
  { apply (stays_nul e (req (w_conn w))). eapply store_stays; [exact Hn | | exact Em]. lia. }
  rewrite (lift_bind_Some _ _ _ _ Es). by eexists.
Qed.

(** Protocol version and [keep_alive] do not matter for the request line. *)
Lemma options_total e (w : world F) :
  room e w.(w_conn).(req) -> (w.(w_conn).(http_param) <= e)%nat ->
  exists c1, same_line w.(w_conn) c1
    /\ forall C (f : M F C),
       ('(connection, a) ← param (bs "Connection") (fresh 12) 12;
        c ← conn;
        p7 ← lift (load c.(req) (c.(http_param) + 7));
        p5 ← lift (if p7 =? chr "1" then load c.(req) (c.(http_param) + 5) else Some 0);
        _ ← (if (p7 =? chr "1") && (p5 =? chr "1") then
               _ ← upd (set_protocol_version HTTP_1_1);
               upd (set_keep_alive (negb (connection && begins_with a (bs "close"))))
             else
               _ ← upd (set_protocol_version (schar p7));
               upd (set_keep_alive (connection && begins_with a (bs "Keep"))));
        f) w = f (with_conn w c1).
Proof.
  intros Hr Hq. pose proof (rm_room _ _ Hr) as Hl.
  destruct (get_param_value_room e _ _ (bs "Connection") (fresh 12) 12 Hr Hq) as (connection & a & Ep & _ & _);
    [rewrite fresh_length; lia|].
  destruct (lookup_lt_is_Some_2 w.(w_conn).(req) (http_param (w_conn w) + 7) ltac:(lia)) as [p7 E7].
  destruct (lookup_lt_is_Some_2 w.(w_conn).(req) (http_param (w_conn w) + 5) ltac:(lia)) as [p5 E5].
  set (p5' := if p7 =? chr "1" then p5 else 0).
  exists (if (p7 =? chr "1") && (p5' =? chr "1")
          then set_keep_alive (negb (connection && begins_with a (bs "close"))) (set_protocol_version HTTP_1_1 w.(w_conn))
          else set_keep_alive (connection && begins_with a (bs "Keep")) (set_protocol_version (schar p7) w.(w_conn))).
  split; [by destruct (_ && _)|]. intros C f.
  rewrite (bind_run _ _ w (connection, a) w).
  2:{ unfold param. rewrite conn_bind. by apply lift_run. }
  cbn beta iota. rewrite conn_bind. rewrite (lift_bind_Some _ _ _ _ E7).
  rewrite (lift_bind_Some _ p5') by (subst p5'; destruct (p7 =? _); [exact E5 | done]).
  by destruct ((p7 =? chr "1") && (p5' =? chr "1")).
Qed.

Lemma set_connection_props_total e (w : world F) pre s post :
  let c := w.(w_conn) in
  c.(req) = pre ++ s ++ 0 :: post -> c.(page) = length pre -> 0 ∉ s -> post <> [] ->
  room e c.(req) -> (length pre <= e)%nat -> (c.(http_param) <= e)%nat ->
  exists c' rest,
    set_connection_props conf w = Some (tt, with_conn w c')
    /\ c'.(page) = c.(page) /\ c'.(method) = c.(method) /\ c'.(http_param) = c.(http_param)
    /\ c'.(method_id) = c.(method_id) /\ c'.(ip_addr) = c.(ip_addr) /\ c'.(strfile) = c.(strfile)
    /\ stays e c.(req) c'.(req)
    /\ c'.(req) = pre ++ clean_page (url_path s) ++ 0 :: rest ++ post
    /\ (length (clean_page (url_path s)) + length rest = length s)%nat
    /\ match url_params s, c'.(get_params) with
       | Some g, Some q => cstr_at c'.(req) q = Some g
       | None, None => True
       | _, _ => False
       end
    /\ params_at (length pre) (length s) c'.(page_len) c'.(get_params).
Proof.
  cbv zeta. intros Hreq Hp H0 Hne Hr Hpe Hq.
  destruct (options_total e w Hr Hq) as (c1 & [S1 S2 S3 S4 S5 S6 S7] & Ho).
  destruct (url_split_run pre s post c1) as (c2 & m1 & m2 & rest & Es & P1 & P2 & P3 & P4 & P5 & P6 & E1 & E2 & Em & Ll & Hg & Hpl);
    [congruence | congruence | done | done |].
  pose proof (rm_nul _ _ Hr) as Hn.
  destruct (split_get_params_stays e c1 c2) as (St1 & Epg & Hgp); [congruence | rewrite S2, Hp; done | done |].
  pose proof (modURL_stays e _ (Some (page c2)) false m1 (stays_nul _ _ _ St1) ltac:(intros q [= <-]; rewrite P1, S2, Hp; done) E1) as St2.
  pose proof (modURL_stays e _ (get_params c2) true m2 (stays_nul _ _ _ St2) Hgp E2) as St3.
  assert (stays e (req (w_conn w)) m2) as St
    by (rewrite <-S1; eapply stays_trans; [|exact St3]; by eapply stays_trans).
  set (w2 := with_conn w (set_req m2 c2)).
  destruct (get_basedir_total e w2 (http_param c2)) as [b Eb];
    [by eapply room_stays | rewrite P3, S4; done|].
  exists (set_basedir b (set_req m2 c2)), rest. split.
  - unfold set_connection_props. etransitivity; [apply Ho|].
    rewrite conn_bind. cbn [w_conn with_conn]. rewrite (lift_bind_Some _ _ _ _ Es).
    unfold mbind at 1, M_bind at 1, upd at 1.
    rewrite (bind_run _ _ _ _ _ (upd_req_run _ (with_conn w c2) m1 E1)).
    rewrite (bind_run _ _ _ _ _ (upd_req_run _ (reading (with_conn w c2) m1 _ _) m2 E2)).
    rewrite (bind_run _ _ _ _ _ Eb). done.
  - cbn [set_basedir set_req page method http_param method_id ip_addr req get_params strfile].
    split_and!; [congruence.. | done | done | done | done | done].
Qed.

Lemma find_method_first h id : find_method methods h = Some id -> h <> [] /\ span_len is_space h = 0%nat.
Proof.
  destruct h as [|x h]; [done|]. intros E. split; [done|]. cbn [span_len].
  destruct (is_space x) eqn:Ex; [|done]. unfold is_space, in_set in Ex. cbn [existsb] in Ex.
  rewrite orb_false_r in Ex. apply Z.eqb_eq in Ex as ->. done.
Qed.

(** The token behind the first one, [me], and its NUL. *)
Lemma second_token me s tail :
  0 ∉ s -> tail <> [] ->
  let k := span_len is_space s in
  let r := drop k s in
  let u := take (span_len (fun c => negb (is_space c)) r) r in
  let ps := drop (S (length u)) r in
  let m := me ++ 0 :: s ++ 0 :: tail in
  let n := (S (length me) + length s)%nat in
  (r = [] /\ exists l2, strtok_r m (S (length me)) (bs " ") = Some (m, None, l2))
  \/ (r <> [] /\ exists pre post q,
      strtok_r m (S (length me)) (bs " ") = Some (pre ++ u ++ 0 :: post, Some (length pre), q)
      /\ (exists x, pre = me ++ 0 :: x) /\ 0 ∉ u /\ 0 ∉ ps /\ post <> []
      /\ (length me + length u + length ps + 1 <= n)%nat /\ (length pre <= n)%nat
      /\ (q = n /\ ps = [] \/ q = (length pre + length u + 1)%nat /\ (q <= n)%nat /\ post = ps ++ 0 :: tail)
      /\ (length pre + length u <= q)%nat).
Proof.
  intros H0 Ht k r u ps m n.
  pose proof (strtok_words (me ++ [0]) s tail (S (length me)) ltac:(rewrite length_app; cbn [length]; lia) H0) as E.
  cbv zeta in E. fold k in E. fold r in E. rewrite <-app_assoc in E. cbn [app] in E. fold m in E.
  set (t := span_len (fun c => negb (is_space c)) r) in *.
  assert (r = [] \/ r <> []) as [Hr|Hr] by (destruct r; [by left | by right]).
  { left. split; [done|]. rewrite Hr in E. eexists. exact E. }
  right. split; [done|].
  pose proof (span_len_le is_space s) as Lk. fold k in Lk. pose proof (length_drop s k) as Lr. fold r in Lr.
  pose proof (span_len_le (fun c => negb (is_space c)) r) as Lt. fold t in Lt.
  assert (length u = t) as Lu by (subst u; rewrite length_take; lia).
  pose proof (length_drop r (S t)) as Ld. assert (length ps = length r - S t)%nat as Lps by (subst ps; by rewrite Lu).
  assert (0 ∉ r) as Hr0 by (by apply not_elem_of_drop).
  assert (0 ∉ u) by (by apply not_elem_of_take). assert (0 ∉ ps) by (by apply not_elem_of_drop).
  assert (length (me ++ 0 :: take k s) = (S (length me) + k)%nat) as Lp
    by (rewrite length_app; cbn [length]; rewrite length_take; lia).
  destruct (Nat.eqb_spec (length r) 0); [by destruct r|].
  destruct (Nat.eqb_spec t (length r)) as [Et|Hlt].
  - exists (me ++ 0 :: take k s), tail, n. split_and!; try done; try lia.
    + rewrite E, Lp. assert (u = r) as -> by (by apply take_ge; lia). subst n m. replace s with (take k s ++ r) at 1 by apply take_drop.
      rewrite <-!app_assoc. cbn [app].
      by replace (S (length me) + k + t)%nat with (S (length me) + length s)%nat by lia.
    + by eexists.
    + left. split; [done|]. destruct ps eqn:E0; [done|]. cbn [length] in Lps. lia.
  - exists (me ++ 0 :: take k s), (ps ++ 0 :: tail), (S (length me) + k + t + 1)%nat. split_and!; try done; try lia.
    + rewrite E, Lp. subst u ps. rewrite Lu, <-!app_assoc. done.
    + by eexists.
    + by destruct ps.
    + right. split_and!; [lia | lia | done].
Qed.

(** Both calls of [strtok_r] in [parse_request]. *)
Lemma tokens_total h tail :
  0 ∉ h -> h <> [] -> span_len is_space h = 0%nat -> tail <> [] ->
  exists m1 l1, strtok_r (h ++ 0 :: tail) 0 (bs " ") = Some (m1, Some 0%nat, l1)
  /\ match request_line h with
     | None => exists l2, strtok_r m1 l1 (bs " ") = Some (m1, None, l2)
     | Some (me, u, ps) =>
         exists pre post q,
           strtok_r m1 l1 (bs " ") = Some (pre ++ u ++ 0 :: post, Some (length pre), q)
           /\ (exists x, pre = me ++ 0 :: x) /\ 0 ∉ me /\ 0 ∉ u /\ 0 ∉ ps /\ post <> []
           /\ (length me + length u + length ps + 1 <= length h)%nat
           /\ (length pre <= length h)%nat
           /\ (q = length h /\ ps = []
               \/ q = (length pre + length u + 1)%nat /\ (q <= length h)%nat /\ post = ps ++ 0 :: tail)
           /\ (length pre + length u <= q)%nat
     end.
Proof.
  intros H0 Hne Hk Ht. pose proof (strtok_words [] h tail 0 eq_refl H0) as E1. cbv zeta in E1.
  rewrite Hk, drop_0 in E1. cbn [app] in E1. unfold request_line.
  set (t := span_len (fun c => negb (is_space c)) h) in *.
  pose proof (span_len_le (fun c => negb (is_space c)) h) as Lt. fold t in Lt.
  destruct (Nat.eqb_spec (length h) 0); [by destruct h|].
  assert (length (take t h) = t) as Ltk by (rewrite length_take; lia). rewrite Ltk.
  destruct (Nat.eqb_spec t (length h)) as [Et|Hlt].
  - eexists _, _. split; [exact E1|]. rewrite (drop_ge h (S t)) by lia. cbn [span_len drop].
    pose proof (strtok_words h [] tail (0 + 0 + t)) as E2. rewrite Et in E2 |- *. specialize (E2 eq_refl).
    cbn in E2. eexists. apply E2. by intros ?%elem_of_nil.
  - eexists _, _. split; [exact E1|]. rewrite take_0. cbn [app]. set (s2 := drop (S t) h) in *.
    pose proof (length_drop h (S t)) as L2. fold s2 in L2.
    assert (0 ∉ s2) as H2 by (by apply not_elem_of_drop). assert (0 ∉ take t h) as Hme by (by apply not_elem_of_take).
    replace (0 + 0 + t + 1)%nat with (S (length (take t h))) by lia.
    destruct (second_token (take t h) s2 tail H2 Ht) as [[Er [l2 E2]]|[Hr (pre & post & q & E2 & Hx & Hu & Hps & Hpost & Hl1 & Hl2 & Hq & Hpu)]];
      set (r := drop (span_len is_space s2) s2) in *.
    + rewrite Er. by eexists.
    + set (u := take _ r) in *. destruct r as [|x0 r0]; [done|]. exists pre, post, q.
      split_and!; try done; try lia. destruct Hq as [[-> Hq]|(Hq1 & Hq2 & Hq3)]; [left | right]; split_and!; try done; lia.
Qed.

(** What the parser has understood of [h]. *)
Record understood (h : bytes) (id : Z) (me u ps : bytes) (c : connection_t) : Prop := {
  un_id : c.(method_id) = id;
  un_method : cstr_at c.(req) c.(method) = Some me;
  un_page : cstr_at c.(req) c.(page) = Some (clean_page (url_path u));
  un_param : cstr_at c.(req) c.(http_param) = Some ps;
  un_params : match url_params u, c.(get_params) with
              | Some g, Some q => cstr_at c.(req) q = Some g
              | None, None => True
              | _, _ => False
              end;
  un_placed : placed u c;
}.

Lemma parse_request_total (w : world F) h tail :
  w.(w_conn).(req) = h ++ 0 :: tail -> 0 ∉ h -> room (length h) w.(w_conn).(req) ->
  exists c',
    parse_request conf w
    = Some (match find_method methods h, request_line h with Some _, Some _ => true | _, _ => false end,
            with_conn w c')
    /\ c'.(ip_addr) = w.(w_conn).(ip_addr) /\ c'.(strfile) = w.(w_conn).(strfile)
    /\ stays (length h) w.(w_conn).(req) c'.(req)
    /\ (forall id me u ps, find_method methods h = Some id -> request_line h = Some (me, u, ps) ->
        understood h id me u ps c' /\ (c'.(page) <= length h /\ c'.(http_param) <= length h)%nat).
Proof.
  intros Hreq H0 Hr. pose proof (rm_nul _ _ Hr) as Hn.
  assert (tail <> []) as Ht.
  { intros ->. pose proof (rm_room _ _ Hr) as Hl. rewrite Hreq, length_app in Hl. cbn [length] in Hl. lia. }
  unfold parse_request. rewrite (bind_run _ _ w h w) by (apply cstring_run; rewrite Hreq; by apply cstr_at_0).
  destruct (find_method methods h) as [id|] eqn:Ef.
  2:{ exists w.(w_conn). rewrite with_conn_id. split_and!; [done | done | done | by apply stays_refl | done]. }
  destruct (find_method_first h id Ef) as [Hne Hk].
  destruct (tokens_total h tail H0 Hne Hk Ht) as (m1 & l1 & E1 & E2). rewrite <-Hreq in E1.
  destruct (strtok_stays _ _ _ _ _ _ _ Hn (Nat.le_0_l _) E1) as (St1 & Hl1 & _).
  unfold mbind at 1, M_bind at 1, upd at 1. rewrite conn_bind. cbn [w_conn set_method_id req].
  rewrite (lift_bind_Some _ _ _ _ E1). cbn beta iota.
  destruct (request_line h) as [[[me u] ps]|].
  2:{ destruct E2 as [l2 E2]. rewrite (lift_bind_Some _ _ _ _ E2). cbn beta iota.
      exists (set_req m1 (set_method_id id w.(w_conn))).
      split_and!; [done | done | done | exact St1 | done]. }
  destruct E2 as (pre & post & q & E2 & [x Hx] & Hme & Hu & Hps & Hpost & Hlen & Hpl & Hq & Hpu).
  destruct (strtok_stays _ _ _ _ _ _ _ (stays_nul _ _ _ St1) Hl1 E2) as (St2 & Hl2 & _).
  assert (stays (length h) (req (w_conn w)) (pre ++ u ++ 0 :: post)) as St by (by eapply stays_trans).
  rewrite (lift_bind_Some _ _ _ _ E2). cbn beta iota.
  unfold mbind at 1, M_bind at 1, upd at 1. unfold mbind at 1, M_bind at 1, upd at 1.
  unfold mbind at 1, M_bind at 1, upd at 1. cbn [w_conn w_out w_read w_net w_fs].
  set (c0 := set_http_param q (set_page (length pre) (set_method 0 (set_req (pre ++ u ++ 0 :: post)
               (set_method_id id w.(w_conn)))))).
  destruct (set_connection_props_total (length h) (with_conn w c0) pre u post)
    as (c' & rest & E & P1 & P2 & P3 & P4 & P5 & P6 & St3 & Em & Ll & Hg & Hat);
    [done | done | done | done | by eapply room_stays | done | done |].
  exists c'. rewrite (bind_run _ _ (with_conn w c0) _ _ E).
  assert (q <= length h)%nat as Hql by (destruct Hq as [[-> _]|(_ & ? & _)]; lia).
  split_and!; [done | done | done | by eapply stays_trans |].
  intros id' me' u' ps' [= <-] [= <- <- <-]. split; [|rewrite P1, P3; split; [exact Hpl | exact Hql]].
  split; [done| | | |done|].
  4:{ split_and!; [rewrite P2; apply Nat.le_0_l | rewrite P1, P3; exact Hpu | by rewrite P1]. }
  - rewrite P2, Em, Hx. cbn [c0 set_http_param set_page set_method set_req set_method_id method with_conn w_conn].
    rewrite <-app_assoc. by apply (cstr_at_app []).
  - rewrite P1, Em. apply cstr_at_app; [done|]. apply clean_page_clean.
  - rewrite P3. cbn [c0 set_http_param http_param with_conn w_conn].
    destruct Hq as [[-> ->]|(-> & _ & ->)].
    + destruct (cstr_at_nul (req c') (length h) (length h) (le_n _) (stays_nul _ _ _ St3)) as [s Es].
      pose proof (cstr_before _ _ _ _ (stays_nul _ _ _ St3) (le_n _) Es). destruct s; [done|]. cbn [length] in *. lia.
    + rewrite Em. replace (pre ++ clean_page (url_path u) ++ 0 :: rest ++ ps ++ 0 :: tail)
        with ((pre ++ clean_page (url_path u) ++ 0 :: rest) ++ ps ++ 0 :: tail) by (by rewrite <-!app_assoc).
      apply cstr_at_app; [|done]. rewrite !length_app. cbn [length]. lia.
Qed.
End Steps.

(** ** Lemmas: the header in memory *)

(** A header is complete: its text is [h], and there is room behind it. *)
Definition received {F} (h : bytes) (w : world F) : Prop :=
  (exists tail, w.(w_conn).(req) = h ++ 0 :: tail) /\ 0 ∉ h /\ room (length h) w.(w_conn).(req).

Lemma text_in_front m k :
  m !! k = Some 0 -> exists h tail, m = h ++ 0 :: tail /\ 0 ∉ h /\ (length h <= k)%nat.
Proof.
  intros Hk. destruct (cstr_at_nul m 0 k (Nat.le_0_l _) Hk) as [h Eh].
  pose proof (cstr_before _ _ _ _ Hk (Nat.le_0_l _) Eh).
  apply cstr_at_Some in Eh as (H0 & tail & Em & _). exists h, tail. split_and!; [exact Em | done | lia].
Qed.

Section Received.
Context {F : Type} `{Posix F}.

Lemma end_header_total e from d (w : world F) :
  buf_wf w.(w_read) -> w.(w_conn).(req) = buf_with d -> (from <= length d < INBUFFER)%nat ->
  (e + 3 <= length d)%nat ->
  exists d' b es,
    end_header e from (length d) w = Some (length d', reading w (<[(e + 2)%nat := 0]> (buf_with d')) b es)
    /\ (length d' <= INBUFFER)%nat /\ (e + 3 <= length d')%nat /\ buf_wf b.
Proof.
  intros Hwf Hr Hf He. unfold end_header. rewrite conn_bind, Hr.
  rewrite (lift_bind_Some _ _ _ _ (buf_with_strstr d from _ ltac:(lia) ltac:(lia))).
  assert (forall d', (length d' <= INBUFFER)%nat -> (e + 3 <= length d')%nat ->
    store (buf_with d') (e + 2) 0 = Some (<[(e + 2)%nat := 0]> (buf_with d'))) as Hst
    by (intros d' ? ?; apply store_Some; rewrite buf_with_length; lia).
  destruct (find_sub (CRLF ++ CRLF) (cstr_prefix (drop from d))); cbn [fmap option_fmap option_map].
  - exists d, w.(w_read), w.(w_net). rewrite mret_bind.
    rewrite (bind_run _ _ _ _ _ (upd_req_run (fun m => store m (e + 2) 0) w (<[(e + 2)%nat := 0]> (buf_with d)) ltac:(rewrite Hr; apply Hst; lia))).
    split_and!; [done | lia | lia | done].
  - destruct (sock_read_run 1 w Hwf ltac:(lia)) as (x & b & es & Hs & Hx & Hb & _).
    assert (length x <= 1)%nat by (subst x; rewrite length_take; lia).
    exists (d ++ x), b, es. rewrite length_app.
    set (w1 := mkworld w.(w_conn) w.(w_out) b es w.(w_fs)).
    assert (upd_req (fun m => write_at m (length d) x) w1 = Some (tt, reading w (buf_with (d ++ x)) b es)) as E1
      by (rewrite (upd_req_run _ w1 (buf_with (d ++ x))); [done|]; cbn; rewrite Hr; apply buf_with_write; lia).
    rewrite (bind_run _ _ w (length d + length x)%nat (reading w (buf_with (d ++ x)) b es)).
    2:{ rewrite (bind_run _ _ _ _ _ Hs). cbn beta iota. rewrite (bind_run _ _ _ _ _ E1), mret_run. by rewrite Nat2Z.id. }
    rewrite (bind_run _ _ _ _ _ (upd_req_run (fun m => store m (e + 2) 0) (reading w (buf_with (d ++ x)) b es)
      (<[(e + 2)%nat := 0]> (buf_with (d ++ x))) ltac:(apply Hst; rewrite length_app; lia))).
    split_and!; [done | lia | lia | done].
Qed.

(** What is in front of the cut is the header that was received. *)
Lemma received_cut e d (w : world F) b es :
  (length d <= INBUFFER)%nat -> (e + 9 <= INBUFFER)%nat ->
  exists h, received h (reading w (<[(e + 2)%nat := 0]> (buf_with d)) b es) /\ (length h <= e + 2)%nat.
Proof.
  intros Hd Hroom. pose proof (buf_with_length d ltac:(lia)) as Lb.
  destruct (text_in_front (<[(e + 2)%nat := 0]> (buf_with d)) (e + 2)) as (h & tail & Em & H0 & Hl);
    [apply list_lookup_insert_eq; lia|].
  exists h. split; [|done]. split; [exists tail; exact Em|]. split; [done|].
  cbn [reading w_conn set_req req]. split.
  - rewrite Em. apply lookup_mid.
  - rewrite length_insert, Lb. lia.
  - rewrite length_insert, Lb, Nat.add_sub. rewrite list_lookup_insert_ne by lia.
    unfold buf_with. rewrite lookup_app_r by lia. apply lookup_replicate_2. lia.
Qed.

Lemma read_request_total (w : world F) :
  buf_wf w.(w_read) -> w.(w_conn).(req) = replicate (INBUFFER + 1) 0 ->
  exists r w1, read_request w = Some (r, w1) /\ buf_wf w1.(w_read)
    /\ w1.(w_out) = w.(w_out) /\ w1.(w_fs) = w.(w_fs)
    /\ forall e n, r = Some (e, n) -> (e + 9 <= INBUFFER)%nat ->
       exists h, received h w1 /\ (length h <= e + 2)%nat.
Proof.
  intros Hwf Hr.
  destruct (read_header_total INBUFFER [] 0 w Hwf Hr ltac:(done) ltac:(unfold INBUFFER; simpl; lia)
              ltac:(lia)) as (o & from & d & b & es & E & Hb & Hf & Hres).
  unfold read_request. rewrite (bind_run _ _ _ _ _ E). cbn beta iota.
  destruct o as [| |e]; [by eexists _, _..|]. destruct Hres as [Hd Hs].
  assert (e + 3 <= length d)%nat as He.
  { apply starts_with_spec in Hs as [t Ht]. apply (f_equal length) in Ht.
    rewrite length_drop, length_app in Ht. change (length empty_line) with 3%nat in Ht. lia. }
  destruct (end_header_total e from d (reading w (buf_with d) b es) Hb eq_refl ltac:(lia) He)
    as (d' & b' & es' & E' & Hd' & He' & Hb').
  rewrite (bind_run _ _ _ _ _ E'). exists (Some (e, length d')), (reading w (<[(e + 2)%nat := 0]> (buf_with d')) b' es').
  split_and!; [done | done | done | done |]. intros e1 n1 [= <- <-] Hroom. by apply received_cut.
Qed.
End Received.

(** ** Specification: who is asking *)

(** User name and password of the fields [ps] of a request: empty when there are
    none, nothing when they cannot be used. *)
Definition credentials_of (ps : bytes) : option (bytes * bytes) :=
  match find_sub basic_field ps with
  | None => Some ([], [])
  | Some i =>
      j ← find_sub CRLF (drop i ps);
      let enc := take (j - 21) (drop (i + 21) ps) in
      if (length enc + 1 <? PWDLIMIT * 2)%nat then
        let t := cstr_prefix (b64_decode enc) in
        k ← find_sub (bs ":") t;
        Some (take k t, drop (S k) t)
      else None
  end.

(** What stands for the credentials in [ps] is a whole number of base64 groups,
    at least one. *)
Definition credentials_whole (ps : bytes) : Prop :=
  forall i j, find_sub basic_field ps = Some i -> find_sub CRLF (drop i ps) = Some j ->
  (21 < j)%nat /\ Nat.divide 4 (j - 21).

(** The authentication program takes the message and has nothing to say. *)
Definition program_accepts {F} `{Posix F} (msg : bytes) : Prop :=
  px_auth_connect = true /\ px_malloc (Z.of_nat AUTHBUF) = true
  /\ px_auth_write msg = Z.of_nat (length msg) /\ px_auth_read msg = 0.

(** ** Lemmas: the credentials *)

Lemma credentials_short ps u p :
  credentials_of ps = Some (u, p) -> (length u + length p <= 450)%nat.
Proof.
  unfold credentials_of. destruct (find_sub basic_field ps) as [i|]; [|intros [= <- <-]; simpl; lia].
  destruct (find_sub CRLF (drop i ps)) as [j|]; [|done]. cbn [mbind option_bind]. cbv zeta.
  set (enc := take (j - 21) (drop (i + 21) ps)).
  destruct (Nat.ltb_spec (length enc + 1) (PWDLIMIT * 2)) as [Hl|]; [|done].
  assert (forall n s, (length s <= n)%nat -> (4 * length (b64_decode s) <= 3 * length s)%nat) as Hd.
  { induction n as [|n IH]; intros [|a [|b [|c [|d s]]]] Hs; cbn [length] in *; try (cbn [b64_decode length]; lia).
    cbn [b64_decode]. rewrite length_app. specialize (IH s ltac:(lia)). cbn [length group_value]. lia. }
  specialize (Hd _ enc (le_n _)). pose proof (length_cstr_prefix (b64_decode enc)) as Hc.
  set (t := cstr_prefix (b64_decode enc)) in *. destruct (find_sub (bs ":") t) as [k|] eqn:Ek; [|done].
  cbn [mbind option_bind]. intros [= <- <-]. unfold PWDLIMIT in Hl.
  pose proof (find_sub_bound _ _ _ Ek). rewrite length_take, length_drop. cbn [length] in *. lia.
Qed.

(** Decoding whole groups into the buffer for the user name. *)
Lemma decode_whole {F} `{Posix F} enc rest :
  0 ∉ enc -> enc <> [] -> Nat.divide 4 (length enc) -> (length enc < PWDLIMIT * 2)%nat ->
  exists post, decode64 (fresh (PWDLIMIT * 2)) 0 (enc ++ 0 :: rest) 0
               = Some (cstr_prefix (b64_decode enc) ++ 0 :: post).
Proof.
  intros H0 Hne [n Hn] Hl. pose proof (fresh_length (PWDLIMIT * 2)) as Lf. set (f := fresh (PWDLIMIT * 2)) in *.
  assert (length (b64_decode enc) = n * 3)%nat as Ldec by (by apply b64_decode_length).
  destruct (drop (n * 3) f) as [|x post2] eqn:Ed.
  { apply (f_equal length) in Ed. rewrite length_drop, Lf in Ed. cbn [length] in Ed. unfold PWDLIMIT in *. lia. }
  pose proof (decode64_run (S (length (enc ++ 0 :: rest))) [] (take (n * 3) f) x post2 [] enc rest
                (enc ++ 0 :: rest) 0 0) as Er. cbn [app length] in Er.
  unfold decode64. rewrite <-(take_drop (n * 3) f), Ed, Er; try done.
  - destruct enc as [|e0 enc0] eqn:Ee; [done|]. rewrite <-Ee.
    destruct (cstr_prefix_split (b64_decode enc)) as [E|[v E]].
    + exists post2. by rewrite E.
    + exists (v ++ 0 :: post2). rewrite E at 1. by rewrite <-app_assoc.
  - rewrite length_app. lia.
  - by exists n.
  - rewrite length_take, Ldec, Lf. unfold PWDLIMIT in *. lia.
Qed.

(** Cutting the decoded text at its first colon. *)
Lemma split_colon_total {F} (w : world F) t post :
  0 ∉ t ->
  exists cr,
    (sep ← lift (strstr (t ++ 0 :: post) 0 (bs ":"));
     match sep with
     | None => mret (inl (-1))
     | Some sep =>
         username ← lift (store (t ++ 0 :: post) sep 0);
         u ← lift (cstr_at username 0);
         p ← lift (cstr_at username (sep + 1));
         mret (inr (u, p))
     end : M F credentials) w = Some (cr, w)
    /\ match k ← find_sub (bs ":") t; Some (take k t, drop (S k) t) with
       | Some up => cr = inr up
       | None => cr = inl (-1)
       end.
Proof.
  intros Ht. rewrite (lift_bind_Some _ (find_sub (bs ":") t)).
  2:{ pose proof (strstr_app [] t post 0 (bs ":") eq_refl Ht) as Es. cbn [app] in Es. rewrite Es.
      by destruct (find_sub (bs ":") t). }
  destruct (find_sub (bs ":") t) as [k|] eqn:Ek; cbn [mbind option_bind]; [|by eexists].
  pose proof (find_sub_bound _ _ _ Ek) as Bk. cbn [length] in Bk.
  destruct (lookup_lt_is_Some_2 t k ltac:(lia)) as [y Hy].
  assert (t ++ 0 :: post = take k t ++ y :: drop (S k) t ++ 0 :: post) as E4
    by (rewrite <-(take_drop_middle _ _ _ Hy) at 1; by rewrite <-app_assoc).
  assert (length (take k t) = k) as Lk by (rewrite length_take; lia).
  rewrite (lift_bind_Some _ (take k t ++ 0 :: drop (S k) t ++ 0 :: post)) by (rewrite E4; by apply store_mid_eq).
  rewrite (lift_bind_Some _ (take k t)) by (apply cstr_at_0; by apply not_elem_of_take).
  rewrite (lift_bind_Some _ (drop (S k) t)).
  2:{ replace (take k t ++ 0 :: drop (S k) t ++ 0 :: post) with ((take k t ++ [0]) ++ drop (S k) t ++ 0 :: post)
        by (by rewrite <-app_assoc).
      apply cstr_at_app; [rewrite length_app, Lk; done | by apply not_elem_of_drop]. }
  by eexists.
Qed.

Lemma auth_credentials_total {F} `{Posix F} (w : world F) ps :
  cstr_at w.(w_conn).(req) w.(w_conn).(http_param) = Some ps -> credentials_whole ps ->
  exists cr, auth_credentials w = Some (cr, w)
    /\ match credentials_of ps with
       | Some (u, p) => cr = inr (u, p)
       | None => exists e, cr = inl e /\ e <> 0
       end.
Proof.
  intros Hps Hw. unfold auth_credentials. rewrite conn_bind.
  destruct (cstr_at_Some _ _ _ Hps) as (H0 & post & Em & Lp). set (q := http_param (w_conn w)) in *.
  set (pre := take q (req (w_conn w))) in *.
  rewrite (lift_bind_Some _ (Nat.add q <$> find_sub basic_field ps)) by (unfold strstr; by rewrite Hps).
  unfold credentials_of. destruct (find_sub basic_field ps) as [i|] eqn:Ei; cbn [fmap option_fmap option_map];
    [|by eexists].
  pose proof (find_sub_bound _ _ _ Ei) as Hi. change (length basic_field) with 21%nat in Hi.
  assert (req (w_conn w) = (pre ++ take i ps) ++ drop i ps ++ 0 :: post) as Em2
    by (rewrite Em, <-(take_drop i ps) at 1; by rewrite <-!app_assoc).
  assert (length (pre ++ take i ps) = q + i)%nat as Lpi by (rewrite length_app, length_take; lia).
  rewrite (lift_bind_Some _ (Nat.add (q + i) <$> find_sub CRLF (drop i ps)))
    by (rewrite Em2; apply strstr_app; [done | by apply not_elem_of_drop]).
  destruct (find_sub CRLF (drop i ps)) as [j|] eqn:Ej; cbn [fmap option_fmap option_map mbind option_bind];
    [|exists (inl (-1)); by eauto].
  destruct (Hw i j Ei Ej) as [Hj Hdiv]. pose proof (find_sub_bound _ _ _ Ej) as Bj. rewrite length_drop in Bj.
  cbn [length CRLF] in Bj. cbv zeta.
  set (enc := take (j - 21) (drop (i + 21) ps)).
  assert (length enc = j - 21)%nat as Le by (subst enc; rewrite length_take, length_drop; lia).
  replace (Z.of_nat (q + i + j) - Z.of_nat (q + i + 21)) with (Z.of_nat (length enc)) by lia.
  rewrite Nat2Z.id. destruct (Nat.ltb_spec (length enc + 1) (PWDLIMIT * 2)) as [Hl|Hl];
    destruct (Z.ltb_spec (Z.of_nat (length enc) + 1) (Z.of_nat (PWDLIMIT * 2))) as [Hz|Hz]; try lia;
    [|exists (inl ERR_NOMEM); by eauto].
  assert (0 ∉ enc) as He0 by (by apply not_elem_of_take, not_elem_of_drop).
  assert (req (w_conn w) = (pre ++ take (i + 21) ps) ++ enc ++ drop (i + j) ps ++ 0 :: post) as Em3.
  { rewrite Em, <-(take_drop (i + 21) ps) at 1. rewrite <-(take_drop (j - 21) (drop (i + 21) ps)) at 1.
    rewrite drop_drop. replace (i + 21 + (j - 21))%nat with (i + j)%nat by lia. fold enc. by rewrite <-!app_assoc. }
  rewrite (lift_bind_Some _ enc).
  2:{ rewrite Em3. apply load_n_app; [rewrite length_app, length_take; lia | done]. }
  pose proof (fresh_length (PWDLIMIT * 2)) as Lf.
  set (a1 := enc ++ drop (length enc) (fresh (PWDLIMIT * 2))).
  rewrite (lift_bind_Some _ a1) by (rewrite write_at_Some by lia; done).
  destruct (drop (length enc) (fresh (PWDLIMIT * 2))) as [|z rest] eqn:Ed.
  { apply (f_equal length) in Ed. rewrite length_drop, Lf in Ed. cbn [length] in Ed. lia. }
  rewrite (lift_bind_Some _ (enc ++ 0 :: rest)) by (subst a1; by apply store_mid_eq).
  destruct (decode_whole enc rest He0) as [post2 Edec]; [intros E0; rewrite E0 in Le; cbn [length] in Le; lia | by rewrite Le | lia |].
  rewrite (lift_bind_Some _ _ _ _ Edec).
  destruct (split_colon_total w (cstr_prefix (b64_decode enc)) post2 (cstr_prefix_clean _)) as (cr & Ecr & Hcr).
  exists cr. split; [exact Ecr|]. revert Hcr. cbv zeta.
  destruct (find_sub (bs ":") (cstr_prefix (b64_decode enc))); cbn [mbind option_bind]; [done|].
  intros ->. by exists (-1).
Qed.

Lemma request_line_length h me u ps :
  0 ∉ h -> h <> [] -> span_len is_space h = 0%nat -> request_line h = Some (me, u, ps) ->
  (length me + length u + length ps + 1 <= length h)%nat.
Proof.
  intros H0 Hne Hk E. destruct (tokens_total h [0] H0 Hne Hk) as (m1 & l1 & _ & E2); [done|].
  rewrite E in E2. by destruct E2 as (pre & post & q & _ & _ & _ & _ & _ & _ & Hl & _).
Qed.

Lemma clean_page_length u : (length (clean_page u) <= length u)%nat.
Proof.
  unfold clean_page. pose proof (cut_at_length dotdot_slash (cstr_prefix (unescape u))).
  pose proof (length_cstr_prefix (unescape u)). pose proof (unescape_length u). lia.
Qed.

Lemma url_path_length u : (length (url_path u) <= length u)%nat.
Proof. unfold url_path. destruct (find_sub _ u); [rewrite length_take; lia | done]. Qed.

(** ** Theorems *)

Section ParseTheorems.
Context {F : Type} `{Posix F}.
Context (conf : weborf_configuration_t).

(** C9: whatever bytes a client sends and in whatever pieces they arrive, its
    header is read and parsed within the memory of the request, provided that it
    ends nine bytes before that memory: it is refused unless it begins with a
    known method and has two words, and otherwise method, page and parameters,
    cut and decoded in place, are exactly those of the text and lie behind each
    other in the memory, and the page has no "../". *)
Theorem requests_parsed (w : world F) :
  buf_wf w.(w_read) -> w.(w_conn).(req) = replicate (INBUFFER + 1) 0 ->
  exists r w1, read_request w = Some (r, w1)
    /\ forall e n, r = Some (e, n) -> (e + 9 <= INBUFFER)%nat ->
       exists h ok c,
         cstr_at w1.(w_conn).(req) 0 = Some h
         /\ parse_request conf w1 = Some (ok, with_conn w1 c)
         /\ match find_method methods h, request_line h with
            | Some id, Some (me, u, ps) =>
                ok = true /\ understood h id me u ps c
                /\ ~ contains dotdot_slash (clean_page (url_path u))
            | _, _ => ok = false
            end.
Proof.
  intros Hwf Hr. destruct (read_request_total w Hwf Hr) as (r & w1 & E & _ & _ & _ & Hrec).
  exists r, w1. split; [done|]. intros e n -> Hroom.
  destruct (Hrec e n eq_refl Hroom) as (h & ([tail Em] & H0 & Hrm) & _).
  destruct (parse_request_total conf w1 h tail Em H0 Hrm) as (c & Ep & _ & _ & _ & Hu).
  eexists h, _, c. split; [rewrite Em; by apply cstr_at_0|]. split; [exact Ep|].
  destruct (find_method methods h) as [id|]; [|done].
  destruct (request_line h) as [[[me u] ps]|]; [|done]. split_and!; [done | by apply Hu |].
  by apply cut_at_clean.
Qed.

Lemma requests_checked_run (w : world F) sock h :
  socket_fits conf -> conf.(c_authsock) = Some sock -> received h w -> (length h <= INBUFFER)%nat ->
  (length w.(w_conn).(ip_addr) < INET6_ADDRSTRLEN)%nat ->
  (forall me u ps, request_line h = Some (me, u, ps) -> credentials_whole ps) ->
  exists ok w1, parse_request conf w = Some (ok, w1)
    /\ (ok = true ->
        exists me u ps r,
          request_line h = Some (me, u, ps)
          /\ auth_check_request conf w1 = Some (r, w1)
          /\ (r = 0 <-> exists user pass,
                credentials_of ps = Some (user, pass)
                /\ program_accepts (auth_message (clean_page (url_path u)) w.(w_conn).(ip_addr) me user pass ps))).
Proof.
  intros Hsf Hs ([tail Em] & H0 & Hrm) Hl Hip Hw.
  destruct (parse_request_total conf w h tail Em H0 Hrm) as (c & Ep & Eip & _ & _ & Hu).
  eexists _, _. split; [exact Ep|].
  destruct (find_method methods h) as [id|] eqn:Ef; [|done].
  destruct (request_line h) as [[[me u] ps]|] eqn:Er; [|done]. intros _.
  destruct (Hu id me u ps eq_refl eq_refl) as [[_ Hme Hpg Hps _] _].
  destruct (find_method_first h id Ef) as [Hne Hk].
  pose proof (request_line_length h me u ps H0 Hne Hk Er) as Hlen.
  pose proof (clean_page_length (url_path u)). pose proof (url_path_length u).
  destruct (auth_credentials_total (with_conn w c) ps Hps (Hw me u ps eq_refl)) as (cr & Ecr & Hcr).
  exists me, u, ps. destruct (credentials_of ps) as [[user pass]|] eqn:Eu.
  - subst cr. pose proof (credentials_short ps user pass Eu).
    set (msg := auth_message (clean_page (url_path u)) (ip_addr (w_conn w)) me user pass ps).
    assert (length msg < AUTHBUF)%nat as Hfit.
    { subst msg. unfold auth_message, AUTHBUF, HEADBUF, PWDLIMIT, INBUFFER, INET6_ADDRSTRLEN in *.
      rewrite !length_app. change (length CRLF) with 2%nat. lia. }
    eexists. split; [done|]. split.
    { apply (auth_check_text conf (with_conn w c) sock ps user pass (clean_page (url_path u)) me); try done.
      cbn [with_conn w_conn]. by rewrite Eip. }
    cbn [with_conn w_conn]. rewrite Eip. fold msg. unfold program_accepts. split.
    + intros E. exists user, pass. split; [done|]. fold msg.
      destruct px_auth_connect, (px_malloc _); try done. cbn [andb] in E.
      destruct (Z.eqb_spec (px_auth_write msg) (Z.of_nat (length msg))), (Z.eqb_spec (px_auth_read msg) 0); done.
    + intros (user' & pass' & [= <- <-] & -> & -> & Hwr & Hrd). fold msg in Hwr, Hrd.
      by rewrite Hwr, Hrd, Z.eqb_refl.
  - destruct Hcr as (e & -> & He). exists e. split; [done|]. split.
    { unfold auth_check_request. rewrite Hs. by rewrite (bind_run _ _ _ _ _ Ecr). }
    split; [done|]. by intros (? & ? & ? & _).
Qed.

(** C7: with authentication in use, every request that was parsed is checked
    within memory, and it is accepted if and only if it has no credentials or
    such that decode to a text with a colon, and the authentication program
    takes the whole message, made of page, address, method, user name, password
    and header of this request, without saying anything; the message always
    fits its buffer.  The credentials, if there are any, have to be one
    or more whole groups of base64: others are read past their end, or leave an
    array that was never written; and the path of the
    socket has to fit its address. *)
Theorem requests_checked (w : world F) sock h :
  socket_fits conf -> conf.(c_authsock) = Some sock -> received h w -> (length h <= INBUFFER)%nat ->
  (length w.(w_conn).(ip_addr) < INET6_ADDRSTRLEN)%nat ->
  (forall me u ps, request_line h = Some (me, u, ps) -> credentials_whole ps) ->
  exists ok w1, parse_request conf w = Some (ok, w1)
    /\ (ok = true ->
        exists me u ps r,
          request_line h = Some (me, u, ps)
          /\ auth_check_request conf w1 = Some (r, w1)
          /\ (r = 0 <-> exists user pass,
                credentials_of ps = Some (user, pass)
                /\ program_accepts (auth_message (clean_page (url_path u)) w.(w_conn).(ip_addr) me user pass ps))).
Proof. by apply requests_checked_run. Qed.

(** When the URL is the last word and the text ends within the last bytes of
    the memory, the protocol version is looked up behind it. *)
Theorem long_request_overreads (w : world F) h tail me u :
  w.(w_conn).(req) = h ++ 0 :: tail -> 0 ∉ h -> (1 <= length tail <= 6)%nat ->
  find_method methods h <> None -> request_line h = Some (me, u, []) ->
  parse_request conf w = None.
Proof.
  intros Hreq H0 Ht Hf Hr. destruct (find_method methods h) as [id|] eqn:Ef; [|done].
  destruct (find_method_first h id Ef) as [Hne Hk].
  destruct (tokens_total h tail H0 Hne Hk ltac:(by destruct tail; [cbn [length] in Ht; lia|])) as (m1 & l1 & E1 & E2).
  rewrite Hr in E2. destruct E2 as (pre & post & q & E2 & _ & _ & _ & _ & _ & _ & _ & Hq & _). rewrite <-Hreq in E1.
  assert (w.(w_conn).(req) !! length h = Some 0) as Hn by (rewrite Hreq; apply lookup_mid).
  destruct (strtok_stays _ _ _ _ _ _ _ Hn (Nat.le_0_l _) E1) as (St1 & Hl1 & _).
  destruct (strtok_stays _ _ _ _ _ _ _ (stays_nul _ _ _ St1) Hl1 E2) as (St2 & _ & _).
  assert (stays (length h) (req (w_conn w)) (pre ++ u ++ 0 :: post)) as St by (by eapply stays_trans).
  assert (length (pre ++ u ++ 0%Z :: post) = length h + 1 + length tail)%nat as Lm
    by (destruct St as (-> & _ & _); rewrite Hreq, length_app; cbn [length]; lia).
  assert (q = length h) as Eq.
  { destruct Hq as [[-> _]|(-> & _ & Hp)]; [done|]. rewrite !length_app, Hp in Lm. cbn [length app] in Lm. lia. }
  subst q. unfold parse_request. rewrite (bind_run _ _ w h w) by (apply cstring_run; rewrite Hreq; by apply cstr_at_0).
  rewrite Ef. unfold mbind at 1, M_bind at 1, upd at 1. rewrite conn_bind. cbn [w_conn set_method_id req].
  rewrite (lift_bind_Some _ _ _ _ E1). cbn beta iota. rewrite (lift_bind_Some _ _ _ _ E2). cbn beta iota.
  set (m2 := pre ++ u ++ 0 :: post) in *.
  do 3 unfold mbind at 1, M_bind at 1, upd at 1. cbn [w_conn w_out w_read w_net w_fs].
  set (w0 := mkworld _ _ _ _ _).
  assert (param (bs "Connection") (fresh 12) 12 w0 = Some ((false, fresh 12), w0)) as Ep.
  { unfold param. rewrite conn_bind. apply lift_run. subst w0.
    cbn [w_conn set_http_param set_page set_method set_req set_method_id req http_param].
    unfold get_param_value, strstr.
    destruct (cstr_at_nul m2 (length h) (length h) (le_n _) (stays_nul _ _ _ St)) as [s Es].
    pose proof (cstr_before _ _ _ _ (stays_nul _ _ _ St) (le_n _) Es) as Hs.
    destruct s; [|cbn [length] in Hs; lia]. by rewrite Es. }
  unfold set_connection_props, mbind, M_bind. rewrite Ep. cbn beta iota. unfold conn, lift at 1, load at 1.
  subst w0. cbn [w_conn set_http_param set_page set_method set_req set_method_id req http_param].
  by rewrite lookup_ge_None_2 by lia.
Qed.
End ParseTheorems.

(** ** Witnesses *)

(** Two spaces, escapes, parameters and no protocol version. *)
Definition sample_odd : bytes := bs "POST  /x%41/%2e%2e%2fb?x=%42 ".

Lemma requests_parsed_witness :
  exists w1 c,
    read_request (sample_input (sample_odd ++ CRLF ++ CRLF)) = Some (Some (29, 33)%nat, w1)
    /\ parse_request sample_conf w1 = Some (true, with_conn w1 c)
    /\ understood (sample_odd ++ CRLF) POST (bs "POST") (bs "/x%41/%2e%2e%2fb?x=%42") CRLF c
    /\ clean_page (url_path (bs "/x%41/%2e%2e%2fb?x=%42")) = bs "/xA/"
    /\ url_params (bs "/x%41/%2e%2e%2fb?x=%42") = Some (bs "x=B").
Proof.
  destruct (requests_parsed sample_conf (sample_input (sample_odd ++ CRLF ++ CRLF))
              (sample_buf_wf _) eq_refl) as (r & w1 & E & Hp).
  assert ((fun x => (x.1, cstr_at x.2.(w_conn).(req) 0)) <$> read_request (sample_input (sample_odd ++ CRLF ++ CRLF))
          = Some (Some (29, 33)%nat, Some (sample_odd ++ CRLF))) as Hc by (vm_compute; reflexivity).
  rewrite E in Hc. injection Hc as -> Hh.
  destruct (Hp 29%nat 33%nat eq_refl) as (h & ok & c & Hh2 & Epar & Hm); [apply Nat.leb_le; reflexivity|].
  rewrite Hh2 in Hh. injection Hh as ->. exists w1, c. split; [exact E|].
  destruct Hm as (-> & Hu & _). split_and!; [exact Epar | exact Hu | reflexivity | reflexivity].
Defined.

Definition sample_auth_text : bytes :=
  bs "GET /a?b HTTP/1.1" ++ CRLF ++ basic_field ++ bs "dTpwdw==" ++ CRLF.

Definition sample_received (h : bytes) (k : nat) : world sample_fs :=
  let w := sample_world [] [] [] in with_conn w (set_req (h ++ 0 :: replicate k 0) w.(w_conn)).

Lemma sample_received_ok h k : 0 ∉ h -> (7 <= k)%nat -> received h (sample_received h k).
Proof.
  intros H0 Hk. split; [by eexists|]. split; [done|]. cbn [sample_received with_conn w_conn set_req req].
  rewrite <-replicate_S. split.
  - rewrite lookup_app_r, Nat.sub_diag by lia. done.
  - rewrite length_app, length_replicate. lia.
  - rewrite length_app, length_replicate, lookup_app_r by lia. apply lookup_replicate_2. lia.
Qed.

Lemma requests_checked_witness :
  exists w1 r,
    parse_request sample_conf_auth (sample_received sample_auth_text 20) = Some (true, w1)
    /\ auth_check_request sample_conf_auth w1 = Some (r, w1)
    /\ credentials_of (bs "HTTP/1.1" ++ CRLF ++ basic_field ++ bs "dTpwdw==" ++ CRLF) = Some (bs "u", bs "pw")
    /\ (r = 0 <-> program_accepts (auth_message (bs "/a") (bs "::1") (bs "GET") (bs "u") (bs "pw")
                    (bs "HTTP/1.1" ++ CRLF ++ basic_field ++ bs "dTpwdw==" ++ CRLF))).
Proof.
  set (ps := bs "HTTP/1.1" ++ CRLF ++ basic_field ++ bs "dTpwdw==" ++ CRLF).
  assert (request_line sample_auth_text = Some (bs "GET", bs "/a?b", ps)) as El by reflexivity.
  assert (credentials_of ps = Some (bs "u", bs "pw")) as Ec by reflexivity.
  destruct (requests_checked sample_conf_auth (sample_received sample_auth_text 20) (bs "/run/auth.sock")
              sample_auth_text) as (ok & w1 & Ep & Hok).
  - exact sample_socket.
  - reflexivity.
  - apply sample_received_ok; [by_decision | apply Nat.leb_le; reflexivity].
  - apply Nat.leb_le. reflexivity.
  - apply Nat.ltb_lt. reflexivity.
  - rewrite El. intros me u ps' [= <- <- <-] i j Hi Hj.
    assert (find_sub basic_field ps = Some 10%nat) as Ei by reflexivity. rewrite Ei in Hi. injection Hi as <-.
    assert (find_sub CRLF (drop 10 ps) = Some 29%nat) as Ej by reflexivity. rewrite Ej in Hj. injection Hj as <-.
    split; [lia | by exists 2%nat].
  - assert (ok = true) as ->.
    { assert (fst <$> parse_request sample_conf_auth (sample_received sample_auth_text 20) = Some true) as Hc
        by (vm_compute; reflexivity).
      rewrite Ep in Hc. by injection Hc. }
    destruct (Hok eq_refl) as (me & u & ps' & r & El' & Ea & Hr). rewrite El in El'. injection El' as <- <- <-.
    assert (clean_page (url_path (bs "/a?b")) = bs "/a") as Epg by reflexivity.
    rewrite Ec, Epg in Hr. change (ip_addr (w_conn (sample_received sample_auth_text 20))) with (bs "::1") in Hr.
    exists w1, r. split; [exact Ep|]. split; [exact Ea|]. split; [exact Ec|]. rewrite Hr. split.
    + intros (u' & p' & E & Ha). injection E as <- <-. exact Ha.
    + intros Ha. exists (bs "u"), (bs "pw"). split; [reflexivity | exact Ha].
Defined.

Lemma long_request_overreads_witness :
  parse_request sample_conf (sample_received (bs "GET /a" ++ CRLF) 6) = None.
Proof.
  apply (long_request_overreads sample_conf (sample_received (bs "GET /a" ++ CRLF) 6) (bs "GET /a" ++ CRLF)
           (replicate 6 0) (bs "GET") (bs "/a" ++ CRLF)).
  - reflexivity.
  - by_decision.
  - simpl. lia.
  - done.
  - reflexivity.
Defined.
