(* ===== verification/Scripts.v ===== *)
(** * Which file is a script, and what it is told (instance.c, cgi.c)

    The choice of the program for a page, compared with the endings of the
    page's name, and the environment of a script for any request that was parsed. *)
From S2P Require Export CgiHeader Parse Server.

(** ** Specification *)

(** The program for a page: endings and programs take turns in the list. *)
Fixpoint script_for (page : bytes) (paths : list bytes) : option bytes :=
  match paths with
  | ext :: bin :: rest => if bool_decide (ext `suffix_of` page) then Some bin else script_for page rest
  | _ => None
  end.

(** The endings of the list. *)
Fixpoint endings (paths : list bytes) : list bytes :=
  match paths with
  | ext :: bin :: rest => ext :: endings rest
  | _ => []
  end.

(** ** Lemmas: the choice of the program *)

(** Two at a time. *)
Lemma pairs_ind (P : list bytes -> Prop) :
  P [] -> (forall ext bin rest, P rest -> P (ext :: bin :: rest)) ->
  forall l, Nat.even (length l) = true -> P l.
Proof.
  intros H0 H2 l. remember (length l) as n eqn:Hn. revert l Hn. induction n as [n IH] using lt_wf_ind.
  intros [|ext [|bin rest]] -> He; [done | done |]. apply H2. apply (IH (length rest)); [simpl; lia | done | done].
Qed.

Lemma drop_suffix (ext s : bytes) :
  (length ext <= length s)%nat -> drop (length s - length ext) s = ext <-> ext `suffix_of` s.
Proof.
  intros Hl. split.
  - intros E. exists (take (length s - length ext) s). by rewrite <-E at 2; rewrite take_drop.
  - intros [k ->]. rewrite length_app. replace (length k + length ext - length ext)%nat with (length k) by lia. apply drop_app_length.
Qed.

(** The comparison at a place of the page's text. *)
Lemma ends_at (c : connection_t) pre s post ext i :
  c.(req) = pre ++ s ++ 0 :: post -> c.(page) = length pre -> 0 ∉ s -> (i <= length s)%nat ->
  c.(page_len) - Z.of_nat (length ext) = Z.of_nat i ->
  (if Z.of_nat c.(page) + c.(page_len) - Z.of_nat (length ext) <? 0 then None
   else endsWith c.(req) (Z.to_nat (Z.of_nat c.(page) + c.(page_len) - Z.of_nat (length ext))) ext
          (Z.of_nat (length ext)) (Z.of_nat (length ext)))
  = Some (bool_decide (drop i s = ext)).
Proof.
  intros Hr Hp H0 Hi Hl. rewrite Hr, Hp.
  replace (Z.of_nat (length pre) + page_len c - Z.of_nat (length ext)) with (Z.of_nat (length pre + i)) by lia.
  destruct (Z.ltb_spec (Z.of_nat (length pre + i)) 0); [lia|]. rewrite Nat2Z.id. unfold endsWith.
  replace (Z.of_nat (length pre + i) + Z.of_nat (length ext) - Z.of_nat (length ext)) with (Z.of_nat (length pre + i)) by lia.
  destruct (Z.ltb_spec (Z.of_nat (length pre + i)) 0); [lia|]. rewrite Nat2Z.id. unfold streq.
  replace (pre ++ s ++ 0 :: post) with ((pre ++ take i s) ++ drop i s ++ 0 :: post)
    by (by rewrite <-app_assoc, (app_assoc (take i s)), take_drop).
  rewrite cstr_at_app; [done | rewrite length_app, length_take; lia | by apply not_elem_of_drop].
Qed.

(** ** Lemmas: the environment *)

Section Environ.
Context {F : Type} `{Posix F}.
Context (conf : weborf_configuration_t).

(** For a request that was parsed, whose header has a line and no name that is too
    long, the environment is made within memory. *)
Lemma cgi_environ_total (c : connection_t) u pre ps tail base f :
  placed u c -> c.(req) = pre ++ ps ++ 0 :: tail -> c.(http_param) = length pre -> 0 ∉ ps -> Forall is_byte ps ->
  (length c.(req) <= INBUFFER + 1)%nat -> cstr_at c.(strfile) 0 = Some f ->
  is_Some (header_vars (text_lines ps) []) -> is_Some (cgi_environ conf c base).
Proof.
  intros (Hm & Hp & Hg) Hr Hh H0 Hb Hl Hf [e1 He]. unfold cgi_environ. rewrite Hr, Hh.
  pose proof (cgi_set_http_env_vars_ref pre ps tail (fresh HPARAM) [] H0 Hb (fresh_length _)) as E. rewrite He in E.
  destruct E as (m & -> & _ & Lm & Hn). cbn [mbind option_bind]. set (k := (length pre + length ps)%nat) in *.
  rewrite <-Hr in Lm. pose proof (lookup_lt_Some _ _ _ Hn) as Hk.
  assert (forall p m', (p <= k)%nat -> m' !! k = Some 0 -> is_Some (cstr_at m' p)) as Hc by (intros p m' Hpk Hn'; by eapply cstr_at_nul).
  unfold cgi_set_env_vars.
  destruct (Hc (method c) m ltac:(lia) Hn) as [me ->]. rewrite Hf. cbn [mbind option_bind].
  destruct (Hc (page c) m ltac:(lia) Hn) as [pg ->]. cbn [mbind option_bind]. cbv zeta.
  destruct (get_params c) as [q|]; cbn [params_at] in Hg; [|by eexists].
  destruct (Hc q m ltac:(lia) Hn) as [g ->]. cbn [mbind option_bind].
  assert (to_s32 (page_len c) = page_len c) as ->.
  { unfold INBUFFER in Hl. apply to_s_small; change (2 ^ (32 - 1)) with 2147483648; lia. }
  rewrite store_Some by lia. cbn [mbind option_bind].
  destruct (Hc (page c) (<[(page c + Z.to_nat (page_len c))%nat := to_char (chr "?")]> m)) as [uri Eu]; [lia| |].
  - rewrite list_lookup_insert_ne by lia. done.
  - rewrite Eu. cbn [mbind option_bind]. by eexists.
Qed.
End Environ.

(** ** Theorems: the choice of the program *)

(** C28: for a page whose name is as long as it was sent, the program that is
    run is the one that is configured for the first ending the name has, and
    a page with none of them is not run. *)
Theorem scripts_chosen (c : connection_t) pre s post paths :
  c.(req) = pre ++ s ++ 0 :: post -> c.(page) = length pre -> 0 ∉ s -> c.(page_len) = Z.of_nat (length s) ->
  Nat.even (length paths) = true -> Forall (fun e => length e <= length s)%nat (endings paths) ->
  find_cgi c paths = Some (script_for s paths).
Proof.
  intros Hr Hp H0 Hl. revert paths. refine (pairs_ind _ _ _); [done|].
  intros ext bin rest IH [Hext Hrest]%Forall_cons. cbn [find_cgi script_for]. cbv zeta.
  rewrite (ends_at c pre s post ext (length s - length ext)) by (done || lia). cbn [mbind option_bind].
  rewrite (bool_decide_ext _ _ (drop_suffix ext s Hext)). case_bool_decide; [done|]. by apply IH.
Qed.

(** The length of the page is the one it had before its escapes were decoded and
    its "../" were cut: a page whose name has become shorter is compared behind
    its ending, and is not run, whatever its name: the text of the script is sent. *)
Theorem decoded_script_missed (c : connection_t) pre s post k paths :
  c.(req) = pre ++ s ++ 0 :: post -> c.(page) = length pre -> 0 ∉ s -> c.(page_len) = Z.of_nat (length s + k) ->
  (0 < k)%nat -> Nat.even (length paths) = true ->
  Forall (fun e => k <= length e <= length s + k)%nat (endings paths) ->
  find_cgi c paths = Some None.
Proof.
  intros Hr Hp H0 Hl Hk. revert paths. refine (pairs_ind _ _ _); [done|].
  intros ext bin rest IH [Hext Hrest]%Forall_cons. cbn [find_cgi]. cbv zeta.
  rewrite (ends_at c pre s post ext (length s + k - length ext)) by (done || lia). cbn [mbind option_bind].
  rewrite bool_decide_eq_false_2; [by apply IH|]. intros E. apply (f_equal length) in E. rewrite length_drop in E. lia.
Qed.

(** ** Witnesses *)

Definition sample_script_conf : weborf_configuration_t :=
  mkconf (bs "/srv") None 0 0 true false [bs ".php"; bs "/usr/bin/php-cgi"] false true false false None (bs "8080")
    [bs "index.html"].

(** A script, and a client that asks for it by the URL [u]. *)
Definition sample_script_world (u : bytes) : world sample_fs :=
  let w := sample_input (bs "GET " ++ u ++ bs " HTTP/1.1" ++ CRLF ++ CRLF) in
  mkworld (set_strfile (replicate URI_LEN 0) w.(w_conn)) w.(w_out) w.(w_read) w.(w_net)
    [mkfile (bs "/srv/x.php") (bs "<?php password") 0 (S_IFREG + 420)].

Definition sample_answer (u : bytes) : option (bool * bool) :=
  '(_, w) ← handle_requests sample_script_conf None 5 1 5 0 (sample_script_world u);
  Some (if find_sub (bs "no page") w.(w_out) is Some _ then true else false,
        if find_sub (bs "<?php password") w.(w_out) is Some _ then true else false).

Lemma scripts_chosen_witness :
  find_cgi (sample_conn (bs "/x.php") []) [bs ".cgi"; bs ""; bs ".php"; bs "/usr/bin/php-cgi"] = Some (Some (bs "/usr/bin/php-cgi")).
Proof.
  apply (scripts_chosen (sample_conn (bs "/x.php") []) (bs "GET" ++ [0]) (bs "/x.php") [0]
    [bs ".cgi"; bs ""; bs ".php"; bs "/usr/bin/php-cgi"]); [reflexivity..| by_decision | reflexivity | reflexivity |].
  repeat (constructor; [apply Nat.leb_le; reflexivity|]). constructor.
Defined.

(** The page of "/x%2ephp": two bytes shorter than it was sent. *)
Lemma decoded_script_missed_witness :
  find_cgi (set_page_len 8 (sample_conn (bs "/x.php") [])) [bs ".php"; bs "/usr/bin/php-cgi"] = Some None.
Proof.
  apply (decoded_script_missed (set_page_len 8 (sample_conn (bs "/x.php") [])) (bs "GET" ++ [0]) (bs "/x.php") [0] 2
    [bs ".php"; bs "/usr/bin/php-cgi"]); [reflexivity..| by_decision | reflexivity | lia | reflexivity |].
  repeat constructor; apply Nat.leb_le; reflexivity.
Defined.

(** The same through a whole connection: the output of the script, or its text. *)
Example script_source_sent :
  sample_answer (bs "/x.php?a=b") = Some (true, false) /\ sample_answer (bs "/x%2ephp?a=b") = Some (false, true).
Proof. split; vm_compute; reflexivity. Qed.
