(* ===== verification/Worker.v ===== *)
(** * A worker from its start to its end (instance.c, mime.c, buffered_reader.c)

    [instance] as one function: the memory it asks for, the sockets it takes
    from the queue, the connections it serves on them, what it releases, and
    its calls of [change_free_thread]; and [inetd], its copy that serves one
    connection.  The sequence of values a worker gets from the queue is a list
    of [job]s, with what the client behind each socket does. *)
From S2P Require Export Instance Listener.

(** ** Definitions *)

(** The blocks of memory a worker owns. *)
Inductive block := BBuf | BStrfile | BReader | BToken.

#[export] Instance block_eq_dec : EqDecision block.
Proof. solve_decision. Defined.

(** What was obtained; the pointer in [read_b] may not have been written. *)
Record alloc := mkalloc {
  al_buf : bool;
  al_strfile : bool;
  al_reader : option bool;
  al_token : bool;
}.

(** The results of the calls: [calloc] of [buf], [malloc] of [strfile],
    [magic_open] with [magic_load], [malloc] in [buffer_init]. *)
Record worker_env := mkwenv {
  we_buf : bool;
  we_strfile : bool;
  we_magic : option bool;
  we_reader : bool;
}.

(** [mime_init]: the token and the return value. *)
Definition mime_init (magic : option bool) : bool * Z :=
  match magic with
  | None => (false, 1)
  | Some loaded => (true, if (loaded : bool) then 0 else -1)
  end.

(** The condition stops at the first call that fails. *)
Definition worker_init (e : worker_env) : alloc * bool :=
  let '(token, r) := mime_init e.(we_magic) in
  if negb (r =? 0) then (mkalloc e.(we_buf) e.(we_strfile) None token, false)
  else (mkalloc e.(we_buf) e.(we_strfile) (Some e.(we_reader)) token,
        e.(we_reader) && e.(we_buf) && e.(we_strfile)).

Definition buffer_free (reader : bool) : list block := if reader then [BReader] else [].

(** A token that is NULL is not released. *)
Definition mime_release (token : bool) : list block := if token then [BToken] else [].

(** [buffer_free] passes the pointer of [read_b] to [free]. *)
Definition release_resources (al : alloc) : option (list block) :=
  reader ← al.(al_reader);
  Some ((if al.(al_buf) then [BBuf] else []) ++ (if al.(al_strfile) then [BStrfile] else [])
        ++ buffer_free reader ++ mime_release al.(al_token)).

(** A value from the queue: a negative one is a termination order; [j_accepted]
    is whether the TLS handshake succeeds, if there is one. *)
Record job := mkjob {
  j_sock : Z;
  j_peer : peer_addr;
  j_net : list net_event;
  j_accepted : bool;
}.

Section Worker.
Context {F : Type} `{Posix F}.
Context (conf : weborf_configuration_t).
Context (cachedir : option bytes).
Context (turns depth : nat).
Context (requests : nat).

(** From [net_getpeername] to [buffer_reset]. *)
Definition serve_job (j : job) (bufFull : nat) (w : world F) : option (nat * world F) :=
  if j.(j_accepted)
  then serve_connection conf cachedir turns depth j.(j_peer) j.(j_net) requests bufFull w
  else
    w ← connect j.(j_peer) j.(j_net) w;
    Some (bufFull, mkworld w.(w_conn) w.(w_out) (buffer_reset w.(w_read)) w.(w_net) w.(w_fs)).

(** The sockets that were closed with what their clients got, and whether the
    loop was left; it waits in [q_get] when the jobs are over. *)
Fixpoint instance_loop (jobs : list job) (bufFull : nat) (ti : t_thread_info) (w : world F)
    : option (list (Z * bytes) * bool * t_thread_info * world F) :=
  match jobs with
  | [] => Some ([], false, ti, w)
  | j :: jobs =>
      let ti := change_free_thread (-1) 0 ti in
      if j.(j_sock) <? 0 then Some ([], true, ti, w)
      else
        '(bufFull, w) ← serve_job j bufFull w;
        let out := w.(w_out) in
        '(served, ended, ti, w) ← instance_loop jobs bufFull (change_free_thread 1 0 ti) w;
        Some ((j.(j_sock), out) :: served, ended, ti, w)
  end.

(** The blocks that were released, when the thread has ended. *)
Definition instance (e : worker_env) (jobs : list job) (ti : t_thread_info) (w : world F)
    : option (list (Z * bytes) * option (list block) * t_thread_info * world F) :=
  let '(al, ok) := worker_init e in
  '(served, ended, ti, w) ← (if (ok : bool)
                             then instance_loop jobs 0 (change_free_thread 1 0 ti) w
                             else Some ([], true, ti, w));
  if (ended : bool) then
    blocks ← release_resources al;
    Some (served, Some blocks, change_free_thread 0 (-1) ti, w)
  else Some (served, None, ti, w).

(** The argument of [exit]. *)
Definition inetd (e : worker_env) (j : job) (w : world F) : option (Z * world F) :=
  if negb (worker_init e).2 then Some (1, w)
  else
    w ← connect j.(j_peer) j.(j_net) w;
    if negb j.(j_accepted) then Some (1, w)
    else '(_, w) ← handle_requests conf cachedir turns depth requests 0 w; Some (0, w).
End Worker.

(** ** Specification *)

Section WorkerSpec.
Context {F : Type} `{Posix F}.
Context (conf : weborf_configuration_t).
Context (cachedir : option bytes).
Context (turns depth : nat).
Context (requests : nat).

(** What the clients get from a worker that starts every connection with
    memory fresh from [calloc]. *)
Fixpoint serve_alone (jobs : list job) (w : world F) : option (list (Z * bytes)) :=
  match jobs with
  | [] => Some []
  | j :: jobs =>
      if j.(j_sock) <? 0 then Some []
      else
        '(_, w) ← serve_job conf cachedir turns depth requests j 0 (fresh_request w);
        l ← serve_alone jobs w;
        Some ((j.(j_sock), w.(w_out)) :: l)
  end.
End WorkerSpec.

(** Some steps of a thread of the pool, and what it is done with. *)
Inductive thread_path {Q} `{SynQueue Q} : thread -> t_thread_info -> Q
    -> option thread -> t_thread_info -> Q -> list Z -> Prop :=
  | path_here t ti q : thread_path t ti q (Some t) ti q []
  | path_last t ti q ti' q' d :
      worker_step t ti q None ti' q' d -> thread_path t ti q None ti' q' d
  | path_step t ti q t1 ti1 q1 d1 o ti' q' d :
      worker_step t ti q (Some t1) ti1 q1 d1 -> thread_path t1 ti1 q1 o ti' q' d ->
      thread_path t ti q o ti' q' (d1 ++ d).

(** The blocks that were obtained. *)
Definition obtained (e : worker_env) (b : block) : Prop :=
  match b with
  | BBuf => e.(we_buf) = true
  | BStrfile => e.(we_strfile) = true
  | BReader => e.(we_reader) = true
  | BToken => is_Some e.(we_magic)
  end.

(** ** Lemmas *)

Section WorkerLemmas.
Context {F : Type} `{Posix F}.
Context (conf : weborf_configuration_t).
Context (cachedir : option bytes).
Context (turns depth : nat).
Context (requests : nat).

Lemma fresh_request_twice (w : world F) : fresh_request (fresh_request w) = fresh_request w.
Proof. done. Qed.

Lemma serve_alone_fresh jobs (w : world F) :
  serve_alone conf cachedir turns depth requests jobs w
  = serve_alone conf cachedir turns depth requests jobs (fresh_request w).
Proof. by destruct jobs. Qed.

Lemma reset_ok n (w : world F) :
  request_ok n w -> request_ok n (mkworld w.(w_conn) w.(w_out) (buffer_reset w.(w_read)) w.(w_net) w.(w_fs)).
Proof. intros [Hz [Hb ?]]. split; [done|]. unfold buf_wf. simpl. lia. Qed.

(** A job leaves the memory of the request as the next one needs it, and does not
    depend on what was in it. *)
Lemma serve_job_fresh j n (w : world F) :
  request_ok n w ->
  match serve_job conf cachedir turns depth requests j n w with
  | Some (n', w') =>
      request_ok n' w'
      /\ exists n2 w2, serve_job conf cachedir turns depth requests j 0 (fresh_request w) = Some (n2, w2)
           /\ w2.(w_out) = w'.(w_out) /\ fresh_request w2 = fresh_request w'
  | None => serve_job conf cachedir turns depth requests j 0 (fresh_request w) = None
  end.
Proof.
  intros Hok. unfold serve_job. destruct (j_accepted j).
  - pose proof (serve_connection_fresh conf cachedir turns depth (j_peer j) (j_net j) requests n w Hok) as E.
    destruct (serve_connection _ _ _ _ _ _ requests n w) as [[n' w']|] eqn:E1; [|done].
    split; [by eapply serve_connection_kept|]. by exists n', w'.
  - rewrite connect_fresh. destruct (connect _ _ w) as [w1|] eqn:E1; [|done].
    cbn [fmap option_fmap option_map mbind option_bind].
    split; [apply reset_ok; by eapply connect_kept|]. by eexists _, _.
Qed.

Lemma instance_loop_alone : forall jobs n ti (w : world F),
  request_ok n w ->
  (fun r => r.1.1.1) <$> instance_loop conf cachedir turns depth requests jobs n ti w
  = serve_alone conf cachedir turns depth requests jobs w.
Proof.
  induction jobs as [|j jobs IH]; intros n ti w Hok; [done|]. cbn [instance_loop serve_alone]. cbv zeta.
  destruct (j_sock j <? 0); [done|]. pose proof (serve_job_fresh j n w Hok) as Hj.
  destruct (serve_job _ _ _ _ _ j n w) as [[n' w']|]; [|by rewrite Hj].
  destruct Hj as (Hok' & n2 & w2 & -> & Eo & Ef). cbn [mbind option_bind].
  rewrite (serve_alone_fresh jobs w2), Ef, <-serve_alone_fresh, Eo, <-(IH n' (change_free_thread 1 0 (change_free_thread (-1) 0 ti)) w' Hok').
  by destruct (instance_loop _ _ _ _ _ jobs n' _ w') as [[[[served e] ti'] w3]|].
Qed.

Lemma path_app {Q} `{SynQueue Q} t ti (q : Q) t1 ti1 q1 d1 o ti' q' d :
  thread_path t ti q (Some t1) ti1 q1 d1 -> thread_path t1 ti1 q1 o ti' q' d ->
  thread_path t ti q o ti' q' (d1 ++ d).
Proof.
  intros E. remember (Some t1) as o1 eqn:Eo. revert Eo. induction E; intros [= ->]; [done|].
  intros Hp. rewrite <-app_assoc. eapply path_step; [done|]. by apply IHE.
Qed.

(** The loop as steps of a thread of the pool. *)
Lemma instance_loop_path {Q} `{SynQueue Q} : forall jobs n ti (w : world F) (q : Q) served ended ti' w',
  sq_ok q -> sq_contents q = map j_sock jobs ->
  instance_loop conf cachedir turns depth requests jobs n ti w = Some (served, ended, ti', w') ->
  exists q' d,
    thread_path Idle ti q (Some (if ended then Ending else Idle)) ti' q' d
    /\ List.filter (Z.leb 0) d = map fst served.
Proof.
  induction jobs as [|j jobs IH]; intros n ti w q served ended ti' w' Hq Hc E.
  - injection E as <- <- <- <-. exists q, []. split; [apply path_here | done].
  - cbn [instance_loop] in E. cbv zeta in E. destruct (sq_get_law q Hq) as (q1 & Hg & Hq1 & Hc1).
    rewrite Hc in Hg, Hc1. cbn [map head tail] in Hg, Hc1.
    pose proof (worker_get ti q _ q1 Hg) as S1. cbn in S1.
    pose proof (worker_busy ti q1 (j_sock j)) as S2.
    destruct (Z.ltb_spec (j_sock j) 0) as [Hs|Hs].
    + injection E as <- <- <- <-. exists q1, ([] ++ [j_sock j] ++ []).
      split; [eapply path_step; [exact S1|]; eapply path_step; [exact S2 | apply path_here]|].
      cbn. by destruct (Z.leb_spec 0 (j_sock j)); [lia|].
    + destruct (serve_job _ _ _ _ _ j n w) as [[n1 w1]|]; [|done]. cbn [mbind option_bind] in E.
      destruct (instance_loop _ _ _ _ _ jobs n1 _ w1) as [[[[served1 ended1] ti1] w2]|] eqn:El; [|done].
      cbn [mbind option_bind] in E. injection E as <- <- <- <-.
      destruct (IH n1 _ w1 q1 served1 ended1 ti1 w2 Hq1 Hc1 El) as (q' & d & Hp & Hd).
      exists q', ([] ++ [] ++ [j_sock j] ++ [] ++ d). split.
      * eapply path_step; [exact S1|]. eapply path_step; [exact S2|].
        eapply path_step; [apply worker_close|]. eapply path_step; [apply worker_free | exact Hp].
      * cbn. destruct (Z.leb_spec 0 (j_sock j)); [|lia]. cbn. by rewrite Hd.
Qed.
End WorkerLemmas.

(** ** Theorems *)

Section WorkerTheorems.
Context {F : Type} `{Posix F}.
Context (conf : weborf_configuration_t).
Context (cachedir : option bytes).
Context (turns depth : nat).
Context (requests : nat).

(** However many connections a worker serves, in whatever state each of them
    leaves it, every client gets what it would get from a worker that has just
    been started. *)
Theorem instance_serves_alone jobs ti (w : world F) :
  request_ok 0 w ->
  (fun r => r.1.1.1) <$> instance_loop conf cachedir turns depth requests jobs 0 ti w
  = serve_alone conf cachedir turns depth requests jobs w.
Proof. apply instance_loop_alone. Qed.

(** C23: a worker behaves as the threads of the pool of Listener.v do: whenever
    [instance] runs on the values of the queue, its calls of
    [change_free_thread], its turns at the queue and its closing of sockets are
    a path of [worker_step]s with the same counters, from the start of the
    thread to its end or its wait in [q_get]; each socket is closed once, in
    the order of the queue, after its client was served. *)
Theorem instance_refines_thread {Q} `{SynQueue Q} e jobs ti (w : world F) (q : Q) served blocks ti' w' :
  sq_ok q -> sq_contents q = map j_sock jobs ->
  instance conf cachedir turns depth requests e jobs ti w = Some (served, blocks, ti', w') ->
  exists q' d,
    thread_path Starting ti q (if blocks is Some _ then None else Some Idle) ti' q' d
    /\ List.filter (Z.leb 0) d = map fst served.
Proof.
  intros Hq Hc E. unfold instance in E. destruct (worker_init e) as [al [|]].
  - destruct (instance_loop _ _ _ _ _ jobs 0 _ w) as [[[[served1 ended] ti1] w1]|] eqn:El; [|done].
    cbn [mbind option_bind] in E.
    destruct (instance_loop_path conf cachedir turns depth requests _ _ _ _ q _ _ _ _ Hq Hc El) as (q' & d & Hp & Hd).
    destruct ended.
    + destruct (release_resources al) as [freed|]; [|done]. injection E as <- <- <- <-.
      exists q', (([] ++ d) ++ []). rewrite app_nil_r. split; [|done].
      rewrite <-(app_nil_r (_ ++ d)). eapply path_app; [eapply path_step; [apply worker_ready | exact Hp]|].
      apply path_last, worker_exit.
    + injection E as <- <- <- <-. exists q', ([] ++ d). split; [|done].
      eapply path_step; [apply worker_ready | exact Hp].
  - cbn [mbind option_bind] in E. destruct (release_resources al) as [freed|]; [|done]. injection E as <- <- <- <-.
    exists q, ([] ++ []). split; [|done]. eapply path_step; [apply worker_no_memory|].
    apply path_last, worker_exit.
Qed.

(** A worker that ends has released every block it had obtained, each once. *)
Theorem instance_releases e jobs ti (w : world F) served blocks ti' w' :
  instance conf cachedir turns depth requests e jobs ti w = Some (served, Some blocks, ti', w') ->
  NoDup blocks /\ forall b, b ∈ blocks <-> obtained e b.
Proof.
  unfold instance. destruct e as [buf strfile [[|]|] reader]; cbn [worker_init mime_init we_magic Z.eqb negb].
  2, 3: by cbn.
  intros E.
  assert (release_resources (mkalloc buf strfile (Some reader) true) = Some blocks) as Er.
  { destruct (if _ : bool then _ else _) as [[[[s e] ti1] w1]|]; [|done]. cbn [mbind option_bind] in E.
    destruct e; [|done]. by destruct (release_resources _) as [freed|]; [injection E as _ <- _ _|]. }
  clear E. destruct buf, strfile, reader; injection Er as <-; (split; [by_decision|]);
    intros []; cbn; rewrite ?elem_of_cons, ?elem_of_nil; naive_solver.
Qed.

(** When libmagic cannot be opened or loaded, [buffer_init] is not called, but
    [buffer_free] is: [free] gets a pointer that was never written. *)
Theorem instance_frees_garbage e jobs ti (w : world F) :
  e.(we_magic) <> Some true -> instance conf cachedir turns depth requests e jobs ti w = None.
Proof. destruct e as [buf strfile [[|]|] reader]; done. Qed.

(** [inetd] serves its client as a worker does. *)
Theorem inetd_as_worker e j (w : world F) :
  (worker_init e).2 = true -> j.(j_accepted) = true ->
  (fun r => (r.1, r.2.(w_out), r.2.(w_fs))) <$> inetd conf cachedir turns depth requests e j w
  = (fun r => (0, r.2.(w_out), r.2.(w_fs))) <$> serve_job conf cachedir turns depth requests j 0 w.
Proof.
  intros Hi Ha. unfold inetd, serve_job, serve_connection. rewrite Hi, Ha. cbn [negb].
  destruct (connect _ _ w) as [w1|]; [|done]. cbn [mbind option_bind].
  by destruct (handle_requests _ _ _ _ requests 0 w1) as [[n w2]|].
Qed.
End WorkerTheorems.

(** ** Witnesses *)

Definition sample_wenv : worker_env := mkwenv true true (Some true) true.

Definition sample_job (sock : Z) : job :=
  mkjob sock (PeerV4 (bs "10.0.0.1")) [NetData (bs "GET /a HTTP/1.0" ++ CRLF ++ CRLF); NetClosed] true.

(** A client, and the termination order. *)
Definition sample_jobs : list job := [sample_job 5; sample_job (-1)].

Definition sample_job_queue : syn_queue_t := mkqueue 2 2 0 0 [5; -1] 0 0.

Lemma sample_request_ok : request_ok 0 (sample_input []).
Proof. split; [|apply sample_buf_wf]. split_and!; reflexivity || (apply Nat.leb_le; reflexivity). Qed.

Lemma instance_serves_alone_witness :
  (fun r => r.1.1.1) <$> instance_loop sample_conf None 1 1 1 sample_jobs 0 init_thread_info (sample_input [])
  = serve_alone sample_conf None 1 1 1 sample_jobs (sample_input []).
Proof. apply (instance_serves_alone sample_conf None 1 1 1). apply sample_request_ok. Defined.

Lemma instance_refines_thread_witness :
  exists served ti' w' q' d,
    instance sample_conf None 1 1 1 sample_wenv sample_jobs (mkinfo 0 6) (sample_input [])
    = Some (served, Some [BBuf; BStrfile; BReader; BToken], ti', w')
    /\ thread_path Starting (mkinfo 0 6) sample_job_queue None ti' q' d
    /\ ti' = mkinfo 0 5 /\ List.filter (Z.leb 0) d = map fst served /\ map fst served = [5].
Proof.
  assert (sq_ok sample_job_queue) as Hq by (split; simpl; lia || done).
  destruct (instance sample_conf None 1 1 1 sample_wenv sample_jobs (mkinfo 0 6) (sample_input []))
    as [[[[served blocks] ti'] w']|] eqn:E; [|by vm_compute in E].
  destruct (instance_refines_thread sample_conf None 1 1 1 sample_wenv sample_jobs (mkinfo 0 6) (sample_input [])
              sample_job_queue served blocks ti' w' Hq eq_refl E) as (q' & d & Hp & Hd).
  vm_compute in E. injection E as <- <- <- <-. by eexists _, _, _, q', d.
Defined.

Lemma instance_releases_witness :
  exists served ti' w',
    instance sample_conf None 1 1 1 (mkwenv true false (Some true) true) [] (mkinfo 0 6) (sample_input [])
    = Some (served, Some [BBuf; BReader; BToken], ti', w')
    /\ NoDup [BBuf; BReader; BToken]
    /\ forall b, b ∈ [BBuf; BReader; BToken] <-> obtained (mkwenv true false (Some true) true) b.
Proof.
  eexists _, _, _. split; [reflexivity|].
  eapply (instance_releases sample_conf None 1 1 1 (mkwenv true false (Some true) true) [] (mkinfo 0 6) (sample_input [])).
  reflexivity.
Defined.

Lemma instance_frees_garbage_witness :
  instance sample_conf None 1 1 1 (mkwenv true true None true) sample_jobs init_thread_info (sample_input []) = None.
Proof. apply (instance_frees_garbage sample_conf None 1 1 1). discriminate. Defined.

Lemma inetd_as_worker_witness :
  (fun r => (r.1, r.2.(w_out), r.2.(w_fs)))
    <$> inetd sample_conf None 1 1 1 sample_wenv (sample_job 0) (sample_input [])
  = (fun r => (0, r.2.(w_out), r.2.(w_fs)))
    <$> serve_job sample_conf None 1 1 1 (sample_job 0) 0 (sample_input []).
Proof. apply (inetd_as_worker sample_conf None 1 1 1 sample_wenv); reflexivity. Defined.
