(* ===== verification/Total.v ===== *)
(** * Total correctness of the handlers' computations

    A weakest precondition for the monad of World.v: [total m Q w] says that
    [m] ends from [w] without leaving its memory and that its result satisfies
    [Q].  A computation is followed call by call, and each of the primitives
    has its rule; the rules that need nothing are found by the tactic [tot]. *)
From S2P Require Export Parse.

(** ** Specification *)

Definition total {F A} (m : M F A) (Q : A -> world F -> Prop) (w : world F) : Prop :=
  match m w with Some (x, w') => Q x w' | None => False end.

(** The bytes a client has sent and will send. *)
Fixpoint event_bytes (es : list net_event) : nat :=
  match es with
  | [] => 0
  | NetData d :: es => length d + event_bytes es
  | _ :: es => event_bytes es
  end.

Definition volume {F} (w : world F) : nat := length (buffered w.(w_read)) + event_bytes w.(w_net).

(** ** Lemmas: rules *)

Section Rules.
Context {F : Type} `{Posix F}.

Lemma total_run {A} (m : M F A) Q w :
  total m Q w <-> exists x w', m w = Some (x, w') /\ Q x w'.
Proof.
  unfold total. destruct (m w) as [[x w']|]; split; try done; [by eexists _, _|..];
    intros (x1 & w1 & E & HQ); [by injection E as <- <- | done].
Qed.

Lemma total_ret {A} (x : A) (Q : A -> world F -> Prop) w : Q x w -> total (mret x) Q w.
Proof. done. Qed.

Lemma total_bind {A B} (m : M F A) (f : A -> M F B) Q w :
  total m (fun x => total (f x) Q) w -> total (x ← m; f x) Q w.
Proof. unfold total, mbind, M_bind. by destruct (m w) as [[x w1]|]. Qed.

Lemma total_mono {A} (m : M F A) (P Q : A -> world F -> Prop) w :
  total m P w -> (forall x w', P x w' -> Q x w') -> total m Q w.
Proof. unfold total. destruct (m w) as [[x w1]|]; auto. Qed.

Lemma total_conn (Q : connection_t -> world F -> Prop) w : Q w.(w_conn) w -> total conn Q w.
Proof. done. Qed.

Lemma total_get_fs (Q : F -> world F -> Prop) w : Q w.(w_fs) w -> total get_fs Q w.
Proof. done. Qed.

Lemma total_upd f (Q : unit -> world F -> Prop) w :
  Q tt (with_conn w (f w.(w_conn))) -> total (upd f) Q w.
Proof. done. Qed.

Lemma total_on_fs {A} (f : F -> A * F) (Q : A -> world F -> Prop) w :
  Q (f w.(w_fs)).1 (with_fs w (f w.(w_fs)).2) -> total (on_fs f) Q w.
Proof. unfold total. rewrite on_fs_run. by destruct (f (w_fs w)). Qed.

Lemma total_lift {A} (o : option A) (Q : A -> world F -> Prop) w x :
  o = Some x -> Q x w -> total (lift o) Q w.
Proof. by intros ->. Qed.

Lemma total_send d (Q : Z -> world F -> Prop) w :
  (forall r p, Q r (sent w p)) -> total (sock_send d) Q w.
Proof. intros HQ. unfold total, sock_send. apply HQ. Qed.

Lemma total_upd_req f (Q : unit -> world F -> Prop) w m :
  f w.(w_conn).(req) = Some m -> Q tt (with_conn w (set_req m w.(w_conn))) -> total (upd_req f) Q w.
Proof. intros E HQ. unfold total. by rewrite (upd_req_run f w m E). Qed.
End Rules.

(** ** Lemmas: reading *)

Lemma event_bytes_split es : event_bytes es = (length (stream es) + event_bytes (after_stop es))%nat.
Proof.
  induction es as [|[[|x d]| | |] es IH]; cbn [event_bytes stream after_stop length app]; try done.
  rewrite length_app, IH. lia.
Qed.

Section Reading.
Context {F : Type} `{Posix F}.

(** No byte is lost or made up. *)
Lemma sock_read_total count (w : world F) :
  buf_wf w.(w_read) ->
  exists d b es,
    sock_read count w = Some ((Z.of_nat (length d), d), mkworld w.(w_conn) w.(w_out) b es w.(w_fs))
    /\ buf_wf b /\ (length d + (length (buffered b) + event_bytes es) = volume w)%nat
    /\ (length d <= Z.to_nat count)%nat.
Proof.
  intros Hwf. unfold sock_read, volume. destruct (Z.le_gt_cases 0 count) as [Hc|Hc].
  - destruct (buffer_read_run count _ w.(w_net) Hwf Hc) as (b & es & -> & Hb & R). cbv zeta in R.
    set (p := buffered (w_read w) ++ stream (w_net w)) in *.
    exists (take (Z.to_nat count) p), b, es. split; [done|]. split; [done|]. split; [|rewrite length_take; lia].
    pose proof (event_bytes_split w.(w_net)) as Ew. pose proof (event_bytes_split es) as Ee.
    assert (length p = length (buffered (w_read w)) + length (stream (w_net w)))%nat as Lp
      by (subst p; by rewrite length_app).
    rewrite length_take. destruct (Nat.leb_spec (Z.to_nat count) (length p)) as [Hk|Hk].
    + destruct R as [Hd Ha]. apply (f_equal length) in Hd. rewrite length_app, length_drop in Hd. rewrite Ha in Ee. lia.
    + destruct R as [-> ->]. cbn [length]. lia.
  - exists [], w.(w_read), w.(w_net). unfold buffer_read. rewrite Nat.add_comm. cbn [Nat.add buffer_read_loop].
    destruct (Z.ltb_spec 0 count); [lia|]. split_and!; [by destruct w | done | cbn [length]; lia | cbn [length]; lia].
Qed.

Lemma total_read count (Q : Z * bytes -> world F -> Prop) w :
  buf_wf w.(w_read) ->
  (forall d b es, buf_wf b -> (length d + (length (buffered b) + event_bytes es) = volume w)%nat ->
   (length d <= Z.to_nat count)%nat ->
   Q (Z.of_nat (length d), d) (mkworld w.(w_conn) w.(w_out) b es w.(w_fs))) ->
  total (sock_read count) Q w.
Proof.
  intros Hwf HQ. destruct (sock_read_total count w Hwf) as (d & b & es & E & Hb & Hv & Hl).
  apply total_run. eexists _, _. split; [exact E|]. by apply HQ.
Qed.

(** The bytes that the reading loop has put into the buffer. *)
Lemma read_header_volume fuel : forall from n (w w' : world F) o from' n',
  buf_wf w.(w_read) -> read_header fuel from n w = Some ((o, from', n'), w') ->
  (n' + volume w' = n + volume w)%nat.
Proof.
  induction fuel as [|f IH]; intros from n w w' o from' n' Hwf E; [done|]. cbn [read_header] in E.
  rewrite conn_bind in E. apply lift_bind_inv in E as (e & _ & E).
  destruct e as [e|]; [injection E as _ _ <- <-; done|].
  destruct (sock_read_total 2 w Hwf) as (d & b & es & Er & Hb & Hv & _).
  rewrite (bind_run _ _ _ _ _ Er) in E. cbn beta iota in E.
  set (w1 := mkworld w.(w_conn) w.(w_out) b es w.(w_fs)) in *.
  assert (volume w1 = length (buffered b) + event_bytes es)%nat as Hv1 by done.
  destruct (Z.leb_spec (Z.of_nat (length d)) 0); [injection E as _ _ <- <-; lia|].
  apply bind_inv in E as (u & w2 & E2 & E).
  assert (w_read w2 = b /\ w_net w2 = es) as [Hr2 Hn2].
  { unfold upd_req in E2. rewrite conn_bind in E2. apply lift_bind_inv in E2 as (m & _ & E2).
    by injection E2 as _ <-. }
  assert (volume w2 = volume w1) as Hv2 by (unfold volume; by rewrite Hr2, Hn2).
  rewrite conn_bind in E. apply lift_bind_inv in E as (x & _ & E). cbv zeta in E.
  destruct (_ <=? _)%nat; [injection E as _ _ <- <-; lia|].
  apply IH in E; [lia | by rewrite Hr2].
Qed.
End Reading.

(** Follows a computation through the calls whose rules need nothing. *)
Ltac tot_step :=
  match goal with
  | |- total (mbind _ _) _ _ => apply total_bind
  | |- total (mret _) _ _ => apply total_ret
  | |- total conn _ _ => apply total_conn
  | |- total get_fs _ _ => apply total_get_fs
  | |- total (upd _) _ _ => apply total_upd
  | |- total (on_fs _) _ _ => apply total_on_fs
  | |- total (sock_send _) _ _ => apply total_send; intros ? ?
  | |- total (file_exists _) _ _ => unfold file_exists
  end; cbv beta.

Ltac tot := repeat tot_step.
