(* ===== verification/Safety.v ===== *)
(** * The handlers stay within memory and end (instance.c, webdav.c, myio.c)

    Responses, files, directories, uploads' bodies, COPY and MOVE, in any
    configuration.  Each of the handlers keeps [serving], whatever the header
    fields hold, whatever the file system answers and whether or not the client
    takes what it is sent; the requests this needs something of are named by
    [answerable].  PROPFIND is in SafetyDav.v, scripts are in SafetyCgi.v and the
    dispatch of requests in SafetyRequests.v. *)
From stdpp Require Import relations.
From S2P Require Export Props Scripts Total.

(** ** Specification *)

(** The part of the state that the handlers rely on: the request, which ends at
    [e], the client's address, the buffer for file names, the reader, and at most [v] bytes to come. *)
Record serving {F} (e v : nat) (w : world F) : Prop := {
  sv_room : room e w.(w_conn).(req);
  sv_length : (length w.(w_conn).(req) <= INBUFFER + 1)%nat;
  sv_page : (w.(w_conn).(page) <= e)%nat;
  sv_param : (w.(w_conn).(http_param) <= e)%nat;
  sv_ip : (length w.(w_conn).(ip_addr) < INET6_ADDRSTRLEN)%nat;
  sv_strfile : length w.(w_conn).(strfile) = URI_LEN;
  sv_placed : exists u, placed u w.(w_conn);
  sv_read : buf_wf w.(w_read);
  sv_volume : (volume w <= v)%nat;
}.

(** Memory that was not written yet has a NUL somewhere, at the latest at its
    end: the code reads some of it. *)
Definition quiet_memory {F} `{Posix F} : Prop := forall n, (0 < n)%nat -> fresh n !! (n - 1)%nat = Some 0.

(** File sizes are of type [off_t]. *)
Definition size_ok (st : stat_t) : Prop := - 2 ^ 63 <= st.(st_size) < 2 ^ 63.

Definition sizes_ok {F} `{Posix F} : Prop := forall fs fd, size_ok (px_fstat fs fd).

(** ** Lemmas: memory *)

Lemma snprintf_total m p n s :
  (p + n <= length m)%nat -> (0 < n)%nat ->
  exists m', snprintf m p n s = Some (m', Z.of_nat (length s)) /\ length m' = length m
    /\ take p m' = take p m /\ exists k, (p <= k < p + n)%nat /\ m' !! k = Some 0.
Proof.
  intros Hl Hn. destruct (Nat.lt_ge_cases (length s) n) as [Hs|Hs].
  - rewrite snprintf_fits by lia. eexists. split; [done|]. split_and!.
    + rewrite !length_app, length_cons, length_take, length_drop. lia.
    + apply take_app_length'. rewrite length_take. lia.
    + exists (p + length s)%nat. split; [lia|]. rewrite app_assoc. apply lookup_mid_eq.
      rewrite length_app, length_take. lia.
  - rewrite snprintf_cut by lia. eexists. split; [done|]. split_and!.
    + rewrite !length_app, length_cons, !length_take, length_drop. lia.
    + apply take_app_length'. rewrite length_take. lia.
    + exists (p + (n - 1))%nat. split; [lia|]. rewrite app_assoc. apply lookup_mid_eq.
      rewrite length_app, !length_take. lia.
Qed.

Lemma cstr_at_head t r : cstr_at ((t ++ [0]) ++ r) 0 = Some (cstr_prefix (t ++ [0])).
Proof. apply (cstr_at_is_Some []); [done | set_solver]. Qed.

(** The name of a file in its buffer. *)
Lemma snprintf_name m s :
  length m = URI_LEN ->
  exists m', snprintf m 0 URI_LEN s = Some (m', Z.of_nat (length s)) /\ length m' = URI_LEN
    /\ cstr_at m' 0 = Some (cstr_prefix (take (URI_LEN - 1) s)).
Proof.
  intros Hm. assert (0 < URI_LEN)%nat as H0 by (unfold URI_LEN; lia).
  destruct (Nat.lt_ge_cases (length s) URI_LEN) as [Hs|Hs].
  - rewrite snprintf_fits by lia. eexists. split; [done|]. split.
    + rewrite !length_app, length_cons, length_take, length_drop. lia.
    + rewrite take_0, (take_ge s) by lia. cbn [app].
      replace (s ++ 0 :: drop (0 + length s + 1) m) with ((s ++ [0]) ++ drop (0 + length s + 1) m) by (by rewrite <-app_assoc).
      rewrite cstr_at_head. by rewrite cstr_prefix_app_nul.
  - rewrite snprintf_cut by lia. eexists. split; [done|]. split.
    + rewrite !length_app, length_cons, !length_take, length_drop. lia.
    + rewrite take_0. cbn [app]. set (t := take (URI_LEN - 1) s).
      replace (t ++ 0 :: drop (0 + URI_LEN) m) with ((t ++ [0]) ++ drop (0 + URI_LEN) m) by (by rewrite <-app_assoc).
      rewrite cstr_at_head. by rewrite cstr_prefix_app_nul.
Qed.

Lemma cstr_at_length m p s : cstr_at m p = Some s -> (p + length s < length m)%nat.
Proof.
  intros E. destruct (cstr_at_Some _ _ _ E) as (_ & post & Em & Lp).
  apply (f_equal length) in Em. rewrite !length_app, Lp in Em. cbn [length] in Em. lia.
Qed.

Lemma load_n_total m p n : (p + n <= length m)%nat -> is_Some (load_n m p n).
Proof. intros Hl. unfold load_n. destruct (Nat.leb_spec (p + n) (length m)); [by eexists | lia]. Qed.

(** ** Lemmas: responses *)

Lemma status_text_length code : 0 <= code < 1000 -> (length (status_text code (reason_phrase code)) <= 50)%nat.
Proof.
  intros Hc. unfold status_text, reason_phrase. rewrite !length_app.
  pose proof (dec_s_length code 3 ltac:(simpl; lia) ltac:(lia)).
  repeat case_match; cbn [length CRLF]; lia.
Qed.

Lemma http_head_length c code (size : option Z) headers content ts :
  0 <= code < 1000 -> (if size is Some n then (0 <= n < 2 ^ 64)%Z else True) ->
  (length (http_head c code size headers content ts) <= 200 + length (default [] headers))%nat.
Proof.
  intros Hc Hn. unfold http_head. rewrite !length_app.
  pose proof (status_text_length code Hc).
  assert (length (connection_header (protocol_version c) (keep_alive c)) <= 30)%nat
    by (unfold connection_header; destruct (protocol_version c =? HTTP_1_1), (keep_alive c);
        apply Nat.leb_le; reflexivity).
  assert (length (if (ts =? -1)%Z then [] else etag_text ts) <= 30)%nat.
  { destruct (ts =? -1); [simpl; lia|]. unfold etag_text. rewrite !length_app.
    pose proof (to_s_range 32 ts ltac:(lia)).
    pose proof (dec_s_length (to_s32 ts) 10 ltac:(unfold to_s32 in *; change (10 ^ Z.of_nat 10) with 10000000000; change (2 ^ (32 - 1)) with 2147483648 in *; lia) ltac:(lia)).
    cbn [length CRLF QUOTE]. lia. }
  assert (length (match size with Some n => if keep_alive c then length_text content n else [] | None => [] end) <= 40)%nat.
  { destruct size as [n|]; [|simpl; lia]. destruct (keep_alive c); [|simpl; lia].
    unfold length_text. rewrite !length_app.
    pose proof (dec_u_length n 20 ltac:(simpl; lia) ltac:(lia)).
    destruct content; cbn [length CRLF]; lia. }
  change (length server_text) with 32%nat. change (length CRLF) with 2%nat. lia.
Qed.

Section Answers.
Context {F : Type} `{Posix F}.

Lemma send_http_header_total code (size : option Z) headers content ts (Q : Z -> world F -> Prop) w :
  0 <= code < 1000 -> (if size is Some n then (0 <= n < 2 ^ 64)%Z else True) ->
  (length (default [] headers) <= 800)%nat ->
  (forall r p, Q r (sent (set_status code w) p)) ->
  total (send_http_header code size headers content ts) Q w.
Proof.
  intros Hc Hn Hh HQ. pose proof (http_head_length w.(w_conn) code size headers content ts Hc Hn) as Hl.
  destruct (px_malloc (Z.of_nat HEADBUF)) eqn:Em.
  - unfold total. rewrite send_http_header_run by done. cbv zeta.
    destruct (Nat.leb_spec (length (http_head (w_conn w) code size headers content ts)) HEADBUF);
      [apply HQ | unfold HEADBUF in *; lia].
  - unfold send_http_header. apply total_bind, total_upd. rewrite Em. apply total_ret.
    specialize (HQ ERR_NOMEM []). by rewrite sent_nil in HQ.
Qed.

Lemma send_two_total head_text page_text (Q : Z -> world F -> Prop) w :
  Z.of_nat (length page_text) < MAXSCRIPTOUT -> Z.of_nat (length head_text) < MAXSCRIPTOUT ->
  (forall r p, Q r (sent w p)) -> total (send_two head_text page_text) Q w.
Proof.
  intros Hp Hh HQ. unfold send_two.
  destruct (px_malloc _); cbn [negb]; [|apply total_ret; rewrite <-(sent_nil w); apply HQ].
  set (K := Z.to_nat MAXSCRIPTOUT). assert (length page_text < K /\ length head_text < K)%nat as [HpK HhK] by (subst K; lia). clearbody K.
  pose proof (fresh_length (HEADBUF + K)) as Lm. set (m := fresh (HEADBUF + K)) in *. clearbody m.
  destruct (snprintf_total m HEADBUF K page_text ltac:(lia) ltac:(lia)) as (m1 & E1 & L1 & _).
  destruct (snprintf_total m1 0 HEADBUF head_text ltac:(lia) ltac:(unfold HEADBUF; lia)) as (m2 & E2 & L2 & _).
  destruct (load_n_total m2 0 (length head_text) ltac:(lia)) as [d1 Ed1].
  destruct (load_n_total m2 HEADBUF (length page_text) ltac:(lia)) as [d2 Ed2].
  apply total_bind. eapply total_lift; [exact E1|]. cbv beta iota.
  apply total_bind. eapply total_lift; [exact E2|]. cbv beta iota. rewrite !Nat2Z.id.
  apply total_bind. eapply total_lift; [exact Ed1|]. apply total_bind, total_send. intros r p.
  destruct (negb _); [apply total_ret, HQ|].
  apply total_bind. eapply total_lift; [exact Ed2|]. apply total_bind, total_send. intros r2 p2.
  rewrite sent_sent. destruct (negb _); apply total_ret, HQ.
Qed.

Lemma send_err_total err descr (Q : Z -> world F -> Prop) w :
  Z.of_nat (length (err_page err descr)) < MAXSCRIPTOUT ->
  Z.of_nat (length (err_head err descr (Z.of_nat (length (err_page err descr))))) < MAXSCRIPTOUT ->
  (forall r p, Q r (sent (set_status err w) p)) -> total (send_err err descr) Q w.
Proof.
  intros Hp Hh HQ. unfold send_err. apply total_bind, total_upd. cbv zeta. by apply send_two_total.
Qed.

(** Nothing but the status and what was sent is different. *)
Definition answered (w w' : world F) : Prop := w' = w \/ exists code p, w' = sent (set_status code w) p.

Lemma answered_sent code p (w : world F) : answered w (sent (set_status code w) p).
Proof. right. by eexists _, _. Qed.

Lemma serving_answered e v (w w' : world F) : serving e v w -> answered w w' -> serving e v w'.
Proof. intros [? ? ? ? ? ? ? ? ?] [->|(code & p & ->)]; by split. Qed.

Lemma serving_fs e v (w : world F) fs : serving e v w -> serving e v (with_fs w fs).
Proof. intros [? ? ? ? ? ? ? ? ?]; by split. Qed.

Lemma cstring_total e v p (Q : bytes -> world F -> Prop) w :
  serving e v w -> (p <= e)%nat ->
  (forall s, cstr_at w.(w_conn).(req) p = Some s -> (length s <= INBUFFER)%nat -> Q s w) -> total (cstring p) Q w.
Proof.
  intros [Hr Hl _ _ _ _ _ _] Hp HQ. destruct (cstr_at_nul w.(w_conn).(req) p e Hp (rm_nul _ _ Hr)) as [s Es].
  unfold cstring. apply total_bind, total_conn. eapply total_lift; [exact Es|]. apply HQ; [exact Es|].
  pose proof (cstr_at_length _ _ _ Es). lia.
Qed.

Lemma send_error_header_total e v retval (Q : Z -> world F -> Prop) w :
  serving e v w -> (forall r w', answered w w' -> Q r w') -> total (send_error_header retval) Q w.
Proof.
  intros Hs HQ. unfold send_error_header.
  repeat match goal with |- total (if ?b then _ else _) _ _ => destruct b end;
  match goal with
  | |- total (mret _) _ _ => apply total_ret, HQ; by left
  | |- total (send_err _ _) _ _ =>
      apply send_err_total; [reflexivity | reflexivity | intros r p; apply HQ, answered_sent]
  | |- total (send_http_header _ _ _ _ _) _ _ =>
      apply send_http_header_total; [lia | done | simpl; lia | intros r p; apply HQ, answered_sent]
  | |- total request_auth _ _ => idtac
  end.
  unfold request_auth. apply total_bind, total_conn, total_bind.
  eapply cstring_total; [exact Hs | apply Hs |]. intros s _ Hl. apply total_bind, total_upd. cbv zeta.
  set (n := Z.of_nat (length (auth_page s))).
  assert (0 <= n < 10000) as Hn.
  { subst n. unfold auth_page. rewrite !length_app. assert (length HTMLHEAD <= 2000)%nat by (apply Nat.leb_le; reflexivity).
    assert (length HTMLFOOT <= 2000)%nat by (apply Nat.leb_le; reflexivity). unfold INBUFFER in *. cbn [length]. lia. }
  apply send_two_total.
  - subst n. unfold MAXSCRIPTOUT. lia.
  - unfold auth_head. rewrite !length_app. pose proof (dec_s_length n 4 ltac:(change (10 ^ Z.of_nat 4) with 10000; lia) ltac:(lia)).
    change (length server_text) with 32%nat. unfold MAXSCRIPTOUT, INBUFFER in *. cbn [length CRLF QUOTE]. lia.
  - intros r p. apply HQ, (answered_sent 401).
Qed.
End Answers.

(** ** Lemmas: header fields *)

(** What [param] leaves in its buffer. *)
Definition field_in (size : Z) (buf : bytes) (b : bool) (buf' : bytes) : Prop :=
  length buf' = length buf
  /\ if b then exists l, (Z.of_nat l + 1 < size) /\ buf' !! l = Some 0 /\ drop (S l) buf' = drop (S l) buf
     else buf' = buf.

Lemma field_in_nul size buf buf' : field_in size buf true buf' -> exists k, buf' !! k = Some 0.
Proof. intros [_ (l & _ & Hl & _)]. by exists l. Qed.

(** The last byte is still the one it was. *)
Lemma field_in_last size buf b buf' :
  field_in size buf b buf' -> size <= Z.of_nat (length buf) -> (0 < length buf)%nat ->
  buf' !! (length buf - 1)%nat = buf !! (length buf - 1)%nat.
Proof.
  intros [Hl Hb] Hs Hp. destruct b; [|by subst]. destruct Hb as (l & Hle & _ & Hd).
  replace (length buf - 1)%nat with (S l + (length buf - 1 - S l))%nat by lia.
  by rewrite <-!lookup_drop, Hd.
Qed.

Section Fields.
Context {F : Type} `{Posix F}.

Lemma param_total_run e v name buf size (Q : bool * bytes -> world F -> Prop) w :
  serving e v w -> size <= Z.of_nat (length buf) ->
  (forall b buf', get_param_value w.(w_conn).(req) w.(w_conn).(http_param) name buf size (Z.of_nat (length name)) = Some (b, buf') ->
     field_in size buf b buf' -> Q (b, buf') w) -> total (param name buf size) Q w.
Proof.
  intros [Hr _ _ Hp _ _ _ _ _] Hs HQ.
  destruct (get_param_value_room e _ _ name buf size Hr Hp Hs) as (b & buf' & E & Hl & Hb).
  unfold param. apply total_bind, total_conn. eapply total_lift; [exact E|]. by apply HQ.
Qed.

Lemma param_total e v name buf size (Q : bool * bytes -> world F -> Prop) w :
  serving e v w -> size <= Z.of_nat (length buf) ->
  (forall b buf', field_in size buf b buf' -> Q (b, buf') w) -> total (param name buf size) Q w.
Proof. intros Hs Hl HQ. eapply param_total_run; [exact Hs | exact Hl |]. intros b buf' _. apply HQ. Qed.

(** ** Lemmas: files *)

Lemma check_etag_total e v a (Q : Z * bytes -> world F -> Prop) w :
  serving e v w -> length a = ABUFFER -> a !! (ABUFFER - 1)%nat = Some 0 ->
  (forall w', answered w w' -> (forall a', Q (0, a') w')) ->
  (forall a', length a' = ABUFFER -> Q (1, a') w) -> total (check_etag a) Q w.
Proof.
  intros Hs La Ha H0 H1. unfold check_etag. apply total_bind.
  eapply param_total; [exact Hs | rewrite La; unfold ABUFFER, RBUFFER, MIMETYPELEN; lia |].
  intros b a' Hf. cbv beta iota. assert (length a' = ABUFFER) as La' by (destruct Hf; congruence).
  destruct b; [|apply total_ret; by apply H1].
  assert (a' !! (ABUFFER - 1)%nat = Some 0) as Hn.
  { rewrite <-La in *. rewrite (field_in_last _ _ _ _ Hf); [done | rewrite La; unfold ABUFFER, RBUFFER, MIMETYPELEN; lia
      | rewrite La; unfold ABUFFER; lia]. }
  destruct (cstr_at_nul a' 1 (ABUFFER - 1)) as [s Es]; [unfold ABUFFER, RBUFFER; lia | done |].
  apply total_bind. eapply total_lift; [exact Es|]. cbv zeta. apply total_bind, total_conn.
  destruct (_ =? _); [|apply total_ret; by apply H1].
  apply total_bind, send_http_header_total; [lia | done | simpl; lia |].
  intros r p. apply total_ret. apply H0. apply answered_sent.
Qed.

Lemma parse_range_total a size :
  (exists k, a !! k = Some 0) ->
  exists a' r, parse_range a size = Some (a', r) /\ length a' = length a
    /\ (forall from to, r = Some (from, to) -> 0 <= from < 2 ^ 64 /\ 0 <= to < 2 ^ 64).
Proof.
  intros [k Hk]. unfold parse_range.
  destruct (strstr_nul a 0 k (bs "=") ltac:(lia) Hk) as [[q|] Eq]; rewrite Eq; cbn [mbind option_bind];
    [|by eexists _, None].
  assert (exists s, cstr_at a 0 = Some s) as [s Es] by (by destruct (cstr_at_nul a 0 k ltac:(lia) Hk) as [s ?]; exists s).
  set (z := length s). assert (a !! z = Some 0) as Hz.
  { destruct (cstr_at_Some _ _ _ Es) as (_ & post & Em & _). rewrite Em, take_0. apply lookup_mid. }
  assert (q + 1 <= z)%nat as Hq by (pose proof (strstr_before z a 0 (bs "=") q Hz ltac:(lia) Eq) as Hb; exact Hb).
  destruct (strstr_nul a q z (bs "-") ltac:(lia) Hz) as [[m|] Em]; rewrite Em; cbn [mbind option_bind];
    [|by eexists _, None].
  pose proof (strstr_before z a q (bs "-") m Hz ltac:(lia) Em) as Hm. cbn [length] in Hm.
  assert (q < m)%nat as Hqm.
  { unfold strstr in Eq, Em. rewrite Es in Eq. cbn [mbind option_bind] in Eq.
    destruct (find_sub (bs "=") s) as [i|] eqn:Ei; [|done]. injection Eq as <-.
    change (0 + i)%nat with i in *. destruct (cstr_at a i) as [t|] eqn:Et; [|done]. cbn [mbind option_bind] in Em.
    destruct (find_sub (bs "-") t) as [j|] eqn:Ej; [|done]. injection Em as <-.
    destruct (decide (j = 0%nat)) as [->|]; [exfalso|lia].
    apply find_sub_at in Ei, Ej. rewrite drop_0 in Ej.
    apply cstr_at_prefix in Es, Et. rewrite drop_0 in Es.
    apply starts_with_spec in Ei as [x Ex], Ej as [y Ey].
    destruct (cstr_prefix_app_rest a) as [u Eu]. rewrite Es in Eu.
    assert (drop i a = drop i s ++ u) as Ed.
    { rewrite Eu at 1. rewrite drop_app_le; [done|]. apply (f_equal length) in Ex. rewrite length_drop in Ex.
      cbn [length app] in Ex. lia. }
    rewrite Ed, Ex in Et. cbn [app cstr_prefix Z.eqb] in Et. rewrite Ey in Et.
    done. }
  assert (m < length a)%nat by (apply lookup_lt_Some in Hz; lia).
  rewrite store_Some by lia. cbn [mbind option_bind].
  assert (forall p, (p <= m)%nat -> is_Some (cstr_at (<[m := to_char 0]> a) p)) as H1
    by (intros p Hp; apply (cstr_at_nul _ p m); [lia | by apply list_lookup_insert_eq]).
  destruct (H1 (q + 1)%nat ltac:(lia)) as [fs Ef]. rewrite Ef. cbn [mbind option_bind].
  destruct (cstr_at_nul (<[m := to_char 0]> a) (m + 1) z) as [ts Et];
    [lia | rewrite list_lookup_insert_ne by lia; done |].
  rewrite Et. cbn [mbind option_bind]. eexists _, _. split; [done|]. split; [apply length_insert|].
  intros from to [= <- <-]. split; [apply to_u_range; lia|]. destruct (_ && _); apply to_u_range; lia.
Qed.
End Fields.

Section SendFiles.
Context {F : Type} `{Posix F}.
Context (conf : weborf_configuration_t).
Context (Hquiet : quiet_memory).

Lemma fresh_last n k : n = S k -> fresh n !! k = Some 0.
Proof. intros ->. pose proof (Hquiet (S k) ltac:(lia)) as E. by rewrite Nat.sub_succ, Nat.sub_0_r in E. Qed.

Lemma head_print_total x t s :
  head_inv ABUFFER t s -> (length t < ABUFFER)%nat ->
  exists s', head_print x s = Some s' /\ length s'.(hd_buf) = ABUFFER /\ exists k, s'.(hd_buf) !! k = Some 0.
Proof.
  intros (Hl & Hp & Hle & _) Ht. unfold head_print. rewrite Hp, Hle, Nat2Z.id.
  rewrite to_u_small by (unfold ABUFFER, RBUFFER, MIMETYPELEN in *; lia).
  destruct (snprintf_total s.(hd_buf) (length t) (Z.to_nat (Z.of_nat ABUFFER - Z.of_nat (length t))) x ltac:(lia) ltac:(lia))
    as (m & E & Lm & _ & k & _ & Hk).
  rewrite E. cbn [mbind option_bind]. eexists. split; [done|]. cbn [hd_buf]. split; [congruence|]. by exists k.
Qed.

Lemma send_file_header_total code count pos h t (Q : Z * Z * Z -> world F -> Prop) w :
  0 <= code < 1000 -> 0 <= count < 2 ^ 64 -> head_inv ABUFFER t h -> (length t < ABUFFER)%nat ->
  (exists k, h.(hd_buf) !! k = Some 0) ->
  (forall r p, Q r (sent (set_status code w) p)) -> total (send_file_header conf code count pos h) Q w.
Proof.
  intros Hc Hn Hi Ht Hk HQ. unfold send_file_header. apply total_bind, total_conn, total_bind, total_get_fs, total_bind.
  assert (forall h', length h'.(hd_buf) = ABUFFER -> (exists k, h'.(hd_buf) !! k = Some 0) ->
    total (a ← lift (cstr_at (hd_buf h') 0);
           _ ← send_http_header code (Some count) (Some a) true (st_mtime (strfile_stat (w_conn w)));
           mret (count, 0, pos)) Q w) as Hrest.
  { intros h' Lh [k Hk']. destruct (cstr_at_nul (hd_buf h') 0 k ltac:(lia) Hk') as [s Es].
    pose proof (cstr_at_length _ _ _ Es) as Ls. apply total_bind. eapply total_lift; [exact Es|].
    apply total_bind, send_http_header_total; [done | done | |].
    - cbn [default id]. unfold ABUFFER, RBUFFER, MIMETYPELEN in *. lia.
    - intros r p. apply total_ret, HQ. }
  destruct (c_send_content_type conf).
  - cbv zeta. match goal with |- total (lift (head_print ?x h)) _ _ =>
      destruct (head_print_total x t h Hi Ht) as (h' & E & Lh & Hk') end.
    eapply total_lift; [exact E|]. by apply Hrest.
  - apply total_ret, Hrest; [apply Hi | done].
Qed.

Lemma range_text_length from to size :
  0 <= from < 2 ^ 64 -> 0 <= to < 2 ^ 64 -> - 2 ^ 63 <= size < 2 ^ 63 ->
  (length (range_text from to size) < ABUFFER)%nat.
Proof.
  intros Hf Ht Hs. unfold range_text. rewrite !length_app.
  pose proof (dec_u_length from 20 ltac:(change (10 ^ Z.of_nat 20) with 100000000000000000000; lia) ltac:(lia)).
  pose proof (dec_u_length to 20 ltac:(change (10 ^ Z.of_nat 20) with 100000000000000000000; lia) ltac:(lia)).
  pose proof (dec_s_length size 19 ltac:(change (10 ^ Z.of_nat 19) with 10000000000000000000; lia) ltac:(lia)).
  cbn [length CRLF]. unfold ABUFFER, RBUFFER, MIMETYPELEN. lia.
Qed.

Lemma if_range_read c2 :
  field_in (Z.of_nat RBUFFER) (fresh RBUFFER) true c2 -> exists s, cstr_at c2 1 = Some s.
Proof.
  intros Hf. apply (cstr_at_nul c2 1 127); [lia|].
  pose proof (field_in_last _ _ _ _ Hf) as E. rewrite fresh_length in E.
  change RBUFFER with 128%nat in E. cbn [Nat.sub] in E. rewrite E by lia. by apply fresh_last.
Qed.

(** The two ways on in [bytes_to_send]: all of the file, or the part that was
    asked for. *)
Lemma send_whole_total a (Q : Z * Z * Z -> world F -> Prop) w :
  length a = ABUFFER -> (forall r w', answered w w' -> Q r w') ->
  total (a ← lift (store a 0 0);
         send_file_header conf 200 (to_u64 (st_size (strfile_stat (w_conn w)))) 0 (mkhead a 0 (Z.of_nat ABUFFER))) Q w.
Proof.
  intros La HQ. assert (ABUFFER = 159%nat) as HA by reflexivity.
  apply total_bind. eapply total_lift; [apply store_Some; lia|].
  apply (send_file_header_total _ _ _ _ []); [lia | apply to_u_range; lia | | simpl; lia | |].
  - apply head_inv_start. by rewrite length_insert.
  - exists 0%nat. cbn [hd_buf]. by apply list_lookup_insert_eq; lia.
  - intros r p. apply HQ, answered_sent.
Qed.

Lemma send_part_total a size (Q : Z * Z * Z -> world F -> Prop) w :
  length a = ABUFFER -> (exists k, a !! k = Some 0) -> - 2 ^ 63 <= size < 2 ^ 63 ->
  (forall r w', answered w w' -> Q r w') ->
  total ('(a, r) ← lift (parse_range a size);
         match r with
         | None => mret (0, ERR_NOTHTTP, 0)
         | Some (from, to) =>
             h ← lift (head_print (range_text from to size) (mkhead a 0 (Z.of_nat ABUFFER)));
             let count := to_u64 (to - from + 1) in
             if (to_u64 size <=? from) || (to_u64 size <? to_u64 (from + count))
             then mret (0, ERR_RANGE_NOT_SATISFIABLE, 0)
             else send_file_header conf 206 count from h
         end) Q w.
Proof.
  intros La Hnul Hz HQ. assert (ABUFFER = 159%nat) as HA by reflexivity.
  destruct (parse_range_total a size Hnul) as (a3 & r & E & L3 & Hr).
  apply total_bind. eapply total_lift; [exact E|]. cbv beta iota.
  destruct r as [[from to]|]; [|apply total_ret, HQ; by left]. destruct (Hr from to eq_refl) as [Hfr Hto].
  set (x := range_text _ _ _). assert (length x < ABUFFER)%nat as Lx by (apply range_text_length; done).
  assert (head_inv ABUFFER [] (mkhead a3 0 (Z.of_nat ABUFFER))) as Hi by (apply head_inv_start; lia).
  destruct (head_print_str ABUFFER [] x _ ltac:(lia) Hi Lx) as (h & Eh & Hh & Hnul2).
  apply total_bind. eapply total_lift; [exact Eh|]. cbv zeta.
  destruct (_ || _); [apply total_ret, HQ; by left|].
  apply (send_file_header_total _ _ _ _ x); [lia | apply to_u_range; lia | done | done | by eexists |].
  intros r p. apply HQ, answered_sent.
Qed.

Lemma bytes_to_send_total e v a (Q : Z * Z * Z -> world F -> Prop) w :
  serving e v w -> size_ok w.(w_conn).(strfile_stat) -> length a = ABUFFER ->
  (forall r w', answered w w' -> Q r w') -> total (bytes_to_send conf a) Q w.
Proof.
  intros Hs Hz La HQ. assert (ABUFFER = 159%nat) as HA by reflexivity. assert (RBUFFER = 128%nat) as HR by reflexivity.
  unfold bytes_to_send. apply total_bind. eapply total_lift; [apply store_Some; lia|].
  apply total_bind. eapply param_total; [exact Hs | rewrite length_insert; lia |].
  intros b a2 Hf. cbv beta iota. assert (length a2 = ABUFFER) as La2 by (destruct Hf as [-> _]; by rewrite length_insert).
  apply total_bind, total_conn. cbv zeta. apply total_bind.
  destruct b; [|apply total_ret; by apply send_whole_total].
  apply total_bind. eapply param_total; [exact Hs | rewrite fresh_length; lia |].
  intros b2 c2 Hf2. cbv beta iota.
  destruct b2; [destruct (if_range_read _ Hf2) as [s Es]; apply total_bind; eapply total_lift; [exact Es|]|];
    apply total_ret; cbn [andb]; (destruct (_ =? _); [|by apply send_whole_total]);
    (apply send_part_total; [done | exact (field_in_nul _ _ _ Hf) | exact Hz | exact HQ]).
Qed.

Lemma fd_copy_total src err count (Q : Z -> world F -> Prop) w :
  (forall r p, Q r (sent w p)) -> total (fd_copy src err count) Q w.
Proof.
  intros HQ. unfold fd_copy. destruct (px_malloc FILEBUF).
  - destruct (fd_copy_loop_run (S (length src)) src err count w ltac:(lia)) as (p & q & E & _).
    apply total_bind, total_run. eexists _, _. split; [exact E|]. apply total_ret, HQ.
  - apply total_ret. rewrite <-(sent_nil w). apply HQ.
Qed.

Lemma write_file_total e v (Q : Z -> world F -> Prop) w :
  serving e v w -> size_ok w.(w_conn).(strfile_stat) ->
  (forall r w', serving e v w' -> Q r w') -> total (write_file conf) Q w.
Proof.
  intros Hs Hz HQ. unfold write_file. apply total_bind.
  eapply check_etag_total; [exact Hs | apply fresh_length | by apply fresh_last | |].
  - intros w' Hw a'. cbv beta iota. apply total_ret, HQ. by eapply serving_answered.
  - intros a' La'. cbv beta iota. apply total_bind. eapply bytes_to_send_total; [exact Hs | done | done |].
    intros [[count err] pos] w' Hw. cbv beta iota. pose proof (serving_answered _ _ _ _ Hs Hw) as Hs'.
    destruct (negb _); [by apply total_ret, HQ|].
    apply total_bind, total_conn, total_bind, total_get_fs, fd_copy_total. intros r p. apply HQ.
    destruct Hs'. by split.
Qed.
End SendFiles.

(** ** Lemmas: bodies, and files that are copied *)

Section Bodies.
Context {F : Type} `{Posix F}.
Context (Hquiet : quiet_memory).

(** As many bytes as the length says. *)
Definition body_whole (s : string_t) : Prop :=
  forall d, s.(sp_data) = Some d -> (Z.to_nat s.(sp_len) <= length d)%nat.

Lemma read_post_data_total e v (Q : string_t -> world F -> Prop) w :
  serving e v w ->
  (forall s w', serving e v w' -> w_conn w' = w_conn w -> w_fs w' = w_fs w -> body_whole s -> Q s w') ->
  total read_post_data Q w.
Proof.
  intros Hs HQ. unfold read_post_data. apply total_bind.
  eapply param_total; [exact Hs | by rewrite fresh_length|]. intros b a Hf. cbv beta iota.
  destruct b; [|apply total_ret; by apply HQ].
  destruct (field_in_nul _ _ _ Hf) as [k Hk]. destruct (cstr_at_nul a 0 k ltac:(lia) Hk) as [s Es].
  apply total_bind. eapply total_lift; [exact Es|]. cbv zeta.
  destruct (_ && _); [|apply total_ret; by apply HQ].
  apply total_bind, total_read; [apply Hs|]. intros d b' es Hb Hv _. cbv beta iota. apply total_ret, HQ; [|done..|].
  2:{ intros ? [= <-]. cbn [sp_len]. rewrite Nat2Z.id, length_app. lia. }
  destruct Hs as [? ? ? ? ? ? ? ? Hvol]. split; try done. unfold volume in *. cbn [w_read w_net]. lia.
Qed.

Lemma file_copy_loop_total fuel : forall src err fd (Q : Z -> world F -> Prop) w,
  (length src < fuel)%nat -> (forall r fs, Q r (with_fs w fs)) -> total (file_copy_loop fuel src err fd) Q w.
Proof.
  induction fuel as [|f IH]; intros src err fd Q w Hl HQ; [lia|]. cbn [file_copy_loop].
  destruct (fd_read_pos src err FILEBUF ltac:(done)) as [Hp _].
  destruct (fd_read src err FILEBUF) as [read_ buf] eqn:E. cbn [fst] in Hp. rewrite Hp. injection E as _ <-.
  destruct src as [|x src].
  - apply total_ret. rewrite <-(with_fs_id w). apply HQ.
  - apply total_bind, total_on_fs. destruct (_ =? _); [|apply total_ret, HQ].
    apply IH; [|intros r fs; rewrite with_fs_with_fs; apply HQ].
    rewrite length_drop, length_take. cbn [length] in *. unfold FILEBUF. lia.
Qed.

Lemma file_copy_total source dest (Q : Z -> world F -> Prop) w :
  (forall r fs, Q r (with_fs w fs)) -> total (file_copy source dest) Q w.
Proof.
  intros HQ. unfold file_copy. apply total_bind, total_on_fs. destruct (_ <? 0); [apply total_ret, HQ|].
  apply total_bind, total_get_fs. cbv zeta. destruct (_ <? 0); [apply total_ret, HQ|].
  destruct (negb _); [apply total_ret, HQ|]. apply file_copy_loop_total; [lia|].
  intros r fs. rewrite with_fs_with_fs. apply HQ.
Qed.

Lemma file_move_total source dest (Q : Z -> world F -> Prop) w :
  (forall r fs, Q r (with_fs w fs)) -> total (file_move source dest) Q w.
Proof.
  intros HQ. unfold file_move. apply total_bind, total_on_fs.
  destruct (px_rename _ _ _).1 as [[]|]; cbn beta iota; try apply total_ret, HQ.
  apply total_bind, file_copy_total. intros r fs. rewrite with_fs_with_fs.
  destruct (r =? 0); [|apply total_ret, HQ]. apply total_bind, total_on_fs. rewrite with_fs_with_fs. apply total_ret, HQ.
Qed.

Lemma dest_path_total dest host (Q : option bytes -> world F -> Prop) w :
  (exists k, dest !! k = Some 0) -> (exists k, host !! k = Some 0) ->
  (forall r, Q r w) -> total (dest_path dest host) Q w.
Proof.
  intros [k Hk] [j Hj] HQ. unfold dest_path.
  destruct (cstr_at_nul dest 0 k ltac:(lia) Hk) as [d Ed]. pose proof (cstr_at_length _ _ _ Ed) as Ld.
  destruct (cstr_at_nul host 0 j ltac:(lia) Hj) as [h Eh].
  destruct (lookup_lt_is_Some_2 dest 0 ltac:(lia)) as [d0 E0].
  apply total_bind. eapply total_lift; [exact E0|]. destruct (d0 =? _).
  { apply total_bind. eapply total_lift; [exact Ed|]. apply total_ret, HQ. }
  apply total_bind. eapply total_lift; [exact Eh|].
  assert (dest !! length d = Some 0) as Hz
    by (destruct (cstr_at_Some _ _ _ Ed) as (_ & post & Em & _); rewrite Em, take_0; apply lookup_mid).
  destruct (strstr_nul dest 0 k h ltac:(lia) Hk) as [p Ep].
  apply total_bind. eapply total_lift; [exact Ep|]. destruct p as [p|]; [|apply total_ret, HQ].
  pose proof (strstr_before (length d) dest 0 h p Hz (Nat.le_0_l _) Ep) as Hp.
  destruct (cstr_at_nul dest (p + length h) (length d) Hp Hz) as [t Et].
  apply total_bind. eapply total_lift; [exact Et|]. apply total_ret, HQ.
Qed.

Lemma copy_move_total depth e v path (Q : Z -> world F -> Prop) w :
  serving e v w -> cstr_at w.(w_conn).(strfile) 0 = Some path ->
  S_ISDIR (default px_garbage_stat (px_stat w.(w_fs) path)).(st_mode) = false ->
  (forall r fs, Q r (with_fs w fs)) -> total (copy_move depth) Q w.
Proof.
  intros Hs Hp Hd HQ. assert (forall r, Q r w) as HQ0 by (intros r; rewrite <-(with_fs_id w); apply HQ).
  unfold copy_move. destruct (negb _); [apply total_ret, HQ0|].
  assert (forall b a, field_in (Z.of_nat PATH_LEN) (fresh PATH_LEN) b a ->
            length a = PATH_LEN /\ a !! 1023%nat = Some 0) as Hbuf.
  { intros b a Hf. pose proof (field_in_last _ _ _ _ Hf) as E. rewrite fresh_length in E. change (PATH_LEN - 1)%nat with 1023%nat in E.
    split; [destruct Hf as [-> _]; apply fresh_length|]. rewrite E; [by apply fresh_last | done | unfold PATH_LEN; lia]. }
  apply total_bind. eapply param_total; [exact Hs | by rewrite fresh_length|]. intros hb host [Lh Nh]%Hbuf. cbv beta iota.
  apply total_bind. eapply param_total; [exact Hs | by rewrite fresh_length|]. intros db dest [Ld Nd]%Hbuf. cbv beta iota.
  apply total_bind. eapply param_total; [exact Hs | by rewrite fresh_length|]. intros ob over [Lo No]%Hbuf. cbv beta iota.
  destruct (lookup_lt_is_Some_2 over 0 ltac:(rewrite Lo; unfold PATH_LEN; lia)) as [o0 E0].
  destruct (lookup_lt_is_Some_2 over 1 ltac:(rewrite Lo; unfold PATH_LEN; lia)) as [o1 E1].
  apply total_bind. eapply total_lift; [exact E0|]. apply total_bind. eapply total_lift; [exact E1|].
  destruct (hb && negb db); [apply total_ret, HQ0|]. destruct (ob && _); [apply total_ret, HQ0|]. cbv zeta.
  apply total_bind, dest_path_total; [by eexists | by eexists|]. intros [d|]; [|apply total_ret, HQ0].
  apply total_bind, total_conn, total_bind. eapply total_lift; [exact Hp|].
  destruct (bool_decide _); [apply total_ret, HQ0|]. apply total_bind. unfold file_exists.
  apply total_bind, total_get_fs, total_ret. destruct (_ && px_access _ _); [apply total_ret, HQ0|].
  apply total_bind, total_get_fs. cbv zeta. rewrite Hd. apply total_bind.
  destruct (_ =? COPY); [apply file_copy_total | apply file_move_total]; intros r fs; apply total_ret, HQ.
Qed.
End Bodies.

(** ** Specification: what is asked for *)

Section Asked.
Context {F : Type} `{Posix F}.
Context (conf : weborf_configuration_t).

(** The name that is printed into the buffer for file names, and what of it
    the file system sees. *)
Definition target (c : connection_t) : bytes := c.(basedir) ++ default [] (cstr_at c.(req) c.(page)).

Definition opened (name : bytes) : bytes := cstr_prefix (take (URI_LEN - 1) name).

(** A directory whose page fits the memory for listings; there is memory for the
    names of its entries. *)
Definition listable (fs : F) (name : bytes) : Prop :=
  px_malloc (Z.of_nat ESCAPED_FNAME_LEN) = true
  /\ exists names, px_scandir fs name = Some names
    /\ let es := entries_of (px_stat fs) name names in Forall good_entry es
    /\ forall parent, Z.of_nat (length (list_page px_strftime parent es)) < MAXSCRIPTOUT - 1.

Definition has_index (fs : F) (name : bytes) : Prop :=
  exists idx, In idx conf.(c_indexes) /\ index_name idx /\ px_access fs (name ++ idx) = true.

(** A directory that can be answered: its name leaves room for an index behind
    it; sent as an archive, there is a slash before its last byte; otherwise, once its
    slash is there, an index or a page. *)
Record dir_served (fs : F) (name : bytes) : Prop := {
  ds_name : 0 ∉ name /\ name <> [];
  ds_room : (length name + INDEXMAXLEN <= URI_LEN)%nat;
  ds_page : conf.(c_tar_directory) = false -> last name = Some (chr "/") -> has_index fs name \/ listable fs name;
  ds_tar : conf.(c_tar_directory) = true -> chr "/" ∈ take (length name - 1) name;
}.

(** The body of an upload, of the length that the header announces, arrives, and
    [turns] suffice for it. *)
Definition upload_arrives (turns : nat) (w : world F) : Prop :=
  forall a s, get_param_value w.(w_conn).(req) w.(w_conn).(http_param) (bs "Content-Length") (fresh NBUFFER)
                (Z.of_nat NBUFFER) (Z.of_nat (length (bs "Content-Length"))) = Some (true, a) ->
  cstr_at a 0 = Some s ->
  (Z.to_nat (strtol s 0) <= length (pending w))%nat /\ (Z.to_nat (strtol s 0) < turns)%nat.

(** What may happen to the files while a PROPFIND is answered: those of the cache
    are opened and written. *)
Definition rewritten (fs fs' : F) : Prop :=
  (exists path, fs' = (px_open_rdwr fs path).2) \/ (exists fd d, fs' = (px_write fs fd d).2).

(** A PROPFIND that can be answered: there is memory for the XML, what strftime
    and libmagic give is not longer than they promise, times are of 64 bits, the
    names fit the buffers they are escaped into, and the body has the
    tags that are looked for, or an end. *)
Record dav_served (w : world F) : Prop := {
  dv_memory : px_malloc MAXSCRIPTOUT = true;
  dv_date : forall t, (length (px_httpdate t) < URI_LEN)%nat;
  dv_mime : forall d t, px_magic d = Some t -> (length t < PATH_LEN)%nat;
  dv_time : forall (fs : F) fd, - 2 ^ 63 <= (px_fstat fs fd).(st_mtime) < 2 ^ 63;
  dv_name : 0 ∉ target w.(w_conn) /\ target w.(w_conn) <> [] /\ (length (target w.(w_conn)) + INDEXMAXLEN <= URI_LEN)%nat;
  dv_page : forall p, cstr_at w.(w_conn).(req) w.(w_conn).(page) = Some p -> dav_name p;
  dv_entries : forall fs es, rtc rewritten w.(w_fs) fs -> px_readdir fs (opened (target w.(w_conn))) = Some es ->
               Forall (fun n => head n = Some 46 \/ dav_name n) es;
  dv_body : forall s w', read_post_data w = Some (s, w') ->
            s.(sp_len) = 0 \/ exists m, s.(sp_data) = Some m /\ props_readable m;
}.

(** A script's first output has no header, or one that fits, with a status of
    three digits at most. *)
Definition output_fits (ps : list bytes) : Prop :=
  forall h content, split_output (pipe_read (Z.to_nat MAXSCRIPTOUT + HEADBUF - 1) ps).1 = Some (Some (h, content)) ->
    (length h <= 800)%nat /\ 0 <= cgi_status h < 1000.

(** A file that may be a script's, with scripts switched on: endings and programs
    come in pairs, no ending is longer than the request in front of the header;
    the header has a line and no name of 195 bytes; the file is in a directory, and the
    script's output fits. *)
Record script_served (w : world F) : Prop := {
  sc_paths : Nat.even (length conf.(c_cgi_paths)) = true;
  sc_endings : Forall (fun e => Z.of_nat (length e) <= Z.of_nat w.(w_conn).(page) + w.(w_conn).(page_len))
                 (endings conf.(c_cgi_paths));
  sc_header : forall ps, cstr_at w.(w_conn).(req) w.(w_conn).(http_param) = Some ps ->
              Forall is_byte ps /\ is_Some (header_vars (text_lines ps) []);
  sc_slash : chr "/" ∈ opened (target w.(w_conn));
  sc_output : forall (fs : F) ex ps, px_script fs ex = Some ps -> output_fits ps;
}.

(** What a removal may do to the files. *)
Definition removal (fs fs' : F) : Prop :=
  exists p, fs' = (px_unlink fs p).2 \/ fs' = (px_rmdir fs p).2.

(** A directory with fewer than [k] levels of entries: whatever has been removed
    meanwhile, it is unlinked, or has no entries that can be read, or entries with
    fewer levels, by the paths that [dir_remove] makes for them. *)
Fixpoint levels (k : nat) (fs : F) (dir : bytes) : Prop :=
  match k with
  | O => False
  | S k => forall fs', rtc removal fs fs' ->
      (px_unlink fs' dir).1 = None
      \/ forall es, px_readdir (px_unlink fs' dir).2 dir = Some es ->
         Forall (fun n => is_dot_entry n = true \/ levels k fs' (join_path dir n)) es
  end.

(** The requests that are answered within memory and in finite time.  The last
    three matter only with an authentication program: without one, these
    methods are refused. *)
Record answerable (turns depth : nat) (w : world F) : Prop := {
  an_dir : let fd := px_open_rd w.(w_fs) (opened (target w.(w_conn))) in
           w.(w_conn).(method_id) < PUT -> 0 <= fd -> S_ISDIR (px_fstat w.(w_fs) fd).(st_mode) = true ->
           dir_served w.(w_fs) (target w.(w_conn));
  an_copy : In w.(w_conn).(method_id) [COPY; MOVE] ->
            S_ISDIR (default px_garbage_stat (px_stat w.(w_fs) (opened (target w.(w_conn))))).(st_mode) = false;
  an_script : conf.(c_exec_script) = true -> w.(w_conn).(method_id) < PUT -> script_served w;
  an_put : is_Some conf.(c_authsock) -> w.(w_conn).(method_id) = PUT -> upload_arrives turns w;
  an_delete : is_Some conf.(c_authsock) -> w.(w_conn).(method_id) = DELETE ->
              forall st, px_stat w.(w_fs) (opened (target w.(w_conn))) = Some st -> S_ISDIR st.(st_mode) = true ->
              levels depth w.(w_fs) (opened (target w.(w_conn)));
  an_propfind : is_Some conf.(c_authsock) -> w.(w_conn).(method_id) = PROPFIND -> dav_served w;
}.
End Asked.

(** ** Lemmas: directories *)

Lemma dir_in_slash m dir :
  dir_in m dir -> dir <> [] -> cstr_at m 0 = Some dir ->
  endsWith m 0 (bs "/") (Z.of_nat (length dir)) 1 = Some (bool_decide (last dir = Some (chr "/"))).
Proof.
  intros (_ & _ & _ & H0) Hne Ec. destruct (cstr_at_Some _ _ _ Ec) as (_ & post & Em & _). rewrite take_0 in Em. cbn [app] in Em.
  destruct dir as [|x d _] using rev_ind; [done|]. rewrite Em.
  apply not_elem_of_app in H0 as [_ Hx].
  rewrite (endsWith_app [] d [x] post (bs "/") 0); [|done..]. rewrite last_snoc. f_equal.
  apply bool_decide_ext. split; [by intros [= ->] | by intros [= ->]].
Qed.

Section Directories.
Context {F : Type} `{Posix F}.
Context (conf : weborf_configuration_t).
Context (Hquiet : quiet_memory) (Hsizes : sizes_ok).

(** What the handlers of a directory keep. *)
Definition dir_state (e v : nat) (dir : bytes) (w : world F) : Prop :=
  serving e v w /\ dir_in w.(w_conn).(strfile) dir /\ w.(w_conn).(strfile_len) = Z.of_nat (length dir).

Lemma redirect_total code p (Q : Z -> world F -> Prop) w :
  0 <= code < 1000 -> (forall r d, Q r (sent (set_status code w) d)) ->
  total (send_http_header code (Some 0) (Some (location_text p)) true (-1)) Q w.
Proof.
  intros Hc HQ. apply send_http_header_total; [done | lia | | done]. cbn [default id].
  unfold location_text. rewrite length_take. unfold URI_LEN. lia.
Qed.

Lemma dir_in_print m dir idx :
  dir_in m dir -> exists m', snprintf m (length dir) INDEXMAXLEN idx = Some (m', Z.of_nat (length idx))
    /\ dir_in m' dir /\ exists s, cstr_at m' 0 = Some s.
Proof.
  intros (Hl & Ht & Hr & H0).
  destruct (snprintf_total m (length dir) INDEXMAXLEN idx) as (m' & E & Hl' & Ht' & k & Hk & Hz);
    [lia | unfold INDEXMAXLEN; lia |].
  exists m'. split; [done|]. split; [by split_and!; congruence || rewrite ?Ht'|].
  apply (cstr_at_nul m' 0 k); [lia | done].
Qed.

Lemma try_indexes_total e v dir idxs : forall (Q : bool -> world F -> Prop) w,
  dir_state e v dir w ->
  (forall b w', dir_state e v dir w' -> w'.(w_fs) = w.(w_fs) ->
     (b = false -> Forall (fun idx => index_name idx -> px_access w.(w_fs) (dir ++ idx) = false) idxs) -> Q b w') ->
  total (try_indexes idxs) Q w.
Proof.
  induction idxs as [|idx idxs IH]; intros Q w (Hs & Hd & Hl) HQ; cbn [try_indexes].
  { by apply total_ret, HQ. }
  apply total_bind, total_conn, total_bind. rewrite Hl, Nat2Z.id.
  destruct (dir_in_print _ _ idx Hd) as (m' & E & Hd' & s & Es). eapply total_lift; [exact E|].
  apply total_bind, total_upd. cbn [fst]. set (w1 := with_conn w (set_strfile m' (w_conn w))).
  assert (dir_state e v dir w1) as H1 by (destruct Hs; split; [split; try done; apply Hd' | done]).
  apply total_bind. eapply total_lift; [exact Es|]. apply total_bind. unfold file_exists.
  apply total_bind, total_get_fs, total_ret. change (w_fs w1) with (w_fs w).
  destruct (px_access (w_fs w) s) eqn:Ea.
  - apply total_bind. eapply cstring_total; [apply H1 | apply Hs |]. intros p _ _.
    apply total_bind, redirect_total; [lia|]. intros r d. apply total_ret, HQ; [|done..].
    destruct H1 as (H1 & ? & ?). split; [|done]. by destruct H1.
  - apply IH; [done|]. intros b w' Hw' Hf Hb. apply HQ; [done | done |]. intros Hb'. constructor; [|by apply Hb].
    intros Hi. destruct (index_print _ _ idx Hd Hi) as (m2 & E2 & _ & Ec). rewrite E in E2. injection E2 as <-.
    rewrite Es in Ec. by injection Ec as ->.
Qed.

Lemma cache_send_item_total cachedir e v p (Q : bool -> world F -> Prop) w :
  serving e v w -> Q false w -> (forall w', serving e v w' -> Q true w') ->
  total (cache_send_item conf cachedir p) Q w.
Proof.
  intros Hs Hf Ht. unfold cache_send_item, cache_get_item_fd. apply total_bind.
  assert (forall fd, total (if fd =? -1 then mret false
      else c ← conn;
           let oldfd := c.(strfile_fd) in
           fs ← get_fs;
           _ ← upd (fun c => set_strfile_stat (px_fstat fs fd) (set_strfile_fd fd c));
           _ ← write_file conf;
           _ ← upd (set_strfile_fd oldfd);
           mret true) Q w) as Hrest.
  { intros fd. destruct (fd =? -1); [by apply total_ret|].
    apply total_bind, total_conn. cbv zeta. apply total_bind, total_get_fs, total_bind, total_upd, total_bind.
    apply (write_file_total conf Hquiet e v); [by destruct Hs | apply Hsizes |]. intros _ w' Hw'.
    apply total_bind, total_upd, total_ret, Ht. by destruct Hw'. }
  destruct cachedir as [dir|]; [|by apply total_ret].
  apply total_bind, total_conn, total_bind, total_get_fs. cbv zeta.
  destruct (_ =? _); [by apply total_ret|]. destruct (px_flock _ _ _); [|by apply total_ret].
  apply total_ret, Hrest.
Qed.

Lemma cache_store_item_total cachedir e v p text (Q : unit -> world F -> Prop) w :
  serving e v w -> (forall w', serving e v w' -> Q tt w') -> total (cache_store_item cachedir p text) Q w.
Proof.
  intros Hs HQ. assert (forall fs, Q tt (with_fs w fs)) as H1 by (intros; by apply HQ, serving_fs).
  unfold cache_store_item. destruct cachedir as [dir|]; [|by apply total_ret, HQ].
  apply total_bind, total_conn, total_bind, total_on_fs. destruct (_ =? _); [by apply total_ret|].
  apply total_bind, total_get_fs. destruct (negb _); [by apply total_ret|].
  apply total_bind, total_on_fs. destruct (negb _); rewrite with_fs_with_fs; [|by apply total_ret].
  apply total_bind, total_on_fs. rewrite with_fs_with_fs. by apply total_ret.
Qed.

Lemma write_dir_total cachedir e v dir base (Q : Z -> world F -> Prop) w :
  serving e v w -> cstr_at w.(w_conn).(strfile) 0 = Some dir -> listable w.(w_fs) dir ->
  (forall r w', serving e v w' -> Q r w') -> total (write_dir conf cachedir base) Q w.
Proof.
  intros Hs Hdir (Hmn & names & Hes & Hg & Hfit) HQ. set (es := entries_of _ _ _) in *. unfold write_dir. apply total_bind.
  eapply check_etag_total; [exact Hs | apply fresh_length | by apply fresh_last | |].
  { intros w' Hw a'. cbv beta iota. apply total_ret, HQ. by eapply serving_answered. }
  intros a' _. cbv beta iota. cbn [Z.eqb]. apply total_bind, (cache_send_item_total cachedir e v); [exact Hs | |].
  2:{ intros w' Hw'. by apply total_ret, HQ. }
  apply total_bind, total_conn. cbv zeta. destruct (negb (px_malloc _)); [by apply total_ret, HQ|].
  apply total_bind, total_get_fs, total_bind. eapply total_lift; [exact Hdir|]. cbv zeta. rewrite Hmn, Hes.
  match goal with |- context [list_dir _ _ _ _ _ _ _ _ ?p _] => set (parent := p) end.
  destruct (list_dir_run px_strftime (px_stat (w_fs w)) dir names es (fresh (Z.to_nat MAXSCRIPTOUT)) MAXSCRIPTOUT parent px_garbage_stat)
    as (rest & El); [done | done | rewrite fresh_length; unfold MAXSCRIPTOUT; lia | done | apply Hfit |].
  apply total_bind. eapply total_lift; [exact El|]. cbv beta iota. specialize (Hfit parent).
  set (text := list_page px_strftime parent es) in *. rewrite to_u_small by (unfold MAXSCRIPTOUT in *; lia).
  apply total_bind, send_http_header_total; [lia | unfold MAXSCRIPTOUT in *; lia | simpl; lia |].
  intros r d. destruct (load_n_total (text ++ rest) 0 (length text)) as [x Ex]; [rewrite length_app; lia|].
  apply total_bind. eapply total_lift; [rewrite Nat2Z.id; exact Ex|].
  apply total_bind, total_send. intros r2 d2. rewrite sent_sent.
  apply total_bind, (cache_store_item_total cachedir e v); [by eapply serving_answered; [|apply answered_sent]|].
  intros w' Hw'. by apply total_ret, HQ.
Qed.

Lemma dir_in_end m dir :
  dir_in m dir -> exists m', store m (length dir) 0 = Some m' /\ length m' = URI_LEN /\ cstr_at m' 0 = Some dir.
Proof.
  intros (Hl & Ht & Hr & H0). assert (length dir < length m)%nat as Hlt by (unfold INDEXMAXLEN in *; lia).
  exists (<[length dir := to_char 0]> m). rewrite store_Some by done. split; [done|]. rewrite length_insert. split; [done|].
  rewrite insert_take_drop by done. rewrite Ht. apply (cstr_at_0 dir _ H0).
Qed.

(** The name without its last byte. *)
Lemma dir_in_cut m dir :
  dir_in m dir -> dir <> [] ->
  exists m', store m (length dir - 1) 0 = Some m' /\ length m' = URI_LEN
    /\ cstr_at m' 0 = Some (take (length dir - 1) dir).
Proof.
  intros (Hl & Ht & Hr & H0) Hne. assert (0 < length dir)%nat as H1 by (destruct dir; [done | simpl; lia]).
  assert (length dir - 1 < length m)%nat as Hlt by (unfold INDEXMAXLEN in *; lia).
  exists (<[(length dir - 1)%nat := to_char 0]> m). rewrite store_Some by done. split; [done|]. rewrite length_insert. split; [done|].
  rewrite insert_take_drop by done. rewrite <-Ht, take_take, !length_take, Nat.min_l, Nat.min_l by lia.
  apply (cstr_at_0 (take (length dir - 1) m)). intros Hx. apply H0. rewrite <-Ht.
  rewrite <-(take_drop (length dir - 1) (take (length dir) m)), take_take, Nat.min_l by lia.
  apply elem_of_app. by left.
Qed.

Lemma tar_total e v dir (Q : Z -> world F -> Prop) w :
  dir_state e v dir w -> dir <> [] -> chr "/" ∈ take (length dir - 1) dir ->
  (forall r w', serving e v w' -> Q r w') -> total tar_send_dir Q w.
Proof.
  intros (Hs & Hd & Hl) Hne Hin HQ. unfold tar_send_dir. apply total_bind, total_upd.
  set (w1 := with_conn w _). assert (serving e v w1) as Hs1 by (by destruct Hs).
  destruct (px_malloc _); cbn [negb]; [|by apply total_ret, HQ].
  apply total_bind, total_conn. cbv zeta. subst w1. cbn [with_conn w_conn set_keep_alive strfile strfile_len] in *. rewrite Hl.
  assert (0 < length dir)%nat as H1 by (destruct dir; [done | simpl; lia]).
  destruct (Z.ltb_spec (Z.of_nat (length dir) - 1) 0); [lia|].
  replace (Z.to_nat (Z.of_nat (length dir) - 1)) with (length dir - 1)%nat by lia.
  destruct (dir_in_cut _ _ Hd Hne) as (m' & Em & Lm & Ec). apply total_bind. eapply total_lift; [exact Em|].
  apply total_bind, total_upd, total_bind. eapply total_lift; [exact Ec|]. set (path := take (length dir - 1) dir) in *.
  destruct (find_byte (chr "/") (reverse path)) as [i|] eqn:Ei.
  2:{ apply find_byte_None in Ei. by rewrite elem_of_reverse in Ei. }
  apply total_bind. eapply total_lift; [reflexivity|].
  assert (length path <= URI_LEN)%nat as Lp.
  { subst path. rewrite length_take. destruct Hd as (_ & _ & Hr & _). unfold INDEXMAXLEN in *. lia. }
  apply total_bind, send_http_header_total; [lia | done | |].
  { cbn [default id]. rewrite length_take, !length_app, length_drop. unfold URI_LEN in Lp. change (length CRLF) with 2%nat. change (length QUOTE) with 1%nat. cbn [length]. lia. }
  intros r d. apply total_bind, total_get_fs.
  match goal with |- context [sent ?w0 d] => assert (serving e v (sent w0 d)) as Hs2 by (by destruct Hs1) end.
  destruct (px_tar _ _) as [[out status]|]; [|by apply total_ret, HQ].
  apply total_bind, total_send. intros r2 d2. apply total_ret, HQ. by destruct Hs2.
Qed.

Lemma dir_total cachedir e v dir (Q : Z -> world F -> Prop) w :
  dir_state e v dir w -> cstr_at w.(w_conn).(strfile) 0 = Some dir ->
  S_ISDIR w.(w_conn).(strfile_stat).(st_mode) = true -> dir_served conf w.(w_fs) dir ->
  (forall r w', serving e v w' -> Q r w') -> forall post, total (get_or_post conf cachedir post) Q w.
Proof.
  intros Hst Hc Hdir [[_ Hne] _ Hpage Htar] HQ post. pose proof Hst as (Hs & Hd & Hl).
  unfold get_or_post. apply total_bind, total_conn. rewrite Hdir.
  destruct (c_tar_directory conf); [by eapply tar_total; [..|apply Htar|]|].
  pose proof (dir_in_slash _ _ Hd Hne Hc) as E. rewrite <-Hl in E.
  apply total_bind. eapply total_lift; [exact E|]. destruct (bool_decide_reflect (last dir = Some (chr "/"))) as [Hsl|]; cbn [negb].
  - apply total_bind, (try_indexes_total e v dir); [done|]. intros b w' (Hs' & Hd' & Hl') Hfs Hb.
    destruct b; [by apply total_ret, HQ|].
    assert (listable (w_fs w) dir) as Hls.
    { destruct (Hpage eq_refl Hsl) as [(idx & Hin & Hi & Ha)|]; [|done]. specialize (Hb eq_refl).
      rewrite Forall_forall in Hb. specialize (Hb idx ltac:(by apply list_elem_of_In) Hi). congruence. }
    apply total_bind, total_conn, total_bind. rewrite Hl', Nat2Z.id.
    destruct (dir_in_end _ _ Hd') as (m' & E' & Lm & Ec). eapply total_lift; [exact E'|].
    apply total_bind, total_upd. eapply (write_dir_total cachedir e v dir); [by destruct Hs' | done | cbn [with_conn w_fs]; by rewrite Hfs | done].
  - apply total_bind. eapply cstring_total; [exact Hs | apply Hs |]. intros p _ _.
    apply total_bind, redirect_total; [lia|]. intros r d. apply total_ret, HQ. by destruct Hs.
Qed.
End Directories.

(** ** Lemmas: requests *)

Lemma dir_in_name m name :
  length m = URI_LEN -> cstr_at m 0 = Some (opened name) -> 0 ∉ name -> (length name + INDEXMAXLEN <= URI_LEN)%nat ->
  opened name = name /\ dir_in m name.
Proof.
  intros Hl Hc H0 Hr. assert (opened name = name) as Ho.
  { unfold opened. rewrite take_ge by (unfold INDEXMAXLEN in *; lia). by apply cstr_prefix_nonul. }
  split; [done|]. rewrite Ho in Hc. destruct (cstr_at_Some _ _ _ Hc) as (_ & post & Em & _). rewrite take_0 in Em.
  split_and!; [done | | done | done]. rewrite Em. cbn [app]. by rewrite take_app_length.
Qed.
