(* ===== verification/Archive.v ===== *)
(** * Directories sent as archives (instance.c)

    What [tar_send_dir] of Server.v answers, with the output of tar as a parameter.
    The last byte of the directory's name is dropped whatever it is. *)
From S2P Require Export Safety.

(** ** Lemmas *)

(** The name behind the last slash. *)
Lemma last_name d n :
  chr "/" ∉ n -> find_byte (chr "/") (reverse (d ++ chr "/" :: n)) = Some (length n)
  /\ drop (length (d ++ chr "/" :: n) - length n) (d ++ chr "/" :: n) = n.
Proof.
  intros Hn. rewrite reverse_app, reverse_cons, <-app_assoc. cbn [app]. split.
  - rewrite find_byte_app by (by rewrite elem_of_reverse). by rewrite length_reverse.
  - replace (d ++ chr "/" :: n) with ((d ++ [chr "/"]) ++ n) by (by rewrite <-app_assoc).
    rewrite length_app. replace (length (d ++ [chr "/"]) + length n - length n)%nat with (length (d ++ [chr "/"])) by lia.
    apply drop_app_length.
Qed.

(** ** Theorems *)

Section ArchiveTheorems.
Context {F : Type} `{Posix F}.

Definition archive_headers (n : bytes) : bytes :=
  bs "Content-Type: application/x-gzip" ++ CRLF ++ bs "Content-Disposition: attachment; filename="
  ++ QUOTE ++ n ++ bs ".tar.gz" ++ QUOTE ++ CRLF.

(** The answer is the archive of what is in front of the last byte [x] of the name,
    under the name behind its last slash, and the connection ends with it. *)
Theorem archive_sent (w : world F) d n x out :
  let c := w.(w_conn) in
  let dir := (d ++ chr "/" :: n) ++ [x] in
  let w1 := with_conn w (set_keep_alive false c) in
  let head := http_head w1.(w_conn) 200 None (Some (archive_headers n)) true (-1) in
  mem_ok -> client_reads -> dir_in c.(strfile) dir -> c.(strfile_len) = Z.of_nat (length dir) -> chr "/" ∉ n ->
  px_tar w.(w_fs) (d ++ chr "/" :: n) = Some (out, 0) ->
  exists c', tar_send_dir w = Some (0, mkworld c' (w.(w_out) ++ head ++ out) w.(w_read) w.(w_net) w.(w_fs))
    /\ c'.(keep_alive) = false /\ c'.(req) = c.(req).
Proof.
  intros c dir w1 head Hm Hc Hd Hl Hn Ht. unfold tar_send_dir.
  assert (take (length dir - 1) dir = d ++ chr "/" :: n) as Edir
    by (subst dir; rewrite length_app; cbn [length]; rewrite Nat.add_sub; apply take_app_length).
  assert (0 < length dir)%nat as Lpos by (subst dir; rewrite length_app; cbn [length]; lia).
  destruct (dir_in_cut _ _ Hd) as (m & Em & Lm & Ec); [by subst dir; destruct d|]. rewrite Edir in Ec.
  pose proof Hd as (_ & _ & Hroom & _). pose proof (f_equal length Edir) as Lp. rewrite length_take in Lp.
  clearbody dir. unfold mbind at 1, M_bind at 1, upd at 1. rewrite Hm. cbn [negb]. rewrite conn_bind. cbv zeta.
  cbn [w_conn set_keep_alive strfile strfile_len]. fold c. rewrite Hl.
  destruct (Z.ltb_spec (Z.of_nat (length dir) - 1) 0); [lia|].
  replace (Z.to_nat (Z.of_nat (length dir) - 1)) with (length dir - 1)%nat by lia.
  rewrite (lift_bind_Some _ _ _ _ Em). unfold mbind at 1, M_bind at 1, upd at 1. rewrite (lift_bind_Some _ _ _ _ Ec).
  destruct (last_name d n Hn) as [Ei En]. rewrite (lift_bind_Some _ _ _ _ Ei). rewrite En.
  set (p := d ++ chr "/" :: n) in *. assert (length n <= length p)%nat as Ln by (subst p; rewrite length_app; cbn [length]; lia).
  fold (archive_headers n). assert (length (archive_headers n) <= 400)%nat as Lh.
  { unfold archive_headers. rewrite !length_app. change (length CRLF) with 2%nat. change (length QUOTE) with 1%nat. cbn [length].
    unfold INDEXMAXLEN, URI_LEN in *. lia. }
  rewrite take_ge by (unfold HEADBUF; lia).
  cbn [w_conn w_out w_read w_net w_fs].
  set (c1 := set_strfile_len (Z.of_nat (length dir) - 1) (set_strfile m (set_keep_alive false c))).
  assert (length (http_head c1 200 None (Some (archive_headers n)) true (-1)) < HEADBUF)%nat as Lhd.
  { pose proof (http_head_length c1 200 None (Some (archive_headers n)) true (-1) ltac:(lia) I) as Hlen. cbn [default id] in Hlen.
    unfold HEADBUF. lia. }
  rewrite (bind_run _ _ _ _ _ (send_http_header_all 200 None (Some (archive_headers n)) true (-1)
    (mkworld c1 (w_out w) (w_read w) (w_net w) (w_fs w)) Hm Hc Lhd)).
  rewrite get_fs_bind. cbn [sent set_status w_fs]. rewrite Ht. rewrite (bind_run _ _ _ _ _ (sock_send_all _ _ Hc)).
  rewrite mret_run. cbn [Z.eqb negb]. unfold sent, set_status. cbn [w_out w_conn w_read w_net w_fs].
  eexists. rewrite <-app_assoc. split; [done|]. done.
Qed.
End ArchiveTheorems.

(** ** Witnesses *)

(** A directory that is asked for without its slash: tar is given "/srv/doc". *)
Definition sample_docs : world sample_fs :=
  let w := sample_world (bs "/docs") [] [] in
  with_conn w (set_strfile_len 9 (set_strfile (bs "/srv/docs" ++ replicate (URI_LEN - 9) 0) w.(w_conn))).

Lemma archive_sent_witness :
  exists c', tar_send_dir sample_docs
    = Some (0, mkworld c'
        (http_head (set_keep_alive false sample_docs.(w_conn)) 200 None (Some (archive_headers (bs "doc"))) true (-1))
        sample_docs.(w_read) sample_docs.(w_net) sample_docs.(w_fs))
    /\ c'.(keep_alive) = false /\ c'.(req) = sample_docs.(w_conn).(req).
Proof.
  apply (archive_sent sample_docs (bs "/srv") (bs "doc") (chr "s") []); [done | done | | done | by_decision | done].
  split_and!; [done | done | apply Nat.leb_le; reflexivity | by_decision].
Defined.
