(* ===== verification/SafetyDav.v ===== *)
(** * PROPFIND stays within memory and ends (webdav.c)

    The XML of a resource fits its buffer when the names fit those they are
    escaped into; hence a PROPFIND that is [dav_served] is answered, from the
    cache or not, whatever its body asks for. *)
From stdpp Require Import relations.
From S2P Require Export Safety.

(** ** Lemmas *)

Lemma dav_esc_length s : text7 s -> (length (dav_esc s) <= 3 * length s)%nat.
Proof.
  induction 1 as [|c s Hc Hs IH]; [done|]. cbn [dav_esc flat_map]. fold (dav_esc s). rewrite length_app. cbn [length].
  destruct (dav_esc_char_spec c Hc) as [(-> & _)|(a & b & -> & _)]; cbn [length]; lia.
Qed.

Lemma tagged_length n v : (length (tagged n v) = 9 + 2 * length n + length v)%nat.
Proof. unfold tagged. rewrite !length_app. cbn [length]. lia. Qed.

(** The text of a resource is a fraction of the memory for it. *)
Lemma response_text_fits props st href date mime :
  size_ok st -> - 2 ^ 63 <= st.(st_mtime) < 2 ^ 63 -> (length href < 2 * URI_LEN)%nat ->
  (length date < URI_LEN)%nat -> (length mime < PATH_LEN)%nat ->
  (length (response_text props st href date mime) < XMLBUF)%nat.
Proof.
  intros Hs Ht Hh Hd Hm. unfold size_ok in Hs. change (2 ^ 63) with 9223372036854775808 in *.
  pose proof (dec_s_length st.(st_mtime) 19 ltac:(change (10 ^ Z.of_nat 19) with 10000000000000000000; lia) ltac:(lia)).
  pose proof (dec_s_length st.(st_size) 19 ltac:(change (10 ^ Z.of_nat 19) with 10000000000000000000; lia) ltac:(lia)).
  unfold response_text. cbv zeta. rewrite !length_app, tagged_length.
  assert (forall (b : bool) t k, (length t <= k)%nat -> (length (if b then t ++ [LF] else []) <= S k)%nat) as Hopt
    by (intros [] t k Hk; [rewrite length_app; cbn [length]; lia | cbn [length]; lia]).
  pose proof (Hopt (getetag props) _ _ (Nat.eq_le_incl _ _ (tagged_length (bs "getetag") (dec_s st.(st_mtime))))) as H1.
  pose proof (Hopt (getcontentlength props) _ _ (Nat.eq_le_incl _ _ (tagged_length (bs "getcontentlength") (dec_s st.(st_size))))) as H2.
  pose proof (Hopt (resourcetype props) _ _ (Nat.eq_le_incl _ _ (tagged_length (bs "resourcetype")
    (if S_ISDIR st.(st_mode) then bs "<D:collection/>" else bs " ")))) as H3.
  pose proof (Hopt (getlastmodified props) _ _ (Nat.eq_le_incl _ _ (tagged_length (bs "getlastmodified") date))) as H4.
  pose proof (Hopt (getcontenttype props) _ _ (Nat.eq_le_incl _ _ (tagged_length (bs "getcontenttype") mime))) as H5.
  assert (length (if S_ISDIR st.(st_mode) then bs "<D:collection/>" else bs " ") <= 15)%nat as H6
    by (destruct (S_ISDIR _); cbn [length]; lia).
  unfold XMLBUF, URI_LEN, PATH_LEN, MAXSCRIPTOUT in *. cbn [length] in *. lia.
Qed.

(** What libmagic, or the table of types, calls a file. *)
Lemma mime_length (magic : bytes -> option bytes) content st :
  (forall d t, magic d = Some t -> (length t < PATH_LEN)%nat) ->
  (length (default (bs "(null)") (mime_get_fd magic true content st)) < PATH_LEN)%nat.
Proof.
  intros Hm. unfold mime_get_fd. cbn [negb].
  destruct (negb _); [|repeat case_match; apply Nat.ltb_lt; reflexivity].
  destruct (magic _) as [t|] eqn:E; [by eapply Hm | apply Nat.ltb_lt; reflexivity].
Qed.

Section Propfind.
Context {F : Type} `{Posix F}.
Context (conf : weborf_configuration_t).
Context (cachedir : option bytes).
Context (Hsizes : sizes_ok).

(** What answering keeps, from the state of the files [fs] on. *)
Definition dav_state (e v : nat) (fs : F) (w : world F) : Prop := serving e v w /\ rtc rewritten fs w.(w_fs).

Lemma dav_state_sent e v fs (w : world F) p : dav_state e v fs w -> dav_state e v fs (sent w p).
Proof. intros [Hs Hr]. split; [by destruct Hs | done]. Qed.

Lemma dav_write_total e v fs dest data (Q : Z -> world F -> Prop) w :
  dav_state e v fs w -> (forall r w', dav_state e v fs w' -> Q r w') -> total (dav_write dest data) Q w.
Proof.
  intros Hd HQ. destruct dest as [|fd]; cbn [dav_write].
  - apply total_send. intros r p. by apply HQ, dav_state_sent.
  - apply total_on_fs, HQ. destruct Hd as [Hs Hr]. split; [by apply serving_fs|].
    eapply rtc_r; [exact Hr|]. right. by eexists _, _.
Qed.

(** The names, and what the texts of a resource are made of. *)
Context (Hmem : px_malloc MAXSCRIPTOUT = true).
Context (Hdate : forall t, (length (px_httpdate t) < URI_LEN)%nat).
Context (Hmime : forall d t, px_magic d = Some t -> (length t < PATH_LEN)%nat).
Context (Htime : forall (fs : F) fd, - 2 ^ 63 <= (px_fstat fs fd).(st_mtime) < 2 ^ 63).

Lemma printprops_total e v fs dest page props file name (parent : bool) (Q : unit -> world F -> Prop) w :
  dav_state e v fs w -> dav_name page -> dav_name name ->
  (forall w', dav_state e v fs w' -> Q tt w') -> total (printprops dest page props file name parent) Q w.
Proof.
  intros Hd Hp Hn HQ. unfold printprops. apply total_bind, total_get_fs. cbv zeta. destruct (_ =? -1); [by apply total_ret, HQ|].
  destruct (escape_uri_run name (fresh URI_LEN) Hn (fresh_length _)) as (m1 & E1 & _ & C1).
  destruct (escape_uri_run page (fresh URI_LEN) Hp (fresh_length _)) as (m2 & E2 & _ & C2).
  apply total_bind. eapply total_lift; [exact E1|]. apply total_bind. eapply total_lift; [exact E2|].
  apply total_bind. eapply total_lift; [exact C1|]. apply total_bind.
  apply (total_lift _ _ _ (if parent then [] else dav_esc page)); [by destruct parent|]. rewrite Hmem. cbn [negb].
  set (st := px_fstat _ _). set (mime := default _ _).
  match goal with |- context [print_response props st ?h] => set (href := h) end.
  assert (length href < 2 * URI_LEN)%nat as Lh.
  { destruct Hp as (Tp & _ & Lp), Hn as (Tn & _ & Ln). pose proof (dav_esc_length _ Tp). pose proof (dav_esc_length _ Tn).
    subst href. destruct parent; rewrite ?length_app; lia. }
  destruct (print_response_load XMLBUF props st href (px_httpdate (st_mtime st)) mime (fresh XMLBUF)) as (h & Eh & El);
    [unfold XMLBUF, MAXSCRIPTOUT; lia | apply fresh_length | |].
  { apply response_text_fits; [apply Hsizes | apply Htime | done | apply Hdate | by apply mime_length]. }
  apply total_bind. eapply total_lift; [exact Eh|]. apply total_bind. eapply total_lift; [exact El|].
  apply total_bind, (dav_write_total e v fs); [done|]. intros r w' Hw'. by apply total_ret, HQ.
Qed.

Lemma print_entries_total e v fs dest page props path names (Q : unit -> world F -> Prop) : forall w,
  dav_state e v fs w -> dav_name page -> Forall (fun n => head n = Some 46 \/ dav_name n) names ->
  (forall w', dav_state e v fs w' -> Q tt w') -> total (print_entries dest page props path names) Q w.
Proof.
  induction names as [|n names IH]; intros w Hd Hp Hn HQ; [by apply total_ret, HQ|]. cbn [print_entries].
  inversion Hn as [|? ? Hn1 Hn2]; subst. destruct (if head n is Some 46 then true else false) eqn:Eh; [by apply IH|].
  apply total_bind, (printprops_total e v fs); [done | done | |].
  - destruct Hn1 as [E|]; [|done]. by rewrite E in Eh.
  - intros w' Hw'. by apply IH.
Qed.

Lemma send_multistatus_total e v fs dest props path (Q : Z -> world F -> Prop) w :
  dav_state e v fs w -> cstr_at w.(w_conn).(strfile) 0 = Some path ->
  (forall p, cstr_at w.(w_conn).(req) w.(w_conn).(page) = Some p -> dav_name p) ->
  (forall fs' es, rtc rewritten fs fs' -> px_readdir fs' path = Some es -> Forall (fun n => head n = Some 46 \/ dav_name n) es) ->
  (forall r w', serving e v w' -> Q r w') -> total (send_multistatus dest props) Q w.
Proof.
  intros Hd Hpath Hpage Hes HQ. unfold send_multistatus. apply total_bind, total_conn, total_bind.
  eapply cstring_total; [apply Hd | apply Hd |]. intros p Ep _. specialize (Hpage p Ep).
  apply total_bind. eapply total_lift; [exact Hpath|].
  apply total_bind, (dav_write_total e v fs); [done|]. intros _ w1 H1.
  apply total_bind, (printprops_total e v fs); [done..|]. intros w2 H2. apply total_bind, total_get_fs, total_bind.
  assert (forall w3, dav_state e v fs w3 -> total (_ ← dav_write dest (take 16 dav_end);
      match dest with
      | ToClient => mret 0
      | ToCache fd => fs ← get_fs; _ ← fd_copy (px_contents fs fd) (px_read_error fs fd) (px_tell fs fd); mret 0
      end) Q w3) as Hend.
  { intros w3 H3. apply total_bind, (dav_write_total e v fs); [done|]. intros _ w4 H4. destruct dest as [|fd]; [by apply total_ret, HQ, H4|].
    apply total_bind, total_get_fs, total_bind, fd_copy_total. intros r q. by apply total_ret, HQ, (dav_state_sent e v fs). }
  destruct (deep props); [|by apply total_ret, Hend].
  destruct (px_readdir (w_fs w2) path) as [es|] eqn:Er; [|by apply total_ret, total_ret, HQ, H2].
  apply total_bind, (print_entries_total e v fs); [done | done | by eapply Hes; [apply H2|]|].
  intros w3 H3. by apply total_ret, Hend.
Qed.

(** Any value of Depth, and a body with its tags. *)
Lemma get_props_total e v post p (Q : Z * dav_details -> world F -> Prop) w :
  serving e v w -> post.(sp_len) = 0 \/ (exists m, post.(sp_data) = Some m /\ props_readable m) ->
  (forall r, Q r w) -> total (get_props post p) Q w.
Proof.
  intros Hs Hb HQ. unfold get_props. apply total_bind. eapply param_total; [exact Hs | by rewrite fresh_length|].
  intros b a [La _]. rewrite fresh_length in La. destruct a as [|a0 a]; [done|]. cbv beta iota.
  apply total_bind. eapply total_lift; [reflexivity|]. cbv zeta. set (p' := if b then _ else p).
  assert (is_Some (parse_props post p')) as [r Er].
  { destruct post as [n [m|]]; cbn [sp_len sp_data] in Hb.
    - apply parse_props_total. destruct Hb as [|(m' & Em & Hm)]; [by left | injection Em as <-; by right].
    - destruct Hb as [->|(m & Em & _)]; [by eexists | done]. }
  eapply total_lift; [exact Er | apply HQ].
Qed.
End Propfind.

Section PropfindTotal.
Context {F : Type} `{Posix F}.
Context (conf : weborf_configuration_t).
Context (cachedir : option bytes).
Context (Hsizes : sizes_ok).

Lemma propfind_total e v post (Q : Z -> world F -> Prop) w w0 :
  serving e v w -> dav_served w0 -> read_post_data w0 = Some (post, w) -> w_conn w = w_conn w0 -> w_fs w = w_fs w0 ->
  cstr_at w.(w_conn).(strfile) 0 = Some (opened (target w.(w_conn))) ->
  w.(w_conn).(strfile_len) = Z.of_nat (length (target w.(w_conn))) ->
  (forall r w', serving e v w' -> Q r w') -> total (propfind conf cachedir post) Q w.
Proof.
  intros Hs [Hmem Hdate Hmime Htime (H0 & Hne & Hr) Hpage Hes Hbody] Ep Hc Hf Hpath Hl HQ.
  specialize (Hbody _ _ Ep). rewrite <-Hc in *. rewrite <-Hf in *. set (name := target (w_conn w)) in *.
  destruct (dir_in_name _ name (sv_strfile _ _ _ Hs) Hpath H0 Hr) as [Ho Hin]. rewrite Ho in Hpath, Hes.
  unfold propfind. destruct (c_authsock conf); [|by apply total_ret, HQ].
  apply total_bind, total_conn, total_bind, total_get_fs, total_bind. eapply total_lift; [exact Hpath|].
  destruct (px_stat (w_fs w) name) as [st|]; [|by apply total_ret, HQ].
  apply total_bind, total_upd. set (w1 := with_conn w _). assert (serving e v w1) as Hs1 by (by destruct Hs).
  apply total_bind. eapply (total_mono _ (fun _ w' => w' = w1)).
  { destruct (S_ISDIR (st_mode st)); [|by apply total_ret].
    eapply total_lift; [rewrite Hl; by apply dir_in_slash | done]. }
  intros slash ? ->. destruct (negb slash).
  { apply total_bind. eapply cstring_total; [exact Hs1 | apply Hs1 |]. intros p _ _.
    apply total_bind, send_http_header_total; [lia | done | |].
    { cbn [default id]. unfold location_text. rewrite length_take. unfold URI_LEN. lia. }
    intros r d. apply total_ret, HQ. by destruct Hs1. }
  apply total_bind, (get_props_total e v); [exact Hs1 | exact Hbody |]. intros [retval props]. cbv beta iota.
  destruct (negb (retval =? 0)); [by apply total_ret, HQ|].
  apply total_bind, total_upd, total_bind, send_http_header_total; [lia | done | apply Nat.leb_le; reflexivity |].
  intros r d. match goal with |- total _ _ ?w2 => assert (dav_state e v (w_fs w) w2) as Hd2 by (split; [by destruct Hs1 | done]) end.
  match goal with |- total _ _ ?x => set (w2 := x) in * end.
  assert (forall dest w3, dav_state e v (w_fs w) w3 -> w_conn w3 = w_conn w2 -> total (send_multistatus dest props) Q w3) as Hms.
  { intros dest w3 H3 Ec. eapply (send_multistatus_total Hsizes Hmem Hdate Hmime Htime e v (w_fs w));
      [exact H3 | by rewrite Ec | by rewrite Ec | done | done]. }
  destruct (cache_is_enabled cachedir); [|by apply Hms].
  assert (total (cache_fd ← cache_get_item_fd_wr cachedir (int_version props);
                 send_multistatus (if cache_fd =? -1 then ToClient else ToCache cache_fd) props) Q w2) as Hwr.
  { apply total_bind. unfold cache_get_item_fd_wr. destruct cachedir as [dir|]; [|by apply total_ret, Hms].
    apply total_bind, total_conn, total_bind, total_on_fs, total_bind, total_get_fs.
    match goal with |- total _ _ ?x => assert (dav_state e v (w_fs w) x) as H3 end.
    { split; [apply serving_fs, Hd2 | apply rtc_once; left; by eexists]. }
    destruct (px_flock _ _ _); by apply total_ret, Hms. }
  assert (forall fd, total (if negb (fd =? -1)
      then fs ← get_fs; _ ← fd_copy (px_contents fs fd) (px_read_error fs fd) (px_fstat fs fd).(st_size); mret 0
      else cache_fd ← cache_get_item_fd_wr cachedir (int_version props);
           send_multistatus (if cache_fd =? -1 then ToClient else ToCache cache_fd) props) Q w2) as Hrest.
  { intros fd. destruct (negb _); [|exact Hwr]. apply total_bind, total_get_fs, total_bind, fd_copy_total.
    intros r2 q. by apply total_ret, HQ, (dav_state_sent e v (w_fs w)). }
  apply total_bind. unfold cache_get_item_fd. destruct cachedir as [dir|]; [|by apply total_ret, Hrest].
  apply total_bind, total_conn, total_bind, total_get_fs. cbv zeta. destruct (_ =? -1); [by apply total_ret, Hrest|].
  destruct (px_flock _ _ _); by apply total_ret, Hrest.
Qed.
End PropfindTotal.
