(* ===== verification/SafetyCgi.v ===== *)
(** * Scripts keep the worker within memory, and end (cgi.c)

    The worker's side of a request that a script answers, with what the script
    prints as a parameter.  That the worker does not wait for ever is in
    CgiPipes.v. *)
From S2P Require Export Safety.

Section Scripts.
Context {F : Type} `{Posix F}.
Context (conf : weborf_configuration_t).

(** ** Lemmas *)

(** The choice of the program compares strings of the request. *)
Lemma find_cgi_total (c : connection_t) e paths :
  c.(req) !! e = Some 0 -> Z.of_nat c.(page) + c.(page_len) <= Z.of_nat e -> Nat.even (length paths) = true ->
  Forall (fun x => Z.of_nat (length x) <= Z.of_nat c.(page) + c.(page_len)) (endings paths) ->
  is_Some (find_cgi c paths).
Proof.
  intros He Hp. revert paths. refine (pairs_ind _ _ _); [by eexists|].
  intros ext bin rest IH [Hext Hrest]%Forall_cons. cbn [find_cgi]. cbv zeta.
  destruct (Z.ltb_spec (Z.of_nat (page c) + page_len c - Z.of_nat (length ext)) 0); [lia|]. unfold endsWith. cbv zeta.
  destruct (Z.ltb_spec (Z.of_nat (Z.to_nat (Z.of_nat (page c) + page_len c - Z.of_nat (length ext)))
    + Z.of_nat (length ext) - Z.of_nat (length ext)) 0); [lia|].
  unfold streq. edestruct (cstr_at_nul (req c)) as [s ->]; [|exact He|]; [lia|]. cbn [mbind option_bind].
  case_bool_decide; [by eexists | by apply IH].
Qed.

(** The page lies in front of the end of the request. *)
Lemma placed_page u (c : connection_t) : placed u c -> Z.of_nat c.(page) + c.(page_len) <= Z.of_nat c.(http_param).
Proof. intros (_ & Hp & Hg). destruct (get_params c) as [q|]; cbn [params_at] in Hg; lia. Qed.

Lemma split_output_total buf : is_Some (split_output buf).
Proof.
  unfold split_output. set (m := buf ++ [0]).
  assert (m !! length buf = Some 0) as Hn by apply lookup_mid.
  destruct (strstr_nul m 0 (length buf) (CRLF ++ CRLF) ltac:(lia) Hn) as [e E]. rewrite E. cbn [mbind option_bind].
  destruct e as [e|]; [|by eexists]. pose proof (strstr_before _ _ _ _ _ Hn (Nat.le_0_l _) E) as Hb. cbn [length app CRLF] in Hb.
  assert (length m = length buf + 1)%nat as Lm by (subst m; by rewrite length_app).
  rewrite store_Some by lia. cbn [mbind option_bind].
  destruct (cstr_at_nul (<[(e + 2)%nat := to_char 0]> m) 0 (length buf)) as [h ->]; [lia | rewrite list_lookup_insert_ne by lia; exact Hn |].
  by eexists.
Qed.

Lemma cgi_copy_loop_total fuel : forall ps (Q : unit -> world F -> Prop) w,
  (pipe_size ps < fuel)%nat -> (forall p, Q tt (sent w p)) -> total (cgi_copy_loop fuel ps) Q w.
Proof.
  set (N := (Z.to_nat MAXSCRIPTOUT + HEADBUF)%nat). assert (0 < N)%nat as HN by (subst N; unfold HEADBUF; lia).
  induction fuel as [|f IH]; intros ps Q w Hf HQ; [lia|]. cbn [cgi_copy_loop]. fold N.
  destruct ps as [|p ps]; cbn [pipe_read].
  - apply total_bind, total_send. intros r q. destruct (negb _); apply total_ret, HQ.
  - unfold pipe_size in Hf. cbn [concat length] in Hf. rewrite length_app in Hf.
    destruct (Nat.leb_spec (length p) N); apply total_bind, total_send; intros r q;
      (destruct (negb _); [apply total_ret, HQ|]); (destruct (_ =? 0)%nat; [apply total_ret, HQ|]);
      (apply IH; [|intros q2; rewrite sent_sent; apply HQ]); unfold pipe_size; cbn [concat length];
      rewrite ?length_app, ?length_drop; lia.
Qed.

Lemma cgi_waitfor_child_total e v ps (Q : Z -> world F -> Prop) w :
  serving e v w -> output_fits ps -> (forall r w', serving e v w' -> Q r w') -> total (cgi_waitfor_child ps) Q w.
Proof.
  intros Hs Hf HQ. unfold cgi_waitfor_child. destruct (negb _); [by apply total_ret, HQ|]. unfold output_fits in Hf.
  destruct (pipe_read _ ps) as [buf ps']. cbn [fst] in Hf. destruct (split_output_total buf) as [out Eo].
  apply total_bind. eapply total_lift; [exact Eo|]. destruct out as [[h content]|].
  - destruct (Hf h content Eo) as [Hh Hst]. cbv zeta. apply total_bind, total_upd, total_bind.
    apply send_http_header_total; [exact Hst | done | exact Hh |]. intros r p.
    match goal with |- total _ _ ?x => assert (serving e v x) as Hs2 by (by destruct Hs) end.
    match goal with |- total _ _ ?x => set (w2 := x) in * end. clearbody w2.
    apply total_bind. eapply (total_mono _ (fun _ w' => serving e v w')).
    { destruct (_ =? 0)%nat; [by apply total_ret|]. apply total_bind, total_send. intros r2 p2. apply total_ret. by destruct Hs2. }
    intros _ w3 Hs3. apply total_bind, cgi_copy_loop_total; [lia|]. intros p2. apply total_ret, HQ. by destruct Hs3.
  - apply total_bind, send_err_total; [reflexivity | reflexivity |]. intros r p.
    apply total_ret, HQ. by destruct Hs.
Qed.

Lemma cgi_child_chdir_total f : chr "/" ∈ f -> is_Some (cgi_child_chdir f).
Proof.
  intros Hf. unfold cgi_child_chdir. destruct (find_byte (chr "/") (reverse f)) as [i|] eqn:E; [by eexists|].
  apply find_byte_None in E. by rewrite elem_of_reverse in E.
Qed.

(** The worker's side of a script's request. *)
Lemma exec_page_total e v bin post base f (Q : Z -> world F -> Prop) w :
  serving e v w -> body_whole post -> cstr_at w.(w_conn).(strfile) 0 = Some f -> chr "/" ∈ f ->
  (forall ps, cstr_at w.(w_conn).(req) w.(w_conn).(http_param) = Some ps ->
     Forall is_byte ps /\ is_Some (header_vars (text_lines ps) [])) ->
  (forall (fs : F) ex ps, px_script fs ex = Some ps -> output_fits ps) ->
  (forall r w', serving e v w' -> Q r w') -> total (exec_page conf bin post base) Q w.
Proof.
  intros Hs Hb Hf Hsl Hh Ho HQ. unfold exec_page. apply total_bind, total_conn, total_bind, total_get_fs, total_bind.
  assert (exists stdin, match post.(sp_data) with
     | None => Some None
     | Some d => d ← load_n d 0 (Z.to_nat post.(sp_len)); Some (Some d) end = Some stdin) as [stdin Ein].
  { specialize (Hb). unfold body_whole in Hb. destruct (sp_data post) as [d|]; [|by eexists].
    destruct (load_n_total d 0 (Z.to_nat (sp_len post)) (Hb d eq_refl)) as [x ->]. by eexists. }
  eapply total_lift; [exact Ein|]. apply total_bind.
  destruct (sv_placed _ _ _ Hs) as [u Hu].
  destruct (cstr_at_nul (req (w_conn w)) (http_param (w_conn w)) e (sv_param _ _ _ Hs) (rm_nul _ _ (sv_room _ _ _ Hs))) as [ps Eps].
  destruct (Hh ps Eps) as [Hby Hvars]. destruct (cstr_at_Some _ _ _ Eps) as (H0 & tail & Em & Lp).
  destruct (cgi_environ_total conf (w_conn w) u (take (http_param (w_conn w)) (req (w_conn w))) ps tail base f) as [env Ee];
    try done; [apply Hs|].
  assert (is_Some (cgi_execute_child conf (w_conn w) stdin bin base)) as [ex Eex].
  { unfold cgi_execute_child. rewrite Hf. cbn [mbind option_bind]. cbv zeta. rewrite Ee. cbn [mbind option_bind].
    destruct (cgi_child_chdir_total f Hsl) as [[d n] ->]. by eexists. }
  eapply total_lift; [exact Eex|]. destruct (px_script (w_fs w) ex) as [out|] eqn:Ex; [|by apply total_ret, HQ].
  eapply cgi_waitfor_child_total; [exact Hs | by eapply Ho | exact HQ].
Qed.
End Scripts.
