(* ===== verification/SafetyRequests.v ===== *)
(** * Every request is answered within memory and in finite time (instance.c)

    The dispatch of a request that was parsed, with the handlers of Safety.v,
    SafetyDav.v and SafetyCgi.v. *)
From stdpp Require Import relations.
From S2P Require Export SafetyDav SafetyCgi.

Section Requests.
Context {F : Type} `{Posix F}.
Context (conf : weborf_configuration_t).
Context (cachedir : option bytes).
Context (turns depth : nat).
Context (Hquiet : quiet_memory) (Hsizes : sizes_ok).

Lemma read_file_loop_total e v fd retval fuel : forall n tot (Q : Z -> world F -> Prop) w,
  serving e v w -> (Z.to_nat (n - tot) <= length (pending w))%nat -> (Z.to_nat (n - tot) < fuel)%nat ->
  (forall r w', serving e v w' -> Q r w') -> total (read_file_loop fuel fd n tot retval) Q w.
Proof.
  induction fuel as [|f IH]; intros n tot Q w Hs Hp Hf HQ; [lia|]. cbn [read_file_loop]. cbv zeta.
  set (k := if FILEBUF <? n - tot then FILEBUF else n - tot).
  assert (k <= n - tot /\ (0 < n - tot -> 0 < k)) as [Hk1 Hk2] by (subst k; unfold FILEBUF; btest; lia).
  destruct (Z.ltb_spec 0 k) as [Hk|]; [|by apply total_ret, HQ].
  destruct (sock_read_run k w (sv_read _ _ _ Hs) ltac:(lia)) as (d & b & es & Es & Ed & Hb & Hrest).
  destruct (sock_read_total k w (sv_read _ _ _ Hs)) as (d' & b' & es' & Es' & _ & Hv & _).
  rewrite Es in Es'. injection Es' as _ <- <- <-. specialize (Hrest ltac:(lia)).
  assert (length d = Z.to_nat k) as Ld by (rewrite Ed, length_take; lia).
  set (w1 := mkworld (w_conn w) (w_out w) b es (w_fs w)) in *.
  assert (serving e v w1) as Hs1.
  { destruct Hs as [? ? ? ? ? ? ? ? Hvol]. split; try done. unfold volume at 1. cbn [w_read w_net w1]. lia. }
  apply total_bind, total_run. eexists _, _. split; [exact Es|]. cbv beta iota.
  apply total_bind, total_on_fs. destruct (negb _); [by apply total_ret, HQ, serving_fs|].
  apply IH; [by apply serving_fs | | lia | done].
  unfold pending at 1. cbn [w_read w_net with_fs w1]. rewrite Hrest, length_drop. lia.
Qed.

Lemma read_file_total e v path (Q : Z -> world F -> Prop) w :
  serving e v w -> cstr_at w.(w_conn).(strfile) 0 = Some path -> upload_arrives turns w ->
  (forall r w', serving e v w' -> Q r w') -> total (read_file conf turns) Q w.
Proof.
  intros Hs Hp Hu HQ. unfold read_file. destruct (c_authsock conf); [|by apply total_ret, HQ].
  apply total_bind. eapply param_total_run; [exact Hs | by rewrite fresh_length|]. intros b a E Hf. cbv beta iota.
  destruct b; cbn [negb]; [|by apply total_ret, HQ].
  destruct (field_in_nul _ _ _ Hf) as [k Hk]. destruct (cstr_at_nul a 0 k (Nat.le_0_l _) Hk) as [s Es].
  destruct (Hu a s E Es) as [Hlen Hturns].
  apply total_bind. eapply total_lift; [exact Es|]. cbv zeta. apply total_bind, total_conn, total_bind.
  eapply total_lift; [exact Hp|]. apply total_bind. unfold file_exists. apply total_bind, total_get_fs, total_ret.
  apply total_bind, total_on_fs. destruct (_ =? -1); [by apply total_ret, HQ, serving_fs|].
  apply total_bind, total_on_fs. rewrite with_fs_with_fs. destruct (negb _); [by apply total_ret, HQ, serving_fs|].
  destruct (negb _); [by apply total_ret, HQ, serving_fs|].
  apply (read_file_loop_total e v); [by apply serving_fs | | rewrite Z.sub_0_r; lia | exact HQ].
  rewrite Z.sub_0_r. exact Hlen.
Qed.

Lemma levels_removed k dir fs fs' : rtc removal fs fs' -> levels k fs dir -> levels k fs' dir.
Proof. intros Hr. destruct k as [|k]; [done|]. cbn [levels]. intros Hl fs2 Hr2. apply Hl. by etrans. Qed.

Lemma unlink_removed dir fs : rtc removal fs (px_unlink fs dir).2.
Proof. apply rtc_once. exists dir. by left. Qed.

(** What [dir_remove] leaves is the state before, but for the files. *)
Definition only_removed (w w' : world F) : Prop := exists fs, w' = with_fs w fs /\ rtc removal w.(w_fs) fs.

Lemma only_removed_step w w1 w2 : only_removed w w1 -> only_removed w1 w2 -> only_removed w w2.
Proof.
  intros (fs1 & -> & H1) (fs2 & -> & H2). exists fs2. rewrite with_fs_with_fs. split; [done|].
  cbn [with_fs w_fs] in H2. by etrans.
Qed.

Lemma for_entries_total k dir es : forall (Q : Z -> world F -> Prop) w,
  (forall dir (Q : Z -> world F -> Prop) w, levels k w.(w_fs) dir ->
     (forall r w', only_removed w w' -> Q r w') -> total (dir_remove k dir) Q w) ->
  Forall (fun n => is_dot_entry n = true \/ levels k w.(w_fs) (join_path dir n)) es ->
  (forall r w', only_removed w w' -> Q r w') ->
  total (for_entries es tt (fun _ name => _ ← dir_remove k (join_path dir name); mret (0, tt))) Q w.
Proof.
  induction es as [|n es IH]; intros Q w Hk He HQ; cbn [for_entries].
  { apply total_ret, HQ. exists w.(w_fs). by rewrite with_fs_id. }
  apply Forall_cons in He as [Hn He]. destruct (is_dot_entry n) eqn:Ed; [by apply IH|]. destruct Hn as [|Hn]; [done|].
  apply total_bind, total_bind. apply Hk; [done|]. intros r w1 H1. apply total_ret. change (0 =? 0) with true.
  apply IH; [done | |intros r2 w2 H2; apply HQ; by eapply only_removed_step].
  destruct H1 as (fs & -> & Hr). eapply Forall_impl; [exact He|]. intros m [|Hm]; [by left | right]. by eapply levels_removed.
Qed.

Lemma dir_remove_total k : forall dir (Q : Z -> world F -> Prop) w,
  levels k w.(w_fs) dir -> (forall r w', only_removed w w' -> Q r w') -> total (dir_remove k dir) Q w.
Proof.
  induction k as [|k IH]; intros dir Q w Hl HQ; [done|]. cbn [dir_remove]. apply total_bind, total_on_fs.
  set (fs1 := (px_unlink w.(w_fs) dir).2). pose proof (unlink_removed dir w.(w_fs)) as H1. fold fs1 in H1.
  assert (only_removed w (with_fs w fs1)) as Ho by (by exists fs1).
  destruct (Hl w.(w_fs) ltac:(done)) as [E|Hes]; [rewrite E; by apply total_ret, HQ|]. fold fs1 in Hes.
  destruct (px_unlink w.(w_fs) dir).1; [|by apply total_ret, HQ]. apply total_bind, total_get_fs. cbn [with_fs w_fs].
  destruct (px_readdir fs1 dir) as [es|] eqn:Ed; [|by apply total_ret, HQ]. destruct (negb _); [by apply total_ret, HQ|].
  apply total_bind. apply for_entries_total; [exact IH | |].
  - eapply Forall_impl; [exact (Hes es eq_refl)|]. intros n [|Hn]; [by left | right]. by eapply levels_removed.
  - intros _ w2 H2. apply total_bind, total_on_fs, total_ret, HQ. eapply only_removed_step; [exact Ho|].
    eapply only_removed_step; [exact H2|]. eexists. split; [reflexivity|]. apply rtc_once. exists dir. by right.
Qed.

Lemma delete_file_total e v path (Q : Z -> world F -> Prop) w :
  serving e v w -> cstr_at w.(w_conn).(strfile) 0 = Some path ->
  (is_Some conf.(c_authsock) -> forall st, px_stat w.(w_fs) path = Some st -> S_ISDIR st.(st_mode) = true ->
   levels depth w.(w_fs) path) ->
  (forall r w', serving e v w' -> Q r w') -> total (delete_file conf depth) Q w.
Proof.
  intros Hs Hp Hd HQ. unfold delete_file. destruct (c_authsock conf) as [sock|]; [|by apply total_ret, HQ].
  apply total_bind, total_conn, total_bind. eapply total_lift; [exact Hp|]. apply total_bind, total_get_fs.
  destruct (px_stat (w_fs w) path) as [st|]; [|by apply total_ret, HQ]. apply total_bind.
  destruct (S_ISDIR (st_mode st)) eqn:Ed.
  - apply dir_remove_total; [by apply (Hd ltac:(by eexists) st)|].
    intros r w' (fs & -> & _). by apply total_ret, HQ, serving_fs.
  - apply total_bind, total_on_fs, total_ret, total_ret, HQ. by apply serving_fs.
Qed.

Lemma mkcol_total e v path (Q : Z -> world F -> Prop) w :
  serving e v w -> cstr_at w.(w_conn).(strfile) 0 = Some path ->
  (forall r w', serving e v w' -> Q r w') -> total (mkcol conf) Q w.
Proof.
  intros Hs Hp HQ. unfold mkcol. destruct (c_authsock conf); [|by apply total_ret, HQ].
  apply total_bind, total_conn, total_bind. eapply total_lift; [exact Hp|]. apply total_bind, total_on_fs.
  by apply total_ret, HQ, serving_fs.
Qed.

(** The body does not depend on the rest of the connection's state. *)
Lemma read_post_data_conn (w w' : world F) c s :
  c.(req) = w.(w_conn).(req) -> c.(http_param) = w.(w_conn).(http_param) ->
  read_post_data (with_conn w c) = Some (s, w') -> exists w'', read_post_data w = Some (s, w'').
Proof.
  intros Hr Hp E. unfold read_post_data, param in *.
  apply bind_inv in E as ([r a] & w1 & E1 & E). rewrite conn_bind in E1. cbn [with_conn w_conn] in E1. rewrite Hr, Hp in E1.
  unfold lift in E1. destruct (get_param_value _ _ _ _ _ _) as [x|] eqn:Eg; [|done]. injection E1 as -> <-.
  rewrite (bind_run _ _ w (r, a) w) by (rewrite conn_bind; unfold lift; by rewrite Eg).
  cbv beta iota in *. destruct r; [|by injection E as <- _; eexists].
  apply lift_bind_inv in E as (t & Et & E). rewrite (lift_bind_Some _ _ _ _ Et). cbv zeta in *.
  destruct (_ && _); [|by injection E as <- _; eexists].
  apply bind_inv in E as ([n d] & w2 & E2 & E). injection E as <- _.
  unfold sock_read in *. cbn [with_conn w_read w_net w_out w_fs w_conn] in E2.
  destruct (buffer_read _ _ _) as [[[[z d'] b] es]|] eqn:Eb; [|done].
  erewrite bind_run by (by rewrite Eb). cbv beta iota. injection E2 as -> -> _. by eexists.
Qed.

Lemma other_methods_total e v path (Q : Z -> world F -> Prop) w :
  serving e v w -> cstr_at w.(w_conn).(strfile) 0 = Some path -> path = opened (target w.(w_conn)) ->
  w.(w_conn).(strfile_len) = Z.of_nat (length (target w.(w_conn))) -> answerable conf turns depth w ->
  (forall r w', serving e v w' -> Q r w') -> total (other_methods conf cachedir turns depth w.(w_conn).(method_id)) Q w.
Proof.
  intros Hs Hp -> Hl [_ Hcopy _ Hput Hdel Hprop] HQ. unfold other_methods. set (id := method_id (w_conn w)) in *.
  destruct (Z.eqb_spec id PUT) as [Ei|_].
  { destruct (c_authsock conf) as [sock|] eqn:Ea.
    - eapply read_file_total; [exact Hs | exact Hp | by apply Hput | exact HQ].
    - unfold read_file. rewrite Ea. by apply total_ret, HQ. }
  destruct (Z.eqb_spec id DELETE) as [Ei|_]; [by eapply delete_file_total; [..|intros ?; apply Hdel|]|].
  destruct (Z.eqb_spec id OPTIONS).
  { unfold options. apply total_bind, send_http_header_total; [lia | done | apply Nat.leb_le; reflexivity |].
    intros r d. apply total_ret, HQ. eapply serving_answered; [exact Hs | apply answered_sent]. }
  destruct (Z.eqb_spec id PROPFIND).
  { destruct (proj1 (total_run _ _ _) (read_post_data_total e v
      (fun _ w' => serving e v w' /\ w_conn w' = w_conn w /\ w_fs w' = w_fs w) w Hs ltac:(done)))
      as (s & w' & E & Hs' & Hc & Hf).
    apply total_bind, total_run. exists s, w'. split; [exact E|].
    destruct (c_authsock conf) as [sock|] eqn:Ea.
    - apply (propfind_total conf cachedir Hsizes e v s Q w' w); rewrite ?Hc; try done. by apply Hprop.
    - unfold propfind. rewrite Ea. by apply total_ret, HQ. }
  destruct (Z.eqb_spec id MKCOL); [by eapply mkcol_total|].
  destruct ((id =? COPY) || (id =? MOVE)) eqn:Ei; [|by apply total_ret, HQ].
  eapply copy_move_total; [exact Hquiet | exact Hs | exact Hp | apply Hcopy |].
  - apply orb_true_iff in Ei. simpl. rewrite !Z.eqb_eq in Ei. destruct Ei as [->| ->]; auto.
  - intros r fs. by apply HQ, serving_fs.
Qed.

(** A regular file: a script's, or one that is sent. *)
Lemma regular_file_total e v post f (Q : Z -> world F -> Prop) (w w3 : world F) :
  answerable conf turns depth w -> w.(w_conn).(method_id) < PUT -> body_whole post -> serving e v w3 ->
  w3.(w_conn).(req) = w.(w_conn).(req) -> w3.(w_conn).(page) = w.(w_conn).(page) ->
  w3.(w_conn).(page_len) = w.(w_conn).(page_len) -> w3.(w_conn).(http_param) = w.(w_conn).(http_param) ->
  f = opened (target w.(w_conn)) -> cstr_at w3.(w_conn).(strfile) 0 = Some f ->
  S_ISDIR w3.(w_conn).(strfile_stat).(st_mode) = false -> size_ok w3.(w_conn).(strfile_stat) ->
  (forall r w', serving e v w' -> Q r w') -> total (get_or_post conf cachedir post) Q w3.
Proof.
  intros Hans Hm Hb2 Hs3 Rq Rp Rl Rh -> Hf Ed Hsz HQ. unfold get_or_post. apply total_bind, total_conn. rewrite Ed.
  assert (total (write_file conf) Q w3) as Hwf by (by apply (write_file_total conf Hquiet e v)).
  apply total_bind. destruct (c_exec_script conf) eqn:Ex; [|by apply total_ret].
  destruct (an_script _ _ _ _ Hans Ex Hm) as [Hpaths Hends Hhead Hsl Hout].
  destruct (sv_placed _ _ _ Hs3) as [u Hu]. pose proof (placed_page _ _ Hu). pose proof (sv_param _ _ _ Hs3).
  destruct (find_cgi_total (w_conn w3) e (c_cgi_paths conf)) as [bin Hx];
    [apply (rm_nul _ _ (sv_room _ _ _ Hs3)) | lia | exact Hpaths | by rewrite Rp, Rl |].
  eapply total_lift; [exact Hx|]. destruct bin as [bin|]; [|exact Hwf].
  eapply exec_page_total; [exact Hs3 | exact Hb2 | exact Hf | exact Hsl | by rewrite Rq, Rh | exact Hout | exact HQ].
Qed.

(** GET and POST, once the name [m] of the file is made. *)
Lemma open_total e v m post (Q : Z -> world F -> Prop) (w w2 : world F) :
  let name := target w.(w_conn) in
  answerable conf turns depth w -> w.(w_conn).(method_id) < PUT -> body_whole post -> serving e v w2 ->
  length m = URI_LEN -> cstr_at m 0 = Some (opened name) ->
  w2.(w_conn) = set_strfile_len (Z.of_nat (length name)) (set_strfile m w.(w_conn)) -> w2.(w_fs) = w.(w_fs) ->
  (forall r w', serving e v w' -> Q r w') ->
  total (path ← lift (cstr_at m 0); fs ← get_fs;
         let fd := px_open_rd fs path in
         _ ← upd (set_strfile_fd fd);
         if fd <? 0 then mret ERR_FILENOTFOUND
         else _ ← upd (set_strfile_stat (px_fstat fs fd)); get_or_post conf cachedir post) Q w2.
Proof.
  intros name Hans Hm Hb2 Hs2 Lm Ec Hc2 Hf2 HQ. pose proof (an_dir _ _ _ _ Hans) as Hdir.
  apply total_bind. eapply total_lift; [exact Ec|]. apply total_bind, total_get_fs. cbv zeta.
  rewrite Hf2. cbv zeta in Hdir. fold name in Hdir. set (fd := px_open_rd (w_fs w) (opened name)) in *.
  apply total_bind, total_upd. destruct (Z.ltb_spec fd 0) as [|Hfd]; [apply total_ret, HQ; by destruct Hs2|].
  apply total_bind, total_upd. set (w3 := with_conn _ _).
  assert (serving e v w3) as Hs3 by (by destruct Hs2).
  assert (w_conn w3 = set_strfile_stat (px_fstat (w_fs w) fd) (set_strfile_fd fd
            (set_strfile_len (Z.of_nat (length name)) (set_strfile m (w_conn w)))) /\ w_fs w3 = w_fs w) as [C3 F3]
    by (subst w3; cbn [with_conn w_conn w_fs]; by rewrite Hc2, Hf2).
  destruct (S_ISDIR (st_mode (px_fstat (w_fs w) fd))) eqn:Ed.
  - pose proof (Hdir Hm Hfd eq_refl) as Hds. pose proof Hds as [[H0 _] Hr _ _].
    destruct (dir_in_name m name Lm Ec H0 Hr) as [Ho Hin].
    apply (dir_total conf Hquiet Hsizes cachedir e v name); [| | | by rewrite F3 | exact HQ].
    + split; [done|]. by rewrite C3.
    + rewrite C3. cbn [strfile set_strfile_stat set_strfile_fd set_strfile_len set_strfile]. by rewrite Ec, Ho.
    + by rewrite C3.
  - eapply (regular_file_total e v post _ Q w w3); try (by rewrite C3); try done. rewrite C3. apply Hsizes.
Qed.

Lemma serve_total e v (Q : Z -> world F -> Prop) w :
  serving e v w -> (exists a, auth_check_request conf w = Some (a, w)) -> answerable conf turns depth w ->
  (forall r w', serving e v w' -> Q r w') -> total (serve conf cachedir turns depth) Q w.
Proof.
  intros Hs [a Ha] Hans HQ. unfold serve. apply total_bind, total_run. exists a, w. split; [exact Ha|].
  destruct (negb _).
  { apply total_bind, (read_post_data_total e v); [exact Hs|]. intros s w' Hw' _ _ _. by apply total_ret, HQ. }
  apply total_bind, total_conn, total_bind.
  eapply cstring_total; [exact Hs | apply Hs |]. intros p Ep _.
  assert (basedir (w_conn w) ++ p = target (w_conn w)) as Ht by (unfold target; by rewrite Ep).
  rewrite Ht. clear Ht Ep p. set (name := target (w_conn w)) in *.
  destruct (snprintf_name (strfile (w_conn w)) name (sv_strfile _ _ _ Hs)) as (m & E & Lm & Ec).
  change (cstr_prefix _) with (opened name) in Ec.
  apply total_bind. eapply total_lift; [exact E|]. cbv beta iota. apply total_bind, total_upd.
  set (w1 := with_conn w _). assert (serving e v w1) as Hs1 by (by destruct Hs).
  destruct (Z.leb_spec PUT (method_id (w_conn w))) as [|Hm].
  { apply (other_methods_total e v (opened name) Q w1 Hs1); [exact Ec | done | done | | exact HQ].
    destruct Hans as [Hd Hcp Hx Hpt Hde Hpf]. split; [exact Hd | exact Hcp | | exact Hpt | exact Hde |].
    2:{ intros Hau Hm. destruct (Hpf Hau Hm) as [? ? ? ? ? ? ? Hb]. split; try done. intros s w' E1.
        destruct (read_post_data_conn w w' (w_conn w1) s eq_refl eq_refl E1) as [w'' E2]. by eapply Hb. }
    intros Hex Hm. destruct (Hx Hex Hm) as [? ? ? ? ?]. by split. }
  apply total_bind. destruct (_ =? POST).
  - apply (read_post_data_total e v); [exact Hs1|]. intros s w2 Hs2 Hc2 Hf2 Hb2. by apply (open_total e v m s Q w w2).
  - apply total_ret. by apply (open_total e v m _ Q w w1).
Qed.

Lemma send_page_total e v (Q : Z -> world F -> Prop) w :
  serving e v w -> (exists a, auth_check_request conf w = Some (a, w)) -> answerable conf turns depth w ->
  (forall r w', serving e v w' -> Q r w') -> total (send_page conf cachedir turns depth) Q w.
Proof.
  intros Hs Hau Ha HQ. unfold send_page. apply total_bind, (serve_total e v); [done..|].
  intros r w' Hw'. apply (send_error_header_total e v); [done|]. intros r' w2 Hw2. apply HQ. by eapply serving_answered.
Qed.
End Requests.
