(* ===== verification/Connections.v ===== *)
(** * Connections and workers that survive their clients (instance.c)

    What becomes of a connection whose client sends whatever it likes, and of a
    worker that serves such connections, on top of SafetyRequests.v.  As
    in a proof of type safety, a state of the connection is either at its end or
    serves one more request; what the states that are reached have to ask for is
    [manageable], and [index_overruns] shows that the condition is needed. *)
From stdpp Require Import relations.
From S2P Require Export SafetyRequests Worker.

(** ** Specification: a connection *)

Section Turns.
Context {F : Type} `{Posix F}.
Context (conf : weborf_configuration_t).
Context (cachedir : option bytes).
Context (turns depth : nat).

(** The first part of a turn of the loop: the end of the header, the bytes read,
    and whether the request was understood. *)
Definition take_request (n : nat) : M F (option (nat * nat * bool)) :=
  _ ← (if (n =? 0)%nat then mret tt else clear_buf n);
  r ← read_request;
  match r with
  | None => mret None
  | Some (e, n) => ok ← parse_request conf; mret (Some (e, n, ok))
  end.

(** A state of the connection: the bytes of the memory that are in use, and the
    rest.  One request is served and the connection is kept. *)
Inductive served : nat * world F -> nat * world F -> Prop :=
  | served_one n w e n' w1 r w' :
      take_request n w = Some (Some (e, n', true), w1) ->
      send_page conf cachedir turns depth w1 = Some (r, w') -> 0 <= r ->
      w'.(w_conn).(keep_alive) = true -> served (n, w) (n', w').

(** The next request, if there is one, has a header that ends nine bytes before
    the memory does, credentials, if they are looked at, that are whole groups
    of base64, and asks for something that can be answered. *)
Definition manageable (s : nat * world F) : Prop :=
  (forall e n' w1, (_ ← (if (s.1 =? 0)%nat then mret tt else clear_buf s.1); read_request) s.2 = Some (Some (e, n'), w1) ->
     (e + 9 <= INBUFFER)%nat
     /\ (is_Some conf.(c_authsock) -> forall h me u ps,
          received h w1 -> request_line h = Some (me, u, ps) -> credentials_whole ps))
  /\ (forall e n' w1, take_request s.1 s.2 = Some (Some (e, n', true), w1) -> answerable conf turns depth w1).

(** Between two requests. *)
Definition ready (s : nat * world F) : Prop :=
  request_ok s.1 s.2 /\ (length s.2.(w_conn).(ip_addr) < INET6_ADDRSTRLEN)%nat
  /\ length s.2.(w_conn).(strfile) = URI_LEN.
End Turns.

(** ** Lemmas: a turn *)

Section Turn.
Context {F : Type} `{Posix F}.
Context (conf : weborf_configuration_t).
Context (cachedir : option bytes).
Context (turns depth : nat).

Lemma bad_request_run (w : world F) : bad_request w = Some (tt, w).
Proof. done. Qed.

Lemma end_header_volume e from n (w w' : world F) n' :
  buf_wf w.(w_read) -> end_header e from n w = Some (n', w') -> (volume w' <= volume w)%nat.
Proof.
  intros Hwf E. unfold end_header in E. rewrite conn_bind in E. apply lift_bind_inv in E as (o & _ & E).
  apply bind_inv in E as (k & w1 & E1 & E). apply bind_inv in E as (u & w2 & E2 & E). injection E as _ <-.
  assert (volume w2 = volume w1) as ->.
  { unfold upd_req in E2. rewrite conn_bind in E2. apply lift_bind_inv in E2 as (m & _ & E2). by injection E2 as _ <-. }
  destruct o; [by injection E1 as _ <-|].
  destruct (sock_read_total 1 w Hwf) as (d & b & es & Er & _ & Hv & _).
  rewrite (bind_run _ _ _ _ _ Er) in E1. cbn beta iota in E1. apply bind_inv in E1 as (u1 & w3 & E3 & E1).
  injection E1 as _ <-. unfold upd_req in E3. rewrite conn_bind in E3. apply lift_bind_inv in E3 as (m & _ & E3).
  injection E3 as _ <-. unfold volume in *. cbn [w_read w_net]. lia.
Qed.

Lemma clear_buf_ready n (w : world F) :
  zero_behind n w.(w_conn).(req) ->
  (if (n =? 0)%nat then mret tt else clear_buf n) w = Some (tt, reading w (buf_with []) w.(w_read) w.(w_net)).
Proof.
  intros Hz. destruct (Nat.eqb_spec n 0) as [->|Hn].
  - destruct Hz as (_ & _ & Hz). rewrite drop_0, Nat.sub_0_r in Hz. change (req (w_conn w) = buf_with []) in Hz.
    rewrite <-reading_same by done. by destruct w.
  - unfold clear_buf. by rewrite (upd_req_run _ _ _ (zero_behind_clear n _ Hz)).
Qed.

Lemma header_end_room e d : header_result (HdrEnd e) d -> (length d < INBUFFER /\ e + 3 <= length d)%nat.
Proof.
  intros [Hd Hs]. split; [done|]. apply starts_with_length in Hs. rewrite length_drop in Hs.
  change (length empty_line) with 3%nat in Hs. lia.
Qed.

(** A request that was parsed, with everything the handlers rely on; the check of
    its credentials stays within memory. *)
Lemma parsed_serving (w : world F) h n :
  socket_fits conf -> received h w -> length w.(w_conn).(req) = (INBUFFER + 1)%nat ->
  (length w.(w_conn).(ip_addr) < INET6_ADDRSTRLEN)%nat -> length w.(w_conn).(strfile) = URI_LEN ->
  buf_wf w.(w_read) -> zero_behind n w.(w_conn).(req) -> (length h <= n)%nat ->
  (is_Some conf.(c_authsock) -> forall me u ps, request_line h = Some (me, u, ps) -> credentials_whole ps) ->
  exists ok w1, parse_request conf w = Some (ok, w1)
    /\ zero_behind n w1.(w_conn).(req) /\ w1.(w_conn).(ip_addr) = w.(w_conn).(ip_addr)
    /\ length w1.(w_conn).(strfile) = URI_LEN /\ w1.(w_read) = w.(w_read)
    /\ (ok = true -> serving (length h) (volume w) w1 /\ exists a, auth_check_request conf w1 = Some (a, w1)).
Proof.
  intros Hsf Hrec Hl Hip Hs Hb Hz Hn Hcred. pose proof Hrec as ([tail Em] & H0 & Hr).
  destruct (parse_request_total conf w h tail Em H0 Hr) as (c & Ep & Eip & Hstr & Hst & Hu).
  eexists _, _. split; [exact Ep|]. cbn [with_conn w_conn w_read].
  split_and!; [by eapply zero_behind_stays | done | by rewrite Hstr | done |]. intros Hok. split.
  - destruct (find_method methods h) as [id|]; [|done]. destruct (request_line h) as [[[me u] ps]|]; [|done].
    destruct (Hu id me u ps eq_refl eq_refl) as ([_ _ _ _ _ Hpl] & Hpg & Hpar).
    split; cbn [with_conn w_conn w_read]; [by eapply room_stays | destruct Hst as (-> & _ & _); lia | done | done |
      by rewrite Eip | by rewrite Hstr | by exists u | done | done].
  - destruct (c_authsock conf) as [sock|] eqn:Ea.
    + assert (length h <= INBUFFER)%nat as Hh by (pose proof (rm_room _ _ Hr); lia).
      destruct (requests_checked_run conf w sock h Hsf Ea Hrec Hh Hip) as (ok2 & w2 & Ep2 & Hc2).
      { intros me u ps. apply Hcred. by eexists. }
      rewrite Ep in Ep2. injection Ep2 as <- <-. destruct (Hc2 Hok) as (me & u & ps & r & _ & E & _). by exists r.
    + exists 0. unfold auth_check_request. by rewrite Ea.
Qed.

Context (Hquiet : quiet_memory) (Hsizes : sizes_ok) (Hsocket : socket_fits conf).

(** A turn ends the connection or serves a request, which has used up some of
    what the client sends. *)
Lemma turn_total k n (w : world F) :
  ready (n, w) -> manageable conf turns depth (n, w) ->
  (exists n' w', handle_requests conf cachedir turns depth (S k) n w = Some (n', w') /\ ready (n', w'))
  \/ exists n' w', served conf cachedir turns depth (n, w) (n', w') /\ ready (n', w')
       /\ (volume w' + 3 <= volume w)%nat
       /\ handle_requests conf cachedir turns depth (S k) n w = handle_requests conf cachedir turns depth k n' w'.
Proof.
  intros ([Hz Hb] & Hip & Hstr) [Hend Hans]. cbn [fst snd] in *. cbn [handle_requests].
  pose proof (clear_buf_ready n w Hz) as Ec. set (w0 := reading w _ _ _) in *. rewrite (bind_run _ _ _ _ _ Ec).
  destruct (read_header_total INBUFFER [] 0 w0 Hb eq_refl) as (o & from & d & b & es & Er & Hb2 & Hf & Ho);
    [done | cbn [length]; unfold INBUFFER; lia.. |]. cbn [length] in Er.
  pose proof (read_header_volume INBUFFER 0 0 w0 _ _ _ _ Hb Er) as Hv. change (volume w0) with (volume w) in Hv.
  set (w1 := reading w0 (buf_with d) b es) in *. rewrite (bind_run _ _ _ _ _ Er). cbn beta iota.
  destruct o as [| |e].
  1, 2: left; eexists _, _; split; [done|]; split; [split; [apply zero_behind_buf; cbn [header_result] in Ho; lia | done] | by split].
  pose proof (header_end_room _ _ Ho) as [Hd He].
  destruct (end_header_total e from d w1 Hb2 eq_refl ltac:(lia) He) as (d' & b' & es' & Ee & Hd' & He' & Hb').
  pose proof (end_header_volume e from (length d) w1 _ _ Hb2 Ee) as Hv2.
  destruct (end_header_kept d e from w1 _ _ eq_refl Ho Hf Hb2 Ee) as ([Hz2 _] & _ & _).
  set (w2 := reading w1 _ b' es') in *. rewrite (bind_run _ _ _ _ _ Ee).
  assert (read_request w0 = Some (Some (e, length d'), w2)) as Eq
    by (unfold read_request; rewrite (bind_run _ _ _ _ _ Er); cbn beta iota; by rewrite (bind_run _ _ _ _ _ Ee)).
  specialize (Hend e (length d') w2). rewrite (bind_run _ _ _ _ _ Ec) in Hend. specialize (Hend Eq). destruct Hend as [Hend Hcred].
  destruct (received_cut e d' w1 b' es' Hd' Hend) as (h & Hrec & Hh).
  destruct (parsed_serving w2 h (length d') Hsocket Hrec) as (ok & w3 & Ep & Hz3 & Hip3 & Hstr3 & Hr3 & Hs3);
    [subst w2; cbn [reading w_conn set_req req]; by rewrite length_insert, buf_with_length by lia | done | done | done | done | lia | |].
  { intros Ha me u ps. by apply Hcred. }
  rewrite (bind_run _ _ _ _ _ Ep). destruct ok; cbn [negb].
  2:{ left. eexists _, _. split; [done|]. split; [split; [done | cbn [snd]; by rewrite Hr3] |]. cbn [snd]. by rewrite Hip3. }
  assert (take_request conf n w = Some (Some (e, length d', true), w3)) as Et.
  { unfold take_request. rewrite (bind_run _ _ _ _ _ Ec), (bind_run _ _ _ _ _ Eq). by rewrite (bind_run _ _ _ _ _ Ep). }
  destruct (Hs3 eq_refl) as [Hs3' Hau]. specialize (Hans _ _ _ Et).
  destruct (proj1 (total_run _ _ _) (send_page_total conf cachedir turns depth Hquiet Hsizes _ _
    (fun _ w' => serving (length h) (volume w2) w') w3 Hs3' Hau Hans ltac:(done))) as (r & w4 & Es & Hs4).
  rewrite (bind_run _ _ _ _ _ Es).
  destruct (send_page_kept conf cachedir turns depth (req (w_conn w3)) w3 r w4 ltac:(split; [done | apply Hs3']) Es) as [Hr4 Hb4].
  assert (ready (length d', w4)) as Hok by (split; [split; [cbn [fst snd]; by rewrite Hr4 | done] | split; apply Hs4]).
  destruct (Z.ltb_spec r 0); [left; by eexists _, _|]. rewrite conn_bind.
  destruct (keep_alive (w_conn w4)) eqn:Ek; cbn [negb]; [|left; by eexists _, _].
  right. exists (length d'), w4. split_and!; [by eapply served_one | done | | done].
  pose proof (sv_volume _ _ _ Hs4). lia.
Qed.

Lemma connection_total k : forall n (w : world F),
  ready (n, w) -> (volume w < k)%nat ->
  (forall s, rtc (served conf cachedir turns depth) (n, w) s -> manageable conf turns depth s) ->
  exists n' w', handle_requests conf cachedir turns depth k n w = Some (n', w') /\ ready (n', w').
Proof.
  induction k as [|k IH]; intros n w Hr Hv Hm; [lia|].
  destruct (turn_total k n w Hr (Hm _ (rtc_refl _ _))) as [|(n' & w' & Hs & Hr' & Hv' & ->)]; [done|].
  apply IH; [done | lia |]. intros s Hs'. apply Hm. by eapply rtc_l.
Qed.
End Turn.

(** ** Specification: a worker *)

Section Jobs.
Context {F : Type} `{Posix F}.
Context (conf : weborf_configuration_t).
Context (cachedir : option bytes).
Context (turns depth : nat).
Context (requests : nat).

(** The text of the client's address is one that [inet_ntop] makes, and the
    client sends fewer bytes than turns of the loop are followed. *)
Definition job_ok (j : job) : Prop :=
  0 ∉ peer_text j.(j_peer) /\ (length (peer_text j.(j_peer)) < INET6_ADDRSTRLEN)%nat
  /\ (event_bytes j.(j_net) < requests)%nat.

(** Every state that the worker's connections reach is manageable. *)
Fixpoint jobs_manageable (jobs : list job) (n : nat) (w : world F) : Prop :=
  match jobs with
  | [] => True
  | j :: jobs =>
      j.(j_sock) < 0
      \/ (forall w1, j.(j_accepted) = true -> connect j.(j_peer) j.(j_net) w = Some w1 ->
            forall s, rtc (served conf cachedir turns depth) (n, w1) s -> manageable conf turns depth s)
         /\ (forall n' w', serve_job conf cachedir turns depth requests j n w = Some (n', w') ->
              jobs_manageable jobs n' w')
  end.

(** Between two connections: nothing is left in the read buffer. *)
Definition idle (n : nat) (w : world F) : Prop := ready (n, w) /\ buffered w.(w_read) = [].

(** ** Lemmas: a worker *)

Lemma connect_total peer es n (w : world F) :
  0 ∉ peer_text peer -> (length (peer_text peer) < INET6_ADDRSTRLEN)%nat -> idle n w ->
  exists w', connect peer es w = Some w' /\ ready (n, w') /\ volume w' = event_bytes es.
Proof.
  intros H0 Hl [([Hz Hb] & _ & Hs) He].
  destruct (net_getpeername_text peer (World.fresh INET6_ADDRSTRLEN) H0 Hl (fresh_length _)) as (b & Eb & _ & Ec).
  unfold connect. rewrite Eb. cbn [mbind option_bind]. rewrite Ec. cbn [mbind option_bind].
  eexists. split; [done|]. split; [by split_and!|]. unfold volume. cbn [w_read w_net]. by rewrite He.
Qed.

Lemma reset_idle n (w : world F) :
  ready (n, w) -> idle n (mkworld w.(w_conn) w.(w_out) (buffer_reset w.(w_read)) w.(w_net) w.(w_fs)).
Proof.
  intros [Hok Hs]. split; [split; [by apply reset_ok | exact Hs] | done].
Qed.

Lemma serve_job_total j n (w : world F) :
  quiet_memory -> sizes_ok -> socket_fits conf -> job_ok j -> idle n w ->
  (forall w1, j.(j_accepted) = true -> connect j.(j_peer) j.(j_net) w = Some w1 ->
     forall s, rtc (served conf cachedir turns depth) (n, w1) s -> manageable conf turns depth s) ->
  exists n' w', serve_job conf cachedir turns depth requests j n w = Some (n', w') /\ idle n' w'.
Proof.
  intros Hq Hsz Hsf (H0 & Hl & Hv) Hi Hm. destruct (connect_total (j_peer j) (j_net j) n w H0 Hl Hi) as (w1 & E1 & Hr1 & Hv1).
  unfold serve_job, serve_connection. rewrite E1. cbn [mbind option_bind].
  destruct (j_accepted j) eqn:Ea.
  - destruct (connection_total conf cachedir turns depth Hq Hsz Hsf requests n w1 Hr1 ltac:(lia) (Hm w1 eq_refl E1))
      as (n' & w' & E & Hr'). rewrite E. cbn [mbind option_bind]. eexists _, _. split; [done|]. by apply reset_idle.
  - eexists _, _. split; [done|]. by apply reset_idle.
Qed.

Lemma instance_loop_total jobs : quiet_memory -> sizes_ok -> socket_fits conf -> Forall job_ok jobs ->
  forall n ti (w : world F), idle n w -> jobs_manageable jobs n w ->
  exists r ti' w', instance_loop conf cachedir turns depth requests jobs n ti w = Some (r, ti', w').
Proof.
  intros Hq Hsz Hsf Hj. induction Hj as [|j jobs Hj _ IH]; intros n ti w Hi Hm; [by eexists _, _, _|].
  cbn [instance_loop jobs_manageable] in *. cbv zeta.
  destruct (Z.ltb_spec (j_sock j) 0) as [|Hs]; [by eexists _, _, _|]. destruct Hm as [|[Hm Hrest]]; [lia|].
  destruct (serve_job_total j n w Hq Hsz Hsf Hj Hi Hm) as (n' & w' & E & Hi'). rewrite E. cbn [mbind option_bind].
  destruct (IH n' (change_free_thread 1 0 (change_free_thread (-1) 0 ti)) w' Hi' (Hrest n' w' E)) as ([l e] & ti' & w2 & E2).
  rewrite E2. cbn [mbind option_bind]. by eexists _, _, _.
Qed.
End Jobs.

(** ** Theorems *)

Section SafetyTheorems.
Context {F : Type} `{Posix F}.
Context (conf : weborf_configuration_t).
Context (cachedir : option bytes).
Context (turns depth : nat).

(** C3: in every configuration, whatever bytes a client sends, in whatever
    pieces and with whatever methods and header fields, the connection is served
    to its end: no request makes the worker leave its memory, every loop of every
    handler ends, each request uses up some of what was sent so that there are
    fewer turns than bytes, and the memory is left as the next connection needs
    it.  The requests that the connection gets to have to be [manageable]: their
    header ends nine bytes before the memory does; a directory that is asked for
    has a name that leaves room for an index, and has an index or a page that
    fits; where scripts run, names of fields are shorter than 195 bytes and the
    header that a script prints fits; what is copied or moved is a file; and, where an
    authentication program lets such requests pass, credentials are whole groups
    of base64, the body of an upload arrives, a directory that is deleted has fewer
    than [depth] [levels] (as in every tree, [tree_levels]), and a PROPFIND
    has its tags and asks for names that can be escaped.  Of memory that was not
    written, which some handlers read, only a NUL at its end is assumed
    ([quiet_memory]), and of file sizes that they are of type off_t ([sizes_ok]); the
    path of the authentication program's socket fits its address ([socket_fits]). *)
Theorem connection_served k n (w : world F) :
  quiet_memory -> sizes_ok -> socket_fits conf -> ready (n, w) -> (volume w < k)%nat ->
  (forall s, rtc (served conf cachedir turns depth) (n, w) s -> manageable conf turns depth s) ->
  exists n' w', handle_requests conf cachedir turns depth k n w = Some (n', w') /\ ready (n', w').
Proof. intros Hq Hs Hsf. by apply connection_total. Qed.

(** What [manageable] asks of directories is needed: for the directory whose name, slash
    included, leaves no room for the index behind it, the index is written
    beyond the buffer for file names. *)
Theorem index_overruns e v idx rest (w : world F) :
  conf.(c_tar_directory) = false -> auth_check_request conf w = Some (0, w) ->
  serving e v w -> w.(w_conn).(method_id) = GET -> conf.(c_indexes) = idx :: rest ->
  let name := target w.(w_conn) in
  0 ∉ name -> last name = Some (chr "/") -> (length name < URI_LEN)%nat ->
  (length idx < INDEXMAXLEN)%nat -> (URI_LEN <= length name + length idx)%nat ->
  let fd := px_open_rd w.(w_fs) name in
  0 <= fd -> S_ISDIR (px_fstat w.(w_fs) fd).(st_mode) = true ->
  serve conf cachedir turns depth w = None.
Proof.
  intros Hc Ha Hs Hg Hi name H0 Hl Hn Hx Hroom fd Hfd Hd. unfold serve. rewrite (bind_run _ _ _ _ _ Ha).
  cbn [Z.eqb negb]. rewrite conn_bind.
  destruct (cstr_at_nul (req (w_conn w)) (page (w_conn w)) e (sv_page _ _ _ Hs) (rm_nul _ _ (sv_room _ _ _ Hs))) as [p Ep].
  rewrite (bind_run _ _ _ _ _ (cstring_run w _ p Ep)).
  assert (basedir (w_conn w) ++ p = name) as -> by (subst name; unfold target; by rewrite Ep).
  pose proof (sv_strfile _ _ _ Hs) as Lm.
  assert (take (URI_LEN - 1) name = name) as Et by (apply take_ge; lia).
  destruct (snprintf_name (strfile (w_conn w)) name Lm) as (m & E & Lm' & Ec). rewrite Et, (cstr_prefix_nonul _ H0) in Ec.
  rewrite (lift_bind_Some _ _ _ _ E). cbn beta iota.
  unfold mbind at 1, M_bind at 1, upd at 1. rewrite Hg. cbn [Z.leb Z.compare PUT GET Z.eqb POST].
  rewrite mret_bind, (lift_bind_Some _ _ _ _ Ec), get_fs_bind. cbv zeta. cbn [w_fs]. fold fd.
  unfold mbind at 1, M_bind at 1, upd at 1. destruct (Z.ltb_spec fd 0); [lia|].
  unfold mbind at 1, M_bind at 1, upd at 1. unfold get_or_post. rewrite conn_bind.
  cbn [w_conn w_out w_read w_net w_fs set_strfile_stat set_strfile_fd set_strfile_len set_strfile strfile strfile_len strfile_stat].
  rewrite Hd, Hc.
  destruct (cstr_at_Some _ _ _ Ec) as (_ & post & Em & _). rewrite take_0 in Em. cbn [app] in Em.
  rewrite (lift_bind_Some _ true).
  2:{ destruct name as [|x d _] using rev_ind; [done|]. rewrite last_snoc in Hl. injection Hl as ->. rewrite Em.
      rewrite (endsWith_app [] d [chr "/"] post (bs "/") 0); [done|set_solver|done..]. }
  cbn [negb]. rewrite Hi. cbn [try_indexes]. unfold mbind at 1, M_bind at 1. rewrite conn_bind.
  cbn [w_conn strfile strfile_len set_strfile_stat set_strfile_fd set_strfile_len set_strfile]. rewrite Nat2Z.id.
  assert (snprintf m (length name) INDEXMAXLEN idx = None) as ->; [|done].
  unfold INDEXMAXLEN in *. cbn [snprintf]. rewrite write_at_None; [done|].
  rewrite length_app, length_take. cbn [length]. lia.
Qed.
(** A worker whose types are loaded outlives its clients: however many there
    are and whatever each of them sends, it serves them all, and when it is told
    to end it releases its memory. *)
Theorem worker_survives requests e jobs ti (w : world F) :
  quiet_memory -> sizes_ok -> socket_fits conf -> e.(we_magic) = Some true -> Forall (job_ok requests) jobs ->
  idle 0 w -> jobs_manageable conf cachedir turns depth requests jobs 0 w ->
  exists r ti' w', instance conf cachedir turns depth requests e jobs ti w = Some (r, ti', w').
Proof.
  intros Hq Hsz Hsf Hmag Hj Hi Hm. unfold instance, worker_init. rewrite Hmag. cbn [mime_init Z.eqb negb].
  destruct (_ && _).
  - destruct (instance_loop_total conf cachedir turns depth requests jobs Hq Hsz Hsf Hj 0%nat (change_free_thread 1 0 ti) w Hi Hm)
      as ([l en] & ti' & w' & ->). cbn [mbind option_bind].
    destruct en; by eexists _, _, _.
  - cbn [mbind option_bind release_resources al_reader]. by eexists _, _, _.
Qed.
End SafetyTheorems.

(** ** Witnesses *)

Lemma sample_quiet : quiet_memory.
Proof.
  intros n Hn. unfold World.fresh. cbn [px_garbage sample_posix sample_with sample_auth sample_memory sample_device app].
  rewrite firstn_all2 by (rewrite length_replicate; lia). apply lookup_replicate_2. lia.
Qed.

Lemma sample_sizes : sizes_ok.
Proof.
  intros fs fd. cbn [px_fstat sample_posix sample_with sample_auth sample_memory sample_device]. unfold size_ok.
  destruct (_ !! _); [|done]. pose proof (to_s_range 64 (Z.of_nat (length (sf_content s))) ltac:(lia)) as Hr. exact Hr.
Qed.

(** An upload with credentials, in two pieces, and the end. *)
Definition sample_upload_fields : bytes :=
  bs "HTTP/1.1" ++ CRLF ++ basic_field ++ bs "dTpwdw==" ++ CRLF ++ bs "Content-Length: 3" ++ CRLF.

Definition sample_upload_request : world sample_fs :=
  sample_input (bs "PUT /a " ++ sample_upload_fields ++ CRLF ++ bs "abc").

Lemma connection_served_witness :
  exists n' w', handle_requests sample_conf_auth None 5 1 100 0 sample_upload_request = Some (n', w') /\ ready (n', w').
Proof.
  apply (connection_served sample_conf_auth None 5 1 100 0 sample_upload_request).
  - exact sample_quiet.
  - exact sample_sizes.
  - exact sample_socket.
  - split; [split; [split_and!; reflexivity || (apply Nat.leb_le; reflexivity) | apply sample_buf_wf] |].
    split; [apply Nat.ltb_lt |]; reflexivity.
  - apply Nat.ltb_lt. reflexivity.
  - intros s Hs. inversion Hs as [|? s1 ? Hst Hrest]; subst.
    + split.
      * intros e n' w1 E. vm_compute in E. injection E as <- _ <-. split; [apply Nat.leb_le; reflexivity|].
        intros _ h me u ps ([tail Em] & H0 & _) El. pose proof (cstr_at_0 h tail H0) as Ec. rewrite <-Em in Ec.
        vm_compute in Ec. injection Ec as <-. vm_compute in El. injection El as _ _ <-.
        intros i j Hi Hj. vm_compute in Hi. injection Hi as <-. vm_compute in Hj. injection Hj as <-.
        split; [lia | by exists 2%nat].
      * intros e n' w1 E. vm_compute in E. injection E as _ _ <-.
        split; [intros fd Hm; vm_compute in Hm; discriminate | intros Hin; exfalso; simpl in Hin; unfold COPY, MOVE in Hin; lia
               | intros Hx; vm_compute in Hx; discriminate | | intros _ Hm; vm_compute in Hm; discriminate | intros _ Hm; vm_compute in Hm; discriminate].
        intros _ _ a t Ea Et. vm_compute in Ea. injection Ea as <-. vm_compute in Et. injection Et as <-.
        split; [apply Nat.leb_le | apply Nat.ltb_lt]; vm_compute; reflexivity.
    + inversion Hst as [n w e n' w1 r w' Et Es _ _]; subst. vm_compute in Et. injection Et as <- <- <-.
      vm_compute in Es. injection Es as _ <-.
      inversion Hrest as [|? s2 ? Hst2 _]; subst.
      * split; intros e n' w1 E; vm_compute in E; discriminate.
      * inversion Hst2 as [? ? ? ? ? ? ? Et _ _ _]; subst. vm_compute in Et. discriminate.
Defined.
