(* ===== verification/TreeLevels.v ===== *)
(** * Directories that may be deleted (myio.c, instance.c)

    [connection_served] asks of a directory that is deleted that it has few enough
    [levels], in every state of the files that removals lead to.  In a file
    system that is a tree this is so for every directory whose paths fit. *)
From stdpp Require Import relations.
From S2P Require Import Tree SafetyRequests.

Section Levels.
Context {F : Type} `{TreeFS F}.

Lemma removal_smaller (fs fs' : F) :
  rtc removal fs fs' -> tree_ok fs -> tree fs' ⊆ tree fs /\ tree_ok fs'.
Proof.
  induction 1 as [fs|fs1 fs2 fs3 [p Hp] _ IH]; intros Hok; [done|].
  assert (tree fs2 ⊆ tree fs1 /\ tree_ok fs2) as [Hs Hok2].
  { destruct Hp as [-> | ->].
    - pose proof (tree_unlink fs1 p Hok) as Hu. destruct (px_unlink fs1 p) as [[e|] fs2']; cbn [snd].
      + destruct Hu as [-> ?]. done.
      + destruct Hu as (_ & -> & ?). split; [apply delete_subseteq | done].
    - pose proof (tree_rmdir fs1 p Hok) as Hu. destruct (px_rmdir fs1 p) as [[e|] fs2']; cbn [snd].
      + destruct Hu as [-> ?]. done.
      + destruct Hu as (_ & _ & -> & ?). split; [apply delete_subseteq | done]. }
  destruct (IH Hok2) as [Hs3 Hok3]. split; [by etrans | done].
Qed.

(** As many levels as a path has bytes are always enough. *)
Theorem tree_levels k : forall (fs : F) d,
  tree_ok fs -> paths_fit fs d -> (length d < PATH_LEN)%nat -> (PATH_LEN <= k + length d)%nat -> levels k fs d.
Proof.
  induction k as [|k IH]; intros fs d Hok Hfit Hl Hk; [lia|]. intros fs' Hr.
  destruct (removal_smaller _ _ Hr Hok) as [Hs Hok']. pose proof (paths_fit_sub fs fs' d Hs Hfit) as Hfit'.
  pose proof (tree_unlink fs' d Hok') as Hu. destruct (px_unlink fs' d) as [[e|] fs2]; [right | by left]. cbn [snd].
  destruct Hu as [Et Hok2]. intros es Hes. destruct (tree_readdir fs2 d es Hok2 Hes) as (_ & _ & Hn).
  apply Forall_forall. intros n Hin. destruct (is_dot_entry n) eqn:Ed; [by left | right].
  apply Hn in Hin; [|done]. rewrite Et in Hin. destruct (entry_path fs' d n Hok' Hfit' Hin) as (Ep & El & Hf2).
  pose proof (Hfit' [n] Hin) as Hlt. cbn in Hlt. apply IH; [done | done | lia | lia].
Qed.
End Levels.

Lemma tree_levels_witness : levels PATH_LEN sample_tree (bs "/srv/d/").
Proof.
  apply (tree_levels PATH_LEN sample_tree (bs "/srv/d/"));
    [apply sample_tree_ok | apply sample_paths_fit | apply Nat.ltb_lt; reflexivity | unfold PATH_LEN; lia].
Defined.
