(* ===== verification/Pipeline.v ===== *)
(** * Requests that follow each other on a connection (instance.c)

    The parts of the server put together: reading a header, parsing it, finding
    the file and answering, once for every request that a client has sent
    ahead.  The theorem compares what one call of [handle_requests] does with
    a specification that looks at each request alone. *)
From S2P Require Export Instance.

(** ** Specification *)

(** The text of a GET: the URL, and what follows it up to the empty line. *)
Definition get_header (u v : bytes) : bytes := bs "GET " ++ u ++ bs " " ++ v.

Definition request_text (r : bytes * bytes) : bytes := get_header r.1 r.2 ++ CRLF ++ CRLF.

(** The client did not ask to close the connection. *)
Definition stays_open (v : bytes) : Prop :=
  match field_value (bs "Connection") (v ++ CRLF) with
  | Some c => starts_with (bs "close") c = false
  | None => True
  end.

Section Answers.
Context {F : Type} `{Posix F}.
Context (conf : weborf_configuration_t).

Definition page_path (u : bytes) : bytes := conf.(c_basedir) ++ clean_page u.

Definition answer_type (fs : F) (fd : Z) : bytes :=
  if conf.(c_send_content_type)
  then mime_text (default (bs "(null)")
         (mime_get_fd px_magic true (px_contents fs fd) (px_fstat fs fd)))
  else [].

(** The header of an answer on a connection that stays open. *)
Definition answer_head (code : Z) (size : option Z) (extra : option bytes) (mt : Z) : bytes :=
  status_text code (reason_phrase code) ++ server_text
  ++ (if mt =? -1 then [] else etag_text mt)
  ++ (if size is Some n then length_text true n else [])
  ++ default [] extra ++ CRLF.

(** The header that goes with [count] bytes of the file [fd]. *)
Definition file_head (fs : F) (fd code count : Z) (extra : bytes) : bytes :=
  answer_head code (Some count) (Some extra) (px_fstat fs fd).(st_mtime).

Definition extra_fits (fs : F) (fd code count : Z) (extra : bytes) : Prop :=
  (length extra < ABUFFER)%nat /\ 0 ∉ extra /\ (length (file_head fs fd code count extra) < HEADBUF)%nat.

Definition error_answer (code : Z) (descr : bytes) : bytes :=
  let page := err_page code descr in err_head code descr (Z.of_nat (length page)) ++ page.

(** A GET over HTTP/1.1 that keeps the connection. *)
Record get_request (u v : bytes) : Prop := {
  gr_complete : complete_header (get_header u v);
  gr_url : u <> [] /\ chr " " ∉ u /\ chr "?" ∉ u;
  gr_version : starts_with (bs "HTTP/1.1") v = true;
  gr_open : stays_open v;
  gr_path : 0 ∉ page_path u /\ (length (page_path u) < URI_LEN)%nat;
}.

(** A file that can be read. *)
Record readable (fs : F) (fd : Z) : Prop := {
  re_open : 0 <= fd;
  re_regular : S_ISDIR (px_fstat fs fd).(st_mode) = false;
  re_size : (px_fstat fs fd).(st_size) = Z.of_nat (length (px_contents fs fd));
  re_max : (px_fstat fs fd).(st_size) <= LONG_MAX;
}.

(** What a request gets, by itself: there is no such file; the client has it; it
    gets the whole of it, or the part it asks for; there is no such part. *)
Inductive answered (fs : F) (u v : bytes) : bytes -> Prop :=
  | answered_missing :
      px_open_rd fs (page_path u) < 0 -> answered fs u v (error_answer 404 (bs "Page not found"))
  | answered_unchanged fd :
      px_open_rd fs (page_path u) = fd ->
      let mt := (px_fstat fs fd).(st_mtime) in
      readable fs fd -> etag_test v mt = Some true -> answered fs u v (answer_head 304 None None mt)
  | answered_whole fd :
      px_open_rd fs (page_path u) = fd ->
      let size := (px_fstat fs fd).(st_size) in
      readable fs fd -> etag_test v (px_fstat fs fd).(st_mtime) = Some false ->
      field_value (bs "Range") (v ++ CRLF) = None ->
      extra_fits fs fd 200 size (answer_type fs fd) ->
      answered fs u v (file_head fs fd 200 size (answer_type fs fd) ++ px_contents fs fd)
  | answered_part x y fd :
      px_open_rd fs (page_path u) = fd ->
      let size := (px_fstat fs fd).(st_size) in
      let slice := take (Z.to_nat (y - x + 1)) (drop (Z.to_nat x) (px_contents fs fd)) in
      let extra := range_text x y size ++ answer_type fs fd in
      readable fs fd -> etag_test v (px_fstat fs fd).(st_mtime) = Some false ->
      range_request v x y -> x <= y < size -> extra_fits fs fd 206 (y - x + 1) extra ->
      answered fs u v (file_head fs fd 206 (y - x + 1) extra ++ slice)
  | answered_outside x y fd :
      px_open_rd fs (page_path u) = fd ->
      let size := (px_fstat fs fd).(st_size) in
      readable fs fd -> etag_test v (px_fstat fs fd).(st_mtime) = Some false ->
      range_request v x y -> size <= x \/ size <= y ->
      answered fs u v (error_answer 416 (bs "Range not satisfiable")).

(** Between two requests: what is left to read, and nothing of the last one in
    the memory of the next. *)
Record idle (n : nat) (fs : F) (rest : bytes) (w : world F) : Prop := {
  id_request : request_ok n w;
  id_rest : pending w = rest;
  id_fs : w.(w_fs) = fs;
  id_strfile : length w.(w_conn).(strfile) = URI_LEN;
}.
End Answers.

(** ** Lemmas: parsing the request *)

Section Parse.
Context {F : Type} `{Posix F}.
Context (conf : weborf_configuration_t).

(** What the fields [strtok_r] and [modURL] work on look like at the end. *)
Definition request_mem (u stale v : bytes) : bytes :=
  (bs "GET" ++ [0]) ++ clean_page u ++ 0 :: stale ++ (v ++ CRLF)
  ++ 0 :: LF :: replicate (INBUFFER + 1 - (length (get_header u v) + 4)) 0.

(** The connection of a parsed request. *)
Definition parsed (u stale v : bytes) (c : connection_t) : connection_t :=
  set_basedir conf.(c_basedir) (set_req (request_mem u stale v)
    (set_page_len (Z.of_nat (length u)) (set_get_params None
      (set_keep_alive true (set_protocol_version HTTP_1_1
        (set_http_param (length u + 5) (set_page 4 (set_method 0 (set_method_id GET c))))))))).

Lemma keep_alive_read v buf :
  stays_open v -> (12 <= length buf)%nat ->
  let r := field_result (bs "Connection") v buf 12 in r.1 && begins_with r.2 (bs "close") = false.
Proof.
  intros Ho Hb. unfold field_result, stays_open in *.
  destruct (field_value (bs "Connection") (v ++ CRLF)) as [c|]; [|done].
  destruct (Z.ltb_spec (Z.of_nat (length c) + 1) 12); [|done]. cbn [fst snd andb]. unfold begins_with.
  rewrite cstr_prefix_app_nul. destruct (starts_with _ (cstr_prefix c)) eqn:E; [|done].
  destruct (cstr_prefix_app_rest c) as [t Et]. rewrite Et in Ho. by rewrite (starts_with_app_l _ _ _ E) in Ho.
Qed.

(** The two tokens of the request line. *)
Lemma tokens_run u v tail :
  u <> [] -> chr " " ∉ u -> 0 ∉ get_header u v ->
  exists m1,
    strtok_r ((get_header u v ++ CRLF) ++ 0 :: tail) 0 (bs " ") = Some (m1, Some 0%nat, 4%nat)
    /\ strtok_r m1 4 (bs " ")
       = Some ((bs "GET" ++ [0]) ++ u ++ 0 :: (v ++ CRLF) ++ 0 :: tail, Some 4%nat, (length u + 5)%nat).
Proof.
  intros Hu Hs H0. unfold get_header in *. rewrite !not_elem_of_app in H0. destruct H0 as (_ & Hu0 & _ & Hv0).
  assert (0 ∉ CRLF) by by_decision.
  assert (0 ∉ u ++ chr " " :: v ++ CRLF) as Hr.
  { rewrite not_elem_of_app, not_elem_of_cons, not_elem_of_app. split_and!; done. }
  exists (bs "GET" ++ 0 :: (u ++ chr " " :: v ++ CRLF) ++ 0 :: tail).
  pose proof (strtok_run [] [] (bs "GET") (chr " ") (u ++ chr " " :: v ++ CRLF) tail 0 (bs " ")) as E1.
  cbn [app length Nat.add] in E1. split.
  - replace ((bs "GET " ++ u ++ bs " " ++ v) ++ CRLF) with (bs "GET" ++ chr " " :: u ++ chr " " :: v ++ CRLF)
      by (rewrite <-!app_assoc; done).
    rewrite <-app_assoc. cbn [app]. cbn [app] in E1. rewrite E1; [done | done | constructor | done | | done |].
    + repeat constructor.
    + rewrite !not_elem_of_cons. split_and!; done.
  - pose proof (strtok_run (bs "GET" ++ [0]) [] u (chr " ") (v ++ CRLF) tail 4 (bs " ")) as E2.
    rewrite <-app_assoc in E2. cbn [app length] in E2.
    rewrite <-!app_assoc. cbn [app]. rewrite <-!app_assoc in E2 |- *. cbn [app] in E2.
    rewrite E2; [| done | constructor | done | | done | ].
    + do 2 f_equal. lia.
    + apply Forall_forall. intros x Hx. unfold in_set. cbn [existsb]. rewrite orb_false_r. apply Z.eqb_neq.
      intros ->. by apply Hs.
    + cbn [app]. rewrite not_elem_of_app, not_elem_of_cons in *. tauto.
Qed.

(** What the request line and the URL have become before [set_connection_props]. *)
Definition tokenized (u v : bytes) (c : connection_t) : connection_t :=
  set_http_param (length u + 5) (set_page 4 (set_method 0
    (set_req ((bs "GET" ++ [0]) ++ u ++ 0 :: (v ++ CRLF)
              ++ 0 :: LF :: replicate (INBUFFER + 1 - (length (get_header u v) + 4)) 0)
      (set_method_id GET c)))).

Lemma load_behind a s b k : load (a ++ s ++ 0 :: b) (length a + length s + 1 + k) = b !! k.
Proof.
  unfold load. rewrite app_assoc, lookup_app_r by (rewrite length_app; lia). rewrite length_app.
  by replace (length a + length s + 1 + k - (length a + length s))%nat with (S k) by lia.
Qed.

Lemma set_connection_props_run u v (w : world F) c :
  conf.(c_virtual_host) = false -> w.(w_conn) = tokenized u v c ->
  0 ∉ get_header u v -> chr "?" ∉ u -> starts_with (bs "HTTP/1.1") v = true -> stays_open v ->
  exists stale,
    set_connection_props conf w
    = Some (tt, mkworld (parsed u stale v c) w.(w_out) w.(w_read) w.(w_net) w.(w_fs))
    /\ (length (clean_page u) + length stale = length u)%nat.
Proof.
  intros Hvh Hc H0 Hq Hv Ho. unfold get_header in H0. rewrite !not_elem_of_app in H0.
  destruct H0 as (_ & Hu0 & _ & Hv0).
  set (tail := 0 :: LF :: replicate (INBUFFER + 1 - (length (get_header u v) + 4)) 0).
  destruct (modURL_run (bs "GET" ++ [0]) u ((v ++ CRLF) ++ tail) Hu0) as (stale & Em & Ls); [by destruct v|].
  exists stale. split; [|done].
  assert (has_header w.(w_conn) v) as Hh.
  { exists ((bs "GET" ++ [0]) ++ u ++ [0]), (LF :: replicate (INBUFFER + 1 - (length (get_header u v) + 4)) 0).
    rewrite Hc. cbn [tokenized set_http_param set_page set_method set_req set_method_id req http_param].
    split_and!; [by rewrite <-!app_assoc | rewrite !length_app; cbn [length]; lia | done]. }
  unfold set_connection_props. rewrite (param_bind _ _ _ _ w v) by (done || (by split_and!; [|by_decision..]) || (rewrite fresh_length; lia)).
  pose proof (keep_alive_read v (fresh 12) Ho ltac:(rewrite fresh_length; lia)) as Hk. cbv zeta in Hk.
  destruct (field_result (bs "Connection") v (fresh 12) 12) as [connection a]. cbn [fst snd] in Hk. cbn beta iota.
  rewrite conn_bind, Hc.
  apply starts_with_spec in Hv as [t ->].
  assert (forall k x, bs "HTTP/1.1" !! k = Some x -> load (req (tokenized u (bs "HTTP/1.1" ++ t) c)) (http_param (tokenized u (bs "HTTP/1.1" ++ t) c) + k) = Some x) as Hl.
  { intros k x Hx. unfold tokenized. cbn [set_http_param set_page set_method set_req set_method_id req http_param].
    replace (length u + 5 + k)%nat with (length (bs "GET" ++ [0%Z]) + length u + 1 + k)%nat by (cbn [length app]; lia).
    rewrite load_behind, <-!app_assoc. by rewrite lookup_app_l by (by apply lookup_lt_Some in Hx). }
  rewrite (lift_bind_Some _ _ _ _ (Hl 7%nat _ eq_refl)). cbn [Z.eqb Pos.eqb].
  rewrite (lift_bind_Some _ _ _ _ (Hl 5%nat _ eq_refl)). cbn [Z.eqb Pos.eqb andb].
  rewrite Hk. cbn [negb]. set (v := bs "HTTP/1.1" ++ t) in *.
  set (c2 := set_keep_alive true (set_protocol_version HTTP_1_1 (tokenized u v c))).
  rewrite (bind_run _ _ w tt (mkworld c2 w.(w_out) w.(w_read) w.(w_net) w.(w_fs)))
    by (unfold c2; rewrite <-Hc; done).
  rewrite conn_bind. cbn [w_conn].
  assert (split_get_params c2 = Some (set_page_len (Z.of_nat (length u)) (set_get_params None c2))) as ->.
  { unfold split_get_params, strlen, strstr.
    replace (cstr_at (req c2) (page c2)) with (Some u)
      by (symmetry; apply (cstr_at_app (bs "GET" ++ [0]) u _ 4); done).
    cbn [mbind option_bind fmap option_fmap option_map].
    by rewrite (proj2 (find_sub_None (bs "?") u)) by (intros (x & y & ->); rewrite !not_elem_of_app, elem_of_cons in Hq; tauto). }
  set (c3 := set_page_len _ _).
  rewrite (lift_bind_Some _ _ _ _ eq_refl).
  set (w3 := mkworld c3 w.(w_out) w.(w_read) w.(w_net) w.(w_fs)).
  rewrite (bind_run _ _ _ tt w3) by done.
  rewrite (bind_run _ _ _ _ _ (upd_req_run _ w3 (request_mem u stale v) Em)).
  rewrite (bind_run _ _ _ _ _ (upd_req_run _ (reading w3 _ _ _) (request_mem u stale v) eq_refl)).
  unfold get_basedir. rewrite Hvh. cbn [negb]. rewrite mret_bind. done.
Qed.

Lemma parse_request_run u v (w : world F) :
  conf.(c_virtual_host) = false -> w.(w_conn).(req) = header_buf (get_header u v) ->
  u <> [] -> chr " " ∉ u -> chr "?" ∉ u -> 0 ∉ get_header u v ->
  starts_with (bs "HTTP/1.1") v = true -> stays_open v ->
  exists stale,
    parse_request conf w
    = Some (true, mkworld (parsed u stale v w.(w_conn)) w.(w_out) w.(w_read) w.(w_net) w.(w_fs))
    /\ (length (clean_page u) + length stale = length u)%nat.
Proof.
  intros Hvh Hr Hu Hs Hq H0 Hv Ho.
  set (tail := LF :: replicate (INBUFFER + 1 - (length (get_header u v) + 4)) 0).
  destruct (tokens_run u v tail Hu Hs H0) as (m1 & E1 & E2).
  destruct (set_connection_props_run u v
              (mkworld (tokenized u v w.(w_conn)) w.(w_out) w.(w_read) w.(w_net) w.(w_fs)) w.(w_conn))
    as (stale & E & Ls); [done..|].
  exists stale. split; [|done]. unfold parse_request.
  assert (0 ∉ get_header u v ++ CRLF) as Hn by (rewrite not_elem_of_app; split; [done | by_decision]).
  rewrite (bind_run _ _ w (get_header u v ++ CRLF) w)
    by (apply cstring_run; rewrite Hr; by apply cstr_at_0).
  assert (find_method methods (get_header u v ++ CRLF) = Some GET) as -> by done.
  unfold mbind at 1, M_bind at 1, upd at 1. rewrite conn_bind. cbn [w_conn set_method_id req].
  rewrite Hr. unfold header_buf. fold tail.
  rewrite (lift_bind_Some _ _ _ _ E1). cbn beta iota. rewrite (lift_bind_Some _ _ _ _ E2). cbn beta iota.
  unfold mbind at 1, M_bind at 1, upd at 1.
  unfold mbind at 1, M_bind at 1, upd at 1. unfold mbind at 1, M_bind at 1, upd at 1.
  cbn [w_conn w_out w_read w_net w_fs].
  rewrite (bind_run _ _ _ _ _ E). done.
Qed.
End Parse.

Lemma request_mem_zero u stale v :
  complete_header (get_header u v) -> (length (clean_page u) + length stale = length u)%nat ->
  zero_behind (length (get_header u v) + 4) (request_mem u stale v).
Proof.
  intros (_ & _ & Hl) Hs. unfold zero_behind.
  set (k := (length (get_header u v) + 4)%nat) in *.
  set (x := (bs "GET" ++ [0]) ++ clean_page u ++ 0 :: stale ++ (v ++ CRLF) ++ [0; LF]).
  assert (request_mem u stale v = x ++ replicate (INBUFFER + 1 - k) 0) as E
    by (subst x; unfold request_mem; rewrite <-!app_assoc; cbn [app]; by rewrite <-!app_assoc).
  assert (length x = k) as Lx
    by (subst x k; unfold get_header, CRLF; repeat (rewrite ?length_app; cbn [length app]); lia).
  rewrite E. split_and!; [rewrite length_app, length_replicate; lia | lia | by apply drop_app_length'].
Qed.

(** ** Lemmas: one request *)

Section OneRequest.
Context {F : Type} `{Posix F}.
Context (conf : weborf_configuration_t).
Context (cachedir : option bytes).
Context (turns depth : nat).

(** The header of an answer does not depend on the connection. *)
Lemma answer_head_eq c code size extra mt :
  c.(keep_alive) = true -> c.(protocol_version) = HTTP_1_1 ->
  http_head c code size extra true mt = answer_head code size extra mt.
Proof. intros Hk Hp. unfold http_head, answer_head, connection_header. by rewrite Hk, Hp. Qed.

(** Requests are served without authentication, scripts or virtual hosts. *)
Definition plain_server : Prop :=
  conf.(c_authsock) = None /\ conf.(c_exec_script) = false /\ conf.(c_virtual_host) = false.

(** What an answer leaves of the connection. *)
Definition answers_with (m : M F Z) (a : bytes) (w : world F) : Prop :=
  exists c', m w = Some (0, mkworld c' (w.(w_out) ++ a) w.(w_read) w.(w_net) w.(w_fs))
    /\ c'.(req) = w.(w_conn).(req) /\ c'.(keep_alive) = true /\ length c'.(strfile) = URI_LEN.

Section Answering.
Context (fs : F) (u stale v : bytes) (c : connection_t) (w : world F).
Hypothesis Hmem : mem_ok.
Hypothesis Hclient : client_reads.
Hypothesis Hplain : plain_server.
Hypothesis Hrequest : get_request conf u v.
Hypothesis Hfs : w.(w_fs) = fs.
Hypothesis Hconn : w.(w_conn) = parsed conf u stale v c.
Hypothesis Hstrfile : length c.(strfile) = URI_LEN.

Let path := page_path conf u.
Let fd := px_open_rd fs path.
Let w1 := opened w path.

Lemma parsed_page : cstr_at w.(w_conn).(req) w.(w_conn).(page) = Some (clean_page u).
Proof. rewrite Hconn. apply (cstr_at_app (bs "GET" ++ [0]) (clean_page u) _ 4); [done | apply clean_page_clean]. Qed.

Lemma parsed_path : w.(w_conn).(basedir) ++ clean_page u = path.
Proof. by rewrite Hconn. Qed.

Lemma opened_header : (length (clean_page u) + length stale = length u)%nat -> has_header w1.(w_conn) v.
Proof.
  intros Ls. destruct Hrequest as [[H0 _] _ _ _ _]. cbn [w1 opened w_conn]. rewrite Hconn.
  unfold get_header in H0. rewrite !not_elem_of_app in H0.
  eexists ((bs "GET" ++ [0]) ++ clean_page u ++ 0 :: stale), _. split_and!; [| |tauto].
  - cbn [set_strfile_stat set_strfile_fd set_strfile_len set_strfile req parsed set_basedir set_req].
    unfold request_mem. rewrite <-!app_assoc. cbn [app]. reflexivity.
  - cbn. repeat (rewrite ?length_app; cbn [length app]). lia.
Qed.

Lemma opened_head code size extra mt : http_head w1.(w_conn) code size extra true mt = answer_head code size extra mt.
Proof. apply answer_head_eq; cbn [w1 opened w_conn]; by rewrite Hconn. Qed.

Lemma opened_strfile : length w1.(w_conn).(strfile) = URI_LEN.
Proof.
  destruct Hrequest as [_ _ _ _ [_ Hl]]. cbn [w1 opened w_conn set_strfile_stat set_strfile_fd set_strfile_len set_strfile strfile].
  rewrite Hconn. cbn [parsed set_basedir set_req set_page_len set_get_params set_keep_alive set_protocol_version set_http_param
    set_page set_method set_method_id strfile].
  fold path in Hl. repeat (rewrite ?length_app; cbn [length]). rewrite length_drop. lia.
Qed.

(** A file that is there is sent by [write_file]. *)
Lemma serve_readable : readable fs fd -> serve conf cachedir turns depth w = write_file conf w1.
Proof.
  intros [Ho Hd _ _]. destruct Hplain as (Ha & Hx & _), Hrequest as [_ _ _ _ [Hz Hl]].
  pose proof parsed_path as Ep.
  assert (length w.(w_conn).(strfile) = URI_LEN) as Hs by (by rewrite Hconn).
  rewrite (serve_get_run conf cachedir turns depth w (clean_page u)); rewrite ?Ep, ?Hfs; try done.
  - by rewrite Hconn.
  - apply parsed_page.
  - cbn [opened w_conn set_strfile_stat strfile_stat]. by rewrite Hfs.
Qed.

Lemma send_page_ok code a :
  serve conf cachedir turns depth w = Some (0, sent (set_status code w1) a) ->
  answers_with (send_page conf cachedir turns depth) a w.
Proof.
  intros E. eexists. split; [unfold send_page; by rewrite (bind_run _ _ _ _ _ E)|].
  split_and!; [done | cbn [sent set_status w_conn set_status_code keep_alive w1 opened]; by rewrite Hconn | apply opened_strfile].
Qed.

Lemma send_page_error z code descr wr :
  serve conf cachedir turns depth w = Some (z, wr) -> error_table z = Some (code, descr) ->
  wr.(w_out) = w.(w_out) -> wr.(w_read) = w.(w_read) -> wr.(w_net) = w.(w_net) -> wr.(w_fs) = w.(w_fs) ->
  wr.(w_conn).(req) = w.(w_conn).(req) -> wr.(w_conn).(keep_alive) = true -> length wr.(w_conn).(strfile) = URI_LEN ->
  answers_with (send_page conf cachedir turns depth) (error_answer code descr) w.
Proof.
  intros E Et Eo Er En Ef Hr Hk Hl. pose proof (send_error_header_table z code descr wr (Hmem _) Hclient Et) as Es.
  cbv zeta in Es. eexists. split; [unfold send_page; rewrite (bind_run _ _ _ _ _ E), Es; unfold sent; cbn [set_status w_out w_read w_net w_fs]|].
  { rewrite Eo, Er, En, Ef. reflexivity. }
  done.
Qed.

Lemma send_page_answered a :
  (length (clean_page u) + length stale = length u)%nat -> answered conf fs u v a ->
  answers_with (send_page conf cachedir turns depth) a w.
Proof.
  intros Ls Ha. pose proof (opened_header Ls) as Hh.
  assert (w1.(w_conn).(strfile_stat) = px_fstat fs fd) as Est by (unfold fd; rewrite <-Hfs; done).
  assert (file_content w1 = px_contents fs fd) as Ect by (unfold fd; rewrite <-Hfs; done).
  assert (mime_part conf w1 = answer_type conf fs fd) as Emt by (unfold mime_part, answer_type; rewrite Est; unfold fd; rewrite <-Hfs; done).
  assert (forall code count extra, file_response w1 code count extra = file_head fs fd code count extra) as Eh
    by (intros; unfold file_response, file_head; rewrite opened_head, Est; done).
  assert (forall code count extra, extra_fits fs fd code count extra -> header_fits w1 code count extra) as Hfits.
  { intros code count extra (H1 & H2 & H3). split_and!; [done..|]. by rewrite <-Eh in H3. }
  destruct Ha as [Ho | fd' <- mt Hre Ht | fd' <- size Hre Ht Hr Hf | x y fd' <- size slice extra Hre Ht Hr Hxy Hf | x y fd' <- size Hre Ht Hr Hxy].
  - destruct Hplain as (Hauth & _), Hrequest as [_ _ _ _ [Hz Hl]]. pose proof parsed_path as Ep.
    assert (length w.(w_conn).(strfile) = URI_LEN) as Hs by (by rewrite Hconn).
    eapply send_page_error; [apply (serve_get_missing conf cachedir turns depth w (clean_page u)); rewrite ?Ep, ?Hfs; try done | done..| |].
    + by rewrite Hconn.
    + apply parsed_page.
    + cbn [named w_conn set_strfile_fd set_strfile_len set_strfile keep_alive]. by rewrite Hconn.
    + cbn [named w_conn set_strfile_fd set_strfile_len set_strfile strfile].
      rewrite Ep. repeat (rewrite ?length_app; cbn [length]). rewrite length_drop, Hs. fold path in Hl. lia.
  - apply (send_page_ok 304). rewrite serve_readable by done. rewrite (write_file_unchanged conf w1 v) by (rewrite ?Est; done).
    by rewrite opened_head, Est.
  - apply (send_page_ok 200). rewrite serve_readable by done. destruct Hre as [_ _ Hsz Hmax].
    rewrite (write_file_whole_run conf w1 v); rewrite ?Est, ?Emt, ?Ect; try done; [|subst size; fold path in Hsz, Hmax |- *; fold fd in Hsz, Hmax |- *; lia | by apply Hfits].
    subst size. fold path in Hsz |- *. fold fd in Hsz |- *. rewrite Eh, take_ge by lia. done.
  - apply (send_page_ok 206). rewrite serve_readable by done. destruct Hre as [_ _ Hsz Hmax]. pose proof Hr as [_ _ Hx Hy _].
    fold path in size, Hsz, Hmax, slice, extra, Hf |- *. fold fd in size, Hsz, Hmax, slice, extra, Hf |- *.
    assert (to_u64 (y - x + 1) = y - x + 1) as Hn by (apply to_u_small; unfold LONG_MAX in *; lia).
    rewrite (write_file_range_run conf w1 v x y); rewrite ?Est, ?Emt, ?Ect, ?Hn; try done; [|lia | intros _; by apply Hfits].
    rewrite Eh. fold size. by destruct (Z.ltb_spec x size), (Z.ltb_spec y size); try lia.
  - pose proof Hre as [_ _ Hsz Hmax]. fold path in size, Hsz, Hmax. fold fd in size, Hsz, Hmax.
    eapply (send_page_error ERR_RANGE_NOT_SATISFIABLE 416 _ w1); try done.
    + rewrite serve_readable by done. rewrite (write_file_range_run conf w1 v x y Hmem Hclient Hh Hr); rewrite ?Est, ?Emt; [|done..| |]; fold size; [|lia..].
      by destruct (Z.ltb_spec x size), (Z.ltb_spec y size); try lia.
    + cbn [w1 opened w_conn]. by rewrite Hconn.
    + apply opened_strfile.
Qed.
End Answering.

Lemma serve_one k n fs u v rest a (w : world F) :
  mem_ok -> client_reads -> plain_server -> get_request conf u v -> answered conf fs u v a ->
  idle n fs (request_text (u, v) ++ rest) w ->
  exists n' w',
    handle_requests conf cachedir turns depth (S k) n w
    = handle_requests conf cachedir turns depth k n' w'
    /\ idle n' fs rest w' /\ w'.(w_out) = w.(w_out) ++ a.
Proof.
  intros Hm Hc Hs Hg Ha [[Hz Hb] Hp Hfs Hl]. pose proof Hg as [Hh (Hu & Hsp & Hq) Hv Ho _].
  pose proof Hh as (H0 & _ & Hlen). pose proof Hs as (_ & _ & Hvh). set (h := get_header u v) in *.
  rewrite handle_requests_fresh by done. set (w0 := fresh_request w). cbn [handle_requests Nat.eqb]. rewrite mret_bind.
  destruct (read_header_finds h rest INBUFFER 0 0 w0) as (from & m & b & es & E & Hb1 & Hrest & Hn & Hf);
    [done | done | done | rewrite drop_0; exact Hp | lia | lia | lia |].
  rewrite (bind_run _ _ _ _ _ E). cbn beta iota.
  destruct (end_header_run h rest m from (reading w0 (buf_with (take m (h ++ CRLF ++ CRLF))) b es))
    as (b' & es' & E2 & Hb2 & Hrest2); [done | done | done | done | lia | lia |].
  rewrite (bind_run _ _ _ _ _ E2). set (w2 := reading _ (header_buf h) b' es').
  destruct (parse_request_run conf u v w2) as (stale & E3 & Ls); [done..|].
  rewrite (bind_run _ _ _ _ _ E3). cbn [negb]. set (w3 := mkworld _ _ _ _ _).
  destruct (send_page_answered fs u stale v w2.(w_conn) w3 Hm Hc Hs Hg Hfs eq_refl Hl a Ls Ha) as (c' & E4 & Hr & Hk & Hsl).
  rewrite (bind_run _ _ _ _ _ E4). cbn [Z.ltb Z.compare]. rewrite conn_bind. cbn [w_conn]. rewrite Hk.
  eexists (length h + 4)%nat, _. split; [reflexivity|]. split; [|done].
  split; [split; [|done] | done | done | done]. cbn [w_conn]. rewrite Hr. by apply (request_mem_zero u stale v).
Qed.

Lemma serve_all k fs reqs ans : Forall2 (fun r a => answered conf fs r.1 r.2 a) reqs ans -> forall n rest (w : world F),
  mem_ok -> client_reads -> plain_server -> Forall (fun r => get_request conf r.1 r.2) reqs ->
  idle n fs (concat (map request_text reqs) ++ rest) w ->
  exists n' w',
    handle_requests conf cachedir turns depth (length reqs + k) n w
    = handle_requests conf cachedir turns depth k n' w'
    /\ idle n' fs rest w' /\ w'.(w_out) = w.(w_out) ++ concat ans.
Proof.
  induction 1 as [|[u v] a reqs ans Ha _ IH]; intros n rest w Hm Hc Hs Hg Hi.
  - exists n, w. cbn. by rewrite app_nil_r.
  - inversion Hg as [|? ? Hg1 Hg2]; subst. cbn [concat map] in Hi. rewrite <-app_assoc in Hi.
    destruct (serve_one (length reqs + k) n fs u v _ a w Hm Hc Hs Hg1 Ha Hi) as (n1 & w1 & E1 & Hi1 & Ho1).
    destruct (IH n1 rest w1 Hm Hc Hs Hg2 Hi1) as (n2 & w2 & E2 & Hi2 & Ho2).
    exists n2, w2. cbn [length Nat.add]. rewrite E1, E2. split_and!; [done | done |].
    rewrite Ho2, Ho1. cbn [concat]. by rewrite <-app_assoc.
Qed.

(** The client sends nothing more. *)
Lemma read_header_closed fuel (w w1 : world F) :
  (0 < fuel)%nat -> w.(w_conn).(req) = buf_with [] -> sock_read 2 w = Some ((0, []), w1) ->
  read_header fuel 0 0 w = Some ((HdrClosed, 0%nat, 0%nat), w1).
Proof.
  intros Hf Hr E. destruct fuel as [|f]; [lia|]. cbn [read_header]. rewrite conn_bind, Hr.
  rewrite (lift_bind_Some _ _ _ _ (buf_with_strstr [] 0 _ ltac:(simpl; lia) ltac:(unfold INBUFFER; simpl; lia))).
  change (find_sub (CRLF ++ [CR]) (cstr_prefix (drop 0 []))) with (@None nat). cbn [fmap option_fmap option_map].
  by rewrite (bind_run _ _ _ _ _ E).
Qed.

Lemma serve_end k n fs (w : world F) :
  idle n fs [] w ->
  exists w', handle_requests conf cachedir turns depth (S k) n w = Some (0%nat, w')
    /\ request_ok 0 w' /\ w'.(w_fs) = fs /\ w'.(w_out) = w.(w_out).
Proof.
  intros [[Hz Hb] Hp <- Hl]. rewrite handle_requests_fresh by done. cbn [handle_requests Nat.eqb]. rewrite mret_bind.
  destruct (sock_read_run 2 (fresh_request w) Hb ltac:(lia)) as (d & b & es & E & Ed & Hb' & _).
  change (pending (fresh_request w)) with (pending w) in Ed. rewrite Hp in Ed. subst d.
  pose proof (read_header_closed INBUFFER (fresh_request w) _ ltac:(unfold INBUFFER; lia) eq_refl E) as Eh.
  rewrite (bind_run _ _ _ _ _ Eh). cbn beta iota. rewrite mret_run. eexists. split; [reflexivity|].
  split_and!; [split; [apply (zero_behind_buf []); simpl; lia | done] | done | done].
Qed.
End OneRequest.

(** ** Theorems *)

Section PipelineTheorems.
Context {F : Type} `{Posix F}.
Context (conf : weborf_configuration_t).
Context (cachedir : option bytes).
Context (turns depth : nat).

(** C4: a client may send its requests one behind the other without waiting:
    on a connection that carries any number of GETs, of files that exist or
    not, whole or in part, or of files the client has, the answers are exactly
    those the requests get one by one, in the order of the requests, however
    the bytes are cut into pieces on their way; every request is answered,
    nothing changes on the file system, and the worker is ready for its next
    connection. *)
Theorem pipelined_gets peer es n reqs ans (w : world F) :
  mem_ok -> client_reads -> plain_server conf ->
  request_ok n w -> buffered w.(w_read) = [] -> length w.(w_conn).(strfile) = URI_LEN ->
  is_Some (connect peer es w) ->
  Forall (fun r => get_request conf r.1 r.2) reqs ->
  Forall2 (fun r a => answered conf w.(w_fs) r.1 r.2 a) reqs ans ->
  stream es = concat (map request_text reqs) ->
  exists n' w',
    serve_connection conf cachedir turns depth peer es (S (length reqs)) n w = Some (n', w')
    /\ w'.(w_out) = concat ans /\ w'.(w_fs) = w.(w_fs) /\ request_ok n' w'.
Proof.
  intros Hm Hc Hs Hok Hb Hl [w0 E0] Hg Ha Hst. unfold serve_connection. rewrite E0. cbn [mbind option_bind].
  assert (idle n w.(w_fs) (concat (map request_text reqs) ++ []) w0 /\ w0.(w_out) = []) as [Hi Ho].
  { pose proof (connect_kept _ _ _ _ _ E0 Hok) as Hok0. unfold connect in E0.
    destruct (net_getpeername _ _) as [x|]; [|done]. cbn [mbind option_bind] in E0.
    destruct (cstr_at x 0) as [ip|]; [|done]. injection E0 as <-. split; [|done].
    split; [done | | done | done]. unfold pending. cbn [w_read w_net]. by rewrite Hb, Hst, app_nil_r. }
  destruct (serve_all conf cachedir turns depth 1 w.(w_fs) reqs ans Ha n [] w0 Hm Hc Hs Hg Hi) as (n1 & w1 & E1 & Hi1 & Ho1).
  destruct (serve_end conf cachedir turns depth 0 n1 w.(w_fs) w1 Hi1) as (w2 & E2 & [Hz Hwf] & Hfs & Ho2).
  rewrite <-Nat.add_1_r, E1, E2. cbn [mbind option_bind]. eexists _, _. split; [reflexivity|].
  cbn [w_out w_fs]. split_and!; [by rewrite Ho2, Ho1, Ho | done |]. split; [done|].
  unfold buf_wf in *. simpl. split; [lia|]. destruct Hwf. lia.
Qed.
End PipelineTheorems.

(** ** Witnesses *)

(** The whole file, with an escape in its name; a part of it; the file again
    with its own tag; one that is not there; a part it does not have. *)
Definition sample_requests : list (bytes * bytes) :=
  [(bs "/%61", bs "HTTP/1.1" ++ CRLF ++ bs "Connection: keep-alive");
   (bs "/a", sample_range_header 2 4);
   (bs "/a", bs "HTTP/1.1" ++ CRLF ++ bs "If-None-Match: " ++ QUOTE ++ bs "1000" ++ QUOTE);
   (bs "/b", bs "HTTP/1.1");
   (bs "/a", sample_range_header 2 40)].

Definition sample_answers : list bytes :=
  let size := (px_fstat sample_fs0 0).(st_size) in
  let type := answer_type sample_conf sample_fs0 0 in
  [ file_head sample_fs0 0 200 size type ++ px_contents sample_fs0 0;
    file_head sample_fs0 0 206 (4 - 2 + 1) (range_text 2 4 size ++ type) ++ take (Z.to_nat (4 - 2 + 1)) (drop (Z.to_nat 2) (px_contents sample_fs0 0));
    answer_head 304 None None (px_fstat sample_fs0 0).(st_mtime);
    error_answer 404 (bs "Page not found");
    error_answer 416 (bs "Range not satisfiable") ].

(** Their bytes, cut in the middle of a line end. *)
Definition sample_pieces : list net_event :=
  let d := concat (map request_text sample_requests) in
  [NetData (take 17 d); NetData (drop 17 d); NetClosed].

Lemma sample_gets : Forall (fun r => get_request sample_conf r.1 r.2) sample_requests.
Proof.
  repeat (apply Forall_cons_2; [split; cbn [fst snd];
    [ split_and!; [by_decision | reflexivity | apply Nat.ltb_lt; reflexivity]
    | split_and!; by_decision | reflexivity | vm_compute; (exact I || reflexivity)
    | split; [by_decision | apply Nat.ltb_lt; reflexivity] ] |]).
  apply Forall_nil_2.
Qed.

Lemma sample_readable : readable sample_fs0 0.
Proof. split; [done | reflexivity | reflexivity | by_decision]. Qed.

Lemma sample_answered : Forall2 (fun r a => answered sample_conf sample_fs0 r.1 r.2 a) sample_requests sample_answers.
Proof.
  unfold sample_answers. cbv zeta. repeat apply Forall2_cons_2; [..|apply Forall2_nil_2]; cbn [fst snd].
  - apply (answered_whole _ _ _ _ 0); [by vm_compute | apply sample_readable | reflexivity | reflexivity|].
    split_and!; [apply Nat.ltb_lt; reflexivity | by_decision | apply Nat.ltb_lt; reflexivity].
  - apply (answered_part _ _ _ _ 2 4 0); [by vm_compute | apply sample_readable | reflexivity | apply sample_range_request | by_decision|].
    split_and!; [apply Nat.ltb_lt; reflexivity | by_decision | apply Nat.ltb_lt; reflexivity].
  - apply (answered_unchanged _ _ _ _ 0); [by vm_compute | apply sample_readable | reflexivity].
  - apply answered_missing. by_decision.
  - apply (answered_outside _ _ _ _ 2 40 0); [by vm_compute | apply sample_readable | reflexivity | apply sample_range_request | right; by_decision].
Qed.

Lemma pipelined_gets_witness :
  let w := sample_input [] in
  exists n' w',
    serve_connection sample_conf None 1 1 (PeerV4 (bs "10.0.0.1")) sample_pieces 6 0 w = Some (n', w')
    /\ w'.(w_out) = concat sample_answers /\ w'.(w_fs) = sample_fs0 /\ request_ok n' w'.
Proof.
  apply (pipelined_gets sample_conf None 1 1 (PeerV4 (bs "10.0.0.1")) sample_pieces 0 sample_requests sample_answers (sample_input []));
    [done | done | done | | reflexivity | reflexivity | by eexists | apply sample_gets | apply sample_answered | reflexivity].
  split; [|apply sample_buf_wf]. split_and!; reflexivity || (apply Nat.leb_le; reflexivity).
Defined.
