(* ===== verification/Startup.v ===== *)
(** * The start of the server (listener.c, mynet.c, utils.c)

    [main] up to its loop: the options, the listening socket, the change of
    user and group, the detaching from the shell, the queue and the first
    threads; or, with -T, the one connection that is served before any of that,
    and after which the process ends.  What the process asks the system for is
    recorded in order; [inl] is how it ends.  The loop itself is Listener.v. *)
From S2P Require Export Worker MyNet Configuration.

(** ** Definitions *)

Definition ROOTUID : Z := 0.
Definition ROOTGID : Z := 0.
Definition MAXQ : Z := 40.
Definition NOMEM : Z := 7.

Definition O_NONBLOCK : Z := 2048.
Definition O_CLOEXEC : Z := 524288.

Definition SIGINT : Z := 2.
Definition SIGUSR1 : Z := 10.
Definition SIGTERM : Z := 15.

(** The functions that are called on a signal. *)
Inductive handler :=
  | Quit
  | PrintQueueStatus.

#[export] Instance handler_eq_dec : EqDecision handler.
Proof. solve_decision. Defined.

(** What the process does, with the results that decide how it goes on. *)
Inductive start_event :=
  | EvDisclaimer
  | EvSocket (s : Z)
  | EvSetsockopt (s opt val : Z) (ok : bool)
  | EvGetFlags (s flags : Z)
  | EvSetFlags (s flags : Z)
  | EvBind (s port : Z) (ok : bool)
  | EvListen (s backlog : Z)
  | EvSetgid (gid : Z) (ok : bool)
  | EvSetuid (uid : Z) (ok : bool)
  | EvFork (pid : Z)
  | EvIgnoreSighup
  | EvQueue (size : Z) (ok : bool)
  | EvThreadAttr
  | EvThreads (n : nat)
  | EvServe
  | EvSignal (sig : Z) (h : handler)
  | EvCloselog.

#[export] Instance start_event_eq_dec : EqDecision start_event.
Proof. solve_decision. Defined.

(** A computation that records events and may end the process; [None] is an
    access outside a buffer. *)
Definition S (A : Type) : Type := list start_event -> option ((ending + A) * list start_event).

#[export] Instance S_ret : MRet S := fun A x t => Some (inr x, t).
#[export] Instance S_bind : MBind S := fun A B f m t =>
  match m t with
  | Some (inr x, t') => f x t'
  | Some (inl x, t') => Some (inl x, t')
  | None => None
  end.

Definition event (e : start_event) : S unit := fun t => Some (inr tt, t ++ [e]).
Definition end_ {A} (x : ending) : S A := fun t => Some (inl x, t).
Definition exit_ {A} (code : Z) : S A := end_ (Exited code).
Definition steps {A} (o : option A) : S A :=
  fun t => match o with Some x => Some (inr x, t) | None => None end.

Definition IPV6_V6ONLY : Z := 26.
Definition SO_REUSEADDR : Z := 2.

(** What the system answers. *)
Record start_env (addr : Type) := mkenv {
  se_socket : Z;
  se_reuseaddr : bool;
  se_flags : Z;
  se_pton : bytes -> Z * addr;
  se_any : addr;
  se_bind : Z -> addr -> Z -> bool;
  se_setgid : Z -> bool;
  se_setuid : Z -> bool;
  se_fork : Z;
  se_queue : option (list Z);
  se_created : list bool;
}.
Arguments se_socket {addr}.
Arguments se_reuseaddr {addr}.
Arguments se_flags {addr}.
Arguments se_pton {addr}.
Arguments se_any {addr}.
Arguments se_bind {addr}.
Arguments se_setgid {addr}.
Arguments se_setuid {addr}.
Arguments se_fork {addr}.
Arguments se_queue {addr}.
Arguments se_created {addr}.

(** How [main] goes on: in the loop of the listener, on the socket [s]. *)
Inductive start_result :=
  | Listening (s : Z) (q : syn_queue_t) (ti : t_thread_info) (threads : nat).

(** For an inetd service: the memory it gets, its client, and the bounds on the
    loops and the recursion of a connection. *)
Record inetd_env := mkinetd {
  ie_worker : worker_env;
  ie_client : job;
  ie_turns : nat;
  ie_depth : nat;
  ie_requests : nat;
}.

Definition run_inetd {F} `{Posix F} (ie : inetd_env) (s : load_state) (w : world F)
    : option (Z * world F) :=
  inetd s.(ld_conf) s.(ld_cachedir) ie.(ie_turns) ie.(ie_depth) ie.(ie_requests)
    ie.(ie_worker) ie.(ie_client) w.

Section Startup.
Context {F : Type} `{Posix F}.
Context {addr : Type} (env : start_env addr).
Context (ie : inetd_env).

(** The result of the first [setsockopt] is not looked at. *)
Definition net_create_server_socket : S Z :=
  let s := env.(se_socket) in
  _ ← event (EvSocket s);
  _ ← event (EvSetsockopt s IPV6_V6ONLY 0 true);
  _ ← event (EvSetsockopt s SO_REUSEADDR 1 env.(se_reuseaddr));
  if negb env.(se_reuseaddr) then mret (-1)
  else
    let flags := env.(se_flags) in
    _ ← event (EvGetFlags s flags);
    _ ← event (EvSetFlags s (Z.lor flags (Z.lor O_NONBLOCK O_CLOEXEC)));
    mret s.

(** [net_bind_and_listen] with its calls: [bind] is reached when port and
    address are good. *)
Definition bind_and_listen (conf : weborf_configuration_t) (s : Z) : S unit :=
  r ← steps (net_bind_and_listen conf env.(se_pton) env.(se_any) (env.(se_bind) s));
  match r with
  | inl code =>
      let port := to_u32 (strtol conf.(c_port) 0) in
      _ ← (if code =? 3 then event (EvBind s port false) else mret tt);
      exit_ code
  | inr (_, port, _) =>
      _ ← event (EvBind s port true);
      event (EvListen s MAXQ)
  end.

(** [uid_t] is converted to [int] and back. *)
Definition set_new_uid (uid : Z) : S unit :=
  if negb (uid =? ROOTUID) then
    let ok := env.(se_setuid) (to_u32 uid) in
    _ ← event (EvSetuid (to_u32 uid) ok);
    if ok then mret tt else exit_ 9
  else mret tt.

Definition set_new_gid (gid : Z) : S unit :=
  if negb (gid =? ROOTGID) then
    let ok := env.(se_setgid) (to_u32 gid) in
    _ ← event (EvSetgid (to_u32 gid) ok);
    if ok then mret tt else exit_ 9
  else mret tt.

(** The parent, and a process that cannot [fork], end with 0. *)
Definition daemonize : S unit :=
  _ ← event (EvFork env.(se_fork));
  if env.(se_fork) =? 0 then event EvIgnoreSighup else exit_ 0.

Definition init_thread_attr : S unit := event EvThreadAttr.

Definition init_signals : S unit :=
  _ ← event (EvSignal SIGINT Quit);
  _ ← event (EvSignal SIGTERM Quit);
  event (EvSignal SIGUSR1 PrintQueueStatus).

Definition quit {A} : S A := _ ← event EvCloselog; exit_ 0.

(** From the loaded configuration on; [inetd] does not return. *)
Definition main_init (st : load_state) (w : world F) : S start_result :=
  let conf := st.(ld_conf) in
  if conf.(c_is_inetd) then
    _ ← event EvServe;
    r ← steps (run_inetd ie st w);
    exit_ r.1
  else
    _ ← event EvDisclaimer;
    s ← net_create_server_socket;
    _ ← bind_and_listen conf s;
    _ ← set_new_gid (to_s32 conf.(c_gid));
    _ ← set_new_uid (to_s32 conf.(c_uid));
    _ ← (if conf.(c_daemonize) then daemonize else mret tt);
    let '(r, q) := q_init env.(se_queue) (MAXTHREAD + 1) in
    _ ← event (EvQueue (MAXTHREAD + 1) (r =? 0));
    match q with
    | None => exit_ NOMEM
    | Some q =>
        _ ← init_thread_attr;
        let '(ti, n) := init_threads INITIALTHREAD env.(se_created) init_thread_info in
        _ ← event (EvThreads n);
        _ ← init_signals;
        mret (Listening s q ti n)
    end.

Definition main (b : build) (ssl : ssl_env) (opts : list (Z * bytes)) (e : environ) (w : world F)
    : S (load_state * start_result) :=
  r ← steps (configuration_load w.(w_fs) b ssl opts e);
  match r with
  | inl x => end_ x
  | inr s => o ← main_init s w; mret (s, o)
  end.
End Startup.

(** *** The flags of the socket *)

(** The flags [fcntl] keeps for a descriptor: those of the open file, which
    F_SETFL changes, and close-on-exec, which only F_SETFD does. *)
Record fd_flags := mkflags {
  fl_status : Z;
  fl_cloexec : bool;
}.

(** F_SETFL on Linux: only O_APPEND, O_ASYNC, O_DIRECT, O_NOATIME and
    O_NONBLOCK are taken from the argument. *)
Definition SETFL_MASK : Z := 1024 + 8192 + 16384 + 262144 + O_NONBLOCK.

Definition f_setfl (arg : Z) (f : fd_flags) : fd_flags :=
  mkflags (Z.lor (Z.land f.(fl_status) (Z.lnot SETFL_MASK)) (Z.land arg SETFL_MASK)) f.(fl_cloexec).

(** The flags of [fd] after some events. *)
Definition flags_after (fd : Z) (f : fd_flags) (t : list start_event) : fd_flags :=
  fold_left (fun f e => if e is EvSetFlags s arg then if s =? fd then f_setfl arg f else f else f) t f.

(** *** The state that is printed on SIGUSR1 *)

Definition lock_text (name : bytes) (free : bool) : bytes :=
  name ++ (if free then bs " is unlocked" else bs " is locked") ++ [LF].

(** [%d] of an unsigned counter. *)
Definition field_text (name : bytes) (v : Z) : bytes := name ++ dec_s (to_s32 v).

Definition print_queue_status (queue_free info_free : bool) (q : syn_queue_t) (ti : t_thread_info)
    : bytes :=
  lock_text (bs "Queue") queue_free ++ lock_text (bs "thread_info") info_free
  ++ bs "=== Queue ===" ++ [LF]
  ++ field_text (bs "count:      ") q.(q_num) ++ [9] ++ field_text (bs "size:       ") q.(q_size) ++ [LF]
  ++ field_text (bs "head:       ") q.(q_head) ++ [9] ++ field_text (bs "tail:       ") q.(q_tail) ++ [LF]
  ++ field_text (bs "wait_data:  ") q.(n_wait_dt) ++ [9]
  ++ field_text (bs "wait_space: ") q.(n_wait_sp) ++ [LF]
  ++ bs "=== Threads ===" ++ [LF]
  ++ field_text (bs "Maximum:    ") MAXTHREAD ++ [LF]
  ++ field_text (bs "Started:    ") ti.(ti_count) ++ [LF]
  ++ field_text (bs "Free:       ") ti.(ti_free) ++ [LF]
  ++ field_text (bs "Busy:       ") (ti.(ti_count) - ti.(ti_free)) ++ [LF].

(** ** Specification *)

(** No event that satisfies [q] comes before the first that satisfies [p]. *)
Fixpoint precedes (p q : start_event -> bool) (t : list start_event) : bool :=
  match t with
  | [] => true
  | e :: t => if p e then true else if q e then false else precedes p q t
  end.

Definition is_serving (e : start_event) : bool :=
  match e with EvThreads _ | EvServe => true | _ => false end.
Definition is_setuid (e : start_event) : bool := if e is EvSetuid _ _ then true else false.
Definition is_bind (e : start_event) : bool := if e is EvBind _ _ _ then true else false.
Definition setuid_done (uid : Z) (e : start_event) : bool :=
  if e is EvSetuid u true then u =? uid else false.
Definition setgid_done (gid : Z) (e : start_event) : bool :=
  if e is EvSetgid g true then g =? gid else false.

(** The order in which privileges are used and given up. *)
Record privileges_dropped (conf : weborf_configuration_t) (t : list start_event) : Prop := {
  pd_uid : to_u32 conf.(c_uid) <> ROOTUID -> precedes (setuid_done (to_u32 conf.(c_uid))) is_serving t = true;
  pd_gid : to_u32 conf.(c_gid) <> ROOTGID ->
           precedes (setgid_done (to_u32 conf.(c_gid))) is_serving t = true
           /\ precedes (setgid_done (to_u32 conf.(c_gid))) is_setuid t = true;
  pd_bind : precedes is_bind is_setuid t = true;
}.

(** ** Lemmas *)

Lemma to_u32_s32 z : to_u32 (to_s32 z) = to_u32 z.
Proof.
  unfold to_s, to_u. change (2 ^ (32 - 1)) with (2 ^ 31). destruct (_ <? _).
  - by rewrite Z.mod_mod.
  - rewrite <-(Z.mod_add (z mod 2 ^ 32 - 2 ^ 32) 1 (2 ^ 32)) by done.
    rewrite Z.mul_1_l, Z.sub_add. by rewrite Z.mod_mod.
Qed.

Lemma to_s32_zero z : (to_s32 z =? 0) = (to_u32 z =? 0).
Proof.
  apply eq_true_iff_eq. rewrite !Z.eqb_eq. split; intros E.
  - by rewrite <-to_u32_s32, E.
  - unfold to_s. unfold to_u in E. rewrite E. reflexivity.
Qed.

Lemma S_bind_inv {A B} (m : S A) (f : A -> S B) t r t' :
  (x ← m; f x) t = Some (r, t') ->
  exists y t1, m t = Some (y, t1)
    /\ match y with inl z => r = inl z /\ t' = t1 | inr x => f x t1 = Some (r, t') end.
Proof.
  unfold mbind, S_bind. destruct (m t) as [[[z|x] t1]|]; [| |done].
  - intros [= <- <-]. by exists (inl z), t1.
  - intros E. by exists (inr x), t1.
Qed.

(** Splits on the next test of a start that decides how it goes on. *)
Ltac start_case E :=
  match type of E with
  | context [if negb ?b then _ else _] => destruct b eqn:?
  | context [if ?b then _ else _] => destruct b eqn:?
  | context [match ?o with Some _ => _ | None => _ end] => is_var o; destruct o
  end; cbn in E.

(** Closes the statements about a finished trace. *)
Ltac start_trace :=
  repeat match goal with
  | E : (?z =? 0) = true |- _ => apply Z.eqb_eq in E
  end;
  split; [split; intros; cbn; rewrite ?Z.eqb_refl; cbn; try done; congruence | by intros].

Section StartupLemmas.
Context {F : Type} `{Posix F}.
Context {addr : Type} (env : start_env addr).
Context (ie : inetd_env).

(** What is known of a start: without -T the privileges are dropped before
    anything is served, and a start that fails serves nothing; with -T the one
    connection is all there is. *)
Definition start_ok (st : load_state) (w : world F) {A} (r : ending + A) (t : list start_event) : Prop :=
  if st.(ld_conf).(c_is_inetd)
  then t = [EvServe] /\ exists code w', run_inetd ie st w = Some (code, w') /\ r = inl (Exited code)
  else privileges_dropped st.(ld_conf) t /\ (forall x, r = inl x -> existsb is_serving t = false).

Lemma main_init_inetd st (w : world F) r t :
  c_is_inetd st.(ld_conf) = true -> main_init env ie st w [] = Some (r, t) ->
  t = [EvServe] /\ exists code w', run_inetd ie st w = Some (code, w') /\ r = inl (Exited code).
Proof.
  intros Hi. unfold main_init. rewrite Hi. unfold mbind, S_bind, event, steps. cbn [app].
  destruct (run_inetd ie st w) as [[code w']|]; [|done]. intros [= <- <-]. eauto.
Qed.

Lemma main_init_run st (w : world F) r t :
  main_init env ie st w [] = Some (r, t) -> start_ok st w r t.
Proof.
  unfold start_ok. destruct (c_is_inetd (ld_conf st)) eqn:Hi; [by apply main_init_inetd|].
  unfold main_init. rewrite Hi. set (conf := ld_conf st).
  unfold net_create_server_socket, bind_and_listen, set_new_uid, set_new_gid, daemonize, init_thread_attr, init_signals.
  unfold mbind, S_bind, mret, S_ret, event, exit_, end_, steps. rewrite !to_u32_s32. unfold ROOTUID, ROOTGID.
  rewrite !to_s32_zero. intros E.
  destruct (se_reuseaddr env); cbn in E.
  all: match type of E with context [@net_bind_and_listen ?F ?H ?c ?A ?p ?a ?b] =>
         destruct (@net_bind_and_listen F H c A p a b) as [[code|[[ad port] ip]]|]; cbn in E; [| |done] end.
  1, 3: destruct (code =? 3); cbn in E; injection E as <- <-; start_trace.
  all: repeat start_case E; try (injection E as <- <-; start_trace).
  all: destruct (q_init (se_queue env) (MAXTHREAD + 1)) as [rq [q|]];
    [destruct (init_threads INITIALTHREAD (se_created env) init_thread_info) as [ti n]|];
    cbn in E; injection E as <- <-; start_trace.
Qed.

(** The last function that was set for a signal. *)
Fixpoint handler_of (sig : Z) (t : list start_event) : option handler :=
  match t with
  | [] => None
  | EvSignal s h :: t => if handler_of sig t is Some h' then Some h' else if s =? sig then Some h else None
  | _ :: t => handler_of sig t
  end.

Lemma handler_of_app sig t t' :
  handler_of sig (t ++ t') = if handler_of sig t' is Some h then Some h else handler_of sig t.
Proof.
  induction t as [|e t IH]; cbn [app handler_of]; [by destruct (handler_of sig t')|].
  destruct e; try exact IH. rewrite IH. by destruct (handler_of sig t'), (handler_of sig t).
Qed.

(** What the loop of the listener finds. *)
Lemma main_init_listening st (w : world F) s q ti n t :
  main_init env ie st w [] = Some (inr (Listening s q ti n), t) ->
  snd (q_init env.(se_queue) (MAXTHREAD + 1)) = Some q
  /\ init_threads INITIALTHREAD env.(se_created) init_thread_info = (ti, n).
Proof.
  intros E. unfold main_init in E.
  destruct (c_is_inetd (ld_conf st));
    [by repeat (apply S_bind_inv in E as ([?|?] & ? & _ & E); [by destruct E|])|].
  repeat (apply S_bind_inv in E as ([?|?] & ? & _ & E); [by destruct E|]).
  destruct (q_init (se_queue env) (MAXTHREAD + 1)) as [rq q0].
  apply S_bind_inv in E as ([?|?] & ? & _ & E); [by destruct E|].
  destruct q0 as [q0|]; [|done]. apply S_bind_inv in E as ([?|?] & ? & _ & E); [by destruct E|].
  destruct (init_threads _ _ _) as [ti0 n0].
  repeat (apply S_bind_inv in E as ([?|?] & ? & _ & E); [by destruct E|]).
  by injection E as _ -> -> -> _.
Qed.
End StartupLemmas.

(** ** Theorems *)

Section StartupTheorems.
Context {F : Type} `{Posix F}.
Context {addr : Type} (env : start_env addr).
Context (ie : inetd_env).

(** C5: whatever the options and whatever fails, a server that listens never
    serves with privileges that were to be given up: with a user or a group
    configured, the process has changed to it before its first thread, the
    group while it could still do so, and the user only after the port was
    bound; when a step fails the process ends without a thread.  With -T the
    options -u and -g have no effect: the connection is served, as [inetd] does
    it, with the user and the group the process was started with, no change of
    them is asked for, and the process ends with the code of [inetd]. *)
Theorem main_drops_privileges b ssl opts e (w : world F) r t :
  main env ie b ssl opts e w [] = Some (r, t) ->
  match configuration_load w.(w_fs) b ssl opts e with
  | None => False
  | Some (inl x) => r = inl x /\ t = []
  | Some (inr st) =>
      if st.(ld_conf).(c_is_inetd)
      then t = [EvServe] /\ exists code w', run_inetd ie st w = Some (code, w') /\ r = inl (Exited code)
      else privileges_dropped st.(ld_conf) t /\ (forall x, r = inl x -> existsb is_serving t = false)
  end.
Proof.
  intros E. unfold main in E. apply S_bind_inv in E as (y & t1 & E1 & E). unfold steps in E1.
  destruct (configuration_load (w_fs w) b ssl opts e) as [[x|st]|]; [| |done]; injection E1 as <- <-.
  { by injection E as <- <-. }
  apply S_bind_inv in E as (o & t1 & E1 & E). apply main_init_run in E1. unfold start_ok in E1.
  destruct (c_is_inetd (ld_conf st)).
  - destruct E1 as (-> & code & w' & Hr & ->). destruct E as [-> ->]. eauto.
  - destruct E1 as [Hp Hn]. destruct o as [x|o]; [destruct E as [-> ->] | injection E as <- <-]; split; try done.
    intros c [= ->]. by apply (Hn c).
Qed.

(** A server that has started ends on SIGINT and SIGTERM, and prints its state
    on SIGUSR1. *)
Theorem main_sets_signals st (w : world F) s q ti n t :
  main_init env ie st w [] = Some (inr (Listening s q ti n), t) ->
  handler_of SIGINT t = Some Quit /\ handler_of SIGTERM t = Some Quit
  /\ handler_of SIGUSR1 t = Some PrintQueueStatus
  /\ exists t', @quit unit t = Some (inl (Exited 0), t').
Proof.
  intros E. unfold main_init in E.
  destruct (c_is_inetd (ld_conf st));
    [by repeat (apply S_bind_inv in E as ([?|?] & ? & _ & E); [by destruct E|])|].
  repeat (apply S_bind_inv in E as ([?|?] & ? & _ & E); [by destruct E|]).
  destruct (q_init (se_queue env) (MAXTHREAD + 1)) as [rq q0].
  apply S_bind_inv in E as ([?|?] & ? & _ & E); [by destruct E|].
  destruct q0 as [q0|]; [|done]. apply S_bind_inv in E as ([?|?] & ? & _ & E); [by destruct E|].
  destruct (init_threads _ _ _) as [ti0 n0]. apply S_bind_inv in E as ([?|?] & t1 & _ & E); [by destruct E|].
  injection E as _ _ _ _ <-. rewrite <-!app_assoc, !handler_of_app. split_and!; [done..|]. by eexists.
Qed.

(** The loop of the listener begins in a state that Listener.v reaches from its
    initial one: an empty queue of [MAXTHREAD + 1] places and the threads of
    the first group. *)
Theorem main_enters_pool st (w : world F) s q ti n t data :
  env.(se_queue) = Some data -> Z.of_nat (length data) = MAXTHREAD + 1 ->
  main_init env ie st w [] = Some (inr (Listening s q ti n), t) ->
  queue_wf q /\ contents q = []
  /\ server_reach q (mkserver ti q (replicate n Starting) MPoll 0 [] [] [] []).
Proof.
  intros Hq Hl E. apply main_init_listening in E as [Ei Et]. rewrite Hq in Ei. injection Ei as <-.
  split; [|split; [done|]].
  - split; simpl; unfold MAXTHREAD in *; try lia. done.
  - eapply server_reach_step; [apply server_reach_init|]. apply step_main.
    pose proof (main_start init_thread_info (mkqueue 0 (MAXTHREAD + 1) 0 0 data 0 0) [] 0 [] [] [] []
                  INITIALTHREAD env.(se_created)) as Hs.
    unfold server_init. rewrite Et in Hs. exact Hs.
Qed.
End StartupTheorems.

(** The flag O_CLOEXEC has no effect where the code passes it: the listening
    socket stays open in the programs the server executes. *)
Theorem close_on_exec_not_set fd f t : fl_cloexec (flags_after fd f t) = fl_cloexec f.
Proof.
  unfold flags_after. revert f. induction t as [|ev t IH]; intros f; [done|]. cbn [fold_left].
  rewrite IH. destruct ev; try done. by destruct (_ =? _).
Qed.

(** A user is given by number: a name is read as 0 and the server keeps running
    as root. *)
Example user_name_is_root :
  set_field (chr "u") (bs "www-data") default_conf = default_conf.
Proof. reflexivity. Qed.

(** A server that cannot [fork] ends with success. *)
Example daemonize_fails_silently :
  daemonize (mkenv unit 3 true 0 (fun _ => (1, tt)) tt (fun _ _ _ => true) (fun _ => true)
               (fun _ => true) (-1) None []) []
  = Some (inl (Exited 0), [EvFork (-1)]).
Proof. reflexivity. Qed.

(** ** Witnesses *)

Definition sample_env : start_env unit :=
  mkenv unit 3 true 2 (fun _ => (1, tt)) tt (fun _ _ _ => true) (fun _ => true) (fun _ => true) 0
    (Some (replicate 301 0)) (replicate 6 true).

(** The options -u 33 -g 33 -d. *)
Definition sample_opts : list (Z * bytes) :=
  [(chr "u", bs "33" ++ [0]); (chr "g", bs "33" ++ [0]); (chr "d", [0])].

Definition sample_inetd : inetd_env := mkinetd sample_wenv (sample_job 0) 1 1 1.

Definition sample_main (opts : list (Z * bytes)) :=
  main sample_env sample_inetd sample_build sample_ssl opts [] (sample_input []) [].

(** With -T the file of the sample is served by the user that started. *)
Example inetd_keeps_privileges :
  exists code, sample_main (sample_opts ++ [(chr "T", [0])]) = Some (inl (Exited code), [EvServe]).
Proof. eexists. vm_compute. reflexivity. Qed.

Lemma main_drops_privileges_witness :
  exists st r t,
    configuration_load (w_fs (sample_input [])) sample_build sample_ssl sample_opts [] = Some (inr st)
    /\ sample_main sample_opts = Some (r, t)
    /\ EvSetuid 33 true ∈ t
    /\ privileges_dropped st.(ld_conf) t /\ (forall x, r = inl x -> existsb is_serving t = false).
Proof.
  eexists _, _, _. split; [vm_compute; reflexivity|]. split; [vm_compute; reflexivity|].
  split; [by_decision|].
  exact (main_drops_privileges sample_env sample_inetd sample_build sample_ssl sample_opts []
           (sample_input []) _ _ eq_refl).
Defined.

Lemma main_enters_pool_witness :
  exists q ti,
    queue_wf q /\ contents q = []
    /\ server_reach q (mkserver ti q (replicate 6 Starting) MPoll 0 [] [] [] []).
Proof.
  eexists _, _.
  eapply (main_enters_pool sample_env sample_inetd (load_start []) (sample_input []) 3 _ _ 6 _ (replicate 301 0));
    [reflexivity | reflexivity | vm_compute; reflexivity].
Defined.
