(* ===== verification/Descriptors.v ===== *)
(** * File descriptors (instance.c, cachedir.c, cgi.c, webdav.c, myio.c, auth.c)

    Which descriptors the handlers open and close.  The descriptors of the
    process are one table that all threads share, and a number that was closed
    is soon given to another thread; so closing too often is as bad as not
    closing.  Each function here is the C function of the same name reduced to
    its calls that open and close; what decides its branches is an argument,
    the outcome. *)
From stdpp Require Export gmap.
From S2P Require Export Prelude.

(** ** Definitions: the table *)

(** The thread each descriptor belongs to, the field [strfile_fd] of the
    connection, and the calls of [close] on a descriptor of somebody else, or
    of nobody. *)
Record fds := mkfds {
  table : gmap Z nat;
  strfile_fd_ : Z;
  faults : list (Z * option nat);
}.

(** A computation of the thread with that number. *)
Definition D (A : Type) : Type := nat -> fds -> A * fds.

#[export] Instance D_ret : MRet D := fun A x me s => (x, s).
#[export] Instance D_bind : MBind D := fun A B f m me s => let '(x, s') := m me s in f x me s'.

(** The system chooses the number of a new descriptor among the free ones. *)
Class FdChoice := {
  choose : gmap Z nat -> Z;
  choose_free t : t !! choose t = None /\ 0 <= choose t;
}.

Section Descriptors.
Context `{FdChoice}.

Definition d_open (ok : bool) : D Z := fun me s =>
  if ok then let fd := choose s.(table) in
             (fd, mkfds (<[fd := me]> s.(table)) s.(strfile_fd_) s.(faults))
  else (-1, s).

(** A negative number is refused. *)
Definition d_close (fd : Z) : D unit := fun me s =>
  if fd <? 0 then (tt, s)
  else (tt, mkfds (delete fd s.(table)) s.(strfile_fd_)
              (if bool_decide (s.(table) !! fd = Some me) then s.(faults)
               else s.(faults) ++ [(fd, s.(table) !! fd)])).

Definition get_strfile : D Z := fun me s => (s.(strfile_fd_), s).
Definition set_strfile_fds (fd : Z) : D unit := fun me s => (tt, mkfds s.(table) fd s.(faults)).

Fixpoint d_each {A} (f : A -> D unit) (l : list A) : D unit :=
  match l with [] => mret tt | x :: l => _ ← f x; d_each f l end.

(** ** Definitions: the functions *)

(** *** Authentication *)

Inductive auth_outcome :=
  | AuthOff
  | AuthBadCredentials
  | AuthNoSocket
  | AuthNoConnect
  | AuthNoMemory
  | AuthAnswered (accepted : bool).

Definition auth_check_request_fds (o : auth_outcome) : D bool :=
  match o with
  | AuthOff => mret true
  | AuthBadCredentials => mret false
  | AuthNoSocket => _ ← d_open false; mret false
  | AuthNoConnect => _ ← d_open true; mret false
  | AuthNoMemory => _ ← d_open true; mret false
  | AuthAnswered accepted => s ← d_open true; _ ← d_close s; mret accepted
  end.

(** *** The cache *)

Inductive item_outcome := ItemOff | ItemMiss | ItemLocked | ItemHit.

Definition cache_get_item_fd_fds (o : item_outcome) : D Z :=
  match o with
  | ItemOff => mret (-1)
  | ItemMiss => d_open false
  | ItemLocked => fd ← d_open true; _ ← d_close fd; mret (-1)
  | ItemHit => d_open true
  end.

(** Opened, and locked. *)
Definition cache_get_item_fd_wr_fds (opened locked : bool) : D Z :=
  fd ← d_open opened;
  if opened && locked then mret fd else _ ← d_close fd; mret (-1).

Definition cache_store_item_fds (opened locked : bool) : D unit :=
  fd ← d_open opened;
  if fd =? -1 then mret tt
  else if negb locked then d_close fd
  else d_close fd.

Definition cache_send_item_fds (o : item_outcome) : D bool :=
  cachedfd ← cache_get_item_fd_fds o;
  if cachedfd =? -1 then mret false
  else
    oldfd ← get_strfile;
    _ ← set_strfile_fds cachedfd;
    _ ← set_strfile_fds oldfd;
    _ ← d_close cachedfd;
    mret true.

(** *** Files *)

Inductive put_outcome := PutRefused | PutNotOpened | PutNotTruncated | PutNoMemory | PutRead.

Definition read_file_fds (o : put_outcome) : D unit :=
  match o with
  | PutRefused => mret tt
  | _ =>
      fd ← d_open (if o is PutNotOpened then false else true);
      if fd =? -1 then mret tt
      else match o with
           | PutNotTruncated => d_close fd
           | PutNoMemory => d_close fd
           | _ => d_close fd
           end
  end.

Inductive copy_outcome := CopyNoDest | CopyNoSource | CopyNoMemory | CopyRead.

Definition file_copy_fds (o : copy_outcome) : D unit :=
  fd_to ← d_open (if o is CopyNoDest then false else true);
  fd_from ← (if fd_to <? 0 then mret (-1) else d_open (if o is CopyNoSource then false else true));
  _ ← (if 0 <=? fd_from then d_close fd_from else mret tt);
  if 0 <=? fd_to then d_close fd_to else mret tt.

Inductive remove_outcome :=
  | RmUnlinked
  | RmNotOpened
  | RmNoMemory
  | RmEntries (es : list remove_outcome).

Fixpoint dir_remove_fds (o : remove_outcome) : D unit :=
  match o with
  | RmUnlinked => mret tt
  | RmNotOpened => _ ← d_open false; mret tt
  | RmNoMemory => _ ← d_open true; mret tt
  | RmEntries es => dp ← d_open true; _ ← d_each dir_remove_fds es; d_close dp
  end.

(** Entries up to the first that fails; a file that was only renamed has no
    outcome. *)
Inductive tree_outcome :=
  | TreeNoDest
  | TreeNotOpened
  | TreeNoMemory
  | TreeEntries (es : list (tree_outcome + option copy_outcome)).

Definition file_fds (o : option copy_outcome) : D unit :=
  match o with None => mret tt | Some o => file_copy_fds o end.

Fixpoint dir_move_copy_fds (o : tree_outcome) : D unit :=
  match o with
  | TreeNoDest => mret tt
  | TreeNotOpened => _ ← d_open false; mret tt
  | TreeNoMemory => _ ← d_open true; mret tt
  | TreeEntries es =>
      dp ← d_open true;
      _ ← d_each (fun e => match e with inl d => dir_move_copy_fds d | inr f => file_fds f end) es;
      d_close dp
  end.

(** *** WebDAV *)

Definition printprops_fds (opened : bool) : D unit :=
  file_fd ← d_open opened;
  if file_fd =? -1 then mret tt else d_close file_fd.

(** [po_deep] is [None] without Depth 1, and [Some None] when the directory, or
    what is not one, cannot be opened. *)
Record propfind_outcome := mkpropfind {
  po_props : bool;
  po_item : item_outcome;
  po_opened : bool;
  po_locked : bool;
  po_self : bool;
  po_deep : option (option (list bool));
}.

Definition propfind_fds (sock : Z) (o : propfind_outcome) : D unit :=
  if negb o.(po_props) then mret tt
  else
    let has_cache := if o.(po_item) is ItemOff then false else true in
    cache_fd ← (if has_cache then cache_get_item_fd_fds o.(po_item) else mret (-1));
    if negb (cache_fd =? -1) then d_close cache_fd
    else
      cache_fd ← (if has_cache then cache_get_item_fd_wr_fds o.(po_opened) o.(po_locked) else mret (-1));
      let dest_fd := if cache_fd =? -1 then sock else cache_fd in
      _ ← printprops_fds o.(po_self);
      let end_ := if has_cache && negb (dest_fd =? sock) then d_close dest_fd else mret tt in
      match o.(po_deep) with
      | None => end_
      | Some None =>
          _ ← d_open false;
          _ ← (if negb (sock =? dest_fd) then d_close dest_fd else mret tt);
          d_close sock
      | Some (Some es) =>
          dp ← d_open true;
          _ ← d_each printprops_fds es;
          _ ← d_close dp;
          end_
      end.

Inductive move_outcome :=
  | MoveRefused
  | MoveFile (o : option copy_outcome)
  | MoveDir (o : option tree_outcome).

Definition copy_move_fds (o : move_outcome) : D unit :=
  match o with
  | MoveRefused => mret tt
  | MoveFile f => file_fds f
  | MoveDir None => mret tt
  | MoveDir (Some d) => dir_move_copy_fds d
  end.

(** *** Scripts *)

Inductive child_outcome := ChildNoMemory | ChildOutput (headers : bool).

(** [post] is that there is data for the script's standard input. *)
Inductive cgi_outcome :=
  | CgiNoStdin
  | CgiNoPipe (post : bool)
  | CgiNoFork (post : bool)
  | CgiChild (post : bool) (o : child_outcome).

Definition close_both (p : Z * Z) : D unit := _ ← d_close p.1; d_close p.2.

Definition d_pipe (ok : bool) : D (Z * Z) := a ← d_open ok; b ← d_open ok; mret (a, b).

(** In the parent. *)
Definition cgi_waitfor_child_fds (post : bool) (o : child_outcome) (wpipe ipipe : Z * Z) : D unit :=
  _ ← d_close wpipe.2;
  match o with
  | ChildNoMemory => _ ← d_close wpipe.1; if post then close_both ipipe else mret tt
  | ChildOutput headers =>
      _ ← (if post then close_both ipipe else mret tt);
      if headers then d_close wpipe.1 else mret tt
  end.

Definition exec_page_fds (o : cgi_outcome) : D unit :=
  match o with
  | CgiNoStdin => _ ← d_pipe false; mret tt
  | CgiNoPipe post =>
      ipipe ← (if post then d_pipe true else mret (-1, -1));
      _ ← d_pipe false;
      if post then close_both ipipe else mret tt
  | CgiNoFork post =>
      ipipe ← (if post then d_pipe true else mret (-1, -1));
      wpipe ← d_pipe true;
      _ ← (if post then close_both ipipe else mret tt);
      _ ← d_close wpipe.2;
      d_close wpipe.1
  | CgiChild post o =>
      ipipe ← (if post then d_pipe true else mret (-1, -1));
      wpipe ← d_pipe true;
      cgi_waitfor_child_fds post o wpipe ipipe
  end.

(** *** Dispatch *)

(** [lo_etag] is that the client has the page. *)
Record list_outcome := mklistout {
  lo_etag : bool;
  lo_item : item_outcome;
  lo_memory : bool;
  lo_opened : bool;
  lo_locked : bool;
}.

Definition write_dir_fds (o : list_outcome) : D unit :=
  if o.(lo_etag) then mret tt
  else
    hit ← cache_send_item_fds o.(lo_item);
    if (hit : bool) then mret tt
    else if negb o.(lo_memory) then mret tt
    else if (if o.(lo_item) is ItemOff then true else false) then mret tt
    else cache_store_item_fds o.(lo_opened) o.(lo_locked).

(** A redirection, an archive or a file does not open anything more. *)
Inductive get_outcome :=
  | GetSent
  | GetList (o : list_outcome)
  | GetScript (o : cgi_outcome).

Definition get_or_post_fds (o : get_outcome) : D unit :=
  match o with
  | GetSent => mret tt
  | GetList o => write_dir_fds o
  | GetScript o => exec_page_fds o
  end.

Inductive other_outcome :=
  | OtherPut (o : put_outcome)
  | OtherDelete (o : remove_outcome)
  | OtherPropfind (o : propfind_outcome)
  | OtherMove (o : move_outcome)
  | OtherNone.

Definition other_fds (sock : Z) (o : other_outcome) : D unit :=
  match o with
  | OtherPut o => read_file_fds o
  | OtherDelete o => dir_remove_fds o
  | OtherPropfind o => propfind_fds sock o
  | OtherMove o => copy_move_fds o
  | OtherNone => mret tt
  end.

(** GET and POST, and whether their file can be opened, or another method. *)
Inductive body_outcome :=
  | BodyGet (opened : bool) (o : get_outcome)
  | BodyOther (o : other_outcome).

Record request_outcome := mkreq {
  ro_auth : auth_outcome;
  ro_body : body_outcome;
}.

Definition send_page_fds (sock : Z) (r : request_outcome) : D unit :=
  ok ← auth_check_request_fds r.(ro_auth);
  _ ← (if negb ok then mret tt
       else match r.(ro_body) with
            | BodyOther o => other_fds sock o
            | BodyGet opened o =>
                fd ← d_open opened;
                _ ← set_strfile_fds fd;
                if fd <? 0 then mret tt else get_or_post_fds o
            end);
  strfile_fd ← get_strfile;
  if (if r.(ro_body) is BodyGet _ _ then true else false) && (0 <=? strfile_fd) then d_close strfile_fd
  else mret tt.

(** The requests of a connection, and the end of it in [instance]. *)
Definition connection_fds (sock : Z) (rs : list request_outcome) : D unit :=
  _ ← d_each (send_page_fds sock) rs;
  d_close sock.
End Descriptors.

(** ** Specification *)

(** How many descriptors an outcome leaves open for good: the socket of an
    authentication program that does not answer, a directory for whose entries
    there is no memory, the output of a script that prints no header. *)
Definition auth_leaks (o : auth_outcome) : nat :=
  match o with AuthNoConnect | AuthNoMemory => 1 | _ => 0 end.

Fixpoint remove_leaks (o : remove_outcome) : nat :=
  match o with
  | RmNoMemory => 1
  | RmEntries es => sum_list_with remove_leaks es
  | _ => 0
  end.

Fixpoint tree_leaks (o : tree_outcome) : nat :=
  match o with
  | TreeNoMemory => 1
  | TreeEntries es => sum_list_with (fun e => match e with inl d => tree_leaks d | inr _ => 0%nat end) es
  | _ => 0
  end.

Definition cgi_leaks (o : cgi_outcome) : nat :=
  match o with CgiChild _ (ChildOutput false) => 1 | _ => 0 end.

Definition get_leaks (o : get_outcome) : nat := match o with GetScript o => cgi_leaks o | _ => 0 end.

Definition other_leaks (o : other_outcome) : nat :=
  match o with
  | OtherDelete o => remove_leaks o
  | OtherMove (MoveDir (Some o)) => tree_leaks o
  | _ => 0
  end.

Definition auth_accepts (o : auth_outcome) : bool :=
  match o with AuthOff | AuthAnswered true => true | _ => false end.

Definition request_leaks (r : request_outcome) : nat :=
  auth_leaks r.(ro_auth)
  + if auth_accepts r.(ro_auth) then
      match r.(ro_body) with
      | BodyGet opened o => if opened then get_leaks o else 0
      | BodyOther o => other_leaks o
      end
    else 0.

(** The two outcomes that close what the thread does not have: the PROPFIND
    with Depth 1 of what cannot be opened as a directory, and the refusal of a
    GET or POST, which closes whatever [strfile_fd] holds. *)
Definition propfind_own (o : propfind_outcome) : bool :=
  negb o.(po_props) || (if o.(po_item) is ItemHit then true else false)
  || (if o.(po_deep) is Some None then false else true).

Definition request_own (r : request_outcome) : bool :=
  match r.(ro_body) with
  | BodyGet _ _ => auth_accepts r.(ro_auth)
  | BodyOther (OtherPropfind o) => negb (auth_accepts r.(ro_auth)) || propfind_own o
  | BodyOther _ => true
  end.

(** ** Lemmas: weakest preconditions *)

Section Wp.
Context `{FdChoice}.
Context (me : nat) (sock : Z).

(** In [s], the thread holds the descriptors [l] more than in [s0]. *)
Record holding (s0 : fds) (l : list Z) (sf : Z) (s : fds) : Prop := {
  ho_table : s.(table) = foldr (fun fd t => <[fd := me]> t) s0.(table) l;
  ho_strfile : s.(strfile_fd_) = sf;
  ho_faults : s.(faults) = s0.(faults);
  ho_nodup : NoDup l;
  ho_free : Forall (fun fd => s0.(table) !! fd = None /\ 0 <= fd) l;
}.

Definition wp {A} (m : D A) (Q : A -> list Z -> Z -> Prop) (l : list Z) (sf : Z) : Prop :=
  forall s0 s, s0.(table) !! sock = Some me -> holding s0 l sf s ->
  exists x l' sf' s', m me s = (x, s') /\ holding s0 l' sf' s' /\ Q x l' sf'.

(** [n] descriptors are left open and nothing was closed that was not opened. *)
Definition leaves {A} (n : nat) (m : D A) : Prop :=
  forall l sf, wp m (fun _ l' sf' => (exists k, length k = n /\ l' = k ++ l) /\ sf' = sf) l sf.

(** None is. *)
Definition neutral {A} (m : D A) : Prop :=
  forall l sf, wp m (fun _ l' sf' => l' = l /\ sf' = sf) l sf.

Lemma foldr_lookup (t : gmap Z nat) l fd :
  foldr (fun fd t => <[fd := me]> t) t l !! fd = if bool_decide (fd ∈ l) then Some me else t !! fd.
Proof.
  induction l as [|x l IH]; [done|]. cbn [foldr]. destruct (decide (x = fd)) as [->|Hn].
  - rewrite lookup_insert_eq, bool_decide_eq_true_2; [done | by left].
  - rewrite lookup_insert_ne, IH by done. repeat case_bool_decide; set_solver.
Qed.

Lemma foldr_delete (t : gmap Z nat) l1 fd l2 :
  fd ∉ l1 -> fd ∉ l2 -> t !! fd = None ->
  delete fd (foldr (fun fd t => <[fd := me]> t) t (l1 ++ fd :: l2))
  = foldr (fun fd t => <[fd := me]> t) t (l1 ++ l2).
Proof.
  intros H1 H2 Ht. induction l1 as [|x l1 IH]; cbn [app foldr].
  - rewrite delete_insert_id; [done|]. rewrite foldr_lookup. by rewrite bool_decide_eq_false_2.
  - rewrite not_elem_of_cons in H1. destruct H1 as [Hx H1].
    by rewrite delete_insert_ne, IH.
Qed.

Lemma foldr_delete_other (t : gmap Z nat) l fd :
  fd ∉ l -> delete fd (foldr (fun fd t => <[fd := me]> t) t l)
            = foldr (fun fd t => <[fd := me]> t) (delete fd t) l.
Proof.
  induction l as [|x l IH]; [done|]. rewrite not_elem_of_cons. intros [Hx Hl]. cbn [foldr].
  by rewrite delete_insert_ne, IH.
Qed.

Lemma wp_ret {A} (x : A) (Q : A -> list Z -> Z -> Prop) l sf : Q x l sf -> wp (mret x) Q l sf.
Proof. intros HQ s0 s _ Hh. by exists x, l, sf, s. Qed.

Lemma wp_bind {A B} (m : D A) (f : A -> D B) Q l sf :
  wp m (fun x => wp (f x) Q) l sf -> wp (x ← m; f x) Q l sf.
Proof.
  intros Hm s0 s Hs Hh. destruct (Hm s0 s Hs Hh) as (x & l1 & sf1 & s1 & E & Hh1 & Hf).
  destruct (Hf s0 s1 Hs Hh1) as (y & l2 & sf2 & s2 & E2 & R). exists y, l2, sf2, s2.
  split; [|done]. unfold mbind, D_bind. by rewrite E.
Qed.

Lemma wp_mono {A} (m : D A) (P Q : A -> list Z -> Z -> Prop) l sf :
  wp m P l sf -> (forall x l' sf', P x l' sf' -> Q x l' sf') -> wp m Q l sf.
Proof.
  intros Hm Hi s0 s Hs Hh. destruct (Hm s0 s Hs Hh) as (x & l1 & sf1 & s1 & E & Hh1 & HP).
  exists x, l1, sf1, s1. auto.
Qed.

Lemma wp_neutral {A} (m : D A) (Q : A -> list Z -> Z -> Prop) l sf :
  neutral m -> (forall x, Q x l sf) -> wp m Q l sf.
Proof. intros Hm HQ. eapply wp_mono; [apply Hm|]. intros x l' sf' [-> ->]. apply HQ. Qed.

Lemma wp_leaves {A} n (m : D A) (Q : A -> list Z -> Z -> Prop) l sf :
  leaves n m -> (forall x k, length k = n -> Q x (k ++ l) sf) -> wp m Q l sf.
Proof. intros Hm HQ. eapply wp_mono; [apply Hm|]. intros x l' sf' [(k & Hk & ->) ->]. by apply HQ. Qed.

Lemma neutral_leaves {A} (m : D A) : neutral m -> leaves 0 m.
Proof. intros Hm l sf. eapply wp_neutral; [done|]. intros _. split; [by exists [] | done]. Qed.

Lemma wp_open (Q : Z -> list Z -> Z -> Prop) l sf :
  (forall fd, 0 <= fd -> fd <> sock -> Q fd (fd :: l) sf) -> wp (d_open true) Q l sf.
Proof.
  intros HQ s0 s Hs [Ht Hsf Hf Hn Hl]. destruct (choose_free (table s)) as [Hc Hc0].
  set (fd := choose (table s)) in *. rewrite Ht, foldr_lookup in Hc. case_bool_decide as Hin; [done|].
  exists fd, (fd :: l), sf, (mkfds (<[fd := me]> s.(table)) s.(strfile_fd_) s.(faults)).
  split; [done|]. split.
  - split; cbn; [by rewrite Ht | done | done | by constructor | by constructor].
  - apply HQ; [done|]. intros E. congruence.
Qed.

Lemma wp_open_false (Q : Z -> list Z -> Z -> Prop) l sf : Q (-1) l sf -> wp (d_open false) Q l sf.
Proof. intros HQ s0 s _ Hh. by exists (-1), l, sf, s. Qed.

Lemma wp_close (Q : unit -> list Z -> Z -> Prop) l1 fd l2 sf :
  Q tt (l1 ++ l2) sf -> wp (d_close fd) Q (l1 ++ fd :: l2) sf.
Proof.
  intros HQ s0 s _ [Ht Hsf Hf Hn Hl]. apply NoDup_app in Hn as (Hn1 & Hd & Hn2).
  apply NoDup_cons in Hn2 as [Hfd Hn2]. apply Forall_app in Hl as [Hl1 Hl2].
  inversion Hl2 as [|? ? [Hfree Hpos] Hl2']; subst.
  assert (fd ∉ l1) as Hfd1 by (intros Hin; apply (Hd fd Hin); by left).
  exists tt, (l1 ++ l2), (strfile_fd_ s), (mkfds (delete fd s.(table)) s.(strfile_fd_) s.(faults)).
  split; [|split; [|done]].
  - unfold d_close. destruct (Z.ltb_spec fd 0); [lia|]. rewrite bool_decide_eq_true_2; [done|].
    rewrite Ht, foldr_lookup, bool_decide_eq_true_2; [done|]. rewrite elem_of_app, elem_of_cons. tauto.
  - split; cbn; [by rewrite Ht, foldr_delete | done | done | | by apply Forall_app].
    apply NoDup_app. split_and!; [done | | done]. intros x Hx Hx2. apply (Hd x Hx). by right.
Qed.

Lemma wp_close_neg (Q : unit -> list Z -> Z -> Prop) fd l sf : fd < 0 -> Q tt l sf -> wp (d_close fd) Q l sf.
Proof.
  intros Hf HQ s0 s _ Hh. exists tt, l, sf, s. unfold d_close. by destruct (Z.ltb_spec fd 0); [|lia].
Qed.

Lemma wp_get (Q : Z -> list Z -> Z -> Prop) l sf : Q sf l sf -> wp get_strfile Q l sf.
Proof. intros HQ s0 s _ Hh. exists sf, l, sf, s. split; [|done]. unfold get_strfile. by destruct Hh as [_ -> _ _ _]. Qed.

Lemma wp_set fd (Q : unit -> list Z -> Z -> Prop) l sf : Q tt l fd -> wp (set_strfile_fds fd) Q l sf.
Proof.
  intros HQ s0 s _ [Ht Hsf Hf Hn Hl]. exists tt, l, fd, (mkfds s.(table) fd s.(faults)). done.
Qed.

Lemma neutral_each {A} (f : A -> D unit) xs : Forall (fun x => neutral (f x)) xs -> neutral (d_each f xs).
Proof.
  induction 1 as [|x xs Hx Hxs IH]; intros l sf; [by apply wp_ret|]. cbn [d_each]. apply wp_bind.
  apply wp_neutral; [done|]. intros _. apply IH.
Qed.

Lemma leaves_each {A} (g : A -> nat) (f : A -> D unit) xs :
  Forall (fun x => leaves (g x) (f x)) xs -> leaves (sum_list_with g xs) (d_each f xs).
Proof.
  induction 1 as [|x xs Hx Hxs IH]; intros l sf; [apply wp_ret; split; [by exists [] | done]|].
  cbn [d_each sum_list_with]. apply wp_bind. apply (wp_leaves _ _ _ _ _ Hx). intros _ k Hk.
  apply (wp_leaves _ _ _ _ _ IH). intros _ k' Hk'. split; [|done].
  exists (k' ++ k). rewrite length_app, <-app_assoc. split; [lia | done].
Qed.
End Wp.

(** Closes the statement about what is left. *)
Ltac fd_left := split; [first [exists []; by split | eexists [_]; by split] | done].

(** Runs a computation up to a call that a lemma is about. *)
Ltac fd_step :=
  match goal with
  | |- wp _ _ (mbind _ _) _ _ _ => apply wp_bind
  | |- wp _ _ (mret _) _ _ _ => apply wp_ret
  | |- wp _ _ (d_open true) _ _ _ => apply wp_open; intros ? ? ?
  | |- wp _ _ (d_open false) _ _ _ => apply wp_open_false
  | |- wp _ _ (d_close ?fd) _ (?fd :: ?l) _ => apply (wp_close _ _ _ [])
  | |- wp _ _ (d_close ?fd) _ (?a :: ?fd :: ?l) _ => apply (wp_close _ _ _ [a])
  | |- wp _ _ (d_close ?fd) _ (?a :: ?b :: ?fd :: ?l) _ => apply (wp_close _ _ _ [a; b])
  | |- wp _ _ (d_close ?fd) _ (?a :: ?b :: ?c :: ?fd :: ?l) _ => apply (wp_close _ _ _ [a; b; c])
  | |- wp _ _ (d_close ?fd) _ _ _ => apply wp_close_neg; [lia|]
  | |- wp _ _ get_strfile _ _ _ => apply wp_get
  | |- wp _ _ (set_strfile_fds _) _ _ _ => apply wp_set
  | |- wp _ _ (if (_ =? _) then _ else _) _ _ _ => btest; try lia
  | |- wp _ _ (if negb (_ =? _) then _ else _) _ _ _ => btest; try lia
  | |- wp _ _ (if (_ <? _) then _ else _) _ _ _ => btest; try lia
  | |- wp _ _ (if (_ <=? _) then _ else _) _ _ _ => btest; try lia
  | |- wp _ _ (if ?b then _ else _) _ _ _ => is_var b; destruct b
  end; cbn [negb andb app fst snd].

Ltac fd_run := repeat fd_step; try done.

(** ** Lemmas: the functions *)

Section Neutral.
Context `{FdChoice}.
Context (me : nat) (sock : Z).

Abbreviation neutral := (neutral me sock).

Lemma auth_check_request_wp o (Q : bool -> list Z -> Z -> Prop) l sf :
  (forall k, length k = auth_leaks o -> Q (auth_accepts o) (k ++ l) sf) ->
  wp me sock (auth_check_request_fds o) Q l sf.
Proof.
  intros HQ. destruct o as [| | | | |[|]]; cbn in *; repeat fd_step.
  all: try exact (HQ [] eq_refl).
  all: match goal with |- _ _ (?fd :: _) _ => exact (HQ [fd] eq_refl) end.
Qed.

(** A descriptor of the cache, or -1. *)
Lemma cache_get_item_wp o Q l sf :
  (o <> ItemHit -> Q (-1) l sf) -> (o = ItemHit -> forall fd, 0 <= fd -> fd <> sock -> Q fd (fd :: l) sf) ->
  wp me sock (cache_get_item_fd_fds o) Q l sf.
Proof. intros H1 H2. destruct o; cbn; fd_run; [by apply H1..|by apply H2]. Qed.

Lemma cache_get_item_wr_wp opened locked Q l sf :
  Q (-1) l sf -> (forall fd, 0 <= fd -> fd <> sock -> Q fd (fd :: l) sf) ->
  wp me sock (cache_get_item_fd_wr_fds opened locked) Q l sf.
Proof.
  intros H1 H2. unfold cache_get_item_fd_wr_fds. apply wp_bind.
  destruct opened; fd_run; [by apply H2].
Qed.

Lemma cache_store_item_neutral opened locked : neutral (cache_store_item_fds opened locked).
Proof. intros l sf. unfold cache_store_item_fds. apply wp_bind. destruct opened, locked; fd_run. Qed.

Lemma cache_send_item_neutral o : neutral (cache_send_item_fds o).
Proof.
  intros l sf. unfold cache_send_item_fds. apply wp_bind. apply cache_get_item_wp; [intros _; fd_run|].
  intros _ fd Hfd Hs. fd_run.
Qed.

Lemma read_file_neutral o : neutral (read_file_fds o).
Proof. intros l sf. destruct o; cbn; fd_run. Qed.

Lemma file_copy_neutral o : neutral (file_copy_fds o).
Proof. intros l sf. unfold file_copy_fds. destruct o; fd_run. Qed.

Lemma file_neutral o : neutral (file_fds o).
Proof. intros l sf. destruct o; cbn; [apply file_copy_neutral | fd_run]. Qed.

(** A directory, whose entries leave some descriptors open. *)
Lemma directory_leaves n (m : D unit) :
  leaves me sock n m -> leaves me sock n (dp ← d_open true; _ ← m; d_close dp).
Proof.
  intros Hm l sf. do 2 fd_step. apply wp_bind, (wp_leaves _ _ _ _ _ _ _ Hm). intros _ k Hk.
  apply wp_close. split; [by exists k | done].
Qed.

Lemma dir_remove_leaves : forall o, leaves me sock (remove_leaks o) (dir_remove_fds o).
Proof.
  fix IH 1. intros [| | |es]; cbn [remove_leaks dir_remove_fds]; [intros l sf; repeat fd_step; fd_left..|].
  apply directory_leaves, leaves_each. induction es as [|e es IHes]; constructor; [apply IH | apply IHes].
Qed.

Lemma dir_move_copy_leaves : forall o, leaves me sock (tree_leaks o) (dir_move_copy_fds o).
Proof.
  fix IH 1. intros [| | |es]; cbn [tree_leaks dir_move_copy_fds]; [intros l sf; repeat fd_step; fd_left..|].
  apply directory_leaves, leaves_each. induction es as [|[d|c] es IHes]; constructor; try apply IHes;
    [apply IH | apply neutral_leaves, file_neutral].
Qed.

Lemma printprops_neutral opened : neutral (printprops_fds opened).
Proof. intros l sf. unfold printprops_fds. destruct opened; fd_run. Qed.

Lemma copy_move_leaves o : leaves me sock (other_leaks (OtherMove o)) (copy_move_fds o).
Proof.
  destruct o as [|f|[d|]]; cbn [copy_move_fds other_leaks]; [intros l sf; repeat fd_step; fd_left
    | apply neutral_leaves, file_neutral | apply dir_move_copy_leaves | intros l sf; repeat fd_step; fd_left].
Qed.

Lemma propfind_neutral o : propfind_own o = true -> neutral (propfind_fds sock o).
Proof.
  destruct o as [props item opened locked self deep]. unfold propfind_own. cbn [po_props po_item po_deep].
  intros Ho l sf. unfold propfind_fds. cbn [po_props po_item po_opened po_locked po_self po_deep].
  destruct props; cbn [negb orb] in *; [|fd_run].
  assert (forall dest l', (dest = sock /\ l' = l \/ dest <> sock /\ l' = dest :: l) ->
    deep <> Some None -> forall cached, (cached = false -> dest = sock) ->
    wp me sock (_ ← printprops_fds self;
      let end_ := if cached && negb (dest =? sock) then d_close dest else mret tt in
      match deep with
      | None => end_
      | Some None =>
          _ ← d_open false; _ ← (if negb (sock =? dest) then d_close dest else mret tt); d_close sock
      | Some (Some es) => dp ← d_open true; _ ← d_each printprops_fds es; _ ← d_close dp; end_
      end) (fun _ l2 sf' => l2 = l /\ sf' = sf) l' sf) as Hrest.
  { intros dest l' Hd Hdeep cached Hc. apply wp_bind. apply wp_neutral; [apply printprops_neutral|]. intros _. cbv zeta.
    assert (forall l2, l2 = l' -> wp me sock (if cached && negb (dest =? sock) then d_close dest else mret tt)
              (fun _ l2 sf' => l2 = l /\ sf' = sf) l2 sf) as Hend.
    { intros l2 ->. destruct Hd as [[-> ->]|[Hne ->]].
      - rewrite Z.eqb_refl, andb_false_r. fd_run.
      - destruct (Z.eqb_spec dest sock); [done|]. destruct cached; [|by rewrite Hc in Hne]. cbn [andb negb]. fd_run. }
    destruct deep as [[es|]|]; [|done|by apply Hend].
    do 3 fd_step. apply wp_neutral; [apply neutral_each, Forall_true; intros; apply printprops_neutral|].
    intros _. do 2 fd_step. by apply Hend. }
  destruct item; cbn [orb andb] in *.
  - do 2 fd_step. change (negb (-1 =? -1)) with false. cbn iota. do 2 fd_step. change (-1 =? -1) with true.
    apply (Hrest sock l (or_introl (conj eq_refl eq_refl)) ltac:(by destruct deep as [[]|]) false ltac:(done)).
  - apply wp_bind, cache_get_item_wp; [intros _|done]. change (negb (-1 =? -1)) with false. cbn iota.
    apply wp_bind, cache_get_item_wr_wp.
    + change (-1 =? -1) with true.
      apply (Hrest sock l (or_introl (conj eq_refl eq_refl)) ltac:(by destruct deep as [[]|]) true ltac:(done)).
    + intros fd Hfd Hs. destruct (Z.eqb_spec fd (-1)); [lia|].
      apply (Hrest fd (fd :: l) (or_intror (conj Hs eq_refl)) ltac:(by destruct deep as [[]|]) true ltac:(done)).
  - apply wp_bind, cache_get_item_wp; [intros _|done]. change (negb (-1 =? -1)) with false. cbn iota.
    apply wp_bind, cache_get_item_wr_wp.
    + change (-1 =? -1) with true.
      apply (Hrest sock l (or_introl (conj eq_refl eq_refl)) ltac:(by destruct deep as [[]|]) true ltac:(done)).
    + intros fd Hfd Hs. destruct (Z.eqb_spec fd (-1)); [lia|].
      apply (Hrest fd (fd :: l) (or_intror (conj Hs eq_refl)) ltac:(by destruct deep as [[]|]) true ltac:(done)).
  - apply wp_bind, cache_get_item_wp.
    + done.
    + intros _ fd Hfd Hs. fd_run.
Qed.

Lemma exec_page_leaves o : leaves me sock (cgi_leaks o) (exec_page_fds o).
Proof.
  intros l sf. unfold exec_page_fds, cgi_waitfor_child_fds, close_both, d_pipe.
  destruct o as [|[|]|[|]|[|] [|[|]]]; repeat fd_step; fd_left.
Qed.

Lemma write_dir_neutral o : neutral (write_dir_fds o).
Proof.
  intros l sf. unfold write_dir_fds. destruct (lo_etag o); [fd_run|]. apply wp_bind.
  apply wp_neutral; [apply cache_send_item_neutral|]. intros [|]; [fd_run|].
  destruct (lo_memory o), (lo_item o); cbn [negb]; try (by fd_run); apply cache_store_item_neutral.
Qed.

Lemma get_or_post_leaves o : leaves me sock (get_leaks o) (get_or_post_fds o).
Proof.
  destruct o as [|o|o]; cbn [get_leaks get_or_post_fds];
    [intros l sf; repeat fd_step; fd_left | apply neutral_leaves, write_dir_neutral | apply exec_page_leaves].
Qed.

Lemma other_leaves o :
  (if o is OtherPropfind o then propfind_own o = true else True) -> leaves me sock (other_leaks o) (other_fds sock o).
Proof.
  destruct o; cbn [other_fds]; intros Ho; [apply neutral_leaves, read_file_neutral | apply dir_remove_leaves
    | by apply neutral_leaves, propfind_neutral | apply copy_move_leaves | intros l sf; repeat fd_step; fd_left].
Qed.

(** The only field that is left different is [strfile_fd]. *)
Lemma send_page_wp r l sf :
  request_own r = true ->
  wp me sock (send_page_fds sock r) (fun _ l' _ => exists k, length k = request_leaks r /\ l' = k ++ l) l sf.
Proof.
  destruct r as [a b]. unfold request_own, request_leaks, send_page_fds. cbn [ro_auth ro_body]. intros Hown.
  apply wp_bind, auth_check_request_wp. intros k Hk. destruct b as [opened o|o].
  - rewrite Hown. assert (auth_leaks a = 0%nat) as Ha by (by destruct a as [| | | | |[|]]).
    rewrite Ha in *. apply length_zero_iff_nil in Hk as ->. cbn [negb app].
    destruct opened; [|fd_run; by exists []]. repeat fd_step.
    apply (wp_leaves _ _ _ _ _ _ _ (get_or_post_leaves o)). intros _ k' Hk'. repeat fd_step; try lia.
    apply wp_close. eauto.
  - fd_step. destruct (auth_accepts a) eqn:Ea; cbn [negb]; [|fd_run; exists k; split; [lia | done]].
    apply (wp_leaves _ _ _ _ _ _ _ (other_leaves o ltac:(by destruct o))). intros _ k' Hk'. repeat fd_step.
    exists (k' ++ k). rewrite length_app, <-app_assoc. split; [lia | done].
Qed.

Lemma requests_wp rs l sf :
  forallb request_own rs = true ->
  wp me sock (d_each (send_page_fds sock) rs)
    (fun _ l' _ => exists k, length k = sum_list_with request_leaks rs /\ l' = k ++ l) l sf.
Proof.
  revert l sf. induction rs as [|r rs IH]; intros l sf; cbn [d_each forallb sum_list_with].
  { intros _. apply wp_ret. by exists []. }
  intros [Hr Hrs]%andb_true_iff. apply wp_bind. eapply wp_mono; [by apply send_page_wp|].
  intros _ l' sf' (k & Hk & ->). eapply wp_mono; [by apply IH|].
  intros _ l2 _ (k' & Hk' & ->). exists (k' ++ k). rewrite length_app, <-app_assoc. split; [lia | done].
Qed.
End Neutral.

(** ** A sample table *)

(** The lowest free number, as POSIX has it. *)
Definition lowest_free {A} (t : gmap Z A) : Z :=
  default (-1) (list_find (fun fd => t !! fd = None) (seqZ 0 (Z.of_nat (size t) + 1)) ≫= fun p => Some p.2).

Lemma lowest_is_free {A} (t : gmap Z A) : t !! lowest_free t = None /\ 0 <= lowest_free t.
Proof.
  unfold lowest_free. destruct (list_find _ _) as [[i fd]|] eqn:E; cbn.
  - apply list_find_Some in E as (Hi & Hfree & _). split; [done|].
    apply list_elem_of_lookup_2, elem_of_seqZ in Hi. lia.
  - exfalso. apply list_find_None in E. rewrite Forall_forall in E.
    assert (list_to_set (seqZ 0 (Z.of_nat (size t) + 1)) ⊆ (dom t : gset Z)) as Hs.
    { intros fd Hfd. apply elem_of_list_to_set in Hfd. apply elem_of_dom, not_eq_None_Some. by apply E. }
    apply subseteq_size in Hs. rewrite size_list_to_set, size_dom, length_seqZ in Hs; [lia | apply NoDup_seqZ].
Qed.

Lemma lowest_free_least {A} (t : gmap Z A) fd : 0 <= fd < lowest_free t -> is_Some (t !! fd).
Proof.
  intros Hfd. unfold lowest_free in Hfd. destruct (list_find _ _) as [[i n]|] eqn:E; cbn in Hfd; [|lia].
  apply list_find_Some in E as (Hi & _ & Hless). apply lookup_seqZ in Hi as [Hn Hi].
  apply not_eq_None_Some. apply (Hless (Z.to_nat fd)); [|lia]. apply lookup_seqZ. lia.
Qed.

Lemma lowest_free_eq {A} (t : gmap Z A) fd :
  0 <= fd -> t !! fd = None -> (forall i, 0 <= i < fd -> is_Some (t !! i)) -> lowest_free t = fd.
Proof.
  intros H0 Hn Hl. destruct (lowest_is_free t) as [Hf Hp].
  destruct (Z.lt_trichotomy (lowest_free t) fd) as [Hlt|[|Hgt]]; [|done|].
  - destruct (Hl (lowest_free t) ltac:(lia)) as [? E]. by rewrite Hf in E.
  - destruct (lowest_free_least t fd ltac:(lia)) as [? E]. by rewrite Hn in E.
Qed.

Definition posix_fds : FdChoice := {| choose := lowest_free; choose_free := lowest_is_free |}.

(** Thread 1 serves on descriptor 4; thread 2 has descriptor 5. *)
Definition two_threads : fds := mkfds {[0 := 0%nat; 1 := 0%nat; 2 := 0%nat; 3 := 0%nat; 4 := 1%nat; 5 := 2%nat]} (-1) [].

(** The second but last costs a descriptor: the authentication program is down. *)
Definition sample_requests : list request_outcome :=
  [ mkreq AuthOff (BodyGet true (GetScript (CgiChild true (ChildOutput true))));
    mkreq (AuthAnswered true) (BodyOther (OtherMove (MoveDir (Some
      (TreeEntries [inr (Some CopyRead); inl (TreeEntries [inr (Some CopyNoSource)]); inr None])))));
    mkreq (AuthAnswered true) (BodyOther (OtherPropfind
      (mkpropfind true ItemMiss true true true (Some (Some [true; false])))));
    mkreq (AuthAnswered false) (BodyOther OtherNone);
    mkreq AuthNoConnect (BodyOther OtherNone);
    mkreq AuthOff (BodyGet true (GetList (mklistout false ItemMiss true true false))) ].

(** ** Theorems *)

(** C20: whatever a connection asks for, and however each of its requests ends,
    errors and scripts and recursive copies included, its thread closes no
    descriptor of another thread and none twice, but for two outcomes, a GET or
    POST that authentication refuses and a PROPFIND with Depth 1 of what is no
    directory ([request_own]).  After the last request and the closing of the
    client's socket the table of the process is the one from before without
    that socket, and with exactly the descriptors that the outcomes leak: one
    for each time the authentication program does not answer, for each directory
    for whose entries there is no memory, and for each script that prints no
    header ([request_leaks]). *)
Theorem descriptors_kept `{FdChoice} (me : nat) (sock : Z) (rs : list request_outcome) (s : fds) :
  0 <= sock -> s.(table) !! sock = Some me -> forallb request_own rs = true ->
  exists sf leaked,
    (connection_fds sock rs me s).2
    = mkfds (foldr (fun fd t => <[fd := me]> t) (delete sock s.(table)) leaked) sf s.(faults)
    /\ length leaked = sum_list_with request_leaks rs
    /\ NoDup leaked /\ Forall (fun fd => s.(table) !! fd = None /\ 0 <= fd) leaked.
Proof.
  intros Hpos Hs Hrs. assert (holding me s [] s.(strfile_fd_) s) as Hh by (split; by constructor).
  destruct (requests_wp me sock rs [] s.(strfile_fd_) Hrs s s Hs Hh)
    as (x & l' & sf & s' & E & [Ht Hsf Hf Hnd Hfree] & k & Hk & ->).
  rewrite app_nil_r in *. exists sf, k. split; [|done].
  assert (sock ∉ k) as Hsk by (intros Hin; rewrite Forall_forall in Hfree; destruct (Hfree _ Hin); congruence).
  unfold connection_fds, mbind, D_bind. rewrite E. unfold d_close.
  destruct (Z.ltb_spec sock 0); [lia|].
  rewrite Ht, Hf, foldr_lookup, (bool_decide_eq_false_2 (sock ∈ k)), Hs, bool_decide_eq_true_2 by done.
  cbn. by rewrite Hsf, foldr_delete_other.
Qed.

Lemma descriptors_kept_witness :
  exists sf fd, (@connection_fds posix_fds 4 sample_requests 1%nat two_threads).2
    = mkfds (<[fd := 1%nat]> {[0 := 0%nat; 1 := 0%nat; 2 := 0%nat; 3 := 0%nat; 5 := 2%nat]}) sf [].
Proof.
  destruct (@descriptors_kept posix_fds 1 4 sample_requests two_threads) as (sf & leaked & E & Hl & _);
    [lia | vm_compute; reflexivity | vm_compute; reflexivity|].
  destruct leaked as [|fd [|fd2 leaked]]; [discriminate Hl | | discriminate Hl].
  exists sf, fd. rewrite E. cbn [foldr]. f_equal.
Defined.

(** ** Theorems: what the other outcomes do *)

Section Unclean.
Context `{FdChoice}.

Lemma auth_down_run me sock b s :
  (send_page_fds sock (mkreq AuthNoConnect (BodyOther b)) me s).2
  = mkfds (<[choose s.(table) := me]> s.(table)) s.(strfile_fd_) s.(faults).
Proof. done. Qed.

(** While the authentication program does not accept connections, every request
    costs the process one descriptor for good. *)
Theorem auth_down_leaks (me : nat) (sock : Z) (l : list other_outcome) (s : fds) :
  let s' := (d_each (fun b => send_page_fds sock (mkreq AuthNoConnect (BodyOther b))) l me s).2 in
  size s'.(table) = (size s.(table) + length l)%nat.
Proof.
  cbv zeta. revert s. induction l as [|b l IH]; intros s; cbn [d_each length]; [cbn; lia|].
  unfold mbind, D_bind. destruct (send_page_fds sock _ me s) as [u s1] eqn:E.
  rewrite IH. assert (s1 = mkfds (<[choose s.(table) := me]> s.(table)) s.(strfile_fd_) s.(faults)) as ->
    by (rewrite <-(auth_down_run me sock b s), E; done).
  cbn [table]. rewrite map_size_insert_None by apply choose_free. lia.
Qed.

(** So does a script that prints no header. *)
Theorem script_without_headers_leaks (me : nat) (sock : Z) (s : fds) :
  let o := BodyGet true (GetScript (CgiChild false (ChildOutput false))) in
  s.(table) !! sock = Some me ->
  exists fd sf, s.(table) !! fd = None
    /\ (send_page_fds sock (mkreq AuthOff o) me s).2 = mkfds (<[fd := me]> s.(table)) sf s.(faults).
Proof.
  cbv zeta. intros Hs. assert (holding me s [] s.(strfile_fd_) s) as Hh by (split; by constructor).
  assert (wp me sock (send_page_fds sock (mkreq AuthOff (BodyGet true (GetScript (CgiChild false (ChildOutput false))))))
            (fun _ l' _ => exists fd, l' = [fd]) [] s.(strfile_fd_)) as Hwp.
  { unfold send_page_fds, get_or_post_fds, exec_page_fds, cgi_waitfor_child_fds, d_pipe, auth_check_request_fds.
    cbn [ro_auth ro_body]. fd_run. by eexists. }
  destruct (Hwp s s Hs Hh) as (x & l' & sf & s' & E & [Ht Hsf Hf _ Hl] & [fd ->]).
  exists fd, sf. apply Forall_cons in Hl as [[Hfree _] _]. split; [done|].
  rewrite E. cbn in *. destruct s'; cbn in *. by subst.
Qed.
End Unclean.

(** PROPFIND with Depth 1 of a file closes the client's socket, which [instance]
    closes once more.  When another thread opens something in between it gets
    the same number, and loses it. *)
Example propfind_of_file_closes_other :
  let _ := posix_fds in
  let o := mkpropfind true ItemOff false false true (Some None) in
  let s1 := (send_page_fds 4 (mkreq (AuthAnswered true) (BodyOther (OtherPropfind o))) 1%nat two_threads).2 in
  let '(fd, s2) := d_open true 2%nat s1 in
  let s3 := (d_close 4 1%nat s2).2 in
  fd = 4 /\ s3.(table) !! fd = None /\ s3.(faults) = [(4, Some 2%nat)].
Proof. vm_compute. done. Qed.

(** A GET that is refused closes the descriptor that the previous GET of the
    thread has already closed. *)
Example refused_get_closes_other :
  let _ := posix_fds in
  let s1 := (send_page_fds 4 (mkreq (AuthAnswered true) (BodyGet true GetSent)) 1%nat two_threads).2 in
  let '(fd, s2) := d_open true 2%nat s1 in
  let s3 := (send_page_fds 4 (mkreq (AuthAnswered false) (BodyGet true GetSent)) 1%nat s2).2 in
  s3.(table) !! fd = None /\ s3.(faults) = [(fd, Some 2%nat)].
Proof. vm_compute. done. Qed.
