(* ===== verification/ScriptProcess.v ===== *)
(** * The process of a script and the errors around it (cgi.c)

    The first part has the descriptors of the server and of the child that
    becomes a script, with what each of them names: [exec_page] up to [fork],
    and the redirections of [cgi_execute_child].  The second part is the whole
    of [exec_page], over an output whose reads may fail, and with the table of
    the server; where nothing fails it is [Cgi.exec_page]. *)
From S2P Require Export Server Descriptors.

(** ** Definitions: descriptors and what they name *)

(** The ends of a pipe; or anything else. *)
Inductive fobj :=
  | PipeR (p : nat)
  | PipeW (p : nat)
  | Other (n : nat).

Abbreviation ftable := (gmap Z fobj).

Definition STDIN : Z := 0.
Definition STDOUT : Z := 1.
Definition STDERR : Z := 2.

(** A new descriptor is the lowest free number, below the limit of the process. *)
Definition k_new (limit : Z) (o : fobj) (t : ftable) : option (Z * ftable) :=
  let fd := lowest_free t in
  if fd <? limit then Some (fd, <[fd := o]> t) else None.

Definition k_dup (limit fd : Z) (t : ftable) : option (Z * ftable) :=
  o ← t !! fd; k_new limit o t.

Definition k_pipe (limit : Z) (p : nat) (t : ftable) : option (Z * Z * ftable) :=
  '(r, t) ← k_new limit (PipeR p) t;
  '(w, t) ← k_new limit (PipeW p) t;
  Some (r, w, t).

Definition k_close (fd : Z) (t : ftable) : ftable := delete fd t.

Section Process.
(** The limit of descriptors, what [fork] does, HIDE_CGI_ERRORS, whether there
    is data for the script's input, the names of the two pipes. *)
Context (limit : Z) (fork_ok hide post : bool) (ip wp : nat).

(** The child's table as [cgi_execute_child] leaves it, and whether it goes on
    to [execl]. *)
Definition cgi_child_streams (wpipe ipipe : Z * Z) (t : ftable) : ftable * bool :=
  let t := k_close wpipe.1 t in
  let t := k_close STDOUT t in
  match k_dup limit wpipe.2 t with
  | None => (t, false)
  | Some (_, t) =>
      let t := if hide then k_close STDERR t else t in
      if post then
        let t := k_close STDIN t in
        match k_dup limit ipipe.1 t with
        | None => (t, false)
        | Some (_, t) => (t, true)
        end
      else (t, true)
  end.

(** What [fork] leaves: both pairs of ends, the table of the server, and the
    table of the child with whether it executes the script. *)
Record forked := mkforked {
  f_ipipe : Z * Z;
  f_wpipe : Z * Z;
  f_server : ftable;
  f_child : ftable * bool;
}.

Definition close_pair (p : Z * Z) (t : ftable) : ftable := k_close p.2 (k_close p.1 t).

(** [exec_page] up to the calls of [cgi_execute_child] and
    [cgi_waitfor_child]; the table alone when it returns ERR_NOMEM. *)
Definition exec_page_fork (t : ftable) : ftable + forked :=
  match (if post then k_pipe limit ip t else Some (-1, -1, t)) with
  | None => inl t
  | Some (i0, i1, t) =>
      let ipipe := (i0, i1) in
      match k_pipe limit wp t with
      | None => inl (if post then close_pair ipipe t else t)
      | Some (w0, w1, t) =>
          let wpipe := (w0, w1) in
          if negb fork_ok then
            let t := if post then close_pair ipipe t else t in
            inl (k_close w0 (k_close w1 t))
          else inr (mkforked ipipe wpipe t (cgi_child_streams wpipe ipipe t))
      end
  end.
End Process.

(** ** Definitions: reading the output *)

(** What the reads of a pipe find: pieces and failures, and then the end of the
    output, or failures for ever. *)
Inductive pipe_event := Piece (d : bytes) | ReadFails.

Record pipe_src := mksrc { ps_events : list pipe_event; ps_broken : bool }.

(** [read] of at most [n] bytes: its result, what it stored, what is left. *)
Definition read_pipe (n : nat) (p : pipe_src) : Z * bytes * pipe_src :=
  match p.(ps_events) with
  | [] => (if p.(ps_broken) then -1 else 0, [], p)
  | ReadFails :: es => (-1, [], mksrc es p.(ps_broken))
  | Piece d :: es =>
      if (length d <=? n)%nat then (Z.of_nat (length d), d, mksrc es p.(ps_broken))
      else (Z.of_nat n, take n d, mksrc (Piece (drop n d) :: es) p.(ps_broken))
  end.

Section ExecPage.
Context {F : Type} `{Posix F}.
Context (conf : weborf_configuration_t).
(** What [write] makes of a count of -1, the largest [size_t]. *)
Context (write_huge : Z).

Fixpoint cgi_copy_events (fuel : nat) (p : pipe_src) : M F unit :=
  match fuel with
  | O => lift None
  | S f =>
      let '(e_reads, d, p) := read_pipe (Z.to_nat MAXSCRIPTOUT + HEADBUF) p in
      n ← (if e_reads <? 0 then mret write_huge else sock_send d);
      if negb (n =? e_reads) then mret tt
      else if e_reads =? 0 then mret tt else cgi_copy_events f p
  end.

(** The result, and the table of the server. *)
Definition cgi_waitfor_child_all (fuel : nat) (post : bool) (f : forked) (p : pipe_src) : M F (Z * ftable) :=
  let t := k_close f.(f_wpipe).2 f.(f_server) in
  if negb (px_malloc (MAXSCRIPTOUT + Z.of_nat HEADBUF)) then
    let t := k_close f.(f_wpipe).1 t in
    mret (ERR_NOMEM, if post then close_pair f.(f_ipipe) t else t)
  else
    let t := if post then close_pair f.(f_ipipe) t else t in
    let '(e_reads, buf, p) := read_pipe (Z.to_nat MAXSCRIPTOUT + HEADBUF - 1) p in
    (* the NUL at [header_buf[e_reads]] *)
    out ← lift (if e_reads <? 0 then None else split_output buf);
    match out with
    | Some (header, content) =>
        let status := cgi_status header in
        _ ← upd (set_keep_alive false);
        _ ← send_http_header status None (Some header) true (-1);
        _ ← (if (length content =? 0)%nat then mret tt else _ ← sock_send content; mret tt);
        _ ← cgi_copy_events fuel p;
        mret (0, k_close f.(f_wpipe).1 t)
    | None => _ ← send_err 500 (bs "Internal server error"); mret (0, t)
    end.

(** [script] is what an executed script writes; a child that does not get
    there exits without output. *)
Definition exec_page_all (fuel : nat) (limit : Z) (fork_ok hide : bool) (ip wp : nat)
    (script : F -> cgi_exec -> pipe_src) (t : ftable)
    (executor : bytes) (post_param : string_t) (real_basedir : bytes) : M F (Z * ftable) :=
  let post := if post_param.(sp_data) is Some _ then true else false in
  match exec_page_fork limit fork_ok hide post ip wp t with
  | inl t => mret (ERR_NOMEM, t)
  | inr f =>
      c ← conn;
      fs ← get_fs;
      stdin ← lift (match post_param.(sp_data) with
                    | None => Some None
                    | Some d => d ← load_n d 0 (Z.to_nat post_param.(sp_len)); Some (Some d)
                    end);
      out ← (if f.(f_child).2 then
               ex ← lift (cgi_execute_child conf c stdin executor real_basedir); mret (script fs ex)
             else mret (mksrc [] false));
      cgi_waitfor_child_all fuel post f out
  end.
End ExecPage.

(** ** Specification *)

(** The three standard streams are open. *)
Definition std_open (t : ftable) : Prop := forall fd, 0 <= fd < 3 -> is_Some (t !! fd).

(** What the numbers of a script name: its standard streams are the pipes,
    the rest is the server's, but for the end it does not use. *)
Definition script_fd (hide post : bool) (ip wp : nat) (r : Z) (t : ftable) (fd : Z) : option fobj :=
  if fd =? 0 then if post then Some (PipeR ip) else t !! 0
  else if fd =? 1 then Some (PipeW wp)
  else if fd =? 2 then if hide then None else t !! 2
  else if fd =? r then None
  else t !! fd.

(** ** Lemmas: descriptors *)

Lemma std_open_insert fd o t : std_open t -> std_open (<[fd := o]> t).
Proof. intros H i Hi. destruct (decide (fd = i)) as [->|]; [rewrite lookup_insert_eq; eauto | rewrite lookup_insert_ne; auto]. Qed.

Lemma k_new_inv limit o t fd t' :
  k_new limit o t = Some (fd, t') ->
  t !! fd = None /\ 0 <= fd < limit /\ t' = <[fd := o]> t.
Proof. unfold k_new. destruct (lowest_is_free t). btest; intros [= <- <-]. auto with lia. Qed.

(** With the streams open the new number is behind them. *)
Lemma free_above t fd : std_open t -> t !! fd = None -> 0 <= fd -> 3 <= fd.
Proof. intros Hs Hf Hp. destruct (Z.le_gt_cases 3 fd) as [|Hl]; [done|]. destruct (Hs fd ltac:(lia)) as [? E]. by rewrite Hf in E. Qed.

Lemma k_pipe_inv limit p t r w t' :
  k_pipe limit p t = Some (r, w, t') ->
  0 <= r < limit /\ 0 <= w < limit /\ r <> w /\ t !! r = None /\ t !! w = None
  /\ t' = <[w := PipeW p]> (<[r := PipeR p]> t).
Proof.
  unfold k_pipe. intros E. destruct (k_new limit (PipeR p) t) as [[r1 t1]|] eqn:E1; [|done].
  cbn [mbind option_bind] in E. destruct (k_new limit (PipeW p) t1) as [[w1 t2]|] eqn:E2; [|done].
  cbn [mbind option_bind] in E. injection E as <- <- <-.
  apply k_new_inv in E1 as (Hr & Hr0 & ->). apply k_new_inv in E2 as (Hw & Hw0 & ->).
  assert (r1 <> w1) as Hne by (intros ->; by rewrite lookup_insert_eq in Hw).
  rewrite lookup_insert_ne in Hw by done. split_and!; done || lia.
Qed.

(** With the streams open both ends are behind them. *)
Lemma k_pipe_above limit p t r w t' :
  std_open t -> k_pipe limit p t = Some (r, w, t') ->
  3 <= r < limit /\ 3 <= w < limit /\ r <> w /\ t !! r = None /\ t !! w = None
  /\ t' = <[w := PipeW p]> (<[r := PipeR p]> t).
Proof.
  intros Hs (Hr & Hw & Hne & Fr & Fw & ->)%k_pipe_inv.
  assert (3 <= r) by (eapply free_above; eauto; lia). assert (3 <= w) by (eapply free_above; eauto; lia).
  split_and!; done || lia.
Qed.

(** [dup] gives a number that was just closed, when the lower ones are open. *)
Lemma k_dup_lowest limit fd n o t :
  0 <= n < limit -> t !! n = None -> (forall i, 0 <= i < n -> is_Some (t !! i)) -> t !! fd = Some o ->
  k_dup limit fd t = Some (n, <[n := o]> t).
Proof.
  intros Hn Hf Hl Ho. unfold k_dup, k_new. rewrite Ho. cbn [mbind option_bind].
  rewrite (lowest_free_eq t n) by (done || lia). by btest; [|lia].
Qed.

(** A pair that was opened and closed again. *)
Lemma pair_closed p r w (t : ftable) :
  t !! r = None -> t !! w = None -> close_pair (r, w) (<[w := PipeW p]> (<[r := PipeR p]> t)) = t.
Proof.
  intros Hr Hw. unfold close_pair, k_close. cbn [fst snd]. apply map_eq. intros i.
  rewrite !lookup_delete, !lookup_insert. repeat case_decide; subst; congruence.
Qed.

Ltac tables :=
  repeat match goal with
  | |- context [delete ?i _ !! ?j] => rewrite (lookup_delete _ i j)
  | |- context [<[?i := _]> _ !! ?j] => rewrite (lookup_insert _ i j)
  end; repeat case_decide; subst; try done; try lia.

Lemma child_streams_run limit hide post ip wp (r w i0 i1 : Z) t :
  std_open t -> 3 <= r < limit -> 3 <= w -> r <> w -> t !! w = Some (PipeW wp) ->
  (post = true -> 3 <= i0 /\ i0 <> r /\ t !! i0 = Some (PipeR ip)) ->
  exists tc, cgi_child_streams limit hide post (r, w) (i0, i1) t = (tc, true)
    /\ forall fd, 0 <= fd -> tc !! fd = script_fd hide post ip wp r t fd.
Proof.
  intros Hs Hr Hw Hrw Ho Hi. unfold cgi_child_streams, k_close, STDIN, STDOUT, STDERR. cbn [fst snd].
  rewrite (k_dup_lowest _ _ 1 (PipeW wp)); [|lia | by tables | |by tables].
  2:{ intros i Hi0. tables. apply Hs. lia. }
  destruct post.
  - destruct (Hi eq_refl) as (H3 & Hne & Hp).
    rewrite (k_dup_lowest _ _ 0 (PipeR ip)); [|lia | by tables | intros; lia|].
    2:{ destruct hide; by tables. }
    eexists. split; [done|]. intros fd Hfd. unfold script_fd. destruct hide; btest; subst; by tables.
  - eexists. split; [done|]. intros fd Hfd. unfold script_fd. destruct hide; btest; subst; by tables.
Qed.

(** What the worker has when it waits: all but the ends it closes first. *)
Definition waiting_table (post : bool) (f : forked) : ftable :=
  let t := k_close f.(f_wpipe).2 f.(f_server) in
  if post then close_pair f.(f_ipipe) t else t.

(** Closes an equality of tables by looking every number up. *)
Ltac same_table :=
  unfold waiting_table, close_pair, k_close; cbn [fst snd f_wpipe f_ipipe f_server]; apply map_eq; intros ?; tables; congruence.

(** The ends of the pipes in the server whose table was [t]. *)
Record fork_ends (post : bool) (wp : nat) (t : ftable) (f : forked) : Prop := {
  fe_reads : t !! f.(f_wpipe).1 = None;
  fe_waiting : waiting_table post f = <[f.(f_wpipe).1 := PipeR wp]> t;
  fe_server : t ⊆ f.(f_server);
}.

(** There are two ways out of [exec_page_fork], and neither error leaves
    anything open. *)
Lemma fork_ends_cases limit fork_ok hide post ip wp t :
  exec_page_fork limit fork_ok hide post ip wp t = inl t
  \/ exists f, exec_page_fork limit fork_ok hide post ip wp t = inr f /\ fork_ends post wp t f.
Proof.
  unfold exec_page_fork. destruct post.
  - destruct (k_pipe limit ip t) as [[[i0 i1] t1]|] eqn:E1; [|by left].
    apply k_pipe_inv in E1 as (Hi0 & Hi1 & Hi & Fi0 & Fi1 & ->).
    destruct (k_pipe limit wp _) as [[[r w] t2]|] eqn:E2; [|left; by rewrite pair_closed].
    apply k_pipe_inv in E2 as (Hr & Hw & Hrw & Fr & Fw & ->).
    rewrite !lookup_insert in Fr, Fw. repeat case_decide; try done.
    destruct fork_ok; cbn [negb]; [right | left; f_equal; same_table].
    eexists. split; [done|]. split; cbn [f_wpipe f_ipipe f_server f_child fst snd]; [done | same_table |].
    repeat apply insert_subseteq_r; try done; tables.
  - destruct (k_pipe limit wp t) as [[[r w] t2]|] eqn:E2; [|by left].
    apply k_pipe_inv in E2 as (Hr & Hw & Hrw & Fr & Fw & ->).
    destruct fork_ok; cbn [negb]; [right | left; f_equal; same_table].
    eexists. split; [done|]. split; cbn [f_wpipe f_ipipe f_server f_child fst snd]; [done | same_table |].
    repeat apply insert_subseteq_r; try done; tables.
Qed.

(** A fork that went well, with the streams open. *)
Record fork_good (hide post : bool) (ip wp : nat) (t : ftable) (f : forked) : Prop := {
  fg_ends : fork_ends post wp t f;
  fg_reads : 3 <= f.(f_wpipe).1;
  fg_stdin : post = true -> 3 <= f.(f_ipipe).2 /\ f.(f_ipipe).2 <> f.(f_wpipe).1 /\ f.(f_server) !! f.(f_ipipe).2 = Some (PipeW ip);
  fg_child : exists tc, f.(f_child) = (tc, true)
    /\ forall fd, 0 <= fd -> tc !! fd = script_fd hide post ip wp f.(f_wpipe).1 f.(f_server) fd;
}.

(** With the streams open the child becomes the script. *)
Lemma fork_cases limit fork_ok hide post ip wp t :
  std_open t ->
  exec_page_fork limit fork_ok hide post ip wp t = inl t
  \/ exists f, exec_page_fork limit fork_ok hide post ip wp t = inr f /\ fork_good hide post ip wp t f.
Proof.
  intros Hs. destruct (fork_ends_cases limit fork_ok hide post ip wp t) as [|(f & E & He)]; [by left|].
  right. exists f. split; [done|]. revert E. unfold exec_page_fork. destruct post.
  - destruct (k_pipe limit ip t) as [[[i0 i1] t1]|] eqn:E1; [|done].
    apply k_pipe_above in E1 as (Hi0 & Hi1 & Hi & Fi0 & Fi1 & ->); [|done].
    assert (std_open (<[i1 := PipeW ip]> (<[i0 := PipeR ip]> t))) as Hs1 by (by do 2 apply std_open_insert).
    destruct (k_pipe limit wp _) as [[[r w] t2]|] eqn:E2; [|done].
    apply k_pipe_above in E2 as (Hr & Hw & Hrw & Fr & Fw & ->); [|done].
    rewrite !lookup_insert in Fr, Fw. repeat case_decide; try done.
    destruct fork_ok; [|done]. intros [= <-].
    split; cbn [f_wpipe f_ipipe f_server f_child fst snd]; [done | lia | |].
    + intros _. split_and!; [lia | done | tables].
    + apply child_streams_run; [by do 2 apply std_open_insert | lia.. | tables|]. intros _. split_and!; [lia | done | tables].
  - destruct (k_pipe limit wp t) as [[[r w] t2]|] eqn:E2; [|done].
    apply k_pipe_above in E2 as (Hr & Hw & Hrw & Fr & Fw & ->); [|done].
    destruct fork_ok; [|done]. intros [= <-].
    split; cbn [f_wpipe f_ipipe f_server f_child fst snd]; [done | lia | done |].
    apply child_streams_run; [by do 2 apply std_open_insert | lia.. | tables | done].
Qed.

(** ** Lemmas: reading *)

Definition pieces (es : list pipe_event) : list bytes :=
  omap (fun e => match e with Piece d => Some d | ReadFails => None end) es.

Definition failures (es : list pipe_event) : nat :=
  length (omap (fun e => match e with ReadFails => Some () | Piece _ => None end) es).

Section Reading.
Context {F : Type} `{Posix F}.
Context (write_huge : Z).
Hypothesis write_refuses : write_huge = -1.
Implicit Types w : world F.

(** A read that fails is tried again: the write of -1 bytes fails as well, and
    the two results are equal. *)
Lemma copy_events_retry fuel es b w :
  cgi_copy_events write_huge (S fuel) (mksrc (ReadFails :: es) b) w = cgi_copy_events write_huge fuel (mksrc es b) w.
Proof. cbn [cgi_copy_events read_pipe ps_events ps_broken]. rewrite write_refuses. reflexivity. Qed.

Lemma copy_events_broken fuel w : cgi_copy_events write_huge fuel (mksrc [] true) w = None.
Proof.
  revert w. induction fuel as [|fuel IH]; intros w; [done|].
  cbn [cgi_copy_events read_pipe ps_events ps_broken]. rewrite write_refuses in IH |- *. exact (IH w).
Qed.

Lemma copy_events_sim fuel2 : forall fuel es w r,
  cgi_copy_loop fuel (pieces es) w = Some r -> (fuel + failures es <= fuel2)%nat ->
  cgi_copy_events write_huge fuel2 (mksrc es false) w = Some r.
Proof.
  set (N := (Z.to_nat MAXSCRIPTOUT + HEADBUF)%nat).
  induction fuel2 as [|f2 IH]; intros fuel es w r E Hf; [by destruct fuel; [|lia]|].
  destruct es as [|[d|] es].
  - destruct fuel as [|f]; [done|]. exact E.
  - destruct fuel as [|f]; [done|]. cbn [pieces omap list_omap pipe_read cgi_copy_loop] in E. fold N in E.
    cbn [cgi_copy_events read_pipe ps_events ps_broken]. fold N.
    assert (forall d' es', (f + failures es' <= f2)%nat ->
      (n ← sock_send d'; if negb (n =? Z.of_nat (length d')) then mret tt
         else if (length d' =? 0)%nat then mret tt else cgi_copy_loop f (pieces es')) w = Some r ->
      (n ← (if Z.of_nat (length d') <? 0 then mret write_huge else sock_send d');
         if negb (n =? Z.of_nat (length d')) then mret tt
         else if Z.of_nat (length d') =? 0 then mret tt else cgi_copy_events write_huge f2 (mksrc es' false)) w = Some r)
      as Hstep.
    { intros d' es' Hf' E'. destruct (Z.ltb_spec (Z.of_nat (length d')) 0); [lia|].
      unfold mbind, M_bind, sock_send in E' |- *. destruct (negb _); [done|].
      destruct (Nat.eqb_spec (length d') 0), (Z.eqb_spec (Z.of_nat (length d')) 0); try lia; [done|]. by eapply IH. }
    destruct (Nat.leb_spec (length d) N) as [Hl|Hl].
    + apply (Hstep d es); [unfold failures in *; cbn [omap list_omap] in *; lia|].
      change (omap _ es) with (pieces es) in E. exact E.
    + assert (Z.of_nat N = Z.of_nat (length (take N d))) as -> by (rewrite length_take; lia).
      apply (Hstep (take N d) (Piece (drop N d) :: es)); [|exact E].
      unfold failures in *; cbn [omap list_omap] in *; lia.
  - rewrite copy_events_retry. eapply IH; [exact E|]. unfold failures in *. cbn [omap list_omap length] in *. lia.
Qed.
End Reading.

(** What the server may be left with: all its descriptors as before, but for
    the end of the output, which stays open when the output had no header and
    the answer is the error 500. *)
Definition table_after {F} (wp : nat) (t t' : ftable) (w' : world F) : Prop :=
  t' = t \/ w'.(w_conn).(status_code) = 500 /\ exists r, t !! r = None /\ t' = <[r := PipeR wp]> t.

(** The output begins with something that can be read, and it has an end. *)
Definition first_read_works (p : pipe_src) : Prop :=
  p.(ps_broken) = false /\ (if p.(ps_events) is ReadFails :: _ then False else True).

(** The order in which an error closes them does not matter. *)
Lemma closed_last post wp t f :
  fork_ends post wp t f ->
  (let t' := k_close f.(f_wpipe).1 (k_close f.(f_wpipe).2 f.(f_server)) in
   if post then close_pair f.(f_ipipe) t' else t') = t.
Proof.
  intros [Hr Hw _]. apply map_eq. intros i. apply (f_equal (lookup i)) in Hw. revert Hw.
  unfold waiting_table, close_pair, k_close. cbv zeta. destruct post; rewrite ?lookup_delete, ?lookup_insert;
    repeat case_decide; subst; congruence.
Qed.

Lemma send_err_status {F} `{Posix F} code descr (w : world F) x w' :
  send_err code descr w = Some (x, w') -> w'.(w_conn).(status_code) = code.
Proof.
  unfold send_err, mbind at 1, M_bind at 1, upd at 1. cbv zeta. intros E. by rewrite (send_two_conn _ _ _ _ _ E).
Qed.

Section Refinement.
Context {F : Type} `{Posix F}.
Context (conf : weborf_configuration_t) (write_huge : Z).
Hypothesis write_refuses : write_huge = -1.
Implicit Types w : world F.

Lemma first_read_run n p :
  first_read_works p ->
  exists es, (pipe_read n (pieces p.(ps_events))).2 = pieces es
    /\ let buf := (pipe_read n (pieces p.(ps_events))).1 in
       read_pipe n p = (Z.of_nat (length buf), buf, mksrc es false).
Proof.
  destruct p as [[|[d|] es] b]; intros [Hb Hf]; cbn [ps_events ps_broken] in *; subst b; [by exists [] | | done].
  cbn [pieces omap list_omap pipe_read]. unfold read_pipe. cbn [ps_events ps_broken].
  destruct (Nat.leb_spec (length d) n); cbn [fst snd]; [by exists es|].
  exists (Piece (drop n d) :: es). split; [done|]. rewrite length_take. by replace (n `min` length d)%nat with n by lia.
Qed.

(** Where no read fails at first, the worker answers as if none failed. *)
Lemma cgi_waitfor_child_sim post wp t f p w z w' :
  fork_ends post wp t f -> first_read_works p ->
  cgi_waitfor_child (pieces p.(ps_events)) w = Some (z, w') ->
  exists fuel0, forall fuel, (fuel0 <= fuel)%nat ->
  exists t', cgi_waitfor_child_all write_huge fuel post f p w = Some ((z, t'), w') /\ table_after wp t t' w'.
Proof.
  intros Hg Hp. pose proof Hg as [Hr Hw _]. unfold cgi_waitfor_child, cgi_waitfor_child_all. fold (waiting_table post f).
  destruct (negb _).
  - intros [= <- <-]. exists 0%nat. intros fuel _. eexists. split; [done|]. left. by apply (closed_last _ _ _ _ Hg).
  - destruct (first_read_run (Z.to_nat MAXSCRIPTOUT + HEADBUF - 1) p Hp) as (es & Hps & ->).
    destruct (pipe_read _ _) as [buf ps]. cbn [fst snd] in *. subst ps.
    destruct (Z.ltb_spec (Z.of_nat (length buf)) 0); [lia|].
    intros (out & Eo & E)%lift_bind_inv. destruct out as [[header content]|].
    + apply bind_inv in E as (u1 & w1 & E1 & E). apply bind_inv in E as (u2 & w2 & E2 & E).
      apply bind_inv in E as (u3 & w3 & E3 & E). apply bind_inv in E as (u4 & w4 & E4 & E).
      injection E as <- <-. exists (S (pipe_size (pieces es)) + failures es)%nat. intros fuel Hfuel. exists t. split; [|by left].
      rewrite (lift_bind_Some _ _ _ _ Eo). cbn beta iota zeta. rewrite (bind_run _ _ _ _ _ E1), (bind_run _ _ _ _ _ E2), (bind_run _ _ _ _ _ E3).
      rewrite (bind_run _ _ _ _ _ (copy_events_sim _ write_refuses _ _ _ _ _ E4 Hfuel)).
      rewrite Hw. unfold k_close. by rewrite delete_insert_id.
    + apply bind_inv in E as (u1 & w1 & E1 & E). injection E as <- <-. exists 0%nat. intros fuel _.
      exists (waiting_table post f). split; [|right; split; [by eapply send_err_status | eauto]].
      rewrite (lift_bind_Some _ _ _ _ Eo). cbn beta iota zeta. by rewrite (bind_run _ _ _ _ _ E1).
Qed.
End Refinement.

(** ** Theorems *)

(** C18: whatever numbers the server's files and pipes have, as long as its own
    standard streams are open: either [exec_page] returns an error and every
    descriptor is as before, or the child goes on to the script, no [dup] ever
    failing, and the script's numbers name exactly these: its output pipe is 1,
    0 is the pipe with the body of the request, when there is one, 2 is closed
    when errors are hidden, and every other number that is not the reading end
    of its own output names what it names in the server. *)
Theorem script_streams limit fork_ok hide post ip wp t :
  std_open t ->
  match exec_page_fork limit fork_ok hide post ip wp t with
  | inl t' => t' = t
  | inr f =>
      t ⊆ f.(f_server)
      /\ exists tc, f.(f_child) = (tc, true)
         /\ forall fd, 0 <= fd -> tc !! fd = script_fd hide post ip wp f.(f_wpipe).1 f.(f_server) fd
  end.
Proof.
  intros Hs. destruct (fork_cases limit fork_ok hide post ip wp t Hs) as [->|(f & -> & Hg)]; [done|].
  split; [apply (fg_ends _ _ _ _ _ _ Hg) | apply (fg_child _ _ _ _ _ _ Hg)].
Qed.


(** ** Theorems: what a script inherits *)

(** No descriptor is marked for closing at [execl]: the script holds every
    socket of the server, that of the listener and those of other clients, and
    the pipes of other scripts.  A connection which its worker has closed is
    open until the script ends; and when the script was started between the
    [pipe] and the [close] of another worker, that worker reads on until this
    script, too, has ended. *)
Theorem script_keeps_connections limit fork_ok hide post ip wp t f fd o :
  std_open t -> exec_page_fork limit fork_ok hide post ip wp t = inr f -> 3 <= fd -> t !! fd = Some o ->
  k_close fd f.(f_server) !! fd = None /\ exists tc, f.(f_child) = (tc, true) /\ tc !! fd = Some o.
Proof.
  intros Hs E Hfd Ho. split; [by apply lookup_delete_eq|].
  destruct (fork_cases limit fork_ok hide post ip wp t Hs) as [E'|(f' & E' & Hg)]; rewrite E in E'; [done|].
  injection E' as <-. destruct (fg_child _ _ _ _ _ _ Hg) as (tc & -> & Ht). exists tc. split; [done|].
  rewrite Ht by lia. unfold script_fd. pose proof (fe_reads _ _ _ _ (fg_ends _ _ _ _ _ _ Hg)) as Hr. btest; try lia; subst; [congruence|].
  eapply lookup_weaken; [exact Ho | apply (fg_ends _ _ _ _ _ _ Hg)].
Qed.

(** The script has the writing end of the pipe its standard input reads, so
    that it never reads the end of a body. *)
Theorem script_holds_own_stdin limit fork_ok hide ip wp t f :
  std_open t -> exec_page_fork limit fork_ok hide true ip wp t = inr f ->
  exists tc, f.(f_child) = (tc, true) /\ tc !! 0 = Some (PipeR ip) /\ tc !! f.(f_ipipe).2 = Some (PipeW ip).
Proof.
  intros Hs E. destruct (fork_cases limit fork_ok hide true ip wp t Hs) as [E'|(f' & E' & Hg)]; rewrite E in E'; [done|].
  injection E' as <-. destruct (fg_child _ _ _ _ _ _ Hg) as (tc & -> & Ht). exists tc. split; [done|].
  destruct (fg_stdin _ _ _ _ _ _ Hg eq_refl) as (Hi & Hne & Ho).
  rewrite !Ht by lia. split; [done|]. unfold script_fd. btest; try lia; done.
Qed.

(** With errors hidden the first file a script opens gets the number of the
    standard error, and holds what the script writes there. *)
Theorem hidden_errors_number limit fork_ok post ip wp t f :
  std_open t -> exec_page_fork limit fork_ok true post ip wp t = inr f ->
  exists tc, f.(f_child) = (tc, true) /\ lowest_free tc = STDERR.
Proof.
  intros Hs E. destruct (fork_cases limit fork_ok true post ip wp t Hs) as [E'|(f' & E' & Hg)]; rewrite E in E'; [done|].
  injection E' as <-. destruct (fg_child _ _ _ _ _ _ Hg) as (tc & -> & Ht). exists tc. split; [done|].
  apply lowest_free_eq; [done | by rewrite Ht|]. unfold STDERR. intros i Hi. rewrite Ht by lia. unfold script_fd.
  btest; try lia; eauto. destruct post; [eauto|].
  destruct (Hs 0 ltac:(lia)) as [o Ho]. exists o. eapply lookup_weaken; [exact Ho | apply (fg_ends _ _ _ _ _ _ Hg)].
Qed.

(** A server that was started without standard input and output: the output
    pipe gets the numbers 0 and 1, the child closes its end itself, [dup]
    fails, and every script is answered with the error 500. *)
Definition closed_streams : ftable := {[2 := Other 0%nat; 3 := Other 1%nat; 4 := Other 2%nat]}.

Example closed_streams_no_script :
  match exec_page_fork 1024 true true false 0 1 closed_streams with
  | inr f => f.(f_wpipe) = (0, 1) /\ f.(f_child).2 = false
  | inl _ => False
  end.
Proof. by vm_compute. Qed.

(** ** Theorems: failures *)

Section Failures.
Context {F : Type} `{Posix F}.
Context (write_huge : Z).
Implicit Types w : world F.

(** A child that does not reach the script, or a script that prints nothing. *)
Theorem no_output_error fuel post f w :
  mem_ok ->
  cgi_waitfor_child_all write_huge fuel post f (mksrc [] false) w
  = (_ ← send_err 500 (bs "Internal server error"); mret (0, waiting_table post f)) w.
Proof.
  intros Hm. unfold cgi_waitfor_child_all. rewrite Hm. cbn [negb]. unfold read_pipe. cbn [ps_events ps_broken].
  assert (split_output [] = Some None) as E by reflexivity. by rewrite (lift_bind_Some _ _ _ _ E).
Qed.

(** When the first read fails the NUL is stored before the buffer. *)
Theorem first_read_underflows fuel post f es b w :
  mem_ok -> cgi_waitfor_child_all write_huge fuel post f (mksrc (ReadFails :: es) b) w = None.
Proof. intros Hm. unfold cgi_waitfor_child_all. by rewrite Hm. Qed.

(** When later reads fail for ever the loop never ends: the -1 of the read is
    the -1 of the write that follows. *)
Theorem broken_output_endless fuel es w :
  write_huge = -1 -> client_reads -> Forall (fun e => e <> Piece []) es ->
  cgi_copy_events write_huge fuel (mksrc es true) w = None.
Proof.
  intros Hwr Hc. revert es w. induction fuel as [|fuel IH]; intros es w He; [done|].
  destruct He as [|[d|] es Hd He].
  - by apply copy_events_broken.
  - cbn [cgi_copy_events]. unfold read_pipe. cbn [ps_events ps_broken].
    set (N := (_ + HEADBUF)%nat). assert (0 < N)%nat as HN by (subst N; unfold HEADBUF; lia).
    destruct (Nat.leb_spec (length d) N).
    + destruct (Z.ltb_spec (Z.of_nat (length d)) 0); [lia|].
      rewrite (bind_run _ _ _ _ _ (sock_send_all _ _ Hc)), Z.eqb_refl. cbn [negb].
      destruct (Z.eqb_spec (Z.of_nat (length d)) 0); [by destruct d|]. by apply IH.
    + destruct (Z.ltb_spec (Z.of_nat N) 0); [lia|]. rewrite (bind_run _ _ _ _ _ (sock_send_all _ _ Hc)).
      rewrite length_take. replace (N `min` length d)%nat with N by lia. rewrite Z.eqb_refl. cbn [negb].
      destruct (Z.eqb_spec (Z.of_nat N) 0); [lia|]. apply IH. constructor; [|done].
      intros [= E]. apply (f_equal length) in E. rewrite length_drop in E. cbn [length] in E. lia.
  - by rewrite copy_events_retry; [apply IH|].
Qed.
End Failures.

(** ** Witnesses *)

(** The listener is 3, the client 4. *)
Definition sample_table : ftable :=
  {[0 := Other 0%nat; 1 := Other 0%nat; 2 := Other 0%nat; 3 := Other 1%nat; 4 := Other 2%nat]}.

Lemma sample_table_std : std_open sample_table.
Proof. intros fd Hfd. assert (fd = 0 \/ fd = 1 \/ fd = 2) as [-> | [-> | ->]] by lia; vm_compute; eauto. Qed.

Lemma script_streams_witness :
  match exec_page_fork 1024 true true true 7 8 sample_table with
  | inl _ => False
  | inr f =>
      sample_table ⊆ f.(f_server)
      /\ exists tc, f.(f_child) = (tc, true)
         /\ forall fd, 0 <= fd -> tc !! fd = script_fd true true 7 8 f.(f_wpipe).1 f.(f_server) fd
  end.
Proof.
  pose proof (script_streams 1024 true true true 7 8 sample_table sample_table_std) as Hs.
  destruct (exec_page_fork 1024 true true true 7 8 sample_table) as [t'|f] eqn:E; [|exact Hs].
  exfalso. revert E. vm_compute. discriminate.
Defined.

(** The output of the sample with a read that is interrupted. *)
Definition sample_source : pipe_src :=
  mksrc [Piece (bs "Status: 404" ++ CRLF ++ CRLF ++ bs "no "); ReadFails; Piece (bs "page")] false.

